(* ===== verification/_CoqProject ===== *)
-Q . S2P
Prelude.v
Types.v
OrderState.v
Decimal.v
DecimalFacts.v
DecimalText.v
Clock.v
Json.v
Risk.v
RiskFacts.v
Latency.v
EventLog.v
OmsTypes.v
Oms.v
OmsReconcile.v
OmsReplay.v
OmsAudit.v
OmsFacts.v
OmsSections.v
OmsSystem.v
OmsThread.v
OmsDurable.v
OmsProgram.v
OmsThreads.v
OmsExposure.v
OmsBehaviour.v
Retry.v
Resolve.v
VenueAccount.v
Config.v
OkxWire.v
OkxClient.v
OkxResilient.v
OkxConnector.v
OkxAccount.v
FeedSupport.v
FeedShutdown.v
OkxFeed.v
OkxFeedSystem.v
BinanceWire.v
BinanceConfig.v
BinanceResilient.v
BinanceConnector.v
BinanceAccount.v
BinanceCalls.v
BinanceFeed.v
BinanceWait.v
BinanceCallSystem.v
BinanceFeedSystem.v
BinanceSession.v
FeedLifecycle.v
FeedHandlers.v
RestSupport.v
RestOrders.v
RestFacts.v
RestVenue.v
AuditTimer.v
Gateway.v
GatewaySystem.v
GatewayFeeds.v
GatewayThreads.v
ExactlyOnce.v
GatewayOnce.v
GatewayShutdown.v
ApiSchema.v
