(* ===== verification/Prelude.v ===== *)
(** * Verification of the rest_exchange_gateway order gateway

    The program is a gateway between REST clients and crypto exchanges: a client
    places, cancels, amends and queries orders under its own clientOrderId, the
    order management system keeps the one registry of orders, and one connector
    per venue talks to the exchange.  The development models the order
    management core completely, both venues (OKX over REST and an orders feed,
    Binance over one WebSocket), the REST layer and the process that puts them
    together, and proves what makes them correct.  Everything executable in the source is executable
    here, so that the witnesses and examples evaluate it.

    ** Parts and files

    - Prelude: [Result]/[Error] (include/gateway/result.hpp), strings and
      characters, 64-bit and 128-bit ranges, the decimal text of integers, the
      tactics [str_cases], [boolify] and the hint databases.
    - Types: the venue-agnostic vocabulary and the abstract class
      [ExchangeConnector] (include/gateway/exchange_connector.hpp).
    - OrderState: the lifecycle table (src/core/order_state.hpp).
    - Decimal, DecimalFacts, DecimalText: exact decimals (src/core/decimal.cpp);
      [v16] is the abstract value the theorems speak about.
    - Clock: the time stamps (src/core/clock.cpp), with the calendar of
      [gmtime_r] written out.
    - Json: the JSON values of nlohmann::json that the source tests for and the
      members it calls; parsing and printing of text are parameters.
    - Risk, RiskFacts: pre-trade limits (src/core/risk.cpp) against the
      specification [within_limits].
    - Latency: the optional latency log (src/core/latency.cpp).
    - EventLog: the append-only log and its replay from bytes
      (src/core/event_log.cpp).
    - OmsTypes, Oms, OmsReconcile, OmsReplay, OmsAudit: the order management
      system (src/core/oms.cpp).  [Oms] holds the mutable members; the registry
      and the buffers of raced reports are finite maps.  Every public operation
      is its critical sections ([place_begin], [place_finish], ...) and their
      composition around a venue call ([place], ...).
    - OmsFacts, OmsSections: one lemma per helper and per critical section.
    - OmsSystem: the concurrent system, a step relation whose steps are the
      critical sections, with the list of venue calls that are open; reachable
      states and invariants.
    - OmsThread: the operations that one thread executes from end to end are
      runs of that system.
    - OmsDurable: crashes and restarts; the log refines the registry.
    - OmsProgram, OmsThreads: what one thread executes for each operation as a
      tree of sections, venue calls and waits, and pools of such threads, which
      are interleaved step by step and may crash; they refine OmsSystem.
    - OmsExposure: the projected position and the position limit.
    - OmsBehaviour: functional theorems on single operations.
    - Retry: the retry policy and driver (src/core/retry.hpp, retry.cpp), with
      doubles as [spec_float].
    - Resolve: what the resilient calls of both venues share: logged calls, the
      monitor of re-sends, the rule for the attempt loop.
    - VenueAccount, OkxAccount, BinanceAccount: the account of the places a venue
      has accepted, and what a connector promises of it to the core
      ([PlacesOnce]), discharged by both connectors.
    - Config: src/core/config.cpp.
    - OkxWire, OkxClient, OkxResilient, OkxConnector: the OKX venue
      (src/exchange/okx).  [OkxTradeClient] is the interface the resilient calls
      are written against; [OkxConnector] implements [ExchangeConnector].
    - FeedSupport, OkxFeed: the reconnect supervisor and the private orders feed
      (src/exchange/ws_feed_support.hpp, okx_ws_client.cpp).
    - FeedShutdown: the states of a socket, runs of named steps, and the class
      [Draining] of systems that come to an end once stopped.
    - OkxFeedSystem, BinanceFeedSystem: the threads of each feed (supervisor,
      pinger or notifier, the caller of start and stop) over one socket; both
      are instances of [Draining].
    - BinanceWire, BinanceConfig, BinanceResilient, BinanceConnector: the Binance
      venue (src/exchange/binance): parameters, answers and symbol translation,
      configuration and signer, resolve-then-retry over the interface
      [BinanceTradeApi], and its instance of [ExchangeConnector].
    - BinanceCalls, BinanceFeed, BinanceCallSystem: binance_ws_client.cpp: calls
      and their pending table, the session thread, and the concurrent system of
      any number of callers and the session thread.
    - BinanceWait: the wait of one call, with its mutex, its condition variable
      and its deadline.
    - BinanceSession: those calls and the life of their session, run together.
    - FeedLifecycle: start, stop, supervisor and event delivery of both feeds;
      the notifier's queue of Binance; the handlers of a connector.
    - FeedHandlers: the handlers of the feeds and how a connector wires them.
    - RestSupport, RestOrders, RestFacts, RestVenue: the REST handlers
      (src/rest).
    - Gateway: src/apps/gateway_main.cpp and the consistency route: from the
      configuration to a serving process, its handlers and its audit pass.
    - AuditTimer: the loop of the audit scheduler.
    - GatewaySystem: the events of a serving process, its relation to
      [OmsSystem.run], and its restart.
    - GatewayFeeds: the handlers main installs, driven by a connector's life.
    - GatewayThreads: two lives of the process, with the threads of OmsThreads.
    - ExactlyOnce, GatewayOnce: histories of threads over venues that keep the
      account of VenueAccount; the started gateway with both connectors.
    - GatewayShutdown: main after the HTTP server has returned: the stops, the
      destruction of its scope, and the threads that are still alive meanwhile.
    - ApiSchema: the types of the answers as src/doc/api.md documents them, and
      of the two routes that it does not have.

    ** How the parts interact

    A REST handler validates a body and calls an operation of the order manager.
    The operation runs a first critical section (deduplication, risk, the log),
    calls the connector without the lock, and applies the answer in a second
    one; reports the feed delivers in between are buffered per clientOrderId and
    applied after the answer.  Reconciliation and audit compare the registry
    with the venue.  A restart replays the log.

    ** What is shown

    - Safety of the whole system: a place leaves the order manager at most once
      per clientOrderId, in one life and across restarts, and however many
      requests the connector sends for it, no venue accepts the order twice and
      what it accepts is in the registry; one mutating venue call
      per order; forward-only lifecycle, growing fills; gapless leg tables; the
      position limit holds when an order is sent, as long as the sums fit the
      decimals.
    - Refinement: the log, replayed, is the registry up to the facts it keeps;
      the serving process, from the replay on, is a run of the concurrent order
      manager; a process that died comes back with every order.
    - Threads: any interleaving of any number of threads running the operations
      is a run of the concurrent order manager; they never conflict, and each
      place is sent once.
    - Shutdown: the stop of either feed returns within a bounded number of steps
      and waits, which its close of the client cuts short, and leaves nothing
      behind; main gets to the end of its scope, and
      no thread is left when the order manager is destroyed.
    - Arbitration of racing, duplicated and superseded reports; replay of
      repeated requests; what reconciliation repairs and rejects.
    - Exactness, rounding, range and text round trips of the decimals; the risk
      check as a comparison of values.
    - The retry driver's bounds; resolve-then-retry: every request and lookup is
      for the order at hand, no blind re-send, success only on the venue's word; the meaning of the error code "transport".
    - The feeds' reports come from an authenticated session; what the core hears
      of a venue is well bracketed over starts and stops, and a report meets a
      reconciled registry; the notifier loses no event; the threads touch only a
      live connection; the watchdog fires in time; backoff restarts.
    - Binance calls: every concurrent call gets its own answer; a call waits no
      longer than its answer or its deadline (and a thread's delay) takes; no call
      waits for a session that is gone; a request rejected for clock skew is signed anew once; symbols translate
      back and forth.
    - Startup picks a default venue that has a connector; GET /consistency serves
      the last audit pass; audit passes are paced; time stamps denote their
      instant.
    - Types: every answer of the REST interface has the documented shape, and
      where the document lacks a route or a field, the one given here.
    - REST: what validation lets through, refusals without effect, successes
      that show the registry.

    ** Bounds and fuel

    Loops are structural or run on a measure that is enough: [normalized_loop]
    on the scale, [show_digits] on the binary length, [retry_loop] on the number
    of attempts, [replay_loop] on the length of the file, [find_year] on the
    days (a year has at least 365), the notifier on [pump_fuel], a stopped feed
    on the [rank] of its supervisor (at most 20 for OKX, 15 for Binance) and the
    waits it may still sit through.
    [exposure_bound] is the gross exposure within which the position sums cannot
    overflow.

    ** Environment

    The network, JSON text, the keyed hash, time, randomness and the file system
    are parameters (an environment type [W] threaded through the calls, or a
    fault oracle for log writes).  Laws assumed of them are section hypotheses:
    that printed JSON is an object's text without newline and parses back
    (EventLog, GatewaySystem); that a venue accepts a request at most once,
    answers lookups for what it has accepted, and accepts nothing while the
    gateway waits (VenueAccount, GatewayOnce).

    ** Not modelled

    The inside of sockets, TLS and HTTP (Crow, httplib): the feeds see a socket
    as fresh, open or closed, a request sees what its exchange returned.  The
    write lock of the WebSocket, [real_retry_clock], the duration of
    [interruptible_sleep], the smoke test program (src/apps/smoke.cpp), tests,
    tools and the UI.  Startup runs its first reconciliation before the feeds
    deliver; their interleaving is covered by [OmsSystem].  The calls a handler
    makes from a feed's thread are one step of that thread. *)

From Stdlib Require Export ZArith Lia Ascii String.
From stdpp Require Export base gmap strings list fin_maps sorting.

#[global] Open Scope string_scope.
#[global] Open Scope list_scope.
#[global] Open Scope Z_scope.

(** ** Errors and results (include/gateway/result.hpp) *)

(** [Error]: a stable machine-readable code and a human-readable detail. *)
Record Error : Type := mkError { code : string; message : string }.

(** [Result<T>]: the variant of a value and an error; [is_ok] is the tag test. *)
Inductive Result (T : Type) : Type :=
  | Ok (value : T)
  | Err (error : Error).
Arguments Ok {T} value.
Arguments Err {T} error.

#[global] Instance Error_eq_dec : EqDecision Error.
Proof. solve_decision. Defined.

#[global] Instance Result_eq_dec `{EqDecision T} : EqDecision (Result T).
Proof. solve_decision. Defined.

Definition is_ok {T} (r : Result T) : bool :=
  match r with Ok _ => true | Err _ => false end.

Definition value_or {T} (r : Result T) (d : T) : T :=
  match r with Ok v => v | Err _ => d end.

Definition map_ok {A B} (f : A -> B) (r : Result A) : Result B :=
  match r with Ok v => Ok (f v) | Err e => Err e end.

(** Early return of the error of a failed call, as every
    [if (!x.is_ok()) return x.error();] of the source. *)
Declare Scope gateway_scope.
Delimit Scope gateway_scope with gw.
#[global] Open Scope gateway_scope.

Notation "'let!' x := e 'in' k" :=
  (match e with Ok x => k | Err err_ => Err err_ end)
  (at level 200, x pattern, e at level 150, k at level 200, right associativity)
  : gateway_scope.

(** Equality of [std::string]s, as a boolean. *)
Notation "s ==s t" := (String.eqb s t) (at level 70, no associativity) : gateway_scope.
Notation "s <>s t" := (negb (String.eqb s t)) (at level 70, no associativity) : gateway_scope.

(** [std::string::empty]. *)
Definition str_empty (s : string) : bool :=
  match s with EmptyString => true | String _ _ => false end.

Lemma streqb_spec s t : reflect (s = t) (s ==s t).
Proof. apply String.eqb_spec. Qed.

Lemma streqb_refl s : (s ==s s) = true.
Proof. apply String.eqb_refl. Qed.

Lemma streqb_true s t : (s ==s t) = true <-> s = t.
Proof. apply String.eqb_eq. Qed.

Lemma streqb_false s t : (s ==s t) = false <-> s ≠ t.
Proof. apply String.eqb_neq. Qed.

Lemma str_empty_true s : str_empty s = true <-> s = EmptyString.
Proof. destruct s; naive_solver. Qed.

Lemma str_empty_false s : str_empty s = false <-> s ≠ EmptyString.
Proof. destruct s; naive_solver. Qed.

(** [std::vector::empty]. *)
Definition is_nil {A} (l : list A) : bool := match l with [] => true | _ :: _ => false end.

Lemma is_nil_true {A} (l : list A) : is_nil l = true <-> l = [].
Proof. destruct l; naive_solver. Qed.

(** [!std::optional::has_value]. *)
Definition is_none {A} (o : option A) : bool := match o with None => true | Some _ => false end.

(** ** Characters and ASCII case *)

Definition byte_of (c : ascii) : N := N_of_ascii c.

Definition ch_between (lo hi c : ascii) : bool :=
  ((byte_of lo <=? byte_of c) && (byte_of c <=? byte_of hi))%N.

Definition is_digit (c : ascii) : bool := ch_between "0" "9" c.

(** [std::tolower]/[std::toupper] in the C locale: only the 26 letters move. *)
Definition to_lower_char (c : ascii) : ascii :=
  if ch_between "A" "Z" c then ascii_of_N (byte_of c + 32) else c.

Definition to_upper_char (c : ascii) : ascii :=
  if ch_between "a" "z" c then ascii_of_N (byte_of c - 32) else c.

Fixpoint str_map (f : ascii -> ascii) (s : string) : string :=
  match s with
  | EmptyString => EmptyString
  | String c rest => String (f c) (str_map f rest)
  end.

Fixpoint str_forallb (f : ascii -> bool) (s : string) : bool :=
  match s with
  | EmptyString => true
  | String c rest => f c && str_forallb f rest
  end.

(** [std::string_view::front] and [back] of a non-empty view. *)
Definition str_front (s : string) : option ascii :=
  match s with EmptyString => None | String c _ => Some c end.

Fixpoint str_back (s : string) : option ascii :=
  match s with
  | EmptyString => None
  | String c EmptyString => Some c
  | String _ rest => str_back rest
  end.

Definition front_is (c : ascii) (s : string) : bool :=
  match str_front s with Some x => Ascii.eqb x c | None => false end.

Definition back_is (c : ascii) (s : string) : bool :=
  match str_back s with Some x => Ascii.eqb x c | None => false end.

(** The double quote, which a string literal cannot spell. *)
Definition dquote : string := String (ascii_of_nat 34) EmptyString.
Definition newline : ascii := ascii_of_nat 10.

(** ", " separated concatenation, the loop the source repeats to name lists. *)
Definition comma_join (names : list string) : string :=
  fold_left (fun acc n => (if str_empty acc then acc else acc +:+ ", ") +:+ n) names "".

Lemma str_app_cons c (a b : string) : String c a +:+ b = String c (a +:+ b).
Proof. reflexivity. Qed.

Lemma str_app_nil_l (b : string) : "" +:+ b = b.
Proof. reflexivity. Qed.

Lemma str_app_assoc (a b c : string) : (a +:+ b) +:+ c = a +:+ (b +:+ c).
Proof. induction a; rewrite ?str_app_nil_l, ?str_app_cons; congruence. Qed.

Lemma str_app_nil_r (a : string) : a +:+ "" = a.
Proof. induction a; rewrite ?str_app_nil_l, ?str_app_cons; congruence. Qed.

Lemma str_length_app (a b : string) :
  String.length (a +:+ b) = (String.length a + String.length b)%nat.
Proof. induction a; rewrite ?str_app_nil_l, ?str_app_cons; simpl; congruence. Qed.

(** Prefix and suffix of a string ([substr]). *)
Fixpoint str_take (n : nat) (s : string) : string :=
  match n, s with
  | S n', String c rest => String c (str_take n' rest)
  | _, _ => EmptyString
  end.

Fixpoint str_drop (n : nat) (s : string) : string :=
  match n, s with
  | S n', String _ rest => str_drop n' rest
  | _, _ => s
  end.

Lemma str_take_drop n s : str_take n s +:+ str_drop n s = s.
Proof.
  revert s. induction n as [|n IH]; intros s; [done|].
  destruct s as [|c s]; [done|]. cbn [str_take str_drop]. rewrite str_app_cons. by rewrite IH.
Qed.

Lemma str_take_length n s : (n <= String.length s)%nat -> String.length (str_take n s) = n.
Proof.
  revert s. induction n as [|n IH]; intros [|c s]; simpl; auto; [lia|].
  intros. rewrite IH; lia.
Qed.

(** ** Machine integers

    [long long] is a [Z] in [int64]; [__int128] is a [Z] in [int128].  Every
    operation that can leave its range says so where it is defined. *)

Definition kLlMax : Z := 9223372036854775807.
Definition kLlMin : Z := -9223372036854775808.
Definition int64 (z : Z) : Prop := kLlMin <= z <= kLlMax.
Definition int128 (z : Z) : Prop := - 2 ^ 127 <= z < 2 ^ 127.

(** The conversion [static_cast<long long>] of a wider integer: modulo 2^64. *)
Definition to_ll (z : Z) : Z := (z + 2 ^ 63) mod 2 ^ 64 - 2 ^ 63.

(** The conversion [static_cast<int>] of a 64-bit integer: modulo 2^32. *)
Definition to_int (z : Z) : Z := (z + 2 ^ 31) mod 2 ^ 32 - 2 ^ 31.

Lemma to_ll_small z : int64 z -> to_ll z = z.
Proof. unfold int64, kLlMin, kLlMax, to_ll. intros. rewrite Z.mod_small; lia. Qed.

Lemma to_ll_range z : int64 (to_ll z).
Proof.
  unfold int64, kLlMin, kLlMax, to_ll.
  pose proof (Z.mod_pos_bound (z + 2 ^ 63) (2 ^ 64)). lia.
Qed.

(** ** Decimal text of integers ([std::to_string]) *)

Definition digit_char (d : Z) : ascii := ascii_of_N (48 + Z.to_N d).
Definition digit_value (c : ascii) : Z := Z.of_N (byte_of c) - 48.

(** Most significant digit first; [fuel] bounds the number of digits. *)
Fixpoint show_digits (fuel : nat) (n : Z) (acc : string) : string :=
  match fuel with
  | O => acc
  | S fuel' =>
      let acc' := String (digit_char (n mod 10)) acc in
      if n <? 10 then acc' else show_digits fuel' (n / 10) acc'
  end.

(** [fuel] = number of binary digits, which is at least the number of decimal ones. *)
Definition show_nonneg (n : Z) : string := show_digits (S (Z.to_nat (Z.log2 n))) n "".

Definition std_to_string (z : Z) : string :=
  if z <? 0 then String "-" (show_nonneg (- z)) else show_nonneg z.

(** ** Proof automation *)

Create HintDb gateway discriminated.
#[export] Hint Rewrite streqb_refl str_app_assoc str_app_nil_r : gateway.

(** Case analysis on the boolean tests of the source, with their meaning as
    hypotheses. *)
Ltac str_cases :=
  repeat match goal with
  | |- context [?s ==s ?t] => destruct (streqb_spec s t); try subst; simpl
  | H : context [?s ==s ?t] |- _ => destruct (streqb_spec s t); try subst; simpl in H
  end.

(** Destruct the scrutinee of the outermost match of the goal. *)
Ltac case_step :=
  match goal with
  | |- context [match ?x with _ => _ end] => destruct x eqn:?
  end.

Ltac boolify :=
  repeat match goal with
  | H : (_ && _)%bool = true |- _ => apply andb_prop in H as [? ?]
  | H : (_ <? _) = true |- _ => apply Z.ltb_lt in H
  | H : (_ <? _) = false |- _ => apply Z.ltb_ge in H
  | H : (_ <=? _) = true |- _ => apply Z.leb_le in H
  | H : (_ <=? _) = false |- _ => apply Z.leb_gt in H
  | H : (_ =? _) = true |- _ => apply Z.eqb_eq in H
  | H : (_ =? _) = false |- _ => apply Z.eqb_neq in H
  | H : negb _ = true |- _ => apply negb_true_iff in H
  | H : negb _ = false |- _ => apply negb_false_iff in H
  end.
