(* ===== verification/Types.v ===== *)
(** * The venue-agnostic vocabulary: include/gateway/exchange_connector.hpp

    Sides, order types, lifecycle states, the requests a client of a venue
    sends, what the venue answers, and the text form of the enumerations.
    Every field of every struct is kept; decimal values stay strings, as in the
    source. *)

From S2P Require Import Prelude.

Inductive Side := Buy | Sell.
Inductive OrderType := Limit | Market.
Inductive OrderState := Pending | Live | PartiallyFilled | Filled | Canceled | Rejected.

#[global] Instance Side_eq_dec : EqDecision Side.
Proof. solve_decision. Defined.
#[global] Instance OrderType_eq_dec : EqDecision OrderType.
Proof. solve_decision. Defined.
#[global] Instance OrderState_eq_dec : EqDecision OrderState.
Proof. solve_decision. Defined.

Definition OrderState_eqb (a b : OrderState) : bool :=
  match a, b with
  | Pending, Pending | Live, Live | PartiallyFilled, PartiallyFilled
  | Filled, Filled | Canceled, Canceled | Rejected, Rejected => true
  | _, _ => false
  end.

Lemma OrderState_eqb_spec a b : reflect (a = b) (OrderState_eqb a b).
Proof. destruct a, b; constructor; congruence. Qed.

Record OrderRequest := mkOrderRequest {
  rq_client_order_id : string;
  rq_instrument_id : string;
  rq_side : Side;
  rq_type : OrderType;
  rq_price : string;
  rq_quantity : string;
  rq_time_in_force : string }.

Record CancelRequest := mkCancelRequest {
  cx_client_order_id : string;
  cx_instrument_id : string }.

Record OrderQuery := mkOrderQuery {
  oq_client_order_id : string;
  oq_instrument_id : string }.

Record AmendRequest := mkAmendRequest {
  am_client_order_id : string;
  am_instrument_id : string;
  am_new_price : option string;
  am_new_quantity : option string;
  am_side : option Side;
  am_type : option OrderType;
  am_time_in_force : string }.

Record OrderPlacement := mkOrderPlacement {
  op_client_order_id : string;
  op_exchange_order_id : string }.

Record OrderSnapshot := mkOrderSnapshot {
  os_client_order_id : string;
  os_exchange_order_id : string;
  os_instrument_id : string;
  os_state : OrderState;
  os_side : Side;
  os_type : OrderType;
  os_price : string;
  os_quantity : string;
  os_filled_quantity : string;
  os_average_fill_price : string }.

Record ExecutionReport := mkExecutionReport {
  er_client_order_id : string;
  er_exchange_order_id : string;
  er_state : OrderState;
  er_side : Side;
  er_filled_quantity : string;
  er_average_fill_price : string }.

#[global] Instance OrderPlacement_eq_dec : EqDecision OrderPlacement.
Proof. solve_decision. Defined.
#[global] Instance OrderSnapshot_eq_dec : EqDecision OrderSnapshot.
Proof. solve_decision. Defined.
#[global] Instance ExecutionReport_eq_dec : EqDecision ExecutionReport.
Proof. solve_decision. Defined.

(** The abstract base class [ExchangeConnector]: its synchronous requests, each
    run against an environment of type [W] (network, venue, clock) that it may
    change. *)
Class ExchangeConnector (W : Type) := {
  place_order : OrderRequest -> W -> Result OrderPlacement * W;
  cancel_order : CancelRequest -> W -> Result OrderPlacement * W;
  amend_order : AmendRequest -> W -> Result OrderPlacement * W;
  get_order : OrderQuery -> W -> Result (option OrderSnapshot) * W;
  get_open_orders : W -> Result (list OrderSnapshot) * W;
  get_price : string -> W -> Result string * W
}.

(** ** Text forms *)

Definition to_string (a_state : OrderState) : string :=
  match a_state with
  | Pending => "pending"
  | Live => "live"
  | PartiallyFilled => "partially_filled"
  | Filled => "filled"
  | Canceled => "canceled"
  | Rejected => "rejected"
  end.

Definition side_to_string (a_side : Side) : string :=
  match a_side with Buy => "buy" | Sell => "sell" end.

Definition type_to_string (a_type : OrderType) : string :=
  match a_type with Limit => "limit" | Market => "market" end.

(** The byte loop of [equals_ignore_case]; the length test precedes it. *)
Fixpoint equal_lower (a_lhs a_rhs : string) : bool :=
  match a_lhs, a_rhs with
  | String a l, String b r =>
      if Ascii.eqb (to_lower_char a) (to_lower_char b) then equal_lower l r else false
  | _, _ => true
  end.

Definition equals_ignore_case (a_lhs a_rhs : string) : bool :=
  if negb (String.length a_lhs =? String.length a_rhs)%nat then false
  else equal_lower a_lhs a_rhs.

Definition parse_side (a_text : string) : option Side :=
  if equals_ignore_case a_text "buy" then Some Buy
  else if equals_ignore_case a_text "sell" then Some Sell
  else None.

Definition parse_order_type (a_text : string) : option OrderType :=
  if equals_ignore_case a_text "limit" then Some Limit
  else if equals_ignore_case a_text "market" then Some Market
  else None.

Definition parse_order_state (a_text : string) : option OrderState :=
  if equals_ignore_case a_text "pending" then Some Pending
  else if equals_ignore_case a_text "live" then Some Live
  else if equals_ignore_case a_text "partially_filled" then Some PartiallyFilled
  else if equals_ignore_case a_text "filled" then Some Filled
  else if equals_ignore_case a_text "canceled" then Some Canceled
  else if equals_ignore_case a_text "rejected" then Some Rejected
  else None.

(** ** Lemmas *)

Lemma equals_ignore_case_spec a b :
  equals_ignore_case a b = true <-> str_map to_lower_char a = str_map to_lower_char b.
Proof.
  unfold equals_ignore_case. revert b.
  induction a as [|x a IH]; intros [|y b]; simpl; try (split; congruence).
  specialize (IH b).
  destruct (Nat.eqb_spec (String.length a) (String.length b)) as [Hl|Hl]; simpl in *.
  - destruct (Ascii.eqb_spec (to_lower_char x) (to_lower_char y)) as [->|Hc].
    + rewrite IH. split; [intros ->; done | intros [= H]; done].
    + split; [done | intros [= Hx]; congruence].
  - split; [done|]. intros [= _ H]. apply IH in H. done.
Qed.

Lemma parse_side_to_string s : parse_side (side_to_string s) = Some s.
Proof. destruct s; reflexivity. Qed.

Lemma parse_order_type_to_string t : parse_order_type (type_to_string t) = Some t.
Proof. destruct t; reflexivity. Qed.

Lemma parse_order_state_to_string s : parse_order_state (to_string s) = Some s.
Proof. destruct s; reflexivity. Qed.

#[export] Hint Rewrite parse_side_to_string parse_order_type_to_string
  parse_order_state_to_string : gateway.

(** A comparison with a lower-case word is an equality on the lowered text. *)
Lemma equals_ignore_case_lower a w :
  str_map to_lower_char w = w ->
  equals_ignore_case a w = (str_map to_lower_char a ==s w).
Proof.
  intros Hw. pose proof (equals_ignore_case_spec a w) as H. rewrite Hw in H.
  destruct (streqb_spec (str_map to_lower_char a) w) as [Heq|Hne];
    [by apply H | apply not_true_is_false; naive_solver].
Qed.

(** The text form of a state, read case-insensitively. *)
Theorem parse_order_state_sound text s :
  parse_order_state text = Some s <-> str_map to_lower_char text = to_string s.
Proof.
  unfold parse_order_state. repeat rewrite equals_ignore_case_lower by reflexivity.
  generalize (str_map to_lower_char text) as t. intros t. str_cases;
    destruct s; simpl; split; intros; simplify_eq; congruence.
Qed.
