(* ===== verification/OrderState.v ===== *)
(** * The order state machine: src/core/order_state.hpp

    The table of legal transitions, its lookup and the guarded move.  The
    table is the arbiter of every racing observation of an order, so the facts
    proved here (terminal states have no successor, the lifecycle never moves
    back) are used by all the components above. *)

From S2P Require Import Prelude Types.

Definition kLegalTransitions : list (OrderState * OrderState) :=
  [ (Pending, Pending);
    (Pending, Live);
    (Pending, PartiallyFilled);
    (Pending, Filled);
    (Pending, Rejected);
    (Live, Live);
    (Live, PartiallyFilled);
    (Live, Filled);
    (Live, Canceled);
    (Live, Rejected);
    (PartiallyFilled, PartiallyFilled);
    (PartiallyFilled, Filled);
    (PartiallyFilled, Canceled);
    (PartiallyFilled, Rejected) ].

Definition is_terminal (a_state : OrderState) : bool :=
  OrderState_eqb a_state Filled || OrderState_eqb a_state Canceled
  || OrderState_eqb a_state Rejected.

(** The scan of the table. *)
Fixpoint can_transition_in (table : list (OrderState * OrderState))
    (a_from a_to : OrderState) : bool :=
  match table with
  | [] => false
  | (f, t) :: rest =>
      if OrderState_eqb f a_from && OrderState_eqb t a_to then true
      else can_transition_in rest a_from a_to
  end.

Definition can_transition (a_from a_to : OrderState) : bool :=
  can_transition_in kLegalTransitions a_from a_to.

Inductive TransitionResult := Applied | TransitionRejected.

(** [apply_transition] returns the new value of its reference argument. *)
Definition apply_transition (a_state a_next : OrderState)
    : TransitionResult * OrderState :=
  if negb (can_transition a_state a_next) then (TransitionRejected, a_state)
  else (Applied, a_next).

(** ** The lifecycle order

    [stage] numbers the phases of an order's life; every legal move goes up or
    stays. *)
Definition stage (s : OrderState) : nat :=
  match s with
  | Pending => 0 | Live => 1 | PartiallyFilled => 2
  | Filled | Canceled | Rejected => 3
  end%nat.

(** One legal move, and any number of them. *)
Inductive moves : OrderState -> OrderState -> Prop :=
  | moves_refl s : moves s s
  | moves_step s t u : can_transition s t = true -> moves t u -> moves s u.

Lemma can_transition_in_spec table f t :
  can_transition_in table f t = true <-> In (f, t) table.
Proof.
  induction table as [|[f' t'] table IH]; simpl; [done|].
  destruct (OrderState_eqb_spec f' f), (OrderState_eqb_spec t' t); subst;
    simpl; rewrite ?IH; naive_solver congruence.
Qed.

Lemma can_transition_stage s t :
  can_transition s t = true -> (stage s < stage t)%nat \/ s = t.
Proof. destruct s, t; vm_compute; auto with lia; try discriminate; intros; left; lia. Qed.

Lemma terminal_no_transition s t : is_terminal s = true -> can_transition s t = false.
Proof. destruct s, t; vm_compute; congruence. Qed.

Lemma terminal_can_transition s t : can_transition s t = true -> is_terminal s = false.
Proof. destruct s, t; vm_compute; congruence. Qed.

Lemma moves_trans s t u : moves s t -> moves t u -> moves s u.
Proof. induction 1; eauto using moves. Qed.

Lemma moves_one s t : can_transition s t = true -> moves s t.
Proof. eauto using moves. Qed.

Lemma moves_stage s t : moves s t -> (stage s < stage t)%nat \/ s = t.
Proof.
  induction 1 as [|s t u Hst _ IH]; [by right|].
  apply can_transition_stage in Hst. naive_solver lia.
Qed.

Lemma moves_terminal s t : is_terminal s = true -> moves s t -> t = s.
Proof.
  intros Hs Hm. destruct Hm as [|? ? ? Hst _]; [done|].
  rewrite terminal_no_transition in Hst by done. done.
Qed.

Lemma apply_transition_moves s t : moves s (apply_transition s t).2.
Proof.
  unfold apply_transition. destruct (can_transition s t) eqn:?; simpl; eauto using moves.
Qed.

Lemma apply_transition_terminal s t :
  is_terminal s = true -> apply_transition s t = (TransitionRejected, s).
Proof. intros. unfold apply_transition. by rewrite terminal_no_transition. Qed.

#[export] Hint Resolve moves_refl moves_trans moves_one apply_transition_moves : gateway.

(** The lifecycle has no way back: mutually reachable states are equal, terminal states have no
    successors, Pending is never re-entered, and a Pending order is canceled only through Live
    or PartiallyFilled. *)
Theorem lifecycle_forward s t :
  moves s t ->
  (moves t s -> s = t) /\
  (is_terminal s = true -> t = s) /\
  (s ≠ Pending -> t ≠ Pending) /\
  (s = Pending -> t = Canceled -> exists u, can_transition Pending u = true
      /\ (u = Live \/ u = PartiallyFilled) /\ moves u Canceled).
Proof.
  intros Hm. repeat split.
  - intros Hb. apply moves_stage in Hm, Hb. destruct Hm as [?|]; [|done].
    destruct Hb; [lia|done].
  - intros. by apply moves_terminal.
  - intros Hs ->. apply moves_stage in Hm. destruct Hm; [destruct s; simpl in *; lia|done].
  - intros -> ->. remember Canceled as c eqn:Ec.
    remember Pending as p eqn:Ep. induction Hm as [|s u c Hsu Hm IH]; [congruence|]. subst.
    destruct (is_terminal u) eqn:Hu.
    + apply moves_terminal in Hm; [|done]. subst u. discriminate Hsu.
    + destruct u; try discriminate; [by apply IH | exists Live; auto | exists PartiallyFilled; auto].
Qed.

Lemma lifecycle_forward_witness :
  moves Pending Canceled /\ (moves Canceled Pending -> Pending = Canceled) /\
  (is_terminal Pending = true -> Canceled = Pending) /\
  (Pending <> Pending -> Canceled <> Pending) /\
  (Pending = Pending -> Canceled = Canceled -> exists u, can_transition Pending u = true
      /\ (u = Live \/ u = PartiallyFilled) /\ moves u Canceled).
Proof.
  assert (H : moves Pending Canceled).
  { apply (moves_step Pending Live Canceled); [reflexivity|]. apply moves_one. reflexivity. }
  split; [exact H|]. exact (lifecycle_forward Pending Canceled H).
Defined.

(** [can_transition] is membership in the table. *)
Theorem can_transition_table s t :
  can_transition s t = true <-> In (s, t) kLegalTransitions.
Proof. apply can_transition_in_spec. Qed.
