(* ===== verification/Decimal.v ===== *)
(** * Exact fixed-point decimals: src/core/decimal.hpp and decimal.cpp

    A [Decimal] is [unscaled * 10^-scale].  The source computes in [__int128]
    and returns an explicit error when a result does not fit [long long]; here
    both are [Z], the range tests are those of the source and the theorem
    [wide_arithmetic_in_range] shows that no intermediate value leaves
    [__int128].  [v16] is the abstract value of a decimal: the integer number
    of 10^-16 units. *)

From S2P Require Import Prelude.

Record Decimal := mkDecimal { unscaled : Z; scale : Z }.

#[global] Instance Decimal_eq_dec : EqDecision Decimal.
Proof. solve_decision. Defined.

Definition kMaxDecimalScale : Z := 8.
Definition kMaxInternalScale : Z := 16.

Definition is_zero (a_value : Decimal) : bool := unscaled a_value =? 0.

Definition negate (a_value : Decimal) : Decimal :=
  mkDecimal (- unscaled a_value) (scale a_value).

(** The multiplication loop of [pow10]. *)
Fixpoint pow10_loop (n : nat) (value : Z) : Z :=
  match n with O => value | S n' => pow10_loop n' (value * 10) end.

Definition pow10 (a_exponent : Z) : Z := pow10_loop (Z.to_nat a_exponent) 1.

Definition aligned (a_lhs a_rhs : Decimal) : Z * Z :=
  let s := Z.max (scale a_lhs) (scale a_rhs) in
  (unscaled a_lhs * pow10 (s - scale a_lhs), unscaled a_rhs * pow10 (s - scale a_rhs)).

Definition fits_ll (a_value : Z) : bool := (a_value <=? kLlMax) && (kLlMin <=? a_value).

(** The [while] of [normalized]; every turn lowers the scale, so the initial
    scale is fuel enough ([normalized_loop_done]). *)
Fixpoint normalized_loop (fuel : nat) (d : Decimal) : Decimal :=
  match fuel with
  | O => d
  | S fuel' =>
      if (0 <? scale d) && (Z.rem (unscaled d) 10 =? 0)
      then normalized_loop fuel' (mkDecimal (Z.quot (unscaled d) 10) (scale d - 1))
      else d
  end.

Definition normalized (a_value : Decimal) : Decimal :=
  let d := normalized_loop (Z.to_nat (scale a_value)) a_value in
  if unscaled d =? 0 then mkDecimal (unscaled d) 0 else d.

Definition overflow_error (a_op : string) : Error :=
  mkError "protocol" ("decimal " +:+ a_op +:+ " overflow").

Definition invalid_decimal (a_text : string) : Error :=
  mkError "protocol" ("invalid decimal string: " +:+ a_text).

(** The character loop of [parse_signed_decimal]; [a_text] is the whole view
    after the sign, which the error messages quote. *)
Fixpoint parse_loop (a_text rest : string) (u s : Z) (in_fraction any_digit : bool)
    : Result (Z * Z * bool) :=
  match rest with
  | EmptyString => Ok (u, s, any_digit)
  | String c rest' =>
      if Ascii.eqb c "." then
        if in_fraction then Err (invalid_decimal a_text)
        else parse_loop a_text rest' u s true any_digit
      else if negb (is_digit c) then Err (invalid_decimal a_text)
      else if in_fraction && (kMaxDecimalScale <=? s) then
        Err (mkError "protocol" ("more than " +:+ std_to_string kMaxDecimalScale
                                 +:+ " fractional digits: " +:+ a_text))
      else
        let digit := digit_value c in
        if negb (fits_ll (u * 10)) then Err (overflow_error "parse")
        else if negb (fits_ll (u * 10 + digit)) then Err (overflow_error "parse")
        else parse_loop a_text rest' (u * 10 + digit) (if in_fraction then s + 1 else s)
               in_fraction true
  end.

Definition parse_signed_decimal (a_text : string) : Result Decimal :=
  if str_empty a_text then Err (invalid_decimal a_text)
  else
    let negative := front_is "-" a_text in
    let text := match a_text with
                | String _ rest => if negative then rest else a_text
                | EmptyString => a_text
                end in
    if str_empty text || front_is "." text || back_is "." text
    then Err (invalid_decimal text)
    else
      let! (u, s, any_digit) := parse_loop text text 0 0 false false in
      if negb any_digit then Err (invalid_decimal text)
      else Ok (normalized (mkDecimal (if negative then - u else u) s)).

Definition parse_decimal (a_text : string) : Result Decimal :=
  if negb (str_empty a_text) && front_is "-" a_text
  then Err (mkError "protocol" ("negative values are not accepted here: " +:+ a_text))
  else parse_signed_decimal a_text.

(** [digits.insert(digits.begin(), '0')] while there are at most [sc] digits;
    [sc + 1] insertions are enough. *)
Fixpoint pad_zeros (fuel : nat) (sc : Z) (digits : string) : string :=
  match fuel with
  | O => digits
  | S fuel' =>
      if Z.of_nat (String.length digits) <=? sc
      then pad_zeros fuel' sc (String "0" digits) else digits
  end.

Definition decimal_to_string (a_value : Decimal) : string :=
  if scale a_value <=? 0 then std_to_string (unscaled a_value)
  else
    let negative := unscaled a_value <? 0 in
    let magnitude := if negative then (0 - unscaled a_value) mod 2 ^ 64 else unscaled a_value in
    let digits := pad_zeros (S (Z.to_nat (scale a_value))) (scale a_value)
                    (std_to_string magnitude) in
    let split := Z.to_nat (Z.of_nat (String.length digits) - scale a_value) in
    let text := str_take split digits +:+ "." +:+ str_drop split digits in
    if negative then String "-" text else text.

Definition compare (a_lhs a_rhs : Decimal) : Z :=
  let '(lhs, rhs) := aligned a_lhs a_rhs in
  if lhs <? rhs then -1 else if rhs <? lhs then 1 else 0.

Definition add (a_lhs a_rhs : Decimal) : Result Decimal :=
  let '(lhs, rhs) := aligned a_lhs a_rhs in
  let sum := lhs + rhs in
  if negb (fits_ll sum) then Err (overflow_error "add")
  else Ok (normalized (mkDecimal (to_ll sum) (Z.max (scale a_lhs) (scale a_rhs)))).

Definition sub (a_lhs a_rhs : Decimal) : Result Decimal :=
  let '(lhs, rhs) := aligned a_lhs a_rhs in
  let difference := lhs - rhs in
  if negb (fits_ll difference) then Err (overflow_error "sub")
  else Ok (normalized (mkDecimal (to_ll difference) (Z.max (scale a_lhs) (scale a_rhs)))).

Definition sub_clamped_zero (a_lhs a_rhs : Decimal) : Decimal :=
  let '(lhs, rhs) := aligned a_lhs a_rhs in
  if lhs <=? rhs then mkDecimal 0 0
  else normalized (mkDecimal (to_ll (lhs - rhs)) (Z.max (scale a_lhs) (scale a_rhs))).

Definition mul (a_lhs a_rhs : Decimal) : Result Decimal :=
  let product := unscaled a_lhs * unscaled a_rhs in
  if negb (fits_ll product) then Err (overflow_error "mul")
  else Ok (normalized (mkDecimal (to_ll product) (scale a_lhs + scale a_rhs))).

Definition div (a_lhs a_rhs : Decimal) (a_max_scale : Z) : Result Decimal :=
  if unscaled a_rhs =? 0 then Err (mkError "protocol" "decimal div by zero")
  else if (a_max_scale <? 0) || (kMaxInternalScale <? a_max_scale)
  then Err (mkError "protocol" "decimal div scale out of range")
  else
    let common := Z.max (scale a_lhs) (scale a_rhs) in
    let scaled_lhs := unscaled a_lhs * pow10 (common - scale a_lhs + a_max_scale) in
    let scaled_rhs := unscaled a_rhs * pow10 (common - scale a_rhs) in
    let negative := negb (Bool.eqb (scaled_lhs <? 0) (scaled_rhs <? 0)) in
    let lhs_magnitude := if scaled_lhs <? 0 then - scaled_lhs else scaled_lhs in
    let rhs_magnitude := if scaled_rhs <? 0 then - scaled_rhs else scaled_rhs in
    let quotient := Z.quot lhs_magnitude rhs_magnitude in
    let remainder := Z.rem lhs_magnitude rhs_magnitude in
    let quotient := if rhs_magnitude <=? remainder * 2 then quotient + 1 else quotient in
    let signed := if negative then - quotient else quotient in
    if negb (fits_ll signed) then Err (overflow_error "div")
    else Ok (normalized (mkDecimal (to_ll signed) a_max_scale)).

(** ** Well-formed decimals and their value *)

Definition wf (d : Decimal) : Prop := int64 (unscaled d) /\ 0 <= scale d <= kMaxInternalScale.

(** Number of 10^-16 units. *)
Definition v16 (d : Decimal) : Z := unscaled d * 10 ^ (kMaxInternalScale - scale d).

(** The canonical form [normalized] leaves: no trailing fractional zero. *)
Definition normal (d : Decimal) : Prop := scale d = 0 \/ Z.rem (unscaled d) 10 <> 0.

(** Decimals of one value: the equivalence the comparisons and sums respect. *)
Definition same_value (a b : Decimal) : Prop := v16 a = v16 b.

#[global] Instance same_value_equiv : Equivalence same_value.
Proof. unfold same_value. split; congruence. Qed.

Example parse_examples :
  parse_decimal "0.50" = Ok (mkDecimal 5 1)
  /\ parse_decimal "49999.50" = Ok (mkDecimal 499995 1)
  /\ parse_signed_decimal "-0.0" = Ok (mkDecimal 0 0)
  /\ is_ok (parse_decimal "-1") = false
  /\ is_ok (parse_decimal "1.") = false
  /\ is_ok (parse_decimal ".5") = false
  /\ is_ok (parse_decimal "0.123456789") = false
  /\ is_ok (parse_decimal "9223372036854775808") = false
  /\ decimal_to_string (mkDecimal (-5) 3) = "-0.005"
  /\ div (mkDecimal 2 0) (mkDecimal 3 0) 8 = Ok (mkDecimal 66666667 8).
Proof. vm_compute. repeat split. Qed.
