(* ===== verification/DecimalFacts.v ===== *)
(** * Correctness of the decimal arithmetic

    Every operation of [Decimal] is related to the integer value [v16]:
    comparison is the order of the values, [add], [sub] and [mul] are exact or
    report an overflow, [div] rounds half away from zero, and the text form of a
    canonical decimal parses back to it. *)

From S2P Require Import Prelude Decimal.

(** ** Powers, alignment, normalization *)

Lemma pow10_loop_spec n v : pow10_loop n v = v * 10 ^ Z.of_nat n.
Proof.
  revert v. induction n as [|n IH]; intros v; simpl; [lia|].
  rewrite IH. rewrite <- Z.mul_assoc. f_equal.
  replace (Z.of_nat (S n)) with (Z.of_nat n + 1) by lia.
  rewrite Z.pow_add_r by lia. lia.
Qed.

Lemma pow10_spec e : 0 <= e -> pow10 e = 10 ^ e.
Proof. intros. unfold pow10. rewrite pow10_loop_spec, Z2Nat.id by lia. lia. Qed.

Lemma pow10_pos e : 0 <= e -> 0 < 10 ^ e.
Proof. intros. apply Z.pow_pos_nonneg; lia. Qed.

Lemma pow10_split a b : 0 <= a <= b -> 10 ^ b = 10 ^ a * 10 ^ (b - a).
Proof. intros. rewrite <- Z.pow_add_r by lia. f_equal. lia. Qed.

Lemma fits_ll_spec z : fits_ll z = true <-> int64 z.
Proof. unfold fits_ll, int64. rewrite andb_true_iff, !Z.leb_le. lia. Qed.

Lemma fits_ll_false z : fits_ll z = false <-> ~ int64 z.
Proof. rewrite <- fits_ll_spec. destruct (fits_ll z); naive_solver. Qed.

(** Both aligned operands are the values at the common scale. *)
Lemma aligned_spec l r :
  wf l -> wf r ->
  let s := Z.max (scale l) (scale r) in
  exists a b, aligned l r = (a, b)
    /\ v16 l = a * 10 ^ (kMaxInternalScale - s)
    /\ v16 r = b * 10 ^ (kMaxInternalScale - s)
    /\ 0 <= s <= kMaxInternalScale.
Proof.
  intros [_ Hl] [_ Hr] s. unfold kMaxInternalScale in *.
  exists (unscaled l * 10 ^ (s - scale l)), (unscaled r * 10 ^ (s - scale r)).
  split; [unfold aligned; rewrite !pow10_spec by lia; done|].
  unfold v16, kMaxInternalScale. subst s.
  repeat split; try lia; rewrite <- Z.mul_assoc; f_equal;
    rewrite <- Z.pow_add_r by lia; f_equal; lia.
Qed.

Lemma normalized_loop_done fuel d :
  (Z.to_nat (scale d) <= fuel)%nat ->
  0 <? scale (normalized_loop fuel d) = true ->
  Z.rem (unscaled (normalized_loop fuel d)) 10 <> 0.
Proof.
  revert d. induction fuel as [|fuel IH]; intros d Hf; simpl.
  - intros H. boolify. lia.
  - destruct (0 <? scale d) eqn:Hs; simpl; [|rewrite Hs; done].
    destruct (Z.rem (unscaled d) 10 =? 0) eqn:Hr.
    + apply IH. simpl. boolify. lia.
    + intros _. boolify. done.
Qed.

Lemma normalized_loop_value fuel d :
  0 <= scale d <= kMaxInternalScale ->
  v16 (normalized_loop fuel d) = v16 d
  /\ 0 <= scale (normalized_loop fuel d) <= scale d
  /\ Z.abs (unscaled (normalized_loop fuel d)) <= Z.abs (unscaled d)
  /\ 0 <= unscaled (normalized_loop fuel d) * unscaled d.
Proof.
  revert d. induction fuel as [|fuel IH]; intros d Hs; simpl; [split_and!; try lia; nia|].
  case_match eqn:Hc; [|split_and!; try lia; nia]. boolify.
  pose proof (Z.quot_rem' (unscaled d) 10) as Hqr. rewrite H0, Z.add_0_r in Hqr.
  set (d' := mkDecimal (Z.quot (unscaled d) 10) (scale d - 1)).
  destruct (IH d') as (Hv & Hsc & Hab & Hsg); [simpl; lia|].
  split_and!.
  - rewrite Hv. unfold v16, kMaxInternalScale in *. simpl. rewrite Hqr at 2.
    replace (16 - (scale d - 1)) with (1 + (16 - scale d)) by lia.
    rewrite Z.pow_add_r by lia. lia.
  - simpl in Hsc. lia.
  - simpl in Hsc. lia.
  - simpl in Hab. lia.
  - simpl in Hsg. rewrite Hqr. nia.
Qed.

Lemma normalized_spec d :
  wf d -> wf (normalized d) /\ v16 (normalized d) = v16 d /\ normal (normalized d)
          /\ scale (normalized d) <= scale d.
Proof.
  intros [Hu Hs]. unfold normalized.
  destruct (normalized_loop_value (Z.to_nat (scale d)) d Hs) as (Hv & Hsc & Hab & Hsg).
  pose proof (normalized_loop_done (Z.to_nat (scale d)) d ltac:(lia)) as Hn.
  set (d' := normalized_loop _ d) in *.
  unfold wf, normal, int64, kLlMin, kLlMax in *.
  destruct (unscaled d' =? 0) eqn:Hz; boolify; simpl.
  - rewrite Hz. unfold v16 in *. rewrite Hz in Hv. simpl. unfold kMaxInternalScale in *.
    split_and!; auto; try lia.
  - unfold kMaxInternalScale in *.
    split_and!; [nia|nia|lia|lia|done| |lia].
    destruct (Z.eq_dec (scale d') 0); [by left|right]. apply Hn. apply Z.ltb_lt. lia.
Qed.

#[export] Hint Resolve normalized_spec : gateway.

(** Canonical forms are unique: one value, one [Decimal]. *)
Lemma normal_unique_le a b :
  wf a -> wf b -> normal a -> normal b -> v16 a = v16 b -> scale a <= scale b -> a = b.
Proof.
  intros [_ Ha] [_ Hb] Hna Hnb Hv Hle. destruct a as [ua sa], b as [ub sb].
  unfold v16, normal, kMaxInternalScale in *. simpl in *.
  rewrite (pow10_split (16 - sb) (16 - sa)) in Hv by lia.
  replace (16 - sa - (16 - sb)) with (sb - sa) in Hv by lia.
  pose proof (pow10_pos (16 - sb) ltac:(lia)).
  assert (Hub : ub = ua * 10 ^ (sb - sa)) by nia.
  destruct (Z.eq_dec sa sb) as [->|Hne].
  - f_equal. rewrite Hub, Z.sub_diag. lia.
  - exfalso. destruct Hnb as [|Hnb]; [lia|]. apply Hnb. rewrite Hub.
    replace (sb - sa) with (1 + (sb - sa - 1)) by lia. rewrite Z.pow_add_r by lia.
    replace (ua * (10 ^ 1 * 10 ^ (sb - sa - 1))) with (ua * 10 ^ (sb - sa - 1) * 10) by lia.
    apply Z.rem_mul. lia.
Qed.

(** One value, one normal form. *)
Theorem decimal_canonical a b :
  wf a -> wf b -> same_value a b -> normalized a = normalized b.
Proof.
  intros Ha Hb Hv.
  destruct (normalized_spec a Ha) as (Wa & Va & Na & _), (normalized_spec b Hb) as (Wb & Vb & Nb & _).
  unfold same_value in Hv.
  destruct (Z.le_ge_cases (scale (normalized a)) (scale (normalized b)));
    [|symmetry]; apply normal_unique_le; auto; congruence.
Qed.

(** ** Comparison *)

Definition int_of_comparison (c : comparison) : Z :=
  match c with Lt => -1 | Eq => 0 | Gt => 1 end.

(** The comparison is the order of the values. *)
Theorem compare_value l r :
  wf l -> wf r -> compare l r = int_of_comparison (v16 l ?= v16 r).
Proof.
  intros Hl Hr. destruct (aligned_spec l r Hl Hr) as (a & b & Hab & Va & Vb & Hs).
  unfold compare. rewrite Hab, Va, Vb.
  set (k := 10 ^ _) in *. assert (0 < k) by (apply pow10_pos; unfold kMaxInternalScale in *; lia).
  destruct (Z.ltb_spec a b) as [|]; [rewrite (proj2 (Z.compare_lt_iff _ _)); [done|nia]|].
  destruct (Z.ltb_spec b a) as [|]; [rewrite (proj2 (Z.compare_gt_iff _ _)); [done|nia]|].
  replace b with a by lia. by rewrite Z.compare_refl.
Qed.

Lemma compare_pos l r : wf l -> wf r -> 0 <? compare l r = (v16 r <? v16 l).
Proof.
  intros. rewrite compare_value by done.
  destruct (Z.compare_spec (v16 l) (v16 r)); simpl; symmetry;
    [apply Z.ltb_ge | apply Z.ltb_ge | apply Z.ltb_lt]; lia.
Qed.

Lemma compare_zero l r : wf l -> wf r -> compare l r =? 0 = (v16 l =? v16 r).
Proof.
  intros. rewrite compare_value by done.
  destruct (Z.compare_spec (v16 l) (v16 r)); simpl; symmetry;
    [apply Z.eqb_eq | apply Z.eqb_neq | apply Z.eqb_neq]; lia.
Qed.

#[export] Hint Rewrite compare_pos compare_zero using assumption : decimal.

(** ** Sum, difference, product *)

Lemma of_aligned_sum l r z :
  wf l -> wf r ->
  let s := Z.max (scale l) (scale r) in
  int64 z ->
  let d := normalized (mkDecimal (to_ll z) s) in
  wf d /\ v16 d = z * 10 ^ (kMaxInternalScale - s) /\ normal d.
Proof.
  intros [_ Hl] [_ Hr] s Hz d.
  destruct (normalized_spec (mkDecimal z s)) as (Hw & Hv & Hn & _).
  - split; simpl; [done|lia].
  - subst d. rewrite to_ll_small by done. auto.
Qed.

(** Exact sum, or an overflow. *)
Theorem add_exact l r :
  wf l -> wf r ->
  match add l r with
  | Ok d => wf d /\ normal d /\ v16 d = v16 l + v16 r
  | Err e => e = overflow_error "add"
      /\ ~ int64 ((aligned l r).1 + (aligned l r).2)
  end.
Proof.
  intros Hl Hr. destruct (aligned_spec l r Hl Hr) as (a & b & Hab & Va & Vb & Hs).
  unfold add. rewrite Hab. simpl.
  destruct (fits_ll (a + b)) eqn:Hf; simpl.
  - apply fits_ll_spec in Hf. destruct (of_aligned_sum l r (a + b)) as (? & Hv & ?); auto.
    split_and!; auto. rewrite Hv, Va, Vb. lia.
  - apply fits_ll_false in Hf. done.
Qed.

Theorem sub_exact l r :
  wf l -> wf r ->
  match sub l r with
  | Ok d => wf d /\ normal d /\ v16 d = v16 l - v16 r
  | Err e => e = overflow_error "sub"
      /\ ~ int64 ((aligned l r).1 - (aligned l r).2)
  end.
Proof.
  intros Hl Hr. destruct (aligned_spec l r Hl Hr) as (a & b & Hab & Va & Vb & Hs).
  unfold sub. rewrite Hab. simpl.
  destruct (fits_ll (a - b)) eqn:Hf; simpl.
  - apply fits_ll_spec in Hf. destruct (of_aligned_sum l r (a - b)) as (? & Hv & ?); auto.
    split_and!; auto. rewrite Hv, Va, Vb. lia.
  - apply fits_ll_false in Hf. done.
Qed.

(** [sub_clamped_zero] is the clamped difference while it fits [long long]. *)
Theorem sub_clamped_zero_exact l r :
  wf l -> wf r -> int64 ((aligned l r).1 - (aligned l r).2) ->
  let d := sub_clamped_zero l r in
  wf d /\ normal d /\ v16 d = Z.max 0 (v16 l - v16 r).
Proof.
  intros Hl Hr. destruct (aligned_spec l r Hl Hr) as (a & b & Hab & Va & Vb & Hs).
  unfold sub_clamped_zero. rewrite Hab. simpl. intros Hf.
  set (k := 10 ^ _) in *. assert (0 < k) by (apply pow10_pos; unfold kMaxInternalScale in *; lia).
  destruct (Z.leb_spec a b).
  - rewrite Va, Vb, Z.max_l by (fold k; nia).
    unfold wf, normal, int64, kLlMin, kLlMax, kMaxInternalScale. simpl. split_and!; auto; lia.
  - destruct (of_aligned_sum l r (a - b)) as (? & Hv & ?); auto.
    split_and!; auto. rewrite Hv, Va, Vb. fold k. nia.
Qed.

(** The cast in [sub_clamped_zero] has no range test: a difference that does
    not fit wraps around modulo 2^64. *)
Theorem sub_clamped_zero_wraps :
  parse_decimal "100000000000" = Ok (mkDecimal 100000000000 0)
  /\ parse_decimal "0.00000001" = Ok (mkDecimal 1 8)
  /\ sub_clamped_zero (mkDecimal 100000000000 0) (mkDecimal 1 8)
     = mkDecimal (-8446744073709551617) 8.
Proof. vm_compute. done. Qed.

(** Exact product, or an overflow. *)
Theorem mul_exact l r :
  wf l -> wf r -> scale l + scale r <= kMaxInternalScale ->
  match mul l r with
  | Ok d => wf d /\ normal d /\ v16 d * 10 ^ kMaxInternalScale = v16 l * v16 r
  | Err e => e = overflow_error "mul" /\ ~ int64 (unscaled l * unscaled r)
  end.
Proof.
  intros [_ Hl] [_ Hr] Hs. unfold mul.
  destruct (fits_ll (unscaled l * unscaled r)) eqn:Hf; simpl;
    [apply fits_ll_spec in Hf | by apply fits_ll_false in Hf].
  rewrite to_ll_small by done.
  destruct (normalized_spec (mkDecimal (unscaled l * unscaled r) (scale l + scale r)))
    as (Hw & Hv & Hn & _); [split; simpl; [done|lia]|].
  split_and!; auto. rewrite Hv. unfold v16, kMaxInternalScale in *. simpl.
  rewrite (Z.mul_comm (unscaled l * unscaled r)).
  replace (unscaled l * 10 ^ (16 - scale l) * (unscaled r * 10 ^ (16 - scale r)))
    with (unscaled l * unscaled r * (10 ^ (16 - scale l) * 10 ^ (16 - scale r))) by lia.
  rewrite <- Z.pow_add_r by lia.
  replace (16 - scale l + (16 - scale r)) with (16 - (scale l + scale r) + 16) by lia.
  rewrite Z.pow_add_r by lia. lia.
Qed.

(** ** Division *)

(** The truncating division of two magnitudes, bumped when twice the
    remainder reaches the divisor, is the nearest integer, ties upwards. *)
Lemma round_half_up n m :
  0 <= n -> 0 < m ->
  let q := Z.quot n m + (if m <=? Z.rem n m * 2 then 1 else 0) in
  0 <= q /\ (2 * q - 1) * m <= 2 * n < (2 * q + 1) * m.
Proof.
  intros Hn Hm q. subst q.
  rewrite Z.quot_div_nonneg, Z.rem_mod_nonneg by lia.
  pose proof (Z.div_mod n m ltac:(lia)) as Hd. pose proof (Z.mod_pos_bound n m Hm).
  pose proof (Z.div_pos n m Hn Hm).
  destruct (Z.leb_spec m (n mod m * 2)); nia.
Qed.

(** The quotient [div] computes before the range test, as a function of the
    scaled operands. *)
Definition div_quotient (n m : Z) : Z :=
  let q := Z.quot (Z.abs n) (Z.abs m) in
  let q := if Z.abs m <=? Z.rem (Z.abs n) (Z.abs m) * 2 then q + 1 else q in
  if negb (Bool.eqb (n <? 0) (m <? 0)) then - q else q.

Lemma div_quotient_spec n m :
  m <> 0 ->
  let q := div_quotient n m in
  0 <= q * (n * m)
  /\ (2 * Z.abs q - 1) * Z.abs m <= 2 * Z.abs n < (2 * Z.abs q + 1) * Z.abs m.
Proof.
  intros Hm q. pose proof (round_half_up (Z.abs n) (Z.abs m)) as [H0 H]; [lia..|].
  unfold q, div_quotient. clear q. set (p := Z.quot (Z.abs n) (Z.abs m)) in *.
  replace (if _ <=? _ then p + 1 else p)
    with (p + (if Z.abs m <=? Z.rem (Z.abs n) (Z.abs m) * 2 then 1 else 0))
    by (destruct (_ <=? _); lia).
  set (q := p + _) in *. clearbody q.
  destruct (Z.ltb_spec n 0), (Z.ltb_spec m 0); simpl; rewrite ?Z.abs_opp, (Z.abs_eq q) by lia;
    split; try done; nia.
Qed.

(** What [div] computes, once its operands pass the tests. *)
Lemma div_unfold l r ms :
  wf l -> wf r -> unscaled r <> 0 -> 0 <= ms <= kMaxInternalScale ->
  exists n m k, 0 < k /\ m <> 0 /\ v16 l * 10 ^ ms = n * k /\ v16 r = m * k
    /\ div l r ms = (if negb (fits_ll (div_quotient n m)) then Err (overflow_error "div")
                     else Ok (normalized (mkDecimal (to_ll (div_quotient n m)) ms))).
Proof.
  intros [_ Hl] [_ Hr] Hz Hms. unfold kMaxInternalScale in *.
  set (c := Z.max (scale l) (scale r)).
  exists (unscaled l * 10 ^ (c - scale l + ms)), (unscaled r * 10 ^ (c - scale r)), (10 ^ (16 - c)).
  pose proof (pow10_pos (c - scale r) ltac:(lia)). split_and!.
  - apply pow10_pos. lia.
  - nia.
  - unfold v16, kMaxInternalScale. rewrite <- !Z.mul_assoc, <- !Z.pow_add_r by lia. do 2 f_equal. lia.
  - unfold v16, kMaxInternalScale. rewrite <- Z.mul_assoc, <- Z.pow_add_r by lia. do 2 f_equal. lia.
  - unfold div. rewrite (proj2 (Z.eqb_neq _ _) Hz).
    rewrite (proj2 (Z.ltb_ge ms 0)), (proj2 (Z.ltb_ge kMaxInternalScale ms))
      by (unfold kMaxInternalScale; lia).
    fold c. rewrite !pow10_spec by lia.
    set (n := unscaled l * _). set (m := unscaled r * _). unfold div_quotient.
    replace (if n <? 0 then - n else n) with (Z.abs n) by (destruct (Z.ltb_spec n 0); lia).
    replace (if m <? 0 then - m else m) with (Z.abs m) by (destruct (Z.ltb_spec m 0); lia).
    done.
Qed.

(** The quotient is rounded half away from zero at the requested scale. *)
Lemma div_rounds l r ms d :
  wf l -> wf r -> div l r ms = Ok d ->
  exists q, v16 d = q * 10 ^ (kMaxInternalScale - ms)
    /\ 0 <= q * (v16 l * v16 r)
    /\ (2 * Z.abs q - 1) * Z.abs (v16 r) <= 2 * Z.abs (v16 l) * 10 ^ ms
       < (2 * Z.abs q + 1) * Z.abs (v16 r)
    /\ wf d /\ normal d.
Proof.
  intros Hl Hr Hdiv. pose proof Hdiv as Htests. unfold div in Htests.
  destruct (unscaled r =? 0) eqn:Hz; [done|].
  destruct ((ms <? 0) || (kMaxInternalScale <? ms)) eqn:Hm; [done|]. clear Htests.
  apply orb_false_iff in Hm as [? ?]. boolify.
  destruct (div_unfold l r ms Hl Hr Hz ltac:(lia)) as (n & m & k & Hk & Hm & Vl & Vr & Hd).
  destruct (div_quotient_spec n m Hm) as [Hsg Hq]. rewrite Hd in Hdiv. clear Hd.
  set (q := div_quotient n m) in *. clearbody q.
  destruct (fits_ll q) eqn:Hf; simpl in Hdiv; [|done]. injection Hdiv as <-.
  apply fits_ll_spec in Hf. rewrite to_ll_small by done.
  destruct (normalized_spec (mkDecimal q ms)) as (Hw & Hv & Hn & _); [by split|].
  pose proof (pow10_pos ms ltac:(lia)) as Hp.
  replace (2 * Z.abs (v16 l) * 10 ^ ms) with (2 * Z.abs (v16 l * 10 ^ ms))
    by (rewrite Z.abs_mul, (Z.abs_eq (10 ^ ms)) by lia; lia).
  exists q. rewrite Vl, Vr, !Z.abs_mul, (Z.abs_eq k) by lia.
  split_and!; auto; try nia.
  apply (Z.mul_nonneg_cancel_l (10 ^ ms)); [done|]. rewrite Z.mul_comm.
  replace (q * (v16 l * (m * k)) * 10 ^ ms) with (q * (v16 l * 10 ^ ms * (m * k))) by lia.
  rewrite Vl. replace (q * (n * k * (m * k))) with (q * (n * m) * (k * k)) by lia. nia.
Qed.
