(* ===== verification/DecimalText.v ===== *)
(** * Decimal text and machine range

    The text form of a canonical decimal parses back to the same decimal, what
    the parser accepts is canonical, and no intermediate value of the
    arithmetic leaves [__int128]. *)

From S2P Require Import Prelude Decimal DecimalFacts.

(** ** Strings of digits *)

Fixpoint digits_val (acc : Z) (w : string) : Z :=
  match w with
  | EmptyString => acc
  | String c rest => digits_val (acc * 10 + digit_value c) rest
  end.

Notation all_digits := (str_forallb is_digit).

Lemma is_digit_value c : is_digit c = true -> 0 <= digit_value c <= 9.
Proof.
  unfold is_digit, ch_between, digit_value. rewrite andb_true_iff, !N.leb_le.
  change (byte_of "0") with 48%N. change (byte_of "9") with 57%N. lia.
Qed.

Lemma is_digit_not c x : is_digit c = true -> is_digit x = false -> Ascii.eqb c x = false.
Proof. intros Hc Hx. apply Ascii.eqb_neq. congruence. Qed.

Lemma digit_char_spec d :
  0 <= d <= 9 -> is_digit (digit_char d) = true /\ digit_value (digit_char d) = d.
Proof.
  intros Hd. assert (d = 0 \/ d = 1 \/ d = 2 \/ d = 3 \/ d = 4 \/ d = 5 \/ d = 6 \/ d = 7
                     \/ d = 8 \/ d = 9) as Hc by lia.
  repeat destruct Hc as [-> | Hc]; subst; vm_compute; done.
Qed.

Lemma digits_val_app a b acc : digits_val acc (a +:+ b) = digits_val (digits_val acc a) b.
Proof. revert acc. induction a as [|c a IH]; intros acc; rewrite ?str_app_nil_l, ?str_app_cons; simpl; auto. Qed.

Lemma digits_val_ge w acc : all_digits w = true -> 0 <= acc -> acc <= digits_val acc w.
Proof.
  revert acc. induction w as [|c w IH]; intros acc; simpl; [lia|].
  rewrite andb_true_iff. intros [Hc Hw] Ha. apply is_digit_value in Hc.
  specialize (IH (acc * 10 + digit_value c) Hw). lia.
Qed.

Lemma all_digits_app a b : all_digits (a +:+ b) = all_digits a && all_digits b.
Proof.
  induction a as [|c a IH]; rewrite ?str_app_nil_l, ?str_app_cons; simpl; [done|].
  rewrite IH. apply andb_assoc.
Qed.

Lemma show_digits_spec fuel n acc :
  0 <= n < 10 ^ Z.of_nat fuel -> (0 < fuel)%nat ->
  exists ds, show_digits fuel n acc = ds +:+ acc /\ all_digits ds = true
    /\ digits_val 0 ds = n /\ ds <> EmptyString.
Proof.
  revert n acc. induction fuel as [|fuel IH]; intros n acc Hn Hf; [lia|].
  simpl show_digits. pose proof (Z.mod_pos_bound n 10 ltac:(lia)).
  destruct (digit_char_spec (n mod 10) ltac:(lia)) as [Hd Hv].
  destruct (Z.ltb_spec n 10) as [Hlt|Hge].
  - exists (String (digit_char (n mod 10)) EmptyString). simpl. rewrite Hd, Hv.
    split_and!; try done. rewrite Z.mod_small by lia. lia.
  - rewrite Nat2Z.inj_succ, Z.pow_succ_r in Hn by lia.
    assert (Hq : 0 <= n / 10 < 10 ^ Z.of_nat fuel)
      by (split; [apply Z.div_pos | apply Z.div_lt_upper_bound]; lia).
    assert (0 < fuel)%nat by (destruct fuel; simpl in *; lia).
    destruct (IH (n / 10) (String (digit_char (n mod 10)) acc) Hq) as (ds & -> & Had & Hdv & Hne); [done|].
    exists (ds +:+ String (digit_char (n mod 10)) EmptyString). split_and!.
    + by rewrite str_app_assoc.
    + rewrite all_digits_app, Had. simpl. by rewrite Hd.
    + rewrite digits_val_app, Hdv. simpl. rewrite Hv.
      pose proof (Z.div_mod n 10 ltac:(lia)). lia.
    + destruct ds; done.
Qed.

Lemma show_nonneg_spec n :
  0 <= n ->
  all_digits (show_nonneg n) = true /\ digits_val 0 (show_nonneg n) = n
  /\ show_nonneg n <> EmptyString.
Proof.
  intros Hn. unfold show_nonneg.
  destruct (show_digits_spec (S (Z.to_nat (Z.log2 n))) n EmptyString) as (ds & -> & H); [|lia|].
  - split; [done|]. destruct (Z.eq_dec n 0) as [->|]; [done|].
    destruct (Z.log2_spec n) as [_ Hlt]; [lia|].
    pose proof (Z.log2_nonneg n). rewrite Nat2Z.inj_succ, Z2Nat.id by done.
    eapply Z.lt_le_trans; [exact Hlt|]. apply Z.pow_le_mono_l. lia.
  - by rewrite str_app_nil_r.
Qed.

(** ** The parser on digits *)

Lemma parse_loop_digits T w rest u s inf any :
  all_digits w = true -> 0 <= u -> digits_val u w <= kLlMax ->
  (inf = true -> s + Z.of_nat (String.length w) <= kMaxDecimalScale) ->
  parse_loop T (w +:+ rest) u s inf any
  = parse_loop T rest (digits_val u w)
      (if inf then s + Z.of_nat (String.length w) else s) inf (any || negb (str_empty w)).
Proof.
  revert u s any. induction w as [|c w IH]; intros u s any; rewrite ?str_app_nil_l, ?str_app_cons.
  - simpl. rewrite orb_false_r. intros. destruct inf; [rewrite Z.add_0_r|]; done.
  - simpl parse_loop. simpl. rewrite andb_true_iff. intros [Hc Hw] Hu Hmax Hs.
    rewrite (is_digit_not c ".") by done. rewrite Hc. simpl.
    pose proof (is_digit_value c Hc). pose proof (digits_val_ge w (u * 10 + digit_value c) Hw).
    rewrite (proj2 (fits_ll_spec (u * 10))) by (unfold int64, kLlMin; lia).
    rewrite (proj2 (fits_ll_spec (u * 10 + digit_value c))) by (unfold int64, kLlMin; lia).
    destruct inf; simpl.
    + specialize (Hs eq_refl). rewrite (proj2 (Z.leb_gt _ _)) by lia.
      rewrite IH; auto; try lia. rewrite orb_true_r, orb_true_l. f_equal. lia.
    + rewrite IH; auto; try lia. rewrite orb_true_r, orb_true_l. done.
Qed.

Lemma str_back_app a c b : str_back (a +:+ String c b) = str_back (String c b).
Proof.
  induction a as [|x a IH]; [done|]. rewrite str_app_cons.
  destruct a; [done|]. rewrite str_app_cons in *. exact IH.
Qed.

Lemma back_digit w : all_digits w = true -> w <> EmptyString -> back_is "." w = false.
Proof.
  unfold back_is. induction w as [|c w IH]; [done|].
  change (all_digits (String c w)) with (is_digit c && all_digits w).
  rewrite andb_true_iff. intros [Hc Hw] _. destruct w as [|c' w].
  - simpl. by apply is_digit_not.
  - apply (IH Hw). done.
Qed.

Lemma front_digit w x :
  all_digits w = true -> is_digit x = false -> front_is x w = false.
Proof.
  destruct w as [|c w]; [done|]. simpl. rewrite andb_true_iff. intros [Hc _] Hx.
  by apply is_digit_not.
Qed.

(** The two ways through the sign handling. *)
Definition parse_after_sign (negative : bool) (text : string) : Result Decimal :=
  if str_empty text || front_is "." text || back_is "." text
  then Err (invalid_decimal text)
  else
    let! (u, s, any_digit) := parse_loop text text 0 0 false false in
    if negb any_digit then Err (invalid_decimal text)
    else Ok (normalized (mkDecimal (if negative then - u else u) s)).

Lemma parse_signed_minus t : parse_signed_decimal (String "-" t) = parse_after_sign true t.
Proof. reflexivity. Qed.

Lemma parse_signed_plain t :
  front_is "-" t = false -> parse_signed_decimal t = parse_after_sign false t.
Proof.
  intros Hf. unfold parse_signed_decimal. rewrite Hf.
  destruct t; reflexivity.
Qed.

(** Parsing an unsigned text [w] or [w.f] made of digits. *)
Lemma parse_unsigned w f (dot : bool) (neg : bool) :
  all_digits w = true -> w <> EmptyString ->
  all_digits f = true -> (dot = true <-> f <> EmptyString) ->
  Z.of_nat (String.length f) <= kMaxDecimalScale ->
  digits_val 0 (w +:+ f) <= kLlMax ->
  parse_signed_decimal
    ((if neg then "-" else EmptyString) +:+ w +:+ (if dot then String "." f else EmptyString))
  = Ok (normalized (mkDecimal (if neg then - digits_val 0 (w +:+ f) else digits_val 0 (w +:+ f))
          (Z.of_nat (String.length f)))).
Proof.
  intros Hw Hwn Hf Hdot Hlen Hmax.
  set (body := w +:+ (if dot then String "." f else EmptyString)).
  pose proof (digits_val_ge f (digits_val 0 w) Hf) as Hge.
  pose proof (digits_val_ge w 0 Hw) as Hge0. rewrite digits_val_app in Hmax.
  assert (Hfront : forall x, is_digit x = false -> front_is x body = false).
  { intros x Hx. subst body. destruct w as [|c w]; [done|]. rewrite str_app_cons.
    by apply (front_digit (String c w)). }
  assert (Hback : back_is "." body = false).
  { subst body. unfold back_is. destruct dot.
    - rewrite str_back_app. destruct f as [|c f]; [tauto|]. by apply (back_digit (String c f)).
    - rewrite str_app_nil_r. by apply back_digit. }
  assert (Hloop : parse_loop body body 0 0 false false
                  = Ok (digits_val 0 (w +:+ f), Z.of_nat (String.length f), true)).
  { unfold body at 2. rewrite parse_loop_digits by (done || lia). simpl orb.
    replace (negb (str_empty w)) with true by (destruct w; done).
    rewrite digits_val_app. destruct dot; simpl.
    - rewrite <- (str_app_nil_r f) at 1.
      rewrite parse_loop_digits by (done || lia). simpl. done.
    - destruct f; [done|]. destruct Hdot as [_ Hd]. discriminate Hd; done. }
  assert (Hnil : str_empty body = false) by (subst body; destruct w; done).
  destruct neg.
  - change ("-" +:+ body) with (String "-" body).
    rewrite parse_signed_minus; unfold parse_after_sign; rewrite Hnil, Hfront, Hback by done. simpl. by rewrite Hloop.
  - rewrite str_app_nil_l. rewrite parse_signed_plain by auto. unfold parse_after_sign.
    rewrite Hnil, Hfront, Hback by done.
    simpl. by rewrite Hloop.
Qed.

(** ** Padding and splitting *)

Lemma pad_zeros_spec fuel sc ds :
  all_digits ds = true ->
  all_digits (pad_zeros fuel sc ds) = true
  /\ digits_val 0 (pad_zeros fuel sc ds) = digits_val 0 ds
  /\ (sc < Z.of_nat fuel + Z.of_nat (String.length ds) ->
      sc < Z.of_nat (String.length (pad_zeros fuel sc ds))).
Proof.
  revert ds. induction fuel as [|fuel IH]; intros ds Hd; [simpl; split_and!; auto; lia|].
  cbn [pad_zeros].
  destruct (Z.leb_spec (Z.of_nat (String.length ds)) sc); [|split_and!; auto; lia].
  destruct (IH (String "0" ds)) as (? & Hv & Hl); [done|].
  split_and!; auto. intros. apply Hl. simpl String.length. lia.
Qed.

Lemma normalized_normal d : 0 <= scale d -> normal d -> normalized d = d.
Proof.
  intros Hs Hn. unfold normalized.
  assert (Hl : normalized_loop (Z.to_nat (scale d)) d = d).
  { destruct (Z.to_nat (scale d)) eqn:E; [done|]. simpl.
    destruct Hn as [Hn|Hn]; [lia|].
    rewrite (proj2 (Z.eqb_neq _ _)) by done. by rewrite andb_false_r. }
  rewrite Hl. destruct (Z.eqb_spec (unscaled d) 0) as [Hz|]; [|done].
  destruct d as [u s]. unfold normal in Hn. simpl in *. subst.
  destruct Hn as [->|Hn]; done.
Qed.

Lemma dot_not_empty (f : string) n :
  0 < n -> Z.of_nat (String.length f) = n -> (true = true <-> f <> EmptyString).
Proof. intros Hn Hf. split; [|done]. intros _ ->. simpl in Hf. lia. Qed.

(** The text [decimal_to_string] writes: sign, integer digits, fraction digits. *)
Lemma decimal_to_string_shape d :
  wf d -> scale d <= kMaxDecimalScale ->
  exists w f dot, decimal_to_string d
      = (if unscaled d <? 0 then "-" else EmptyString)
        +:+ w +:+ (if (dot : bool) then String "." f else EmptyString)
    /\ all_digits w = true /\ w <> EmptyString /\ all_digits f = true
    /\ (dot = true <-> f <> EmptyString)
    /\ Z.of_nat (String.length f) = scale d
    /\ digits_val 0 (w +:+ f) = Z.abs (unscaled d).
Proof.
  intros [Hu Hs] Hsc. destruct d as [u s].
  unfold int64, kLlMin, kLlMax, kMaxInternalScale in *. simpl in *.
  destruct (show_nonneg_spec (Z.abs u) ltac:(lia)) as (Hd & Hv & Hne).
  unfold decimal_to_string. simpl. destruct (Z.leb_spec s 0).
  - exists (show_nonneg (Z.abs u)), EmptyString, false.
    rewrite !str_app_nil_r, Hv. split_and!; try done; [|simpl; lia].
    unfold std_to_string. destruct (Z.ltb_spec u 0); [|rewrite str_app_nil_l; f_equal; lia].
    rewrite str_app_cons, str_app_nil_l. do 2 f_equal. lia.
  - set (mag := if u <? 0 then (0 - u) mod 2 ^ 64 else u).
    assert (Hmag : mag = Z.abs u).
    { subst mag. destruct (Z.ltb_spec u 0); [rewrite Z.mod_small by lia|]; lia. }
    assert (Hstd : std_to_string mag = show_nonneg (Z.abs u)).
    { unfold std_to_string. rewrite Hmag, (proj2 (Z.ltb_ge _ _)) by lia. done. }
    rewrite Hstd. destruct (pad_zeros_spec (S (Z.to_nat s)) s _ Hd) as (Hpd & Hpv & Hpl).
    set (D := pad_zeros _ s _) in *. specialize (Hpl ltac:(lia)).
    set (n := Z.to_nat (Z.of_nat (String.length D) - s)).
    pose proof (str_take_drop n D) as Htd. pose proof Hpd as Hall. rewrite <- Htd in Hall.
    rewrite all_digits_app, andb_true_iff in Hall. destruct Hall as [Ht Hf].
    pose proof (str_take_length n D ltac:(lia)) as Htl.
    pose proof (str_length_app (str_take n D) (str_drop n D)) as Hdl. rewrite Htd, Htl in Hdl.
    assert (Hdl' : Z.of_nat (String.length (str_drop n D)) = s) by lia.
    exists (str_take n D), (str_drop n D), true. split_and!; try done.
    + destruct (u <? 0); done.
    + intros E. rewrite E in Htl. simpl in Htl. lia.
    + eapply dot_not_empty; [|exact Hdl']; lia.
    + by rewrite Htd, Hpv, Hv.
Qed.

(** Parsing what was printed. *)
Lemma decimal_to_string_parses d :
  wf d -> normal d -> scale d <= kMaxDecimalScale -> unscaled d <> kLlMin ->
  parse_signed_decimal (decimal_to_string d) = Ok d.
Proof.
  intros Hw Hn Hsc Hmin.
  destruct (decimal_to_string_shape d Hw Hsc) as (w & f & dot & -> & Hwd & Hwn & Hf & Hdot & Hl & Hv).
  destruct Hw as [Hu Hs]. unfold int64, kLlMin, kLlMax in *.
  rewrite parse_unsigned by (done || (rewrite ?Hl, ?Hv; unfold kLlMax; lia)).
  rewrite Hv, Hl. f_equal.
  replace (if _ <? 0 then _ else _) with (unscaled d) by (destruct (Z.ltb_spec (unscaled d) 0); lia).
  destruct d. apply normalized_normal; [simpl in *; lia | done].
Qed.

(** ** What the parser accepts is well formed *)

Lemma parse_loop_wf T rest u s inf any u' s' any' :
  int64 u -> 0 <= u -> 0 <= s <= kMaxDecimalScale ->
  parse_loop T rest u s inf any = Ok (u', s', any') ->
  int64 u' /\ 0 <= u' /\ 0 <= s' <= kMaxDecimalScale.
Proof.
  revert u s inf any. induction rest as [|c rest IH]; intros u s inf any Hu Hu0 Hs; simpl.
  - intros [= <- <- <-]. auto.
  - destruct (Ascii.eqb c "."); [destruct inf; [done|]; by apply IH|].
    destruct (is_digit c) eqn:Hc; simpl; [|done].
    destruct (inf && _) eqn:Hi; [done|].
    destruct (fits_ll (u * 10)); simpl; [|done].
    destruct (fits_ll (u * 10 + digit_value c)) eqn:Hf; simpl; [|done].
    apply fits_ll_spec in Hf. apply is_digit_value in Hc.
    apply IH; [done|lia|]. destruct inf; simpl in Hi; boolify; lia.
Qed.

Lemma parse_signed_wf t d :
  parse_signed_decimal t = Ok d ->
  wf d /\ normal d /\ scale d <= kMaxDecimalScale /\ unscaled d <> kLlMin
  /\ (front_is "-" t = false -> 0 <= unscaled d).
Proof.
  assert (Hgen : forall neg text, parse_after_sign neg text = Ok d ->
            wf d /\ normal d /\ scale d <= kMaxDecimalScale /\ unscaled d <> kLlMin
            /\ (neg = false -> 0 <= unscaled d)).
  { intros neg text. unfold parse_after_sign. case_match; [done|].
    destruct (parse_loop _ _ _ _ _ _) as [[[u s] any]|] eqn:Hp; [|done].
    destruct any; simpl; [|done]. intros [= <-].
    apply parse_loop_wf in Hp as (Hu & Hu0 & Hs);
      [|unfold int64, kLlMin, kLlMax, kMaxDecimalScale; lia..].
    assert (Hw : wf (mkDecimal (if neg then - u else u) s)).
    { split; simpl; unfold int64, kLlMin, kLlMax, kMaxDecimalScale, kMaxInternalScale in *;
        [destruct neg|]; lia. }
    destruct (normalized_spec _ Hw) as (Hw' & Hv & Hn & Hsc). simpl in Hsc.
    set (d := normalized _) in *. clearbody d.
    unfold v16, wf, int64, kLlMin, kLlMax, kMaxDecimalScale, kMaxInternalScale in *. simpl in *.
    pose proof (pow10_pos (16 - scale d) ltac:(lia)).
    pose proof (pow10_pos (16 - s) ltac:(lia)).
    pose proof (Z.pow_le_mono_r 10 (16 - s) (16 - scale d) ltac:(lia) ltac:(lia)).
    split_and!; auto; try lia; [|intros ->]; intros; try nia. destruct neg; nia. }
  destruct (front_is "-" t) eqn:Hf.
  - destruct t as [|c t]; [done|]. unfold front_is in Hf. simpl in Hf.
    apply Ascii.eqb_eq in Hf as ->. rewrite parse_signed_minus. intros H.
    apply Hgen in H. naive_solver.
  - rewrite parse_signed_plain by done. intros H. apply Hgen in H. naive_solver.
Qed.

Lemma parse_decimal_wf t d :
  parse_decimal t = Ok d ->
  wf d /\ normal d /\ 0 <= unscaled d /\ scale d <= kMaxDecimalScale.
Proof.
  unfold parse_decimal. destruct (str_empty t) eqn:He; simpl.
  - apply str_empty_true in He as ->. done.
  - destruct (front_is "-" t) eqn:Hf; [done|]. intros H.
    apply parse_signed_wf in H. naive_solver.
Qed.

#[export] Hint Resolve parse_decimal_wf : gateway.

(** Two texts that parse to the same value parse to the same decimal. *)
Lemma parse_decimal_value_inj a b da db :
  parse_decimal a = Ok da -> parse_decimal b = Ok db -> v16 da = v16 db -> da = db.
Proof.
  intros Ha Hb Hv. apply parse_decimal_wf in Ha as (Wa & Na & _), Hb as (Wb & Nb & _).
  rewrite <- (normalized_normal da), <- (normalized_normal db) by (destruct Wa, Wb; done || lia).
  by apply decimal_canonical.
Qed.

(** ** Range of the wide arithmetic *)

(** The wide arithmetic never leaves 128 bits: aligned operands, their sum, difference and
    product fit, and so do the scaled numerator and twice the scaled divisor of a division for
    operands and a cut of at most eight fractional digits. *)
Theorem wide_arithmetic_in_range l r ms :
  wf l -> wf r ->
  int128 (aligned l r).1 /\ int128 (aligned l r).2
  /\ int128 ((aligned l r).1 + (aligned l r).2) /\ int128 ((aligned l r).1 - (aligned l r).2)
  /\ int128 (unscaled l * unscaled r)
  /\ (scale l <= kMaxDecimalScale -> scale r <= kMaxDecimalScale ->
      0 <= ms <= kMaxDecimalScale ->
      let common := Z.max (scale l) (scale r) in
      int128 (unscaled l * pow10 (common - scale l + ms))
      /\ int128 (2 * (unscaled r * pow10 (common - scale r)))).
Proof.
  intros [Hl Hls] [Hr Hrs]. unfold aligned. simpl.
  unfold int64, kLlMin, kLlMax, kMaxInternalScale, kMaxDecimalScale in *.
  assert (Hpow : forall u e, -9223372036854775808 <= u <= 9223372036854775807 ->
            0 <= e <= 16 -> - 2 ^ 118 < u * pow10 e < 2 ^ 118).
  { intros u e Hu He. rewrite pow10_spec by lia.
    pose proof (pow10_pos e ltac:(lia)). pose proof (Z.pow_le_mono_r 10 e 16 ltac:(lia) ltac:(lia)).
    assert (10 ^ 16 = 10000000000000000) by reflexivity.
    assert (2 ^ 118 = 332306998946228968225951765070086144) by reflexivity. nia. }
  set (s := Z.max (scale l) (scale r)).
  pose proof (Hpow (unscaled l) (s - scale l) Hl ltac:(lia)).
  pose proof (Hpow (unscaled r) (s - scale r) Hr ltac:(lia)).
  unfold int128. assert (2 ^ 127 = 512 * 2 ^ 118) by reflexivity. assert (0 < 2 ^ 118) by lia.
  split_and!; try lia.
  - assert (2 ^ 127 = 170141183460469231731687303715884105728) by reflexivity. nia.
  - assert (2 ^ 127 = 170141183460469231731687303715884105728) by reflexivity. nia.
  - intros ? ? ?. pose proof (Hpow (unscaled l) (s - scale l + ms) Hl ltac:(lia)).
    split; lia.
Qed.

(** The bound the division relies on is about its callers, not about the scales
    [Decimal] allows: at scale 16 the scaled numerator leaves [__int128]. *)
Theorem div_wide_overflow_possible :
  exists l r, wf l /\ wf r /\ 0 <= kMaxInternalScale <= kMaxInternalScale
    /\ ~ int128 (unscaled l * pow10 (Z.max (scale l) (scale r) - scale l + kMaxInternalScale)).
Proof.
  exists (mkDecimal 1000000000 0), (mkDecimal 1 16).
  unfold wf, int64, int128, kLlMin, kLlMax, kMaxInternalScale. simpl. split_and!; try lia.
  vm_compute. intros [_ H]. discriminate H.
Qed.

(** C40: Printing a parsed decimal and parsing it again gives the same decimal, and two parsed
    decimals print alike exactly when their values are equal. *)
Theorem decimal_roundtrip t1 d1 t2 d2 :
  parse_signed_decimal t1 = Ok d1 -> parse_signed_decimal t2 = Ok d2 ->
  parse_signed_decimal (decimal_to_string d1) = Ok d1
  /\ (decimal_to_string d1 = decimal_to_string d2 <-> v16 d1 = v16 d2).
Proof.
  intros H1 H2. apply parse_signed_wf in H1 as (W1 & N1 & S1 & M1 & _).
  apply parse_signed_wf in H2 as (W2 & N2 & S2 & M2 & _).
  pose proof (decimal_to_string_parses d1 W1 N1 S1 M1) as P1.
  pose proof (decimal_to_string_parses d2 W2 N2 S2 M2) as P2.
  split; [done|]. split; [intros He; rewrite He in P1; congruence|].
  intros Hv. f_equal. destruct (Z.le_ge_cases (scale d1) (scale d2));
    [|symmetry]; apply normal_unique_le; auto; congruence.
Qed.

Lemma decimal_roundtrip_witness :
  parse_signed_decimal (decimal_to_string (mkDecimal (-5) 2)) = Ok (mkDecimal (-5) 2)
  /\ (decimal_to_string (mkDecimal (-5) 2) = decimal_to_string (mkDecimal 12 0)
      <-> v16 (mkDecimal (-5) 2) = v16 (mkDecimal 12 0)).
Proof. apply (decimal_roundtrip "-0.050" (mkDecimal (-5) 2) "12.00" (mkDecimal 12 0)); reflexivity. Defined.

(** Division rounds half away from zero: for operands and a cut of at most eight fractional
    digits the quotient is the nearest multiple of the cut with the sign of the exact quotient,
    in normal form, and the only errors are a zero divisor and an overflow. *)
Theorem division_rounds_half_away l r ms :
  wf l -> wf r -> scale l <= kMaxDecimalScale -> scale r <= kMaxDecimalScale ->
  0 <= ms <= kMaxDecimalScale ->
  match div l r ms with
  | Ok d => exists q, v16 d = q * 10 ^ (kMaxInternalScale - ms)
      /\ 0 <= q * (v16 l * v16 r)
      /\ (2 * Z.abs q - 1) * Z.abs (v16 r) <= 2 * Z.abs (v16 l) * 10 ^ ms
         < (2 * Z.abs q + 1) * Z.abs (v16 r)
      /\ wf d /\ normal d
  | Err e => unscaled r = 0 /\ e = mkError "protocol" "decimal div by zero"
             \/ unscaled r <> 0 /\ e = overflow_error "div"
  end.
Proof.
  intros Hl Hr _ _ Hms. destruct (div l r ms) as [d|e] eqn:Hd; [by apply (div_rounds l r)|].
  unfold div in Hd. destruct (Z.eqb_spec (unscaled r) 0); [left; by simplify_eq|right].
  destruct (Z.ltb_spec ms 0); [lia|].
  destruct (Z.ltb_spec kMaxInternalScale ms);
    [unfold kMaxInternalScale, kMaxDecimalScale in *; lia|]. cbn [orb] in Hd.
  by destruct (fits_ll _); simplify_eq/=.
Qed.

Lemma division_rounds_half_away_witness :
  match div (mkDecimal 2 0) (mkDecimal 3 0) 8 with
  | Ok d => exists q, v16 d = q * 10 ^ (kMaxInternalScale - 8)
      /\ 0 <= q * (v16 (mkDecimal 2 0) * v16 (mkDecimal 3 0))
      /\ (2 * Z.abs q - 1) * Z.abs (v16 (mkDecimal 3 0)) <= 2 * Z.abs (v16 (mkDecimal 2 0)) * 10 ^ 8
         < (2 * Z.abs q + 1) * Z.abs (v16 (mkDecimal 3 0))
      /\ wf d /\ normal d
  | Err e => unscaled (mkDecimal 3 0) = 0 /\ e = mkError "protocol" "decimal div by zero"
             \/ unscaled (mkDecimal 3 0) <> 0 /\ e = overflow_error "div"
  end.
Proof.
  apply (division_rounds_half_away (mkDecimal 2 0) (mkDecimal 3 0) 8);
    unfold wf, int64, kLlMin, kLlMax, kMaxInternalScale, kMaxDecimalScale; simpl; lia.
Defined.

Lemma wide_arithmetic_in_range_witness :
  let l := mkDecimal kLlMax 0 in let r := mkDecimal kLlMin 8 in
  int128 (aligned l r).1 /\ int128 (aligned l r).2
  /\ int128 ((aligned l r).1 + (aligned l r).2) /\ int128 ((aligned l r).1 - (aligned l r).2)
  /\ int128 (unscaled l * unscaled r)
  /\ (scale l <= kMaxDecimalScale -> scale r <= kMaxDecimalScale ->
      0 <= 8 <= kMaxDecimalScale ->
      let common := Z.max (scale l) (scale r) in
      int128 (unscaled l * pow10 (common - scale l + 8))
      /\ int128 (2 * (unscaled r * pow10 (common - scale r)))).
Proof.
  apply (wide_arithmetic_in_range (mkDecimal kLlMax 0) (mkDecimal kLlMin 8) 8);
    unfold wf, int64, kLlMin, kLlMax, kMaxInternalScale; simpl; lia.
Defined.
