(* ===== verification/Clock.v ===== *)
(** * Wall-clock texts: src/core/clock.cpp

    [std::chrono::system_clock::now] is an argument, in nanoseconds since the
    epoch, not before it.  [gmtime_r] and [snprintf] are the C library's; they
    are written out for the fields and formats the source uses. *)

From S2P Require Import Prelude Decimal DecimalText.

(** ** The calendar of [gmtime_r] *)

Definition leap_year (y : Z) : bool :=
  (y mod 4 =? 0) && negb (y mod 100 =? 0) || (y mod 400 =? 0).
Definition year_days (y : Z) : Z := if leap_year y then 366 else 365.
Definition month_days (y : Z) : list Z :=
  [31; if leap_year y then 29 else 28; 31; 30; 31; 30; 31; 31; 30; 31; 30; 31].

(** The year that [days] days after the start of year [y] fall in, and the day
    of that year; every year has at least 365 days, so [days / 365 + 1] is fuel
    enough. *)
Fixpoint find_year (fuel : nat) (y days : Z) : Z * Z :=
  match fuel with
  | O => (y, days)
  | S fuel => if days <? year_days y then (y, days) else find_year fuel (y + 1) (days - year_days y)
  end.

Fixpoint find_month (lengths : list Z) (m day : Z) : Z * Z :=
  match lengths with
  | [] => (m, day)
  | len :: rest => if day <? len then (m, day) else find_month rest (m + 1) (day - len)
  end.

Record Tm := mkTm {
  tm_sec : Z; tm_min : Z; tm_hour : Z; tm_mday : Z; tm_mon : Z; tm_year : Z }.

Definition gmtime_r (secs : Z) : Tm :=
  let days := secs / 86400 in
  let '(y, yday) := find_year (Z.to_nat (days / 365 + 1)) 1970 days in
  let '(mon, mday) := find_month (month_days y) 0 yday in
  let sod := secs mod 86400 in
  mkTm (sod mod 60) (sod / 60 mod 60) (sod / 3600) (mday + 1) mon (y - 1900).

(** ** The texts *)

(** The [w] lowest decimal digits. *)
Fixpoint pad (w : nat) (n : Z) : string :=
  match w with
  | O => ""
  | S w => pad w (n / 10) +:+ String (digit_char (n mod 10)) EmptyString
  end.

(** [%0wd] of a number that is not negative. *)
Definition zero_padded (w : nat) (n : Z) : string :=
  if n <? 10 ^ Z.of_nat w then pad w n else std_to_string n.

Definition now_ms (now_ns : Z) : Z := Z.quot now_ns 1000000.

Definition iso_text (t : Tm) (ms : Z) : string :=
  zero_padded 4 (tm_year t + 1900) +:+ "-" +:+ zero_padded 2 (tm_mon t + 1) +:+ "-"
  +:+ zero_padded 2 (tm_mday t) +:+ "T" +:+ zero_padded 2 (tm_hour t) +:+ ":"
  +:+ zero_padded 2 (tm_min t) +:+ ":" +:+ zero_padded 2 (tm_sec t) +:+ "."
  +:+ zero_padded 3 ms +:+ "Z".

Definition kIsoLen : nat := 24.

(** [snprintf] into [kIsoLen + 1] bytes, then [resize] to what it wanted to
    write. *)
Definition fit_buffer (text : string) : string :=
  String.substring 0 kIsoLen text
  +:+ string_of_list_ascii (repeat Ascii.zero (String.length text - kIsoLen)).

Definition utc_now_iso_ms (now_ns : Z) : string :=
  fit_buffer (iso_text (gmtime_r (Z.quot now_ns 1000000000)) (Z.rem (now_ms now_ns) 1000)).

Definition utc_now_epoch_ms (now_ns : Z) : string :=
  std_to_string (Z.quot now_ns 1000000000) +:+ "." +:+ zero_padded 3 (Z.rem (now_ms now_ns) 1000).

Example iso_example : utc_now_iso_ms 1787220000123456789 = "2026-08-20T10:00:00.123Z".
Proof. vm_compute. reflexivity. Qed.
Example epoch_example : utc_now_epoch_ms 1787235344678000000 = "1787235344.678".
Proof. vm_compute. reflexivity. Qed.
Example leap_day_example : utc_now_iso_ms 951782399999000000 = "2000-02-28T23:59:59.999Z"
  /\ utc_now_iso_ms 951782400000000000 = "2000-02-29T00:00:00.000Z"
  /\ utc_now_iso_ms 4107542400000000000 = "2100-03-01T00:00:00.000Z".
Proof. vm_compute. auto. Qed.

(** ** Reading a text back *)

(** Days from 1970-01-01 to the start of a year, in closed form. *)
Definition days_before_year (y : Z) : Z :=
  365 * (y - 1970) + ((y - 1) / 4 - (y - 1) / 100 + (y - 1) / 400 - 477).

Definition days_before_month (y m : Z) : Z :=
  foldr Z.add 0 (firstn (Z.to_nat (m - 1)) (month_days y)).

Definition field (i n : nat) (text : string) : Z := digits_val 0 (String.substring i n text).

(** The milliseconds since the epoch that an ISO 8601 text denotes. *)
Definition iso_ms (text : string) : Z :=
  let y := field 0 4 text in
  let m := field 5 2 text in
  let days := days_before_year y + days_before_month y m + field 8 2 text - 1 in
  (((days * 24 + field 11 2 text) * 60 + field 14 2 text) * 60 + field 17 2 text) * 1000
  + field 20 3 text.

Lemma days_before_next y : days_before_year (y + 1) = days_before_year y + year_days y.
Proof.
  unfold days_before_year, year_days, leap_year. replace (y + 1 - 1) with y by lia.
  destruct (Z.eqb_spec (y mod 4) 0), (Z.eqb_spec (y mod 100) 0), (Z.eqb_spec (y mod 400) 0); simpl;
    Z.to_euclidean_division_equations; lia.
Qed.

Lemma days_before_mono y y' : y <= y' -> days_before_year y <= days_before_year y'.
Proof. intros H. unfold days_before_year. Z.to_euclidean_division_equations; lia. Qed.

Lemma year_days_bounds y : 365 <= year_days y <= 366.
Proof. unfold year_days. destruct (leap_year y); lia. Qed.

Lemma find_year_spec fuel y days :
  0 <= days < 365 * Z.of_nat fuel ->
  let '(y', yday) := find_year fuel y days in
  0 <= yday < year_days y' /\ y <= y' /\ days_before_year y' + yday = days_before_year y + days.
Proof.
  revert y days. induction fuel as [|fuel IH]; intros y days Hd; [lia|]. simpl.
  destruct (Z.ltb_spec days (year_days y)); [lia|].
  pose proof (year_days_bounds y). specialize (IH (y + 1) (days - year_days y) ltac:(lia)).
  rewrite days_before_next in IH. destruct (find_year fuel (y + 1) _). lia.
Qed.

Lemma find_month_spec lengths m day :
  0 <= day < foldr Z.add 0 lengths ->
  let '(m', mday) := find_month lengths m day in
  exists k len, m' = m + Z.of_nat k /\ lengths !! k = Some len /\ 0 <= mday < len
    /\ foldr Z.add 0 (firstn k lengths) + mday = day.
Proof.
  revert m day. induction lengths as [|len rest IH]; intros m day Hd; simpl in *; [lia|].
  destruct (Z.ltb_spec day len).
  - exists 0%nat, len. simpl. split_and!; (done || lia).
  - specialize (IH (m + 1) (day - len) ltac:(lia)). destruct (find_month rest (m + 1) (day - len)).
    destruct IH as (k & l & -> & Hk & Hb & Hs). exists (S k), l. simpl. split_and!; (done || lia).
Qed.

Lemma month_days_sum y : foldr Z.add 0 (month_days y) = year_days y.
Proof. unfold month_days, year_days. by destruct (leap_year y). Qed.

Lemma month_days_elem y k len : month_days y !! k = Some len -> (k < 12)%nat /\ 28 <= len <= 31.
Proof.
  unfold month_days. intros H. destruct (leap_year y);
    do 12 (destruct k as [|k]; [simpl in H; injection H as <-; lia|]); done.
Qed.

(** What [gmtime_r] gives for an instant before year 10000. *)
Lemma gmtime_spec secs :
  0 <= secs < 86400 * days_before_year 10000 ->
  let t := gmtime_r secs in
  let y := tm_year t + 1900 in
  1970 <= y <= 9999 /\ 0 <= tm_mon t <= 11 /\ 1 <= tm_mday t <= 31
  /\ 0 <= tm_hour t <= 23 /\ 0 <= tm_min t <= 59 /\ 0 <= tm_sec t <= 59
  /\ ((((days_before_year y + days_before_month y (tm_mon t + 1) + tm_mday t - 1) * 24
        + tm_hour t) * 60 + tm_min t) * 60 + tm_sec t) = secs.
Proof.
  intros Hs. unfold gmtime_r.
  assert (Hd : 0 <= secs / 86400 < days_before_year 10000)
    by (Z.to_euclidean_division_equations; lia).
  pose proof (find_year_spec (Z.to_nat (secs / 86400 / 365 + 1)) 1970 (secs / 86400)) as Hy.
  destruct (find_year _ _ _) as [y yday]. destruct Hy as (Hyd & Hge & Hsum);
    [rewrite Z2Nat.id by (Z.to_euclidean_division_equations; lia);
     Z.to_euclidean_division_equations; lia|].
  pose proof (find_month_spec (month_days y) 0 yday) as Hm. rewrite month_days_sum in Hm.
  destruct (find_month _ _ _) as [mon mday]. destruct (Hm Hyd) as (k & len & -> & Hk & Hb & Hms).
  apply month_days_elem in Hk as [Hk Hlen]. simpl. replace (y - 1900 + 1900) with y by lia.
  assert (y <= 9999).
  { destruct (Z.le_gt_cases y 9999); [done|].
    pose proof (days_before_mono 10000 y ltac:(lia)). change (days_before_year 1970) with 0 in Hsum. lia. }
  unfold days_before_month. replace (Z.to_nat (0 + Z.of_nat k + 1 - 1)) with k by lia.
  change (days_before_year 1970) with 0 in Hsum.
  split_and!; try (Z.to_euclidean_division_equations; lia).
Qed.

Lemma pad_length w n : String.length (pad w n) = w.
Proof.
  revert n. induction w as [|w IH]; intros n; [done|]. cbn [pad].
  rewrite str_length_app, IH. simpl. lia.
Qed.

Lemma pad_value w n : 0 <= n < 10 ^ Z.of_nat w -> digits_val 0 (pad w n) = n.
Proof.
  revert n. induction w as [|w IH]; intros n Hn; [simpl in *; lia|]. cbn [pad].
  rewrite Nat2Z.inj_succ, Z.pow_succ_r in Hn by lia.
  rewrite digits_val_app, IH by (Z.to_euclidean_division_equations; lia). simpl.
  rewrite (proj2 (digit_char_spec (n mod 10) ltac:(Z.to_euclidean_division_equations; lia))).
  Z.to_euclidean_division_equations; lia.
Qed.

Lemma zero_padded_pad w n : n < 10 ^ Z.of_nat w -> zero_padded w n = pad w n.
Proof. intros H. unfold zero_padded. by rewrite (proj2 (Z.ltb_lt _ _) H). Qed.

(** The seven fields of a text of the right widths. *)
Lemma fields_of_text y m d h mi s ms :
  String.length y = 4%nat -> String.length m = 2%nat -> String.length d = 2%nat ->
  String.length h = 2%nat -> String.length mi = 2%nat -> String.length s = 2%nat ->
  String.length ms = 3%nat ->
  let text := y +:+ "-" +:+ m +:+ "-" +:+ d +:+ "T" +:+ h +:+ ":" +:+ mi +:+ ":" +:+ s +:+ "."
              +:+ ms +:+ "Z" in
  String.length text = 24%nat /\ fit_buffer text = text
  /\ field 0 4 text = digits_val 0 y /\ field 5 2 text = digits_val 0 m
  /\ field 8 2 text = digits_val 0 d /\ field 11 2 text = digits_val 0 h
  /\ field 14 2 text = digits_val 0 mi /\ field 17 2 text = digits_val 0 s
  /\ field 20 3 text = digits_val 0 ms.
Proof.
  destruct y as [|y1 [|y2 [|y3 [|y4 [|]]]]]; try done. destruct m as [|m1 [|m2 [|]]]; try done.
  destruct d as [|d1 [|d2 [|]]]; try done. destruct h as [|h1 [|h2 [|]]]; try done.
  destruct mi as [|i1 [|i2 [|]]]; try done. destruct s as [|s1 [|s2 [|]]]; try done.
  destruct ms as [|c1 [|c2 [|c3 [|]]]]; done.
Qed.

(** The ISO time stamp denotes the instant: for every time from 1970 to the end of 9999 the text
    has 24 characters and reading its year, month, day, hour, minute, second and millisecond
    back gives the instant in milliseconds, leap years included. *)
Theorem iso_text_denotes_instant now_ns :
  0 <= now_ns < 86400000000000 * days_before_year 10000 ->
  String.length (utc_now_iso_ms now_ns) = kIsoLen
  /\ iso_ms (utc_now_iso_ms now_ns) = now_ns / 1000000.
Proof.
  intros Hn. unfold utc_now_iso_ms, now_ms.
  rewrite !Z.quot_div_nonneg, Z.rem_mod_nonneg by (Z.to_euclidean_division_equations; lia).
  set (ms := (now_ns / 1000000) mod 1000).
  assert (Hms : 0 <= ms < 1000) by (subst ms; Z.to_euclidean_division_equations; lia).
  destruct (gmtime_spec (now_ns / 1000000000)) as (Hy & Hmo & Hd & Hh & Hmi & Hs & Hsum);
    [Z.to_euclidean_division_equations; lia|].
  set (t := gmtime_r (now_ns / 1000000000)) in *. unfold iso_text.
  rewrite !zero_padded_pad by (simpl Z.of_nat; lia).
  destruct (fields_of_text (pad 4 (tm_year t + 1900)) (pad 2 (tm_mon t + 1)) (pad 2 (tm_mday t))
    (pad 2 (tm_hour t)) (pad 2 (tm_min t)) (pad 2 (tm_sec t)) (pad 3 ms))
    as (Hlen & Hfit & F1 & F2 & F3 & F4 & F5 & F6 & F7); try apply pad_length.
  rewrite Hfit. split; [exact Hlen|]. unfold iso_ms.
  rewrite F1, F2, F3, F4, F5, F6, F7, !pad_value by (simpl Z.of_nat; lia).
  rewrite Hsum. subst ms. Z.to_euclidean_division_equations; lia.
Qed.

Lemma iso_text_denotes_instant_witness :
  iso_ms (utc_now_iso_ms 1787220000123456789) = 1787220000123456789 / 1000000.
Proof. apply (iso_text_denotes_instant 1787220000123456789). vm_compute. split; congruence. Defined.
