(* ===== verification/Json.v ===== *)
(** * JSON values as the source manipulates them

    The value categories of [nlohmann::json] that the gateway tests for, and the
    member functions it calls on them.  Objects are ordered by key, as the
    library's default [std::map] is, so that iterating one is iterating the
    list.  Parsing and printing text belong to the library and are parameters
    where they are needed. *)

From Stdlib Require Export SpecFloat.
From S2P Require Import Prelude.

Inductive json : Type :=
  | JNull
  | JBool (b : bool)
  | JInt (z : Z)
  | JUint (z : Z)
  | JFloat (f : spec_float)
  | JString (s : string)
  | JArray (items : list json)
  | JObject (fields : list (string * json)).

Definition is_object (j : json) : bool := match j with JObject _ => true | _ => false end.
Definition is_array (j : json) : bool := match j with JArray _ => true | _ => false end.
Definition is_string (j : json) : bool := match j with JString _ => true | _ => false end.
Definition is_null (j : json) : bool := match j with JNull => true | _ => false end.
Definition is_boolean (j : json) : bool := match j with JBool _ => true | _ => false end.
Definition is_number_unsigned (j : json) : bool := match j with JUint _ => true | _ => false end.
Definition is_number_integer (j : json) : bool :=
  match j with JInt _ | JUint _ => true | _ => false end.
Definition is_number (j : json) : bool :=
  match j with JInt _ | JUint _ | JFloat _ => true | _ => false end.

Fixpoint obj_find {V : Type} (name : string) (fields : list (string * V)) : option V :=
  match fields with
  | [] => None
  | (k, v) :: rest => if name ==s k then Some v else obj_find name rest
  end.

(** [find]: the end iterator is [None]; on a value that is not an object the
    library answers [end()]. *)
Definition jfind (j : json) (name : string) : option json :=
  match j with JObject fields => obj_find name fields | _ => None end.

Definition jcontains (j : json) (name : string) : bool :=
  match jfind j name with Some _ => true | None => false end.

(** [operator[]] assignment: the map keeps its keys sorted. *)
Fixpoint obj_set {V : Type} (name : string) (v : V) (fields : list (string * V))
    : list (string * V) :=
  match fields with
  | [] => [(name, v)]
  | (k, w) :: rest =>
      if name ==s k then (name, v) :: rest
      else if String.ltb name k then (name, v) :: (k, w) :: rest
      else (k, w) :: obj_set name v rest
  end.

Definition jset (j : json) (name : string) (v : json) : json :=
  match j with JObject fields => JObject (obj_set name v fields) | _ => j end.

(** An object written as an initializer list with distinct keys. *)
Definition jobj (fields : list (string * json)) : json :=
  JObject (foldr (fun kv acc => obj_set kv.1 kv.2 acc) [] fields).

(** [erase(key)]. *)
Definition jerase (j : json) (name : string) : json :=
  match j with
  | JObject fields => JObject (List.filter (fun kv => negb (name ==s kv.1)) fields)
  | _ => j
  end.

Definition jempty (j : json) : bool :=
  match j with
  | JNull => true
  | JArray items => match items with [] => true | _ => false end
  | JObject fields => match fields with [] => true | _ => false end
  | _ => false
  end.

(** The string of a field, [None] when it is missing or not a string. *)
Definition jstring (j : json) (name : string) : option string :=
  match jfind j name with Some (JString s) => Some s | _ => None end.

(** ** Lookup after assignment *)

Lemma obj_find_set {V : Type} (fields : list (string * V)) name k v :
  obj_find k (obj_set name v fields) = if k ==s name then Some v else obj_find k fields.
Proof.
  induction fields as [|[k' w] fields IH]; simpl; [done|].
  destruct (streqb_spec name k') as [->|Hne].
  - simpl. destruct (streqb_spec k k'); done.
  - destruct (String.ltb name k'); simpl; [done|]. rewrite IH.
    destruct (streqb_spec k k') as [->|]; [|done].
    by rewrite (proj2 (streqb_false k' name)).
Qed.

Lemma jfind_jset fields name k v :
  jfind (jset (JObject fields) name v) k
  = if k ==s name then Some v else jfind (JObject fields) k.
Proof. apply obj_find_set. Qed.

(** Looking a key up in an initializer list is looking it up in the list. *)
Lemma jfind_jobj fields k : jfind (jobj fields) k = obj_find k fields.
Proof.
  unfold jobj. simpl. induction fields as [|[k' v] fields IH]; simpl; [done|].
  by rewrite obj_find_set, IH.
Qed.

#[export] Hint Rewrite jfind_jobj jfind_jset (@obj_find_set json) : json.
