(* ===== verification/Risk.v ===== *)
(** * Pre-trade risk: src/core/risk.hpp and risk.cpp

    The limits of one instrument, their JSON form, and the check that every
    place and amend runs before the venue sees it. *)

From S2P Require Import Prelude Types Decimal DecimalFacts DecimalText Json.

Record InstrumentRiskLimits := mkLimits {
  max_qty : string;
  max_notional : string;
  max_position : string }.

Record RiskConfig := mkRiskConfig {
  defaults : option InstrumentRiskLimits;
  instruments : gmap string InstrumentRiskLimits }.

Record RiskOrder := mkRiskOrder {
  ro_side : Side;
  ro_price : string;
  ro_quantity : string;
  ro_projected_position : string }.

#[global] Instance InstrumentRiskLimits_eq_dec : EqDecision InstrumentRiskLimits.
Proof. solve_decision. Defined.

Definition no_limits : InstrumentRiskLimits := mkLimits "" "" "".

(** The local function [read] of [limits_from_json]: the error, if any, and the
    new value of the target. *)
Definition read_limit (a_node : json) (a_name a_target : string) : option Error * string :=
  match jfind a_node a_name with
  | None | Some JNull => (None, a_target)
  | Some (JString text) =>
      if str_empty text then (None, text)
      else if negb (is_ok (parse_decimal text)) then
        (Some (mkError "protocol"
           ("risk field " +:+ a_name +:+ " is not a decimal: " +:+ text)), text)
      else (None, text)
  | Some _ =>
      (Some (mkError "protocol" ("risk field " +:+ a_name +:+ " must be a string")), a_target)
  end.

Definition limits_from_json (a_node : json) : Result InstrumentRiskLimits :=
  if negb (is_object a_node) then
    Err (mkError "protocol" "risk limits block must be a JSON object")
  else
    match read_limit a_node "maxQty" "" with
    | (Some error, _) => Err error
    | (None, qty) =>
        match read_limit a_node "maxNotional" "" with
        | (Some error, _) => Err error
        | (None, notional) =>
            match read_limit a_node "maxPosition" "" with
            | (Some error, _) => Err error
            | (None, position) => Ok (mkLimits qty notional position)
            end
        end
    end.

Definition limits_for (cfg : RiskConfig) (a_symbol : string) : option InstrumentRiskLimits :=
  match instruments cfg !! a_symbol with
  | Some limits => Some limits
  | None => defaults cfg
  end.

(** The loop over the members of "instruments". *)
Fixpoint read_instruments (fields : list (string * json))
    (acc : gmap string InstrumentRiskLimits) : Result (gmap string InstrumentRiskLimits) :=
  match fields with
  | [] => Ok acc
  | (key, value) :: rest =>
      let! parsed := limits_from_json value in
      read_instruments rest (<[key := parsed]> acc)
  end.

Definition read_defaults (a_node : json) : Result (option InstrumentRiskLimits) :=
  match jfind a_node "default" with
  | None => Ok None
  | Some node => let! parsed := limits_from_json node in Ok (Some parsed)
  end.

Definition risk_config_from_json (a_node : json) : Result RiskConfig :=
  if negb (is_object a_node) then Err (mkError "protocol" "risk section must be a JSON object")
  else if jempty a_node then Ok (mkRiskConfig None ∅)
  else
    let! d := read_defaults a_node in
    match jfind a_node "instruments" with
    | None => Ok (mkRiskConfig d ∅)
    | Some (JObject fields) =>
        let! i := read_instruments fields ∅ in
        Ok (mkRiskConfig d i)
    | Some _ => Err (mkError "protocol" "risk.instruments must be a JSON object")
    end.

(** The local function [invalid] of [check_risk]. *)
Definition invalid_value (a_what a_value : string) : Error :=
  mkError "risk_invalid_value" (a_what +:+ " is not a valid decimal: " +:+ a_value).

(** The three tests of [check_risk], in order; [None] lets the order pass. *)
Definition check_max_qty (limits : InstrumentRiskLimits) (a_symbol : string)
    (a_order : RiskOrder) (quantity : Decimal) : option Error :=
  if str_empty (max_qty limits) then None
  else match parse_decimal (max_qty limits) with
  | Err _ => Some (invalid_value "maxQty" (max_qty limits))
  | Ok limit =>
      if 0 <? compare quantity limit then
        Some (mkError "risk_max_qty"
          ("quantity " +:+ ro_quantity a_order +:+ " exceeds maxQty "
           +:+ max_qty limits +:+ " for " +:+ a_symbol))
      else None
  end.

Definition check_max_notional (limits : InstrumentRiskLimits) (a_symbol : string)
    (a_order : RiskOrder) (quantity : Decimal) : option Error :=
  if str_empty (max_notional limits) || str_empty (ro_price a_order) then None
  else match parse_decimal (ro_price a_order) with
  | Err _ => Some (invalid_value "price" (ro_price a_order))
  | Ok price =>
      match parse_decimal (max_notional limits) with
      | Err _ => Some (invalid_value "maxNotional" (max_notional limits))
      | Ok limit =>
          match mul price quantity with
          | Err _ => Some (mkError "risk_invalid_value" "notional computation overflowed")
          | Ok notional =>
              if 0 <? compare notional limit then
                Some (mkError "risk_max_notional"
                  ("notional " +:+ decimal_to_string notional +:+ " (price "
                   +:+ ro_price a_order +:+ " x quantity " +:+ ro_quantity a_order
                   +:+ ") exceeds maxNotional " +:+ max_notional limits
                   +:+ " for " +:+ a_symbol))
              else None
          end
      end
  end.

Definition check_max_position (limits : InstrumentRiskLimits) (a_symbol : string)
    (a_order : RiskOrder) : option Error :=
  if str_empty (max_position limits) then None
  else match parse_signed_decimal (ro_projected_position a_order) with
  | Err _ => Some (invalid_value "projectedPosition" (ro_projected_position a_order))
  | Ok position =>
      match parse_decimal (max_position limits) with
      | Err _ => Some (invalid_value "maxPosition" (max_position limits))
      | Ok limit =>
          let magnitude := if unscaled position <? 0 then negate position else position in
          if 0 <? compare magnitude limit then
            Some (mkError "risk_max_position"
              ("projected position " +:+ decimal_to_string position
               +:+ " exceeds maxPosition ±" +:+ max_position limits
               +:+ " for " +:+ a_symbol))
          else None
      end
  end.

Definition check_risk (a_limits : option InstrumentRiskLimits) (a_symbol : string)
    (a_order : RiskOrder) : option Error :=
  match a_limits with
  | None => None
  | Some limits =>
      match parse_decimal (ro_quantity a_order) with
      | Err _ => Some (invalid_value "quantity" (ro_quantity a_order))
      | Ok quantity =>
          match check_max_qty limits a_symbol a_order quantity with
          | Some e => Some e
          | None =>
              match check_max_notional limits a_symbol a_order quantity with
              | Some e => Some e
              | None => check_max_position limits a_symbol a_order
              end
          end
      end
  end.
