(* ===== verification/RiskFacts.v ===== *)
(** * Correctness of the pre-trade checks

    [within_limits] is the arithmetic meaning of the limits, over the integer
    values of the decimal texts; [check_risk] accepts exactly the orders within
    them, and every rejection carries one of the documented codes. *)

From S2P Require Import Prelude Types Decimal DecimalFacts DecimalText Json Risk.

(** ** What the limits mean *)

Definition denotes (text : string) (d : Decimal) : Prop := parse_decimal text = Ok d.
Definition denotes_signed (text : string) (d : Decimal) : Prop :=
  parse_signed_decimal text = Ok d.

Definition quantity_within (limits : InstrumentRiskLimits) (q : Decimal) : Prop :=
  max_qty limits <> EmptyString ->
  exists m, denotes (max_qty limits) m /\ v16 q <= v16 m.

(** Price times quantity, both in 10^-16 units, against the limit in the units
    of the product; the product must be representable. *)
Definition notional_within (limits : InstrumentRiskLimits) (price : string) (q : Decimal) : Prop :=
  max_notional limits <> EmptyString -> price <> EmptyString ->
  exists p m, denotes price p /\ denotes (max_notional limits) m
    /\ int64 (unscaled p * unscaled q)
    /\ v16 p * v16 q <= v16 m * 10 ^ kMaxInternalScale.

Definition position_within (limits : InstrumentRiskLimits) (position : string) : Prop :=
  max_position limits <> EmptyString ->
  exists x m, denotes_signed position x /\ denotes (max_position limits) m
    /\ Z.abs (v16 x) <= v16 m.

Definition within_limits (limits : InstrumentRiskLimits) (o : RiskOrder) : Prop :=
  exists q, denotes (ro_quantity o) q
    /\ quantity_within limits q
    /\ notional_within limits (ro_price o) q
    /\ position_within limits (ro_projected_position o).

(** ** The three tests *)

Lemma check_max_qty_iff limits sym o q :
  wf q -> check_max_qty limits sym o q = None <-> quantity_within limits q.
Proof.
  intros Hq. unfold check_max_qty, quantity_within, denotes.
  destruct (str_empty (max_qty limits)) eqn:He.
  { apply str_empty_true in He. naive_solver. }
  apply str_empty_false in He.
  destruct (parse_decimal (max_qty limits)) as [m|] eqn:Hm; [|split; [done|]; naive_solver].
  pose proof (parse_decimal_wf _ _ Hm) as (Hw & _).
  rewrite compare_pos by done. destruct (Z.ltb_spec (v16 m) (v16 q)).
  - split; [done|]. intros H'. destruct (H' He) as (? & [= <-] & ?). lia.
  - split; [|done]. intros _ _. exists m. split; [done|lia].
Qed.

Lemma mul_ok_fits p q : is_ok (mul p q) = true -> int64 (unscaled p * unscaled q).
Proof.
  unfold mul. destruct (fits_ll _) eqn:Hf; simpl; [|done]. intros _. by apply fits_ll_spec.
Qed.

Lemma check_max_notional_iff limits sym o q :
  denotes (ro_quantity o) q ->
  check_max_notional limits sym o q = None <-> notional_within limits (ro_price o) q.
Proof.
  intros Hq. apply parse_decimal_wf in Hq as (Wq & _ & _ & Sq).
  unfold check_max_notional, notional_within, denotes.
  destruct (str_empty (max_notional limits)) eqn:He1; simpl.
  { apply str_empty_true in He1. naive_solver. }
  destruct (str_empty (ro_price o)) eqn:He2.
  { apply str_empty_true in He2. naive_solver. }
  apply str_empty_false in He1, He2.
  destruct (parse_decimal (ro_price o)) as [p|] eqn:Hp; [|split; [done|]; naive_solver].
  destruct (parse_decimal (max_notional limits)) as [m|] eqn:Hm; [|split; [done|]; naive_solver].
  pose proof (parse_decimal_wf _ _ Hp) as (Wp & _ & _ & Sp).
  pose proof (parse_decimal_wf _ _ Hm) as (Wm & _).
  pose proof (mul_exact p q Wp Wq) as Hmul. pose proof (mul_ok_fits p q) as Hfits.
  destruct (mul p q) as [n|].
  - specialize (Hfits eq_refl). destruct Hmul as (Wn & _ & Hv); [unfold kMaxDecimalScale, kMaxInternalScale in *; lia|].
    rewrite compare_pos by done.
    assert (0 < 10 ^ kMaxInternalScale) by reflexivity.
    destruct (Z.ltb_spec (v16 m) (v16 n)).
    + split; [done|]. intros H'. destruct (H' He1 He2) as (? & ? & [= <-] & [= <-] & _ & ?). nia.
    + split; [|done]. intros _ _ _. exists p, m. split_and!; try done. nia.
  - destruct Hmul as [_ Hno]; [unfold kMaxDecimalScale, kMaxInternalScale in *; lia|].
    split; [done|]. intros H'. destruct (H' He1 He2) as (? & ? & [= <-] & [= <-] & ? & _). done.
Qed.

Lemma v16_abs d :
  wf d -> unscaled d <> kLlMin ->
  let m := if unscaled d <? 0 then negate d else d in
  wf m /\ v16 m = Z.abs (v16 d).
Proof.
  intros [Hu Hs] Hmin. unfold v16, kMaxInternalScale in *.
  pose proof (pow10_pos (16 - scale d) ltac:(lia)).
  destruct (Z.ltb_spec (unscaled d) 0); simpl.
  - split; [|nia]. split; simpl; [unfold int64, kLlMin, kLlMax in *; lia | done].
  - split; [by split | nia].
Qed.

Lemma check_max_position_iff limits sym o :
  check_max_position limits sym o = None <-> position_within limits (ro_projected_position o).
Proof.
  unfold check_max_position, position_within, denotes, denotes_signed.
  destruct (str_empty (max_position limits)) eqn:He.
  { apply str_empty_true in He. naive_solver. }
  apply str_empty_false in He.
  destruct (parse_signed_decimal _) as [x|] eqn:Hx; [|split; [done|]; naive_solver].
  destruct (parse_decimal (max_position limits)) as [m|] eqn:Hm; [|split; [done|]; naive_solver].
  pose proof (parse_signed_wf _ _ Hx) as (Wx & _ & _ & Mx & _).
  pose proof (parse_decimal_wf _ _ Hm) as (Wm & _).
  destruct (v16_abs x Wx Mx) as [Wa Va].
  rewrite compare_pos by done. rewrite Va. destruct (Z.ltb_spec (v16 m) (Z.abs (v16 x))).
  - split; [done|]. intros H'. destruct (H' He) as (? & ? & [= <-] & [= <-] & ?). lia.
  - split; [|done]. intros _ _. exists x, m. split_and!; try done; lia.
Qed.

(** The check passes exactly within the limits. *)
Lemma check_risk_within limits sym o :
  check_risk (Some limits) sym o = None <-> within_limits limits o.
Proof.
  unfold check_risk, within_limits.
  destruct (parse_decimal (ro_quantity o)) as [q|] eqn:Hq.
  2: { unfold denotes. rewrite Hq. split; [done|]. intros (? & ? & _). done. }
  pose proof (parse_decimal_wf _ _ Hq) as (Wq & _).
  transitivity (check_max_qty limits sym o q = None /\ check_max_notional limits sym o q = None
                /\ check_max_position limits sym o = None).
  { destruct (check_max_qty _ _ _ _), (check_max_notional _ _ _ _); naive_solver. }
  rewrite check_max_qty_iff, check_max_notional_iff, check_max_position_iff by done.
  unfold denotes. split; [eauto|]. intros (q' & Hq' & H). rewrite Hq in Hq'. by simplify_eq.
Qed.

(** The codes the documentation of [check_risk] lists. *)
Definition risk_codes : list string :=
  ["risk_max_qty"; "risk_max_notional"; "risk_max_position"; "risk_invalid_value"].

Lemma check_risk_code limits sym o e :
  check_risk limits sym o = Some e -> In (code e) risk_codes.
Proof.
  unfold check_risk, check_max_qty, check_max_notional, check_max_position, invalid_value.
  intros H. repeat case_match; simplify_eq; simpl; auto 6.
Qed.

(** C33: The pre-trade check accepts an order exactly when its quantity, its notional and the
    projected position are within the configured limits as values, answers one of the documented
    risk_ codes otherwise, and accepts everything without limits. *)
Theorem check_risk_iff limits sym o :
  (check_risk (Some limits) sym o = None <-> within_limits limits o)
  /\ (forall e, check_risk (Some limits) sym o = Some e -> In (code e) risk_codes)
  /\ check_risk None sym o = None.
Proof.
  split_and!; [apply check_risk_within|intros e; apply check_risk_code|done].
Qed.

(** ** Parsed limits are decimals *)

Definition limit_ok (text : string) : Prop := text = EmptyString \/ exists d, denotes text d.

Definition limits_ok (limits : InstrumentRiskLimits) : Prop :=
  limit_ok (max_qty limits) /\ limit_ok (max_notional limits) /\ limit_ok (max_position limits).

Lemma read_limit_ok node name text :
  read_limit node name EmptyString = (None, text) -> limit_ok text.
Proof.
  unfold read_limit, limit_ok, denotes. intros H.
  destruct (jfind node name) as [[]|]; simplify_eq; eauto.
  destruct (str_empty s) eqn:He; simplify_eq.
  - left. by apply str_empty_true.
  - destruct (parse_decimal s) eqn:Hp; simpl in H; simplify_eq. eauto.
Qed.

Lemma limits_from_json_ok node limits :
  limits_from_json node = Ok limits -> limits_ok limits.
Proof.
  unfold limits_from_json, limits_ok. intros H. repeat case_match; simplify_eq; simpl.
  split_and!; eapply read_limit_ok; eassumption.
Qed.

Definition config_ok (cfg : RiskConfig) : Prop :=
  (forall l, defaults cfg = Some l -> limits_ok l)
  /\ map_Forall (fun _ => limits_ok) (instruments cfg).

Lemma read_instruments_ok fields acc m :
  map_Forall (fun _ => limits_ok) acc ->
  read_instruments fields acc = Ok m -> map_Forall (fun _ => limits_ok) m.
Proof.
  revert acc. induction fields as [|[k v] fields IH]; intros acc Ha; simpl; [naive_solver|].
  destruct (limits_from_json v) eqn:Hl; [|done]. apply IH.
  apply map_Forall_insert_2; eauto using limits_from_json_ok.
Qed.

Lemma read_defaults_ok node d l :
  read_defaults node = Ok d -> d = Some l -> limits_ok l.
Proof.
  unfold read_defaults. intros H ->. destruct (jfind node "default") as [n|]; [|done].
  destruct (limits_from_json n) eqn:Hl; simplify_eq. eauto using limits_from_json_ok.
Qed.

Lemma risk_config_ok node cfg : risk_config_from_json node = Ok cfg -> config_ok cfg.
Proof.
  unfold risk_config_from_json. intros Hcfg.
  destruct (is_object node); simpl in Hcfg; [|done].
  destruct (jempty node); [simplify_eq; split; [done|apply map_Forall_empty]|].
  destruct (read_defaults node) as [d|] eqn:Hd; [|done].
  destruct (jfind node "instruments") as [[]|]; simplify_eq.
  - destruct (read_instruments fields ∅) eqn:Hi; simplify_eq.
    split; simpl; [eauto using read_defaults_ok|].
    eapply read_instruments_ok; [apply map_Forall_empty|done].
  - split; simpl; [eauto using read_defaults_ok|apply map_Forall_empty].
Qed.

Lemma limits_for_ok cfg sym limits :
  config_ok cfg -> limits_for cfg sym = Some limits -> limits_ok limits.
Proof.
  unfold limits_for. intros [Hd Hi] Hfor.
  destruct (instruments cfg !! sym) eqn:E; simplify_eq; eauto.
Qed.

(** Limits that were accepted from the configuration file never fail to parse in the check: no
    order is refused because a configured limit is not a decimal. *)
Theorem risk_config_limits_usable node cfg sym o what text :
  risk_config_from_json node = Ok cfg ->
  In what ["maxQty"; "maxNotional"; "maxPosition"] ->
  check_risk (limits_for cfg sym) sym o <> Some (invalid_value what text).
Proof.
  intros Hcfg Hin Hrisk. apply risk_config_ok in Hcfg.
  destruct (limits_for cfg sym) as [limits|] eqn:Hfor; [|done].
  destruct (limits_for_ok _ _ _ Hcfg Hfor) as (H1 & H2 & H3).
  unfold limit_ok, denotes in *.
  unfold check_risk, check_max_qty, check_max_notional, check_max_position in Hrisk.
  destruct H1 as [H1|[? H1]], H2 as [H2|[? H2]], H3 as [H3|[? H3]];
    rewrite ?H1, ?H2, ?H3 in Hrisk; simpl in Hrisk;
    destruct Hin as [<-|[<-|[<-|[]]]]; repeat case_match; try congruence;
    solve [discriminate Hrisk
          | match goal with K : _ = Some ?e |- _ => rewrite <- K in Hrisk; discriminate Hrisk end].
Qed.

Definition sample_limits_node : json :=
  jobj [("default", jobj [("maxQty", JString "10"); ("maxNotional", JString "100000")]);
        ("instruments", jobj [("BTC-USDT", jobj [("maxPosition", JString "2.5")])])].

Definition sample_risk_order : RiskOrder := mkRiskOrder Buy "30000" "2" "-2.6".

Lemma risk_config_limits_usable_witness :
  check_risk (limits_for (mkRiskConfig (Some (mkLimits "10" "100000" ""))
                {[ "BTC-USDT" := mkLimits "" "" "2.5" ]}) "BTC-USDT") "BTC-USDT" sample_risk_order
  <> Some (invalid_value "maxQty" "").
Proof.
  apply (risk_config_limits_usable sample_limits_node); [vm_compute; reflexivity | simpl; auto].
Defined.
