(* ===== verification/Latency.v ===== *)
(** * Latency log: src/core/latency.hpp and latency.cpp

    An append-only list of measurement lines and an injected clock, read as a
    stream.  The stream is never blocking and writes never fail a trade path. *)

From S2P Require Import Prelude Json.

Definition kNoLatencyStamp : Z := -1.

(** [clock k] is the answer of the k-th reading. *)
Record LatencyLog := mkLatencyLog {
  lat_clock : nat -> Z;
  lat_reads : nat;
  lat_lines : list json }.

Definition now (l : LatencyLog) : Z * LatencyLog :=
  (lat_clock l (lat_reads l), mkLatencyLog (lat_clock l) (S (lat_reads l)) (lat_lines l)).

Definition measure_line (a_client_order_id a_phase : string) (a_start_ns a_end_ns : Z) : json :=
  jobj [("type", JString "latency"); ("phase", JString a_phase);
        ("clientOrderId", JString a_client_order_id);
        ("startNs", JInt a_start_ns); ("endNs", JInt a_end_ns);
        ("elapsedNs", JInt (a_end_ns - a_start_ns))].

Definition measure (a_client_order_id a_phase : string) (a_start_ns a_end_ns : Z)
    (l : LatencyLog) : LatencyLog :=
  if (a_start_ns <? 0) || (a_end_ns <? a_start_ns) then l
  else mkLatencyLog (lat_clock l) (lat_reads l)
         (lat_lines l ++ [measure_line a_client_order_id a_phase a_start_ns a_end_ns]).

(** [latency_ != nullptr ? latency_->now() : kNoLatencyStamp]. *)
Definition latency_now (l : option LatencyLog) : Z * option LatencyLog :=
  match l with
  | None => (kNoLatencyStamp, None)
  | Some log => let '(t, log') := now log in (t, Some log')
  end.

(** Every line that is written carries a non-negative duration. *)
Lemma measure_elapsed cid phase t0 t1 l :
  lat_lines (measure cid phase t0 t1 l) = lat_lines l
  \/ (0 <= t0 <= t1 /\
      lat_lines (measure cid phase t0 t1 l) = lat_lines l ++ [measure_line cid phase t0 t1]).
Proof.
  unfold measure. destruct (_ || _) eqn:H; [by left|right].
  apply orb_false_iff in H as [? ?]. boolify. split; [lia|done].
Qed.
