(* ===== verification/EventLog.v ===== *)
(** * The append-only event log: src/core/event_log.hpp and event_log.cpp

    Two views of one file.  To the order management system the log is the list
    of the events it has accepted, with a stream of write outcomes that the
    environment chooses ([append]).  On disk it is text: one printed event per
    line ([file_of]), and [replay] reads it back at startup, dropping a torn
    tail.  Printing and parsing JSON are the library's, hence parameters. *)

From S2P Require Import Prelude Json.

(** [faults]: outcome of the coming writes, [true] for a failing one; an
    exhausted stream means that writes succeed. *)
Record EventLog := mkEventLog {
  path : string;
  is_open : bool;
  entries : list json;
  faults : list bool }.

Definition append (a_event : json) (l : EventLog) : option Error * EventLog :=
  if negb (is_open l) then (Some (mkError "io" ("event log is not open: " +:+ path l)), l)
  else match faults l with
  | true :: rest =>
      (Some (mkError "io" ("failed to append to event log: " +:+ path l)),
       mkEventLog (path l) (is_open l) (entries l) rest)
  | false :: rest => (None, mkEventLog (path l) (is_open l) (entries l ++ [a_event]) rest)
  | [] => (None, mkEventLog (path l) (is_open l) (entries l ++ [a_event]) [])
  end.

Record ReplayStats := mkReplayStats { events : Z; tail_truncated : bool }.

(** What [std::filesystem::exists] and the input stream find at a path. *)
Inductive LogFile := NoFile | Unopenable | Unreadable | Contents (bytes : string).

(** [content.find('\n', position)], as the text before the newline and the text
    after it. *)
Fixpoint split_line (s : string) : option (string * string) :=
  match s with
  | EmptyString => None
  | String c rest =>
      if Ascii.eqb c newline then Some (EmptyString, rest)
      else match split_line rest with
           | None => None
           | Some (line, tail) => Some (String c line, tail)
           end
  end.

Section Text.
(** [json::dump] and [json::parse(line, nullptr, false)]; [None] is a
    discarded value. *)
Context (dump : json -> string) (parse : string -> option json).

Definition line_of (e : json) : string := dump e +:+ String newline EmptyString.

(** The bytes of the file after appending [es] to an empty one. *)
Fixpoint file_of (es : list json) : string :=
  match es with
  | [] => EmptyString
  | e :: rest => line_of e +:+ file_of rest
  end.

Definition corrupt_error (a_path : string) (line_number : Z) : Error :=
  mkError "persistence"
    ("corrupt event log: line " +:+ std_to_string line_number +:+ " of " +:+ a_path
     +:+ " is not a JSON object").

(** The scan of [replay]: the events handed to the sink in order, the text up
    to the last accepted line, and the statistics or the error.  Each turn
    consumes at least the newline, so the length of the content is fuel
    enough. *)
Fixpoint replay_loop (fuel : nat) (a_path rest good : string) (seen : list json)
    (line_number : Z) : list json * string * Result ReplayStats :=
  match rest with
  | EmptyString => (seen, good, Ok (mkReplayStats (Z.of_nat (length seen)) false))
  | _ =>
      match split_line rest with
      | None => (seen, good, Ok (mkReplayStats (Z.of_nat (length seen)) true))
      | Some (line, tail) =>
          match parse line with
          | Some (JObject fields) =>
              match fuel with
              | O => (seen, good, Ok (mkReplayStats (Z.of_nat (length seen)) false))
              | S fuel' =>
                  replay_loop fuel' a_path tail
                    (good +:+ line +:+ String newline EmptyString)
                    (seen ++ [JObject fields]) (line_number + 1)
              end
          | _ => (seen, good, Err (corrupt_error a_path (line_number + 1)))
          end
      end
  end.

(** The events handed to the sink (also when the replay fails later), the
    file afterwards, and the result.  An error of the truncation is the
    environment's, [resize_error]. *)
Definition replay (a_path : string) (file : LogFile) (resize_error : option string)
    : list json * LogFile * Result ReplayStats :=
  match file with
  | NoFile => ([], file, Ok (mkReplayStats 0 false))
  | Unopenable =>
      ([], file, Err (mkError "io" ("cannot open event log for replay: " +:+ a_path)))
  | Unreadable =>
      ([], file, Err (mkError "io" ("failed while reading event log: " +:+ a_path)))
  | Contents content =>
      match replay_loop (String.length content) a_path content EmptyString [] 0 with
      | (seen, _, Err e) => (seen, file, Err e)
      | (seen, good, Ok st) =>
          if tail_truncated st then
            match resize_error with
            | Some reason =>
                (seen, file, Err (mkError "io" ("cannot truncate torn event log tail: " +:+ reason)))
            | None => (seen, Contents good, Ok st)
            end
          else (seen, file, Ok st)
      end
  end.

(** ** Crash safety *)

Fixpoint no_newline (s : string) : bool :=
  match s with
  | EmptyString => true
  | String c rest => negb (Ascii.eqb c newline) && no_newline rest
  end.

(** What the library guarantees of an event that was written: it is an object
    whose compact text has no newline and parses back to it. *)
Definition printable (e : json) : Prop :=
  is_object e = true /\ no_newline (dump e) = true /\ parse (dump e) = Some e.

Lemma split_line_app l tail :
  no_newline l = true -> split_line (l +:+ String newline tail) = Some (l, tail).
Proof.
  induction l as [|c l IH]; intros Hl; rewrite ?str_app_nil_l, ?str_app_cons; [done|].
  simpl in Hl. apply andb_prop in Hl as [Hc Hl]. simpl.
  apply negb_true_iff in Hc. rewrite Hc, IH by done. done.
Qed.

Lemma split_line_none l : no_newline l = true -> split_line l = None.
Proof.
  induction l as [|c l IH]; simpl; [done|]. rewrite andb_true_iff, negb_true_iff.
  intros [-> Hl]. by rewrite IH.
Qed.

Lemma file_of_app a b : file_of (a ++ b) = file_of a +:+ file_of b.
Proof. induction a as [|e a IH]; simpl; [done|]. by rewrite IH, str_app_assoc. Qed.

(** Reading [es] lines followed by a fragment that holds no newline. *)
Lemma replay_loop_lines es fragment fuel p good seen n :
  Forall printable es -> no_newline fragment = true ->
  (length es <= fuel)%nat ->
  replay_loop fuel p (file_of es +:+ fragment) good seen n
  = (seen ++ es, good +:+ file_of es,
     Ok (mkReplayStats (Z.of_nat (length (seen ++ es))) (negb (str_empty fragment)))).
Proof.
  intros Hes Hfr. revert fuel good seen n.
  induction Hes as [|e es (Hobj & Hnl & Hparse) Hes IH]; intros fuel good seen n Hf.
  - simpl. rewrite str_app_nil_l, str_app_nil_r, app_nil_r.
    destruct fragment as [|c fragment]; [destruct fuel; done|].
    pose proof (split_line_none _ Hfr) as Hsp.
    destruct fuel; cbn [replay_loop]; rewrite Hsp; done.
  - simpl file_of. unfold line_of.
    rewrite !str_app_assoc. rewrite (str_app_cons newline), str_app_nil_l.
    set (rest := dump e +:+ String newline (file_of es +:+ fragment)).
    assert (Hne : exists c t, rest = String c t)
      by (subst rest; destruct (dump e); eexists _, _; reflexivity).
    assert (Hsp : split_line rest = Some (dump e, file_of es +:+ fragment))
      by (by apply split_line_app).
    destruct Hne as (c & t & Hne). simpl in Hf.
    destruct fuel as [|fuel]; [lia|].
    cbn [replay_loop]. rewrite Hne in *. rewrite Hsp, Hparse.
    destruct e; try done. rewrite IH by lia.
    by rewrite <- app_assoc, !str_app_assoc.
Qed.

(** A prefix of the bytes of a log is some whole lines and a fragment of the
    next one. *)
Lemma file_prefix es s t :
  Forall printable es -> file_of es = s +:+ t ->
  exists k fragment, s = file_of (take k es) +:+ fragment /\ no_newline fragment = true
    /\ (k <= length es)%nat /\ (t = EmptyString -> k = length es /\ fragment = EmptyString).
Proof.
  intros Hes. revert s t. induction Hes as [|e es (_ & Hnl & _) Hes IH]; intros s t Heq.
  - exists 0%nat, EmptyString. destruct s; [|done]. simpl. auto.
  - simpl in Heq. unfold line_of in Heq. rewrite str_app_assoc in Heq.
    assert (Hcase : forall d rest u v, no_newline d = true ->
        d +:+ String newline rest = u +:+ v ->
        (no_newline u = true /\ v <> EmptyString)
        \/ exists w, u = d +:+ String newline w /\ rest = w +:+ v).
    { clear. induction d as [|c d IHd]; intros rest u v Hd.
      - rewrite str_app_nil_l. destruct u as [|x u]; rewrite ?str_app_nil_l, ?str_app_cons.
        + intros <-. left. done.
        + intros [= <- ->]. right. eauto.
      - simpl in Hd. apply andb_prop in Hd as [Hc Hd]. rewrite str_app_cons.
        destruct u as [|x u]; rewrite ?str_app_nil_l, ?str_app_cons.
        + intros <-. left. done.
        + intros [= <- Heq]. destruct (IHd _ _ _ Hd Heq) as [[Hu Hv]|(w & -> & ->)].
          * left. split; [|done]. simpl. by rewrite Hc.
          * right. exists w. by rewrite str_app_cons. }
    rewrite (str_app_cons newline), str_app_nil_l in Heq.
    destruct (Hcase _ _ _ _ Hnl Heq) as [[Hs Ht]|(w & -> & Hrest)].
    + exists 0%nat, s. simpl. split_and!; [done|done|lia|done].
    + destruct (IH w t Hrest) as (k & fr & -> & Hfr & Hk & Hend).
      exists (S k), fr. simpl. unfold line_of.
      rewrite !str_app_assoc, (str_app_cons newline), str_app_nil_l.
      split_and!; [done|done|lia|]. intros Ht. destruct (Hend Ht). naive_solver lia.
Qed.

Lemma file_of_length es : (length es <= String.length (file_of es))%nat.
Proof.
  induction es as [|e es IH]; simpl; [lia|].
  unfold line_of. rewrite !str_length_app. simpl. lia.
Qed.

(** A file of whole lines and a torn one: the lines are delivered, the torn
    tail is cut off. *)
Lemma replay_torn p es fragment :
  Forall printable es -> no_newline fragment = true ->
  replay p (Contents (file_of es +:+ fragment)) None
  = (es, Contents (file_of es),
     Ok (mkReplayStats (Z.of_nat (length es)) (negb (str_empty fragment)))).
Proof.
  intros Hes Hfr. unfold replay. rewrite replay_loop_lines; auto.
  - simpl. destruct fragment; simpl; [by rewrite str_app_nil_r|done].
  - pose proof (file_of_length es). rewrite str_length_app. lia.
Qed.

(** When the tail cannot be cut off, the replay fails and leaves the file. *)
Lemma replay_uncut_tail p es fragment reason :
  Forall printable es -> no_newline fragment = true -> fragment <> EmptyString ->
  replay p (Contents (file_of es +:+ fragment)) (Some reason)
  = (es, Contents (file_of es +:+ fragment),
     Err (mkError "io" ("cannot truncate torn event log tail: " +:+ reason))).
Proof.
  intros Hes Hfr Hne. unfold replay. rewrite replay_loop_lines; auto.
  - simpl. by destruct fragment.
  - pose proof (file_of_length es). rewrite str_length_app. lia.
Qed.

(** The whole lines of a text are counted by its newlines. *)
Fixpoint newlines (s : string) : nat :=
  match s with
  | EmptyString => 0
  | String c rest => (if Ascii.eqb c newline then 1 else 0) + newlines rest
  end%nat.

Lemma newlines_app a b : newlines (a +:+ b) = (newlines a + newlines b)%nat.
Proof.
  induction a as [|c a IH]; rewrite ?str_app_nil_l, ?str_app_cons; simpl; [done|]. rewrite IH. lia.
Qed.

Lemma newlines_none s : no_newline s = true -> newlines s = 0%nat.
Proof.
  induction s as [|c s IH]; simpl; [done|]. rewrite andb_true_iff, negb_true_iff.
  intros [-> Hs]. by rewrite IH.
Qed.

Lemma newlines_file es : Forall printable es -> newlines (file_of es) = length es.
Proof.
  induction 1 as [|e es (_ & Hnl & _) Hes IH]; simpl; [done|].
  unfold line_of. rewrite !newlines_app, IH, newlines_none by done. simpl. lia.
Qed.

(** C32: A log cut anywhere by a crash replays to a prefix: of a file of printed events cut at
    any byte, exactly the events of the whole lines before the cut (as many as it has newlines)
    are delivered, in order; what follows the last of them is cut off the file and reported
    exactly when it is not empty (an error when it cannot be cut off); an uncut file replays
    completely, and events appended afterwards replay after that prefix. *)
Theorem replay_after_crash p es s t :
  Forall printable es -> file_of es = s +:+ t ->
  let k := newlines s in
  exists tail,
    s = file_of (take k es) +:+ tail /\ no_newline tail = true /\ (k <= length es)%nat
    /\ replay p (Contents s) None
       = (take k es, Contents (file_of (take k es)),
          Ok (mkReplayStats (Z.of_nat k) (negb (str_empty tail))))
    /\ (forall reason, tail <> EmptyString ->
         replay p (Contents s) (Some reason)
         = (take k es, Contents s,
            Err (mkError "io" ("cannot truncate torn event log tail: " +:+ reason))))
    /\ (t = EmptyString -> take k es = es /\ tail = EmptyString)
    /\ forall more, Forall printable more ->
         replay p (Contents (file_of (take k es) +:+ file_of more)) None
         = (take k es ++ more, Contents (file_of (take k es ++ more)),
            Ok (mkReplayStats (Z.of_nat (k + length more)) false)).
Proof.
  intros Hes Heq. destruct (file_prefix es s t Hes Heq) as (k & fr & -> & Hfr & Hk & Hend).
  assert (Htk : Forall printable (take k es)) by (by apply Forall_take).
  assert (Hlen : length (take k es) = k) by (by apply length_take_le).
  rewrite newlines_app, newlines_file, newlines_none, Hlen, Nat.add_0_r by done.
  exists fr. split_and!; [done|done|done| | | |].
  - by rewrite replay_torn, Hlen.
  - intros reason Hne. by apply replay_uncut_tail.
  - intros Ht. destruct (Hend Ht) as [-> ->]. by rewrite firstn_all.
  - intros more Hmore. rewrite <- file_of_app, <- (str_app_nil_r (file_of _)) at 1.
    rewrite replay_torn, length_app, Hlen; [done|by apply Forall_app|done].
Qed.

(** A complete line that is no JSON object stops the replay with a persistence error naming its
    line number, after delivering the events before it and without touching the file. *)
Theorem replay_corrupt_line p es bad rest :
  Forall printable es -> no_newline bad = true ->
  (forall j, parse bad = Some j -> is_object j = false) ->
  let file := Contents (file_of es +:+ bad +:+ String newline rest) in
  replay p file None = (es, file, Err (corrupt_error p (Z.of_nat (length es) + 1))).
Proof.
  intros Hes Hbad Hparse file. unfold file, replay.
  assert (Hloop : forall fuel good seen n, (length es <= fuel)%nat ->
    exists good',
    replay_loop fuel p (file_of es +:+ bad +:+ String newline rest) good seen n
    = (seen ++ es, good', Err (corrupt_error p (n + Z.of_nat (length es) + 1)))).
  { induction Hes as [|e es (Hobj & Hnl & Hpe) Hes IH]; intros fuel good seen n Hf.
    - simpl file_of. rewrite str_app_nil_l.
      pose proof (split_line_app bad rest Hbad) as Hsp.
      destruct (bad +:+ String newline rest) as [|c t] eqn:E; [done|].
      destruct fuel; cbn [replay_loop]; rewrite Hsp;
        (destruct (parse bad) as [j|]; [specialize (Hparse j eq_refl); destruct j; try done|]);
        exists good; by rewrite app_nil_r, Z.add_0_r.
    - simpl file_of. unfold line_of. rewrite !str_app_assoc, (str_app_cons newline), str_app_nil_l.
      pose proof (split_line_app (dump e) (file_of es +:+ bad +:+ String newline rest) Hnl) as Hsp.
      destruct (dump e +:+ _) as [|c t] eqn:E; [destruct (dump e); done|].
      simpl in Hf. destruct fuel as [|fuel]; [lia|].
      cbn [replay_loop]. rewrite Hsp, Hpe. destruct e; try done.
      destruct (IH fuel (good +:+ dump (JObject fields) +:+ String newline EmptyString)
                  (seen ++ [JObject fields]) (n + 1)) as (good' & ->); [lia|].
      exists good'. rewrite <- app_assoc. simpl length.
      replace (n + 1 + Z.of_nat (length es)) with (n + Z.of_nat (S (length es))) by lia. done. }
  edestruct (Hloop (String.length (file_of es +:+ bad +:+ String newline rest)) "" [] 0)
    as (good' & ->); [|done].
  pose proof (file_of_length es). rewrite str_length_app. lia.
Qed.
End Text.

(** ** Witnesses: a printer and a parser for one concrete event *)

Definition sample_event : json := jobj [("type", JString "state")].
Definition sample_dump (_ : json) : string := "{state}".
Definition sample_parse (s : string) : option json :=
  if s ==s "{state}" then Some sample_event else None.

Lemma sample_printable n : Forall (printable sample_dump sample_parse) (repeat sample_event n).
Proof. apply Forall_forall. intros e He. apply list_elem_of_In, repeat_spec in He as ->. done. Defined.

Lemma replay_after_crash_witness :
  exists tail,
    "{state}" +:+ String newline "{sta" = file_of sample_dump [sample_event] +:+ tail
    /\ replay sample_parse "orders.jsonl" (Contents ("{state}" +:+ String newline "{sta")) None
       = ([sample_event], Contents (file_of sample_dump [sample_event]),
          Ok (mkReplayStats 1 (negb (str_empty tail)))).
Proof.
  destruct (replay_after_crash sample_dump sample_parse "orders.jsonl" [sample_event; sample_event]
    ("{state}" +:+ String newline "{sta") ("te}" +:+ String newline EmptyString))
    as (tail & Hs & _ & _ & H & _).
  - exact (sample_printable 2).
  - reflexivity.
  - exists tail. split; [exact Hs|exact H].
Defined.

Lemma replay_corrupt_line_witness :
  let file := Contents (file_of sample_dump [sample_event] +:+ "junk" +:+ String newline EmptyString) in
  replay sample_parse "orders.jsonl" file None
  = ([sample_event], file, Err (corrupt_error "orders.jsonl" 2)).
Proof.
  apply (replay_corrupt_line sample_dump sample_parse "orders.jsonl" [sample_event] "junk" EmptyString).
  - exact (sample_printable 1).
  - reflexivity.
  - intros j Hj. discriminate Hj.
Defined.
