(* ===== verification/OmsTypes.v ===== *)
(** * Order management: data (src/core/oms.hpp) and log events (oms.cpp:13-93)

    The registry entry and the state that [OrderManagementSystem] keeps.  The
    registry and the buffer of raced reports are finite maps keyed by client
    order id; the persistence log and the latency log are optional, as the two
    pointers of the class are. *)

From S2P Require Import Prelude Types OrderState Json Risk Latency EventLog.

Record OrderLeg := mkLeg {
  leg_version : Z;
  leg_exchange_order_id : string }.

Record OrderRecord := mkRecord {
  or_client_order_id : string;
  or_symbol : string;
  or_venue : string;
  or_exchange_order_id : string;
  or_side : Side;
  or_type : OrderType;
  or_time_in_force : string;
  or_price : string;
  or_quantity : string;
  or_state : OrderState;
  or_filled_quantity : string;
  or_average_fill_price : string;
  or_legs : list OrderLeg;
  or_adopted : bool;
  or_rejection : option Error }.

#[global] Instance OrderLeg_eq_dec : EqDecision OrderLeg.
Proof. solve_decision. Defined.
#[global] Instance OrderRecord_eq_dec : EqDecision OrderRecord.
Proof. solve_decision. Defined.

(** The value a default-constructed record has ([orders_[id]] of replay). *)
Definition default_record : OrderRecord :=
  mkRecord "" "" "" "" Buy Limit "GTC" "" "" Pending "0" "" [] false None.

Definition set_exchange_order_id (v : string) (r : OrderRecord) : OrderRecord :=
  mkRecord (or_client_order_id r) (or_symbol r) (or_venue r) v (or_side r) (or_type r)
    (or_time_in_force r) (or_price r) (or_quantity r) (or_state r) (or_filled_quantity r)
    (or_average_fill_price r) (or_legs r) (or_adopted r) (or_rejection r).

Definition set_price (v : string) (r : OrderRecord) : OrderRecord :=
  mkRecord (or_client_order_id r) (or_symbol r) (or_venue r) (or_exchange_order_id r) (or_side r)
    (or_type r) (or_time_in_force r) v (or_quantity r) (or_state r) (or_filled_quantity r)
    (or_average_fill_price r) (or_legs r) (or_adopted r) (or_rejection r).

Definition set_quantity (v : string) (r : OrderRecord) : OrderRecord :=
  mkRecord (or_client_order_id r) (or_symbol r) (or_venue r) (or_exchange_order_id r) (or_side r)
    (or_type r) (or_time_in_force r) (or_price r) v (or_state r) (or_filled_quantity r)
    (or_average_fill_price r) (or_legs r) (or_adopted r) (or_rejection r).

Definition set_state (v : OrderState) (r : OrderRecord) : OrderRecord :=
  mkRecord (or_client_order_id r) (or_symbol r) (or_venue r) (or_exchange_order_id r) (or_side r)
    (or_type r) (or_time_in_force r) (or_price r) (or_quantity r) v (or_filled_quantity r)
    (or_average_fill_price r) (or_legs r) (or_adopted r) (or_rejection r).

Definition set_filled_quantity (v : string) (r : OrderRecord) : OrderRecord :=
  mkRecord (or_client_order_id r) (or_symbol r) (or_venue r) (or_exchange_order_id r) (or_side r)
    (or_type r) (or_time_in_force r) (or_price r) (or_quantity r) (or_state r) v
    (or_average_fill_price r) (or_legs r) (or_adopted r) (or_rejection r).

Definition set_average_fill_price (v : string) (r : OrderRecord) : OrderRecord :=
  mkRecord (or_client_order_id r) (or_symbol r) (or_venue r) (or_exchange_order_id r) (or_side r)
    (or_type r) (or_time_in_force r) (or_price r) (or_quantity r) (or_state r)
    (or_filled_quantity r) v (or_legs r) (or_adopted r) (or_rejection r).

Definition set_legs (v : list OrderLeg) (r : OrderRecord) : OrderRecord :=
  mkRecord (or_client_order_id r) (or_symbol r) (or_venue r) (or_exchange_order_id r) (or_side r)
    (or_type r) (or_time_in_force r) (or_price r) (or_quantity r) (or_state r)
    (or_filled_quantity r) (or_average_fill_price r) v (or_adopted r) (or_rejection r).

Definition set_rejection (v : option Error) (r : OrderRecord) : OrderRecord :=
  mkRecord (or_client_order_id r) (or_symbol r) (or_venue r) (or_exchange_order_id r) (or_side r)
    (or_type r) (or_time_in_force r) (or_price r) (or_quantity r) (or_state r)
    (or_filled_quantity r) (or_average_fill_price r) (or_legs r) (or_adopted r) v.

Record PlaceOutcome := mkPlaceOutcome { po_record : OrderRecord; po_replayed : bool }.

Record AmendCommand := mkAmendCommand {
  ac_client_order_id : string;
  ac_new_price : option string;
  ac_new_quantity : option string }.

Record PriceQuote := mkPriceQuote { pq_venue : string; pq_price : string }.

Record ReconcileReport := mkReconcileReport {
  rr_adopted : Z;
  rr_updated : Z;
  rr_terminal_resolved : Z;
  rr_absent_rejected : Z;
  rr_unresolved : Z;
  rr_pending_listing_failed : bool }.

(** [known_orders] is the size of the registry when [stats()] is called. *)
Record OmsStats := mkOmsStats {
  reports_applied : Z;
  reports_stale : Z;
  reports_unknown : Z;
  reports_buffered : Z;
  legs_discovered : Z;
  log_write_failures : Z }.

Record ConsistencyAlert := mkAlert {
  al_client_order_id : string;
  al_check : string;
  al_detail : string }.

Record AuditReport := mkAuditReport {
  au_alerts : list ConsistencyAlert;
  au_orders_checked : Z;
  au_venue_lookups : Z;
  au_lookup_failures : Z }.

(** The mutable members of the class. *)
Record Oms := mkOms {
  orders : gmap string OrderRecord;
  raced_reports : gmap string (list ExecutionReport);
  discovered_leg_notes : list (string * string);
  oms_stats : OmsStats;
  log : option EventLog;
  latency : option LatencyLog }.

(** The immutable members: connectors sorted by venue key (a [std::map]). *)
Record OmsConfig (W : Type) := mkOmsConfig {
  connectors : list (string * ExchangeConnector W);
  default_venue : string;
  risk : RiskConfig }.
Arguments mkOmsConfig {W}.
Arguments connectors {W}.
Arguments default_venue {W}.
Arguments risk {W}.

Definition with_orders (v : gmap string OrderRecord) (st : Oms) : Oms :=
  mkOms v (raced_reports st) (discovered_leg_notes st) (oms_stats st) (log st) (latency st).
Definition with_raced_reports (v : gmap string (list ExecutionReport)) (st : Oms) : Oms :=
  mkOms (orders st) v (discovered_leg_notes st) (oms_stats st) (log st) (latency st).
Definition with_notes (v : list (string * string)) (st : Oms) : Oms :=
  mkOms (orders st) (raced_reports st) v (oms_stats st) (log st) (latency st).
Definition with_stats (v : OmsStats) (st : Oms) : Oms :=
  mkOms (orders st) (raced_reports st) (discovered_leg_notes st) v (log st) (latency st).
Definition with_log (v : option EventLog) (st : Oms) : Oms :=
  mkOms (orders st) (raced_reports st) (discovered_leg_notes st) (oms_stats st) v (latency st).
Definition with_latency (v : option LatencyLog) (st : Oms) : Oms :=
  mkOms (orders st) (raced_reports st) (discovered_leg_notes st) (oms_stats st) (log st) v.

Definition put_record (id : string) (r : OrderRecord) (st : Oms) : Oms :=
  with_orders (<[id := r]> (orders st)) st.

(** Counters are 64-bit and unsigned. *)
Definition incr64 (n : Z) : Z := (n + 1) mod 2 ^ 64.

Definition count_applied (s : OmsStats) : OmsStats :=
  mkOmsStats (incr64 (reports_applied s)) (reports_stale s) (reports_unknown s)
    (reports_buffered s) (legs_discovered s) (log_write_failures s).
Definition count_stale (s : OmsStats) : OmsStats :=
  mkOmsStats (reports_applied s) (incr64 (reports_stale s)) (reports_unknown s)
    (reports_buffered s) (legs_discovered s) (log_write_failures s).
Definition count_unknown (s : OmsStats) : OmsStats :=
  mkOmsStats (reports_applied s) (reports_stale s) (incr64 (reports_unknown s))
    (reports_buffered s) (legs_discovered s) (log_write_failures s).
Definition count_buffered (s : OmsStats) : OmsStats :=
  mkOmsStats (reports_applied s) (reports_stale s) (reports_unknown s)
    (incr64 (reports_buffered s)) (legs_discovered s) (log_write_failures s).
Definition count_discovered (s : OmsStats) : OmsStats :=
  mkOmsStats (reports_applied s) (reports_stale s) (reports_unknown s)
    (reports_buffered s) (incr64 (legs_discovered s)) (log_write_failures s).
Definition count_log_failure (s : OmsStats) : OmsStats :=
  mkOmsStats (reports_applied s) (reports_stale s) (reports_unknown s)
    (reports_buffered s) (legs_discovered s) (incr64 (log_write_failures s)).

Definition bump (f : OmsStats -> OmsStats) (st : Oms) : Oms := with_stats (f (oms_stats st)) st.

(** ** Log events *)

Definition event_string (a_event : json) (a_name : string) : option string :=
  jstring a_event a_name.

(** [a_record.legs.empty() ? 1 : a_record.legs.back().version]. *)
Definition last_version (r : OrderRecord) : Z :=
  match list.last (or_legs r) with None => 1 | Some leg => leg_version leg end.

Definition place_submitted_event (r : OrderRecord) : json :=
  jobj [("type", JString "place_submitted");
        ("clientOrderId", JString (or_client_order_id r));
        ("symbol", JString (or_symbol r));
        ("venue", JString (or_venue r));
        ("side", JString (side_to_string (or_side r)));
        ("orderType", JString (type_to_string (or_type r)));
        ("price", JString (or_price r));
        ("quantity", JString (or_quantity r));
        ("timeInForce", JString (or_time_in_force r))].

Definition place_accepted_event (r : OrderRecord) : json :=
  jobj [("type", JString "place_accepted");
        ("clientOrderId", JString (or_client_order_id r));
        ("symbol", JString (or_symbol r));
        ("venue", JString (or_venue r));
        ("side", JString (side_to_string (or_side r)));
        ("orderType", JString (type_to_string (or_type r)));
        ("price", JString (or_price r));
        ("quantity", JString (or_quantity r));
        ("timeInForce", JString (or_time_in_force r));
        ("exchangeOrderId", JString (or_exchange_order_id r));
        ("version", JUint (last_version r))].

Definition adopted_event (r : OrderRecord) : json :=
  jset (jset (jset (jset (place_accepted_event r)
    "type" (JString "adopted"))
    "state" (JString (to_string (or_state r))))
    "filledQuantity" (JString (or_filled_quantity r)))
    "averageFillPrice" (JString (or_average_fill_price r)).

Definition rejected_event (r : OrderRecord) : json :=
  let error := match or_rejection r with Some e => e | None => mkError "" "" end in
  jobj [("type", JString "rejected");
        ("clientOrderId", JString (or_client_order_id r));
        ("symbol", JString (or_symbol r));
        ("venue", JString (or_venue r));
        ("code", JString (code error));
        ("reason", JString (message error))].

Definition amended_event (r : OrderRecord) : json :=
  jobj [("type", JString "amended");
        ("clientOrderId", JString (or_client_order_id r));
        ("price", JString (or_price r));
        ("quantity", JString (or_quantity r));
        ("state", JString (to_string (or_state r)));
        ("exchangeOrderId", JString (or_exchange_order_id r));
        ("version", JUint (last_version r))].

Definition state_event (r : OrderRecord) : json :=
  jobj [("type", JString "state");
        ("clientOrderId", JString (or_client_order_id r));
        ("state", JString (to_string (or_state r)));
        ("filledQuantity", JString (or_filled_quantity r));
        ("averageFillPrice", JString (or_average_fill_price r));
        ("exchangeOrderId", JString (or_exchange_order_id r));
        ("version", JUint (last_version r))].

Lemma event_string_jobj fields k :
  event_string (jobj fields) k
  = match obj_find k fields with Some (JString s) => Some s | _ => None end.
Proof. unfold event_string, jstring. by rewrite jfind_jobj. Qed.
