(* ===== verification/Oms.v ===== *)
(** * Order management operations: src/core/oms.cpp

    Every public operation is written as the code is: a critical section that
    runs under the mutex, the venue call without it, and a second critical
    section.  The critical sections are pure functions on [Oms]; the operations
    at the end of the file compose them around a connector in one thread, and
    [OmsSystem] interleaves them.

    A helper that takes a reference to a registry record takes the record and
    returns it; the caller writes it back. *)

From S2P Require Import Prelude Types OrderState Decimal Json Risk Latency EventLog OmsTypes.

(** ** Log writes *)

Definition append_or_error (a_event : json) (st : Oms) : option Error * Oms :=
  match log st with
  | None => (None, st)
  | Some l => let '(failure, l') := append a_event l in (failure, with_log (Some l') st)
  end.

Definition append_event (a_event : json) (st : Oms) : Oms :=
  match append_or_error a_event st with
  | (None, st') => st'
  | (Some _, st') => bump count_log_failure st'
  end.

(** ** Legs *)

Definition push_leg (a_record : OrderRecord) (a_id : string) : OrderRecord :=
  set_legs (or_legs a_record ++ [mkLeg (Z.of_nat (length (or_legs a_record)) + 1) a_id]) a_record.

Definition note_exchange_id (a_record : OrderRecord) (a_id : string) : OrderRecord :=
  if str_empty a_id || (a_id ==s or_exchange_order_id a_record) then a_record
  else push_leg (set_exchange_order_id a_id a_record) a_id.

Definition append_amend_leg (a_record : OrderRecord) (a_id : string) : OrderRecord :=
  if str_empty a_id then a_record
  else set_exchange_order_id a_id (push_leg a_record a_id).

(** The scan of [leg_index_of]: the last match wins. *)
Fixpoint leg_scan (legs : list OrderLeg) (a_id : string) (index : nat) (found : option nat)
    : option nat :=
  match legs with
  | [] => found
  | leg :: rest =>
      leg_scan rest a_id (S index)
        (if leg_exchange_order_id leg ==s a_id then Some index else found)
  end.

Definition leg_index_of (a_record : OrderRecord) (a_id : string) : option nat :=
  leg_scan (or_legs a_record) a_id 0 None.

Definition kMaxDiscoveredLegNotes : nat := 256.

(** The [while] pops from the front until at most the maximum is left. *)
Definition note_discovered_leg (a_client_order_id a_exchange_order_id : string) (st : Oms) : Oms :=
  let notes := discovered_leg_notes st ++ [(a_client_order_id, a_exchange_order_id)] in
  with_notes (drop (length notes - kMaxDiscoveredLegNotes) notes) st.

Definition adopt_unknown_leg (a_record : OrderRecord) (a_id : string) (st : Oms)
    : OrderRecord * Oms :=
  let a_record := note_exchange_id a_record a_id in
  (a_record,
   note_discovered_leg (or_client_order_id a_record) a_id (bump count_discovered st)).

(** ** Observations *)

(** The fill part of [apply_observation]: whether it moved, and the record. *)
Definition observe_fill (a_record : OrderRecord) (a_filled a_avg_price : string)
    : bool * OrderRecord :=
  if str_empty a_filled then (false, a_record)
  else
    let reported := parse_decimal a_filled in
    let current := parse_decimal (if str_empty (or_filled_quantity a_record) then "0"
                                  else or_filled_quantity a_record) in
    match reported, current with
    | Ok r, Ok c =>
        if 0 <? compare r c then
          let a_record := set_filled_quantity a_filled a_record in
          (true, if str_empty a_avg_price then a_record
                 else set_average_fill_price a_avg_price a_record)
        else (false, a_record)
    | _, _ => (false, a_record)
    end.

Definition observe_state (a_record : OrderRecord) (a_state : OrderState) : bool * OrderRecord :=
  if OrderState_eqb a_state (or_state a_record) then (false, a_record)
  else match apply_transition (or_state a_record) a_state with
       | (Applied, s) => (true, set_state s a_record)
       | (TransitionRejected, s) => (false, set_state s a_record)
       end.

Definition observe_price (a_record : OrderRecord) (a_price : string) : bool * OrderRecord :=
  if negb (str_empty a_price) && (a_price <>s or_price a_record)
  then (true, set_price a_price a_record) else (false, a_record).

Definition observe_quantity (a_record : OrderRecord) (a_quantity : string) : bool * OrderRecord :=
  if negb (str_empty a_quantity) && (a_quantity <>s or_quantity a_record)
  then (true, set_quantity a_quantity a_record) else (false, a_record).

Definition apply_observation (a_record : OrderRecord) (a_state : OrderState)
    (a_filled a_avg_price a_price a_quantity : string) (a_apply_lifecycle : bool)
    : bool * OrderRecord :=
  let '(filled_changed, a_record) := observe_fill a_record a_filled a_avg_price in
  if a_apply_lifecycle then
    let '(state_changed, a_record) := observe_state a_record a_state in
    let '(price_changed, a_record) := observe_price a_record a_price in
    let '(quantity_changed, a_record) := observe_quantity a_record a_quantity in
    (filled_changed || state_changed || price_changed || quantity_changed, a_record)
  else (filled_changed, a_record).

Definition apply_report (a_record : OrderRecord) (a_report : ExecutionReport)
    (a_apply_lifecycle : bool) (st : Oms) : OrderRecord * Oms :=
  let a_record := if str_empty (or_exchange_order_id a_record)
                  then note_exchange_id a_record (er_exchange_order_id a_report) else a_record in
  let '(changed, a_record) :=
    apply_observation a_record (er_state a_report) (er_filled_quantity a_report)
      (er_average_fill_price a_report) "" "" a_apply_lifecycle in
  if changed
  then (a_record, append_event (state_event a_record) (bump count_applied st))
  else (a_record, bump count_stale st).

Definition apply_arbitrated_report (a_record : OrderRecord) (a_report : ExecutionReport)
    (st : Oms) : OrderRecord * Oms :=
  if negb (str_empty (er_exchange_order_id a_report)) && negb (is_nil (or_legs a_record)) then
    match leg_index_of a_record (er_exchange_order_id a_report) with
    | None =>
        let '(a_record, st) := adopt_unknown_leg a_record (er_exchange_order_id a_report) st in
        apply_report a_record a_report true st
    | Some match_ =>
        apply_report a_record a_report (negb (S match_ <? length (or_legs a_record))%nat) st
    end
  else apply_report a_record a_report true st.

(** The loops over the drained reports. *)
Fixpoint apply_raced (raced : list ExecutionReport) (a_record : OrderRecord) (st : Oms)
    : OrderRecord * Oms :=
  match raced with
  | [] => (a_record, st)
  | entry :: rest =>
      let '(a_record, st) := apply_arbitrated_report a_record entry st in
      apply_raced rest a_record st
  end.

Definition drain_raced_reports (a_client_order_id : string) (st : Oms)
    : list ExecutionReport * Oms :=
  match raced_reports st !! a_client_order_id with
  | None => ([], st)
  | Some raced =>
      (raced, with_raced_reports (delete a_client_order_id (raced_reports st)) st)
  end.

(** ** Positions *)

Definition add_in (projected a_amount : Decimal) : Decimal :=
  match add projected a_amount with Ok sum => sum | Err _ => projected end.

Definition signed_amount (a_side : Side) (a_magnitude : Decimal) : Decimal :=
  match a_side with Sell => negate a_magnitude | Buy => a_magnitude end.

(** One turn of the loop over the registry.  [None] is the exception that
    [filled.value()] throws when the recorded fill is not a decimal. *)
Definition project_record (a_symbol : string) (a_replace : option OrderRecord)
    (projected : Decimal) (entry : string * OrderRecord) : option Decimal :=
  let '(id, record) := entry in
  if or_symbol record <>s a_symbol then Some projected
  else
    let filled := parse_decimal (if str_empty (or_filled_quantity record) then "0"
                                 else or_filled_quantity record) in
    let projected :=
      match filled with
      | Ok f => if negb (is_zero f) then add_in projected (signed_amount (or_side record) f)
                else projected
      | Err _ => projected
      end in
    if is_terminal (or_state record)
       || match a_replace with Some r => id ==s or_client_order_id r | None => false end
    then Some projected
    else match parse_decimal (or_quantity record) with
         | Err _ => Some projected
         | Ok quantity =>
             match filled with
             | Err _ => None
             | Ok f => Some (add_in projected
                               (signed_amount (or_side record) (sub_clamped_zero quantity f)))
             end
         end.

Fixpoint project_records (a_symbol : string) (a_replace : option OrderRecord)
    (projected : Decimal) (entries : list (string * OrderRecord)) : option Decimal :=
  match entries with
  | [] => Some projected
  | entry :: rest =>
      match project_record a_symbol a_replace projected entry with
      | None => None
      | Some projected => project_records a_symbol a_replace projected rest
      end
  end.

Definition project_candidate (a_replace : option OrderRecord) (a_candidate_side : Side)
    (a_candidate_qty : string) (projected : Decimal) : Decimal :=
  match parse_decimal a_candidate_qty with
  | Err _ => projected
  | Ok candidate_qty =>
      match parse_decimal (match a_replace with
                           | Some r => if negb (str_empty (or_filled_quantity r))
                                       then or_filled_quantity r else "0"
                           | None => "0"
                           end) with
      | Err _ => projected
      | Ok candidate_filled =>
          add_in projected
            (signed_amount a_candidate_side (sub_clamped_zero candidate_qty candidate_filled))
      end
  end.

Definition projected_position (a_symbol : string) (a_replace : option OrderRecord)
    (a_candidate_side : Side) (a_candidate_qty : string) (st : Oms) : option string :=
  match project_records a_symbol a_replace (mkDecimal 0 0) (map_to_list (orders st)) with
  | None => None
  | Some projected =>
      Some (decimal_to_string
              (project_candidate a_replace a_candidate_side a_candidate_qty projected))
  end.

(** ** The venue-facing operations *)

Section Operations.
Context {W : Type} (cfg : OmsConfig W).

Fixpoint find_connector (cs : list (string * ExchangeConnector W)) (a_venue : string)
    : option (ExchangeConnector W) :=
  match cs with
  | [] => None
  | (key, connector) :: rest =>
      if a_venue ==s key then Some connector else find_connector rest a_venue
  end.

Definition connector_for (a_venue : string) : option (ExchangeConnector W) :=
  find_connector (connectors cfg) a_venue.

Definition connector_for_record (a_record : OrderRecord) : option (ExchangeConnector W) :=
  if negb (str_empty (or_venue a_record)) then connector_for (or_venue a_record)
  else connector_for (default_venue cfg).

Definition venues : list string := map fst (connectors cfg).

Definition unsupported_venue_error (a_venue : string) : Error :=
  mkError "invalid_request"
    ("unsupported venue " +:+ dquote +:+ a_venue +:+ dquote +:+ " (configured: "
     +:+ comma_join venues +:+ ")").

Definition lookup (a_client_order_id : string) (st : Oms) : option OrderRecord :=
  orders st !! a_client_order_id.

Definition not_found (a_client_order_id : string) : Error :=
  mkError "not_found" ("unknown clientOrderId " +:+ a_client_order_id).

Definition order_terminal (r : OrderRecord) : Error :=
  mkError "order_terminal"
    ("order " +:+ or_client_order_id r +:+ " is " +:+ to_string (or_state r)).

Definition no_connector (r : OrderRecord) : Error :=
  mkError "internal" ("no connector for venue " +:+ dquote +:+ or_venue r +:+ dquote).

(** *** place *)

(** What the first critical section of [place] decides: an outcome, a venue
    to call, or the exception of [projected_position]. *)
Inductive PlaceStep :=
  | PlaceDone (outcome : Result PlaceOutcome)
  | PlaceSend (connector : ExchangeConnector W)
  | PlaceThrows.

Definition candidate_of (a_request : OrderRequest) (a_venue : string) : OrderRecord :=
  mkRecord (rq_client_order_id a_request) (rq_instrument_id a_request) a_venue ""
    (rq_side a_request) (rq_type a_request)
    (if str_empty (rq_time_in_force a_request) then "GTC" else rq_time_in_force a_request)
    (rq_price a_request) (rq_quantity a_request) Pending "0" "" [] false None.

Definition resolve_venue (a_venue : string) : string :=
  if str_empty a_venue then default_venue cfg else a_venue.

(** [try_emplace] of an empty buffer. *)
Definition open_buffer (id : string) (st : Oms) : Oms :=
  match raced_reports st !! id with
  | Some _ => st
  | None => with_raced_reports (<[id := []]> (raced_reports st)) st
  end.

Definition stage_place (connector : ExchangeConnector W) (candidate : OrderRecord) (st : Oms)
    : PlaceStep * Oms :=
  match append_or_error (place_submitted_event candidate) st with
  | (Some persist_error, st) =>
      (PlaceDone (Err (mkError "persistence"
         (message persist_error +:+ " (order was not sent to the venue)"))),
       bump count_log_failure st)
  | (None, st) =>
      (PlaceSend connector,
       open_buffer (or_client_order_id candidate)
         (put_record (or_client_order_id candidate) candidate st))
  end.

Definition reject_place (candidate : OrderRecord) (rejection : Error) (st : Oms)
    : PlaceStep * Oms :=
  let candidate := set_rejection (Some rejection) (set_state Rejected candidate) in
  match append_or_error (rejected_event candidate) st with
  | (Some persist_error, st) =>
      (PlaceDone (Err persist_error),
       bump count_log_failure (put_record (or_client_order_id candidate) candidate st))
  | (None, st) =>
      (PlaceDone (Err rejection), put_record (or_client_order_id candidate) candidate st)
  end.

(** Critical section 1: dedup, risk, stage the pending record. *)
Definition place_begin (a_request : OrderRequest) (a_venue : string) (st : Oms)
    : PlaceStep * Oms :=
  let venue := resolve_venue a_venue in
  match lookup (rq_client_order_id a_request) st with
  | Some existing =>
      match or_rejection existing with
      | Some rejection => (PlaceDone (Err rejection), st)
      | None => (PlaceDone (Ok (mkPlaceOutcome existing true)), st)
      end
  | None =>
      match connector_for venue with
      | None => (PlaceDone (Err (unsupported_venue_error venue)), st)
      | Some connector =>
          let candidate := candidate_of a_request venue in
          match limits_for (risk cfg) (rq_instrument_id a_request) with
          | None => stage_place connector candidate st
          | Some limits =>
              match projected_position (rq_instrument_id a_request) None
                      (rq_side a_request) (rq_quantity a_request) st with
              | None => (PlaceThrows, st)
              | Some position =>
                  match check_risk (Some limits) (rq_instrument_id a_request)
                          (mkRiskOrder (rq_side a_request) (rq_price a_request)
                             (rq_quantity a_request) position) with
                  | Some rejection => reject_place candidate rejection st
                  | None => stage_place connector candidate st
                  end
              end
          end
      end
  end.

(** The send stamps, taken between the critical sections. *)
Definition place_send_stamps (a_client_order_id : string) (a_rest_hit_ns oms_entry_ns : Z)
    (st : Oms) : Oms :=
  match latency st with
  | None => st
  | Some l =>
      let '(send_ns, l) := now l in
      let l := if negb (a_rest_hit_ns =? kNoLatencyStamp)
               then measure a_client_order_id "place_send_rest" a_rest_hit_ns send_ns l else l in
      let l := if negb (oms_entry_ns =? kNoLatencyStamp)
               then measure a_client_order_id "place_send_oms" oms_entry_ns send_ns l else l in
      with_latency (Some l) st
  end.

(** Critical section 2: apply the outcome, drain raced reports. *)
Definition place_finish (a_request : OrderRequest) (placement : Result OrderPlacement)
    (st : Oms) : Result PlaceOutcome * Oms :=
  let id := rq_client_order_id a_request in
  let '(raced, st) := drain_raced_reports id st in
  match lookup id st with
  | None => (Err (mkError "internal" ("pending place vanished for " +:+ id)), st)
  | Some record =>
      match placement with
      | Err error =>
          if code error <>s "transport" then
            match apply_transition (or_state record) Rejected with
            | (Applied, s) =>
                let record := set_rejection (Some error) (set_state s record) in
                (Err error, put_record id record (append_event (rejected_event record) st))
            | (TransitionRejected, _) => (Err error, st)
            end
          else
            let '(record, st) := apply_raced raced record st in
            (Err error, put_record id record st)
      | Ok ack =>
          let record := note_exchange_id record (op_exchange_order_id ack) in
          let record := set_state (apply_transition (or_state record) Live).2 record in
          match append_or_error (place_accepted_event record) st with
          | (Some persist_error, st) =>
              (Err (mkError "persistence"
                 (message persist_error
                  +:+ " (order was accepted by the venue; retry replays it)")),
               bump count_log_failure (put_record id record st))
          | (None, st) =>
              let '(record, st) := apply_raced raced record st in
              (Ok (mkPlaceOutcome record false), put_record id record st)
          end
      end
  end.

(** *** cancel *)

Inductive CancelStep :=
  | CancelDone (outcome : Result OrderRecord)
  | CancelSend (connector : ExchangeConnector W) (wire : CancelRequest).

Definition cancel_begin (a_client_order_id : string) (st : Oms) : CancelStep :=
  match lookup a_client_order_id st with
  | None => CancelDone (Err (not_found a_client_order_id))
  | Some record =>
      if OrderState_eqb (or_state record) Pending then
        CancelDone (Err (mkError "order_pending"
          ("order " +:+ or_client_order_id record +:+ " is pending venue acknowledgement; "
           +:+ "cancel after the venue acknowledges it")))
      else if OrderState_eqb (or_state record) Canceled then CancelDone (Ok record)
      else if is_terminal (or_state record) then CancelDone (Err (order_terminal record))
      else match connector_for_record record with
           | None => CancelDone (Err (no_connector record))
           | Some connector =>
               CancelSend connector
                 (mkCancelRequest (or_client_order_id record) (or_symbol record))
           end
  end.

Definition cancel_finish (a_client_order_id : string) (placement : Result OrderPlacement)
    (st : Oms) : Result OrderRecord * Oms :=
  match lookup a_client_order_id st with
  | None => (Err (not_found a_client_order_id), st)
  | Some record =>
      match placement with
      | Err error => (Err error, st)
      | Ok ack =>
          let record := note_exchange_id record (op_exchange_order_id ack) in
          match apply_transition (or_state record) Canceled with
          | (Applied, s) =>
              let record := set_state s record in
              (Ok record,
               put_record a_client_order_id record (append_event (state_event record) st))
          | (TransitionRejected, _) => (Ok record, put_record a_client_order_id record st)
          end
      end
  end.

(** *** amend *)

Inductive AmendStep :=
  | AmendDone (outcome : Result OrderRecord)
  | AmendSend (connector : ExchangeConnector W) (wire : AmendRequest)
  | AmendThrows.

(** The end of the first critical section: the buffer marks the open call. *)
Definition stage_amend (connector : ExchangeConnector W) (a_client_order_id : string)
    (record : OrderRecord) (new_price new_quantity : string) (st : Oms) : AmendStep * Oms :=
  let wire := mkAmendRequest (or_client_order_id record) (or_symbol record)
                (Some new_price) (Some new_quantity) (Some (or_side record))
                (Some (or_type record)) (or_time_in_force record) in
  match raced_reports st !! a_client_order_id with
  | Some _ =>
      (AmendDone (Err (mkError "order_busy"
         ("a place/amend for " +:+ a_client_order_id
          +:+ " is still in flight; retry once it resolves"))), st)
  | None =>
      (AmendSend connector wire,
       with_raced_reports (<[a_client_order_id := []]> (raced_reports st)) st)
  end.

Definition amend_begin (a_command : AmendCommand) (st : Oms) : AmendStep * Oms :=
  let id := ac_client_order_id a_command in
  if is_none (ac_new_price a_command) && is_none (ac_new_quantity a_command) then
    (AmendDone (Err (mkError "protocol" "amend requires a new price and/or quantity")), st)
  else
  match lookup id st with
  | None => (AmendDone (Err (not_found id)), st)
  | Some record =>
      if OrderState_eqb (or_state record) Pending then
        (AmendDone (Err (mkError "order_pending"
           ("order " +:+ or_client_order_id record +:+ " is pending venue acknowledgement; "
            +:+ "amend after the venue acknowledges it"))), st)
      else if is_terminal (or_state record) then (AmendDone (Err (order_terminal record)), st)
      else
      match connector_for_record record with
      | None => (AmendDone (Err (no_connector record)), st)
      | Some connector =>
          let new_price := default (or_price record) (ac_new_price a_command) in
          let new_quantity := default (or_quantity record) (ac_new_quantity a_command) in
          match limits_for (risk cfg) (or_symbol record) with
          | None => stage_amend connector id record new_price new_quantity st
          | Some limits =>
              match projected_position (or_symbol record) (Some record) (or_side record)
                      new_quantity st with
              | None => (AmendThrows, st)
              | Some position =>
                  match check_risk (Some limits) (or_symbol record)
                          (mkRiskOrder (or_side record) new_price new_quantity position) with
                  | Some rejection => (AmendDone (Err rejection), st)
                  | None => stage_amend connector id record new_price new_quantity st
                  end
              end
          end
      end
  end.

(** The newest buffered id that no leg knows; empty when there is none. *)
Fixpoint newest_unknown (record : OrderRecord) (raced : list ExecutionReport) (acc : string)
    : string :=
  match raced with
  | [] => acc
  | entry :: rest =>
      newest_unknown record rest
        (if negb (str_empty (er_exchange_order_id entry))
            && is_none (leg_index_of record (er_exchange_order_id entry))
         then er_exchange_order_id entry else acc)
  end.

Definition amend_finish (a_client_order_id : string) (wire : AmendRequest)
    (placement : Result OrderPlacement) (st : Oms) : Result OrderRecord * Oms :=
  let id := a_client_order_id in
  let '(raced, st) := drain_raced_reports id st in
  match lookup id st with
  | None => (Err (not_found id), st)
  | Some record =>
      match placement with
      | Err error =>
          let '(record, st) :=
            if negb (is_nil (or_legs record)) then
              let newest := newest_unknown record raced "" in
              if negb (str_empty newest) then adopt_unknown_leg record newest st
              else (record, st)
            else (record, st) in
          let '(record, st) := apply_raced raced record st in
          (Err error, put_record id record st)
      | Ok ack =>
          let record := set_price (default "" (am_new_price wire)) record in
          let record := set_quantity (default "" (am_new_quantity wire)) record in
          let record := append_amend_leg record (op_exchange_order_id ack) in
          match append_or_error (amended_event record) st with
          | (Some persist_error, st) =>
              (Err (mkError "persistence"
                 (message persist_error
                  +:+ " (the amend was accepted by the venue; "
                  +:+ "reconcile or an execution report converges it)")),
               bump count_log_failure (put_record id record st))
          | (None, st) =>
              let '(record, st) := apply_raced raced record st in
              (Ok record, put_record id record st)
          end
      end
  end.

(** *** Reads *)

Definition query (a_client_order_id : string) (st : Oms) : Result OrderRecord :=
  match lookup a_client_order_id st with
  | None => Err (not_found a_client_order_id)
  | Some record => Ok record
  end.

Definition id_le (a_lhs a_rhs : OrderRecord) : Prop :=
  String.leb (or_client_order_id a_lhs) (or_client_order_id a_rhs) = true.

#[global] Instance id_le_dec a b : Decision (id_le a b).
Proof. unfold id_le. apply bool_eq_dec. Defined.

Definition all_orders (st : Oms) : list OrderRecord :=
  merge_sort id_le (map snd (map_to_list (orders st))).

Definition stats (st : Oms) : Z * OmsStats := (Z.of_nat (size (orders st)), oms_stats st).

(** *** Execution reports *)

Definition on_execution_report (a_report : ExecutionReport) (st : Oms) : Oms :=
  let '(received_ns, l) := latency_now (latency st) in
  let st := with_latency l st in
  let id := er_client_order_id a_report in
  match raced_reports st !! id with
  | Some flying =>
      bump count_buffered
        (with_raced_reports (<[id := flying ++ [a_report]]> (raced_reports st)) st)
  | None =>
      match lookup id st with
      | None => bump count_unknown st
      | Some record =>
          let applied_before := reports_applied (oms_stats st) in
          let '(record, st) := apply_arbitrated_report record a_report st in
          let st := put_record id record st in
          match latency st with
          | Some l =>
              if applied_before <? reports_applied (oms_stats st) then
                let '(end_ns, l) := now l in
                with_latency
                  (Some (measure id "fill_state_update" received_ns end_ns l)) st
              else st
          | None => st
          end
      end
  end.

(** *** The operations, around a connector *)

Definition place (a_request : OrderRequest) (a_venue : string) (a_rest_hit_ns : Z)
    (st : Oms) (w : W) : option (Result PlaceOutcome) * Oms * W :=
  let '(oms_entry_ns, l) := latency_now (latency st) in
  let st := with_latency l st in
  match place_begin a_request a_venue st with
  | (PlaceDone outcome, st) => (Some outcome, st, w)
  | (PlaceThrows, st) => (None, st, w)
  | (PlaceSend connector, st) =>
      let st := place_send_stamps (rq_client_order_id a_request) a_rest_hit_ns
                  oms_entry_ns st in
      let '(placement, w) := place_order a_request w in
      let '(outcome, st) := place_finish a_request placement st in
      (Some outcome, st, w)
  end.

Definition cancel (a_client_order_id : string) (st : Oms) (w : W)
    : Result OrderRecord * Oms * W :=
  match cancel_begin a_client_order_id st with
  | CancelDone outcome => (outcome, st, w)
  | CancelSend connector wire =>
      let '(placement, w) := cancel_order wire w in
      let '(outcome, st) := cancel_finish a_client_order_id placement st in
      (outcome, st, w)
  end.

Definition amend (a_command : AmendCommand) (st : Oms) (w : W)
    : option (Result OrderRecord) * Oms * W :=
  match amend_begin a_command st with
  | (AmendDone outcome, st) => (Some outcome, st, w)
  | (AmendThrows, st) => (None, st, w)
  | (AmendSend connector wire, st) =>
      let '(placement, w) := amend_order wire w in
      let '(outcome, st) := amend_finish (ac_client_order_id a_command) wire placement st in
      (Some outcome, st, w)
  end.

Definition oms_get_price (a_symbol a_venue : string) (w : W) : Result PriceQuote * W :=
  let venue := resolve_venue a_venue in
  match connector_for venue with
  | None => (Err (unsupported_venue_error venue), w)
  | Some connector =>
      let '(price, w) := get_price a_symbol w in
      (let! p := price in Ok (mkPriceQuote venue p), w)
  end.
End Operations.

Arguments PlaceDone {W} outcome.
Arguments PlaceSend {W} connector.
Arguments PlaceThrows {W}.
Arguments CancelDone {W} outcome.
Arguments CancelSend {W} connector wire.
Arguments AmendDone {W} outcome.
Arguments AmendSend {W} connector wire.
Arguments AmendThrows {W}.
