(* ===== verification/OmsReconcile.v ===== *)
(** * Reconciliation with the venues: oms.cpp, [record_from_snapshot] and [reconcile]

    Phase A applies the open-order listing of every venue, phase B looks every
    non-terminal order up.  Each is a sequence of critical sections between
    venue calls: [listing_section], [reconcile_worklist] and [resolve_section]
    are those sections, [reconcile] is their sequence in one thread. *)

From S2P Require Import Prelude Types OrderState Json Risk OmsTypes Oms.

Definition empty_report : ReconcileReport := mkReconcileReport 0 0 0 0 0 false.

Definition count_adopted (r : ReconcileReport) : ReconcileReport :=
  mkReconcileReport (rr_adopted r + 1) (rr_updated r) (rr_terminal_resolved r)
    (rr_absent_rejected r) (rr_unresolved r) (rr_pending_listing_failed r).
Definition count_updated (r : ReconcileReport) : ReconcileReport :=
  mkReconcileReport (rr_adopted r) (rr_updated r + 1) (rr_terminal_resolved r)
    (rr_absent_rejected r) (rr_unresolved r) (rr_pending_listing_failed r).
Definition count_terminal (r : ReconcileReport) : ReconcileReport :=
  mkReconcileReport (rr_adopted r) (rr_updated r) (rr_terminal_resolved r + 1)
    (rr_absent_rejected r) (rr_unresolved r) (rr_pending_listing_failed r).
Definition count_absent (r : ReconcileReport) : ReconcileReport :=
  mkReconcileReport (rr_adopted r) (rr_updated r) (rr_terminal_resolved r)
    (rr_absent_rejected r + 1) (rr_unresolved r) (rr_pending_listing_failed r).
Definition count_unresolved (r : ReconcileReport) : ReconcileReport :=
  mkReconcileReport (rr_adopted r) (rr_updated r) (rr_terminal_resolved r)
    (rr_absent_rejected r) (rr_unresolved r + 1) (rr_pending_listing_failed r).
Definition flag_listing_failed (r : ReconcileReport) : ReconcileReport :=
  mkReconcileReport (rr_adopted r) (rr_updated r) (rr_terminal_resolved r)
    (rr_absent_rejected r) (rr_unresolved r) true.

Definition snapshot_record (s : OrderSnapshot) (a_venue : string) (a_adopted : bool)
    : OrderRecord :=
  mkRecord (os_client_order_id s) (os_instrument_id s) a_venue (os_exchange_order_id s)
    (os_side s) (os_type s) "GTC" (os_price s) (os_quantity s) (os_state s)
    (if str_empty (os_filled_quantity s) then "0" else os_filled_quantity s)
    (os_average_fill_price s)
    (if negb (str_empty (os_exchange_order_id s)) then [mkLeg 1 (os_exchange_order_id s)] else [])
    a_adopted None.

Definition record_from_snapshot (a_snapshot : OrderSnapshot) (a_venue : string)
    (a_adopted : bool) (st : Oms) : Oms :=
  let record := snapshot_record a_snapshot a_venue a_adopted in
  let st := append_event (if a_adopted then adopted_event record
                          else place_accepted_event record) st in
  put_record (or_client_order_id record) record st.

(** One snapshot of a venue's open-order listing. *)
Definition list_snapshot (a_venue : string) (snapshot : OrderSnapshot)
    (acc : ReconcileReport * Oms) : ReconcileReport * Oms :=
  let '(report, st) := acc in
  let id := os_client_order_id snapshot in
  if str_empty id || negb (is_none (raced_reports st !! id)) then (report, st)
  else
    match lookup id st with
    | None => (count_adopted report, record_from_snapshot snapshot a_venue true st)
    | Some record =>
        let '(changed, record) :=
          if str_empty (or_exchange_order_id record)
             && negb (str_empty (os_exchange_order_id snapshot))
          then (true, note_exchange_id record (os_exchange_order_id snapshot))
          else (false, record) in
        let '(observed, record) :=
          apply_observation record (os_state snapshot) (os_filled_quantity snapshot)
            (os_average_fill_price snapshot) (os_price snapshot) (os_quantity snapshot) true in
        if changed || observed
        then (count_updated report, put_record id record (append_event (state_event record) st))
        else (report, put_record id record st)
    end.

(** The critical section of phase A for one venue. *)
Definition listing_section (a_venue : string) (snapshots : list OrderSnapshot)
    (acc : ReconcileReport * Oms) : ReconcileReport * Oms :=
  fold_left (fun acc snapshot => list_snapshot a_venue snapshot acc) snapshots acc.

Record WorkItem := mkWorkItem { wi_id : string; wi_venue : string; wi_query : OrderQuery }.

(** The record part of the application of a snapshot in phase B; also whether
    it changed. *)
Definition resolve_snapshot (record : OrderRecord) (snapshot : OrderSnapshot) (st : Oms)
    : bool * OrderRecord * Oms :=
  let '(changed, record, st) :=
    if str_empty (or_exchange_order_id record) && negb (str_empty (os_exchange_order_id snapshot))
    then (true, note_exchange_id record (os_exchange_order_id snapshot), st)
    else if negb (str_empty (os_exchange_order_id snapshot))
            && is_none (leg_index_of record (os_exchange_order_id snapshot))
    then let '(record, st) := adopt_unknown_leg record (os_exchange_order_id snapshot) st in
         (true, record, st)
    else (false, record, st) in
  let '(observed, record) :=
    apply_observation record (os_state snapshot) (os_filled_quantity snapshot)
      (os_average_fill_price snapshot) (os_price snapshot) (os_quantity snapshot) true in
  (changed || observed, record, st).

(** The codes that mean the venue does not know the order. *)
Definition conclusive_absence (answer : Result (option OrderSnapshot)) : bool :=
  match answer with
  | Ok _ => true
  | Err error => (code error ==s "venue:51603") || (code error ==s "venue:51016")
  end.

Definition venue_absent : Error :=
  mkError "venue_absent" "order is unknown to the venue after reconciliation".

(** The critical section of phase B for one order. *)
Definition resolve_section (item : WorkItem) (answer : Result (option OrderSnapshot))
    (acc : ReconcileReport * Oms) : ReconcileReport * Oms :=
  let '(report, st) := acc in
  match lookup (wi_id item) st with
  | None => (report, st)
  | Some record =>
      match answer with
      | Ok (Some snapshot) =>
          let '(changed, record, st) := resolve_snapshot record snapshot st in
          if changed then
            let st := put_record (wi_id item) record (append_event (state_event record) st) in
            (if is_terminal (or_state record) then count_terminal report
             else count_updated report, st)
          else (report, put_record (wi_id item) record st)
      | _ =>
          if conclusive_absence answer then
            match apply_transition (or_state record) Rejected with
            | (Applied, s) =>
                let record := set_rejection (Some venue_absent) (set_state s record) in
                (count_absent report,
                 put_record (wi_id item) record
                   (append_event (rejected_event record)
                      (append_event (state_event record) st)))
            | (TransitionRejected, _) => (count_absent report, st)
            end
          else (count_unresolved report, st)
      end
  end.

Section Reconcile.
Context {W : Type} (cfg : OmsConfig W).

Definition work_item (entry : string * OrderRecord) : WorkItem :=
  mkWorkItem entry.1
    (if str_empty (or_venue entry.2) then default_venue cfg else or_venue entry.2)
    (mkOrderQuery entry.1 (or_symbol entry.2)).

(** Non-terminal orders without an open venue call. *)
Definition reconcile_worklist (st : Oms) : list WorkItem :=
  map work_item
    (List.filter (fun entry : string * OrderRecord =>
       negb (is_terminal (or_state entry.2)) && is_none (raced_reports st !! entry.1))
       (map_to_list (orders st))).

Fixpoint reconcile_listings (cs : list (string * ExchangeConnector W))
    (acc : ReconcileReport * Oms) (w : W) : ReconcileReport * Oms * W :=
  match cs with
  | [] => (acc, w)
  | (venue, connector) :: rest =>
      match get_open_orders w with
      | (Err _, w) =>
          let '(report, st) := acc in
          reconcile_listings rest (flag_listing_failed report, st) w
      | (Ok snapshots, w) => reconcile_listings rest (listing_section venue snapshots acc) w
      end
  end.

Fixpoint reconcile_orders (open : list WorkItem) (acc : ReconcileReport * Oms) (w : W)
    : ReconcileReport * Oms * W :=
  match open with
  | [] => (acc, w)
  | item :: rest =>
      match connector_for cfg (wi_venue item) with
      | None =>
          let '(report, st) := acc in
          reconcile_orders rest (count_unresolved report, st) w
      | Some connector =>
          let '(answer, w) := get_order (wi_query item) w in
          reconcile_orders rest (resolve_section item answer acc) w
      end
  end.

Definition reconcile (st : Oms) (w : W) : ReconcileReport * Oms * W :=
  let '(acc, w) := reconcile_listings (connectors cfg) (empty_report, st) w in
  reconcile_orders (reconcile_worklist acc.2) acc w.
End Reconcile.
