(* ===== verification/OmsReplay.v ===== *)
(** * Replay of the persistence log: oms.cpp, [load_from_log] and [apply_log_event]

    [apply_log_event] is the interpretation of one event as a registry update;
    [registry_of] folds it over a log, which is what startup does. *)

From S2P Require Import Prelude Types OrderState Json EventLog OmsTypes Oms.

Definition event_version (a_event : json) : Z :=
  match jfind a_event "version" with Some (JUint v) => v | _ => 0 end.

Definition event_or (a_event : json) (a_name a_default : string) : string :=
  default a_default (event_string a_event a_name).

Section Replay.
Context (default_venue : string).

Definition replay_place (type client_order_id : string) (a_event : json) : OrderRecord :=
  let exchange_order_id :=
    if type ==s "place_submitted" then "" else event_or a_event "exchangeOrderId" "" in
  let version := event_version a_event in
  mkRecord client_order_id (event_or a_event "symbol" "") (event_or a_event "venue" default_venue)
    exchange_order_id
    (default Buy (parse_side (event_or a_event "side" "buy")))
    (default Limit (parse_order_type (event_or a_event "orderType" "limit")))
    (event_or a_event "timeInForce" "GTC") (event_or a_event "price" "")
    (event_or a_event "quantity" "")
    (if type ==s "adopted"
     then default Live (parse_order_state (event_or a_event "state" "live"))
     else if type ==s "place_submitted" then Pending else Live)
    (if type ==s "adopted" then event_or a_event "filledQuantity" "0" else "0")
    (if type ==s "adopted" then event_or a_event "averageFillPrice" "" else "")
    (if negb (str_empty exchange_order_id)
     then [mkLeg (if version =? 0 then 1 else version) exchange_order_id] else [])
    (type ==s "adopted") None.

Definition replay_rejected (client_order_id : string) (a_event : json) (record : OrderRecord)
    : OrderRecord :=
  mkRecord client_order_id (event_or a_event "symbol" (or_symbol record))
    (event_or a_event "venue"
       (if str_empty (or_venue record) then default_venue else or_venue record))
    (or_exchange_order_id record) (or_side record) (or_type record) (or_time_in_force record)
    (or_price record) (or_quantity record) Rejected (or_filled_quantity record)
    (or_average_fill_price record) (or_legs record) (or_adopted record)
    (Some (mkError (event_or a_event "code" "rejected") (event_or a_event "reason" ""))).

(** A leg table updated by a versioned amend event: [legs[version - 1]] is
    rewritten, or a leg with that version appended. *)
Definition replay_leg (version : Z) (exchange_order_id : string) (legs : list OrderLeg)
    : list OrderLeg :=
  if version <=? Z.of_nat (length legs) then
    if str_empty exchange_order_id then legs
    else alter (fun leg => mkLeg (leg_version leg) exchange_order_id)
           (Z.to_nat (version - 1)) legs
  else legs ++ [mkLeg version exchange_order_id].

Definition replay_amended (a_event : json) (record : OrderRecord) : OrderRecord :=
  let price := event_or a_event "price" "" in
  let quantity := event_or a_event "quantity" "" in
  let record := if str_empty price then record else set_price price record in
  let record := if str_empty quantity then record else set_quantity quantity record in
  let exchange_order_id := event_or a_event "exchangeOrderId" "" in
  let version := event_version a_event in
  if version =? 0 then
    let record := note_exchange_id record exchange_order_id in
    match parse_order_state (event_or a_event "state" "") with
    | Some Live =>
        if OrderState_eqb (or_state record) Canceled then set_state Live record else record
    | _ => record
    end
  else
    let record := set_legs (replay_leg version exchange_order_id (or_legs record)) record in
    if str_empty exchange_order_id then record
    else set_exchange_order_id exchange_order_id record.

Definition replay_state (a_event : json) (record : OrderRecord) : OrderRecord :=
  match parse_order_state (event_or a_event "state" "") with
  | None => record
  | Some state =>
      let record := (apply_observation record state (event_or a_event "filledQuantity" "")
                       (event_or a_event "averageFillPrice" "") "" "" true).2 in
      if str_empty (or_exchange_order_id record)
      then note_exchange_id record (event_or a_event "exchangeOrderId" "") else record
  end.

Definition apply_log_event (a_event : json) (registry : gmap string OrderRecord)
    : gmap string OrderRecord :=
  match event_string a_event "type", event_string a_event "clientOrderId" with
  | Some type, Some id =>
      if (type ==s "place_submitted") || (type ==s "place_accepted") || (type ==s "adopted")
      then <[id := replay_place type id a_event]> registry
      else if type ==s "rejected"
      then <[id := replay_rejected id a_event (default default_record (registry !! id))]> registry
      else if type ==s "amended" then
        match registry !! id with
        | None => registry
        | Some record => <[id := replay_amended a_event record]> registry
        end
      else if type ==s "state" then
        match registry !! id with
        | None => registry
        | Some record => <[id := replay_state a_event record]> registry
        end
      else registry
  | _, _ => registry
  end.

(** The events of a log, applied in order. *)
Definition registry_of (es : list json) (registry : gmap string OrderRecord)
    : gmap string OrderRecord :=
  fold_left (fun registry e => apply_log_event e registry) es registry.
End Replay.

Section Load.
Context (parse : string -> option json) {W : Type} (cfg : OmsConfig W).

(** Startup: the log file is read back and its events update the registry,
    also those before a corrupt line. *)
Definition load_from_log (file : LogFile) (resize_error : option string) (st : Oms)
    : Result ReplayStats * LogFile * Oms :=
  match log st with
  | None => (Ok (mkReplayStats 0 false), file, st)
  | Some l =>
      let '(seen, file, outcome) := replay parse (path l) file resize_error in
      (outcome, file, with_orders (registry_of (default_venue cfg) seen (orders st)) st)
  end.
End Load.
