(* ===== verification/OmsAudit.v ===== *)
(** * The consistency audit: oms.cpp, [audit_record_local], [audit_record_vs_snapshot], [audit]

    The audit reads and reports; [audit] changes nothing but the queue of
    discovered legs, which it drains. *)

From S2P Require Import Prelude Types OrderState Decimal Json OmsTypes Oms OmsReconcile.

Definition version_gap_detail (index : nat) (version : Z) (count : nat) : string :=
  "leg " +:+ std_to_string (Z.of_nat index + 1) +:+ " carries version " +:+ std_to_string version
  +:+ "; expected a contiguous 1.." +:+ std_to_string (Z.of_nat count) +:+ " chain".

(** The leg loop; it stops at the first gap. *)
Fixpoint audit_legs (id : string) (count : nat) (legs : list OrderLeg) (index : nat)
    : list ConsistencyAlert :=
  match legs with
  | [] => []
  | leg :: rest =>
      if negb (leg_version leg =? Z.of_nat index + 1)
      then [mkAlert id "version_gap" (version_gap_detail index (leg_version leg) count)]
      else audit_legs id count rest (S index)
  end.

Definition audit_current_leg (r : OrderRecord) : list ConsistencyAlert :=
  match list.last (or_legs r) with
  | Some leg =>
      if leg_exchange_order_id leg <>s or_exchange_order_id r then
        [mkAlert (or_client_order_id r) "version_gap"
           ("current exchangeOrderId " +:+ or_exchange_order_id r +:+ " != newest leg id "
            +:+ leg_exchange_order_id leg)]
      else []
  | None => []
  end.

Definition audit_fills (r : OrderRecord) : list ConsistencyAlert :=
  match parse_decimal (if str_empty (or_filled_quantity r) then "0" else or_filled_quantity r),
        parse_decimal (or_quantity r) with
  | Ok filled, Ok quantity =>
      if is_zero quantity then []
      else
        let relation := compare filled quantity in
        if negb (OrderState_eqb (or_state r) Filled) && (0 <=? relation) then
          [mkAlert (or_client_order_id r) "fill_state_mismatch"
             ("filledQuantity " +:+ or_filled_quantity r +:+ " reached quantity "
              +:+ or_quantity r +:+ " but state is " +:+ to_string (or_state r))]
        else if OrderState_eqb (or_state r) Filled && (relation <? 0) then
          [mkAlert (or_client_order_id r) "fill_state_mismatch"
             ("state is filled but filledQuantity " +:+ or_filled_quantity r
              +:+ " is below quantity " +:+ or_quantity r)]
        else []
  | _, _ => []
  end.

Definition audit_record_local (r : OrderRecord) (a_alerts : list ConsistencyAlert)
    : list ConsistencyAlert :=
  a_alerts ++ audit_legs (or_client_order_id r) (length (or_legs r)) (or_legs r) 0
    ++ audit_current_leg r ++ audit_fills r.

(** The local function [compare_decimal]. *)
Definition compare_decimal (a_local a_venue : string) : option Z :=
  match parse_decimal (if str_empty a_local then "0" else a_local),
        parse_decimal (if str_empty a_venue then "0" else a_venue) with
  | Ok l, Ok v => Some (compare l v)
  | _, _ => None
  end.

Definition drift_alert (id check detail : string) (relation : option Z) : list ConsistencyAlert :=
  match relation with
  | Some r => if negb (r =? 0) then [mkAlert id check detail] else []
  | None => []
  end.

Definition audit_record_vs_snapshot (r : OrderRecord) (s : OrderSnapshot)
    (a_alerts : list ConsistencyAlert) : list ConsistencyAlert :=
  let id := or_client_order_id r in
  a_alerts
  ++ (if negb (str_empty (os_exchange_order_id s))
         && is_none (leg_index_of r (os_exchange_order_id s)) then
        [mkAlert id "unknown_leg_report"
           ("venue snapshot carries exchangeOrderId " +:+ os_exchange_order_id s
            +:+ " absent from the leg table (reconcile adopts it on the next pass)")]
      else [])
  ++ (if negb (OrderState_eqb (os_state s) (or_state r)) then
        [mkAlert id "state_mismatch"
           ("local " +:+ to_string (or_state r) +:+ ", venue " +:+ to_string (os_state s))]
      else [])
  ++ drift_alert id "fill_mismatch"
       ("local filledQuantity " +:+ or_filled_quantity r +:+ ", venue " +:+ os_filled_quantity s)
       (compare_decimal (or_filled_quantity r) (os_filled_quantity s))
  ++ drift_alert id "price_qty_mismatch"
       ("local price " +:+ or_price r +:+ ", venue " +:+ os_price s)
       (compare_decimal (or_price r) (os_price s))
  ++ drift_alert id "price_qty_mismatch"
       ("local quantity " +:+ or_quantity r +:+ ", venue " +:+ os_quantity s)
       (compare_decimal (or_quantity r) (os_quantity s)).

Definition discovered_alert (note : string * string) : ConsistencyAlert :=
  mkAlert note.1 "unknown_leg_report"
    ("execution report carried exchangeOrderId " +:+ note.2
     +:+ " absent from the leg table; adopted as a new leg (lost amend ack?)").

(** One venue lookup of the audit, compared under the lock. *)
Definition audit_answer (item : WorkItem) (answer : Result (option OrderSnapshot)) (st : Oms)
    (report : AuditReport) : AuditReport :=
  let lookups := au_venue_lookups report + 1 in
  match lookup (wi_id item) st with
  | None => mkAuditReport (au_alerts report) (au_orders_checked report) lookups
              (au_lookup_failures report)
  | Some record =>
      match answer with
      | Err error =>
          mkAuditReport
            (au_alerts report ++ [mkAlert (wi_id item) "lookup_failed"
                                    (code error +:+ ": " +:+ message error)])
            (au_orders_checked report) lookups (au_lookup_failures report + 1)
      | Ok None =>
          mkAuditReport
            (au_alerts report ++ [mkAlert (wi_id item) "venue_unknown"
               ("non-terminal locally (" +:+ to_string (or_state record)
                +:+ ") but the venue does not know the order")])
            (au_orders_checked report) lookups (au_lookup_failures report)
      | Ok (Some snapshot) =>
          mkAuditReport (audit_record_vs_snapshot record snapshot (au_alerts report))
            (au_orders_checked report) lookups (au_lookup_failures report)
      end
  end.

Section Audit.
Context {W : Type} (cfg : OmsConfig W).

(** The first critical section: local checks, worklist, drained notes. *)
Definition audit_begin (st : Oms) : AuditReport * list WorkItem * Oms :=
  let records := map_to_list (orders st) in
  let local := fold_left (fun alerts entry => audit_record_local entry.2 alerts) records [] in
  (mkAuditReport (local ++ map discovered_alert (discovered_leg_notes st))
     (Z.of_nat (size (orders st))) 0 0,
   reconcile_worklist cfg st, with_notes [] st).

Fixpoint audit_orders (open : list WorkItem) (st : Oms) (report : AuditReport) (w : W)
    : AuditReport * W :=
  match open with
  | [] => (report, w)
  | item :: rest =>
      match connector_for cfg (wi_venue item) with
      | None =>
          audit_orders rest st
            (mkAuditReport
               (au_alerts report ++ [mkAlert (wi_id item) "lookup_failed"
                  ("no connector for venue " +:+ dquote +:+ wi_venue item +:+ dquote)])
               (au_orders_checked report) (au_venue_lookups report)
               (au_lookup_failures report + 1)) w
      | Some connector =>
          let '(answer, w) := get_order (wi_query item) w in
          audit_orders rest st (audit_answer item answer st report) w
      end
  end.

Definition audit (st : Oms) (w : W) : AuditReport * Oms * W :=
  let '(report, open, st) := audit_begin st in
  let '(report, w) := audit_orders open st report w in
  (report, st, w).
End Audit.
