(* ===== verification/OmsFacts.v ===== *)
(** * Order management: how one record evolves

    [evolves] is the order every operation respects: identity fields are fixed,
    the state follows legal transitions, the fill grows, legs are only appended.
    [legs_ok] is the leg-table invariant.  Both are proved operation by
    operation here and lifted to runs of the system in [OmsSystem]. *)

From S2P Require Import Prelude Types OrderState Decimal DecimalFacts DecimalText Json Risk.
From S2P Require Import Latency EventLog OmsTypes Oms.

(** ** Fills *)

(** The fill a record stands for: an empty text counts as zero. *)
Definition fill_text (r : OrderRecord) : string :=
  if str_empty (or_filled_quantity r) then "0" else or_filled_quantity r.

Definition fill_grows (r r' : OrderRecord) : Prop :=
  or_filled_quantity r' = or_filled_quantity r
  \/ exists c d, parse_decimal (fill_text r) = Ok c
       /\ parse_decimal (or_filled_quantity r') = Ok d /\ v16 c < v16 d.

Lemma parse_fill_text r d :
  parse_decimal (or_filled_quantity r) = Ok d -> parse_decimal (fill_text r) = Ok d.
Proof.
  unfold fill_text. destruct (or_filled_quantity r) as [|c s] eqn:E; [discriminate|done].
Qed.

Lemma fill_grows_trans r1 r2 r3 : fill_grows r1 r2 -> fill_grows r2 r3 -> fill_grows r1 r3.
Proof.
  intros [H1|(c & d & Hc & Hd & Hlt)] [H2|(c' & d' & Hc' & Hd' & Hlt')].
  - left. congruence.
  - right. exists c', d'. unfold fill_text in *. rewrite H1 in Hc'. auto.
  - right. exists c, d. by rewrite H2.
  - right. exists c, d'. apply parse_fill_text in Hd. split_and!; auto.
    assert (d = c') by congruence. subst. lia.
Qed.

(** ** The evolution order *)

Record evolves (r r' : OrderRecord) : Prop := {
  ev_id : or_client_order_id r' = or_client_order_id r;
  ev_symbol : or_symbol r' = or_symbol r;
  ev_venue : or_venue r' = or_venue r;
  ev_side : or_side r' = or_side r;
  ev_type : or_type r' = or_type r;
  ev_time_in_force : or_time_in_force r' = or_time_in_force r;
  ev_adopted : or_adopted r' = or_adopted r;
  ev_state : moves (or_state r) (or_state r');
  ev_fill : fill_grows r r';
  ev_legs : or_legs r `prefix_of` or_legs r';
  ev_rejection : or_rejection r' = or_rejection r
                 \/ (is_terminal (or_state r) = false /\ or_state r' = Rejected) }.

#[global] Instance evolves_preorder : PreOrder evolves.
Proof.
  split.
  - intros r. constructor; try (by left); try reflexivity; apply moves_refl.
  - intros r1 r2 r3 [] []. constructor; try congruence; eauto using moves_trans, fill_grows_trans.
    + by etrans.
    + destruct ev_rejection0 as [Hr|[Ht Hs]].
      * destruct ev_rejection1 as [Hr'|[Ht' Hs']]; [left; congruence|right].
        split; [|done]. destruct (is_terminal (or_state r1)) eqn:E; [|done].
        apply moves_terminal in ev_state0; [|done]. congruence.
      * right. split; [done|]. rewrite Hs in ev_state1. by apply moves_terminal in ev_state1.
Qed.

(** ** Leg tables *)

Definition legs_ok (r : OrderRecord) : Prop :=
  (forall i leg, or_legs r !! i = Some leg -> leg_version leg = Z.of_nat i + 1)
  /\ match list.last (or_legs r) with
     | None => or_exchange_order_id r = ""
     | Some leg => leg_exchange_order_id leg = or_exchange_order_id r
                   /\ or_exchange_order_id r <> ""
     end.

Definition same_legs (r r' : OrderRecord) : Prop :=
  or_legs r' = or_legs r /\ or_exchange_order_id r' = or_exchange_order_id r.

#[global] Instance same_legs_preorder : PreOrder same_legs.
Proof. split; [done|]. intros ??? [] []. split; congruence. Qed.

Lemma same_legs_ok r r' : same_legs r r' -> legs_ok r -> legs_ok r'.
Proof. unfold same_legs, legs_ok. intros [-> ->]. done. Qed.

Lemma push_leg_ok r id :
  legs_ok r -> id <> "" -> legs_ok (set_exchange_order_id id (push_leg r id)).
Proof.
  intros [Hv _] Hid. split; simpl.
  - intros i leg Hleg. apply lookup_app_Some in Hleg as [Hleg|[Hge Hleg]]; [by apply Hv|].
    apply list_lookup_singleton_Some in Hleg as [Hi <-]. simpl. lia.
  - rewrite last_snoc. simpl. done.
Qed.

Lemma note_exchange_id_ok r id : legs_ok r -> legs_ok (note_exchange_id r id).
Proof.
  intros Hok. unfold note_exchange_id. destruct (str_empty id) eqn:Hid; simpl; [done|].
  destruct (id ==s _); [done|]. apply str_empty_false in Hid. exact (push_leg_ok r id Hok Hid).
Qed.

Lemma append_amend_leg_ok r id : legs_ok r -> legs_ok (append_amend_leg r id).
Proof.
  intros Hok. unfold append_amend_leg. destruct (str_empty id) eqn:Hid; [done|].
  apply str_empty_false in Hid. by apply push_leg_ok.
Qed.

(** Finding a leg: the last index that carries the id. *)
Lemma leg_scan_spec legs id k found :
  match leg_scan legs id k found with
  | Some i => (exists leg, legs !! (i - k)%nat = Some leg /\ (k <= i)%nat
                /\ leg_exchange_order_id leg = id
                /\ forall j l, legs !! j = Some l -> leg_exchange_order_id l = id -> (k + j <= i)%nat)
              \/ (found = Some i /\ forall l, l ∈ legs -> leg_exchange_order_id l <> id)
  | None => found = None /\ forall l, l ∈ legs -> leg_exchange_order_id l <> id
  end.
Proof.
  revert k found. induction legs as [|leg legs IH]; intros k found; simpl.
  - destruct found; [right|]; split; try done; intros l Hl; inversion Hl.
  - specialize (IH (S k) (if leg_exchange_order_id leg ==s id then Some k else found)).
    destruct (leg_scan legs id (S k) _) as [i|].
    + destruct IH as [(l & Hl & Hk & Hid & Hmax)|[Hf Hno]].
      * left. exists l. replace (i - k)%nat with (S (i - S k))%nat by lia. split_and!; auto with lia.
        intros [|j] l' Hl' Hid'; [lia|]. specialize (Hmax j l' Hl' Hid'). lia.
      * destruct (streqb_spec (leg_exchange_order_id leg) id) as [He|Hne].
        -- injection Hf as ->. left. exists leg. rewrite Nat.sub_diag. split_and!; auto with lia.
           intros [|j] l' Hl' Hid'; [lia|]. exfalso. eapply Hno; [|done]. by eapply list_elem_of_lookup_2.
        -- right. split; [done|]. intros l Hl. apply elem_of_cons in Hl as [->|Hl]; auto.
    + destruct IH as [Hf Hno]. destruct (streqb_spec (leg_exchange_order_id leg) id); [done|].
      split; [done|]. intros l Hl. apply elem_of_cons in Hl as [->|Hl]; auto.
Qed.

Lemma leg_index_of_spec r id :
  match leg_index_of r id with
  | Some i => exists leg, or_legs r !! i = Some leg /\ leg_exchange_order_id leg = id
                /\ forall j l, or_legs r !! j = Some l -> leg_exchange_order_id l = id -> (j <= i)%nat
  | None => forall l, l ∈ or_legs r -> leg_exchange_order_id l <> id
  end.
Proof.
  unfold leg_index_of. pose proof (leg_scan_spec (or_legs r) id 0 None) as H.
  destruct (leg_scan _ _ _ _) as [i|]; [|by destruct H].
  destruct H as [(leg & Hl & _ & Hid & Hmax)|[? _]]; [|done].
  rewrite Nat.sub_0_r in Hl. eauto.
Qed.

(** ** Operations on one record *)

Ltac evolves_tac :=
  constructor; simpl; first [ reflexivity | by left | apply moves_refl | idtac ].

Lemma observe_fill_spec r filled avg :
  let '(changed, r') := observe_fill r filled avg in
  evolves r r' /\ same_legs r r' /\ or_state r' = or_state r
  /\ or_rejection r' = or_rejection r /\ or_price r' = or_price r /\ or_quantity r' = or_quantity r
  /\ (changed = false -> r' = r).
Proof.
  unfold observe_fill. destruct (str_empty filled); [by split_and!; try reflexivity|].
  destruct (parse_decimal filled) as [rep|] eqn:Hrep; [|by split_and!; try reflexivity].
  fold (fill_text r).
  destruct (parse_decimal (fill_text r)) as [cur|] eqn:Hcur; [|by split_and!; try reflexivity].
  destruct (0 <? compare rep cur) eqn:Hcmp; [|by split_and!; try reflexivity].
  rewrite compare_pos in Hcmp by (eapply parse_decimal_wf; eassumption). boolify.
  destruct (str_empty avg); (split_and!; [evolves_tac|..]; try done; right; by exists cur, rep).
Qed.

Lemma observe_state_spec r s :
  let '(changed, r') := observe_state r s in
  evolves r r' /\ same_legs r r' /\ or_state r' = (apply_transition (or_state r) s).2
  /\ or_rejection r' = or_rejection r /\ or_filled_quantity r' = or_filled_quantity r
  /\ or_price r' = or_price r /\ or_quantity r' = or_quantity r
  /\ (changed = false -> r' = r).
Proof.
  unfold observe_state. destruct (OrderState_eqb_spec s (or_state r)) as [->|Hne].
  - split_and!; try reflexivity. unfold apply_transition. by destruct (can_transition _ _).
  - pose proof (apply_transition_moves (or_state r) s) as Hm. unfold apply_transition in *.
    destruct (can_transition (or_state r) s); simpl in *;
      (split_and!; [evolves_tac; done|..]; try done). by destruct r.
Qed.

Lemma observe_price_spec r p :
  let '(changed, r') := observe_price r p in
  evolves r r' /\ same_legs r r' /\ or_state r' = or_state r
  /\ or_rejection r' = or_rejection r /\ or_filled_quantity r' = or_filled_quantity r
  /\ or_quantity r' = or_quantity r
  /\ or_price r' = (if str_empty p then or_price r else p) /\ (changed = false -> r' = r).
Proof.
  unfold observe_price. destruct (str_empty p); simpl; [by split_and!; try reflexivity|].
  destruct (streqb_spec p (or_price r)) as [->|]; simpl; [by split_and!; try reflexivity|].
  split_and!; try done. evolves_tac.
Qed.

Lemma observe_quantity_spec r q :
  let '(changed, r') := observe_quantity r q in
  evolves r r' /\ same_legs r r' /\ or_state r' = or_state r
  /\ or_rejection r' = or_rejection r /\ or_filled_quantity r' = or_filled_quantity r
  /\ or_price r' = or_price r
  /\ or_quantity r' = (if str_empty q then or_quantity r else q) /\ (changed = false -> r' = r).
Proof.
  unfold observe_quantity. destruct (str_empty q); simpl; [by split_and!; try reflexivity|].
  destruct (streqb_spec q (or_quantity r)) as [->|]; simpl; [by split_and!; try reflexivity|].
  split_and!; try done. evolves_tac.
Qed.

(** What one observation does to a record. *)
Lemma apply_observation_spec r s filled avg p q life :
  let '(changed, r') := apply_observation r s filled avg p q life in
  evolves r r' /\ same_legs r r'
  /\ or_state r' = (if life then (apply_transition (or_state r) s).2 else or_state r)
  /\ or_rejection r' = or_rejection r
  /\ or_filled_quantity r' = or_filled_quantity (observe_fill r filled avg).2
  /\ or_price r' = (if life && negb (str_empty p) then p else or_price r)
  /\ or_quantity r' = (if life && negb (str_empty q) then q else or_quantity r)
  /\ (changed = false -> r' = r).
Proof.
  unfold apply_observation.
  pose proof (observe_fill_spec r filled avg) as H1. destruct (observe_fill r filled avg) as [c1 r1].
  destruct H1 as (E1 & L1 & S1 & J1 & P1 & Q1 & N1).
  destruct life; [|simpl; split_and!; auto].
  pose proof (observe_state_spec r1 s) as H2. destruct (observe_state r1 s) as [c2 r2].
  destruct H2 as (E2 & L2 & S2 & J2 & F2 & P2 & Q2 & N2).
  pose proof (observe_price_spec r2 p) as H3. destruct (observe_price r2 p) as [c3 r3].
  destruct H3 as (E3 & L3 & S3 & J3 & F3 & Q3 & P3 & N3).
  pose proof (observe_quantity_spec r3 q) as H4. destruct (observe_quantity r3 q) as [c4 r4].
  destruct H4 as (E4 & L4 & S4 & J4 & F4 & P4 & Q4 & N4). simpl.
  split_and!; try congruence.
  - by do 3 (etrans; [eassumption|]).
  - by do 3 (etrans; [eassumption|]).
  - rewrite P4, P3. destruct (str_empty p); simpl; congruence.
  - rewrite Q4. destruct (str_empty q); simpl; congruence.
  - intros Hc. destruct c1, c2, c3, c4; try done.
    rewrite N4, N3, N2, N1 by done. done.
Qed.

Lemma note_exchange_id_evolves r id : evolves r (note_exchange_id r id).
Proof.
  unfold note_exchange_id. destruct (_ || _); [reflexivity|]. evolves_tac. by eexists.
Qed.

Lemma append_amend_leg_evolves r id : evolves r (append_amend_leg r id).
Proof.
  unfold append_amend_leg. destruct (str_empty id); [reflexivity|]. evolves_tac. by eexists.
Qed.

(** [note_exchange_id] touches nothing but the legs. *)
Lemma note_exchange_id_rest r id :
  let r' := note_exchange_id r id in
  or_client_order_id r' = or_client_order_id r /\ or_state r' = or_state r
  /\ or_filled_quantity r' = or_filled_quantity r
  /\ or_average_fill_price r' = or_average_fill_price r
  /\ or_rejection r' = or_rejection r /\ or_price r' = or_price r /\ or_quantity r' = or_quantity r.
Proof. simpl. unfold note_exchange_id. by destruct (_ || _). Qed.

(** ** What a record operation does to the rest of the state *)

(** Same registry and same buffers. *)
Definition frame (st st' : Oms) : Prop :=
  orders st' = orders st /\ raced_reports st' = raced_reports st.

#[global] Instance frame_preorder : PreOrder frame.
Proof. split; [done|]. intros ??? [] []. split; congruence. Qed.

Lemma append_or_error_frame e st : frame st (append_or_error e st).2.
Proof.
  unfold append_or_error. destruct (log st) as [l|]; [|reflexivity]. by destruct (append e l).
Qed.

Lemma append_event_frame e st : frame st (append_event e st).
Proof.
  pose proof (append_or_error_frame e st) as H. unfold append_event.
  destruct (append_or_error e st) as [[err|] st']; done.
Qed.

Lemma apply_report_spec r rep life st :
  let '(r', st') := apply_report r rep life st in
  evolves r r' /\ frame st st' /\ (legs_ok r -> legs_ok r').
Proof.
  unfold apply_report.
  set (r0 := if str_empty _ then _ else r).
  assert (H0 : evolves r r0 /\ (legs_ok r -> legs_ok r0)).
  { subst r0. destruct (str_empty _); [|by split; [reflexivity|]].
    split; [apply note_exchange_id_evolves|apply note_exchange_id_ok]. }
  destruct H0 as [E0 L0].
  pose proof (apply_observation_spec r0 (er_state rep) (er_filled_quantity rep)
    (er_average_fill_price rep) "" "" life) as H1.
  destruct (apply_observation r0 _ _ _ _ _ _) as [changed r1].
  destruct H1 as (E1 & L1 & _).
  assert (legs_ok r -> legs_ok r1) by (intros; eapply same_legs_ok; eauto).
  destruct changed; (split_and!; [by etrans | | done]).
  - etrans; [|apply append_event_frame]. done.
  - done.
Qed.

Lemma adopt_unknown_leg_spec r id st :
  let '(r', st') := adopt_unknown_leg r id st in
  evolves r r' /\ frame st st' /\ (legs_ok r -> legs_ok r').
Proof.
  simpl. split_and!; [apply note_exchange_id_evolves|done|apply note_exchange_id_ok].
Qed.

Lemma apply_arbitrated_report_spec r rep st :
  let '(r', st') := apply_arbitrated_report r rep st in
  evolves r r' /\ frame st st' /\ (legs_ok r -> legs_ok r').
Proof.
  unfold apply_arbitrated_report. destruct (_ && _); [|apply apply_report_spec].
  destruct (leg_index_of _ _) as [i|]; [apply apply_report_spec|].
  pose proof (adopt_unknown_leg_spec r (er_exchange_order_id rep) st) as H0.
  destruct (adopt_unknown_leg _ _ _) as [r0 st0]. destruct H0 as (E0 & F0 & L0).
  pose proof (apply_report_spec r0 rep true st0) as H1.
  destruct (apply_report _ _ _ _) as [r1 st1]. destruct H1 as (E1 & F1 & L1).
  split_and!; [by etrans|by etrans|auto].
Qed.

Lemma apply_raced_spec raced r st :
  let '(r', st') := apply_raced raced r st in
  evolves r r' /\ frame st st' /\ (legs_ok r -> legs_ok r').
Proof.
  revert r st. induction raced as [|rep raced IH]; intros r st; simpl; [by split_and!; try reflexivity|].
  pose proof (apply_arbitrated_report_spec r rep st) as H0.
  destruct (apply_arbitrated_report _ _ _) as [r0 st0]. destruct H0 as (E0 & F0 & L0).
  specialize (IH r0 st0). destruct (apply_raced _ _ _) as [r1 st1]. destruct IH as (E1 & F1 & L1).
  split_and!; [by etrans|by etrans|auto].
Qed.
