(* ===== verification/OmsSections.v ===== *)
(** * Order management: the critical sections

    Every critical section moves the registry forward ([registry_evolves]: no
    record disappears, each one evolves) and keeps it well formed
    ([registry_ok]).  What it does to the buffers of raced reports is stated
    with it, since [OmsSystem] needs both. *)

From S2P Require Import Prelude Types OrderState Decimal Json Risk Latency EventLog OmsTypes Oms.
From S2P Require Import OmsReconcile OmsFacts.

Definition registry_evolves (m m' : gmap string OrderRecord) : Prop :=
  forall id r, m !! id = Some r -> exists r', m' !! id = Some r' /\ evolves r r'.

#[global] Instance registry_evolves_preorder : PreOrder registry_evolves.
Proof.
  split.
  - intros m id r Hr. exists r. split; [done|reflexivity].
  - intros m1 m2 m3 H12 H23 id r Hr. destruct (H12 _ _ Hr) as (r2 & Hr2 & E12).
    destruct (H23 _ _ Hr2) as (r3 & Hr3 & E23). exists r3. split; [done|by etrans].
Qed.

(** A rejection is only recorded on a rejected order. *)
Record record_ok (id : string) (r : OrderRecord) : Prop := {
  ok_key : or_client_order_id r = id;
  ok_legs : legs_ok r;
  ok_rejection : is_Some (or_rejection r) -> or_state r = Rejected }.

Definition registry_ok (m : gmap string OrderRecord) : Prop := map_Forall record_ok m.

(** The part of it that a registry rebuilt from a log also has. *)
Definition registry_keyed (m : gmap string OrderRecord) : Prop :=
  forall id r, m !! id = Some r -> or_client_order_id r = id.

Lemma registry_ok_keyed m : registry_ok m -> registry_keyed m.
Proof. intros Hok id r Hr. apply (Hok _ _ Hr). Qed.

Lemma record_ok_evolves id r r' :
  record_ok id r -> evolves r r' -> (legs_ok r -> legs_ok r') -> record_ok id r'.
Proof.
  intros [Hk Hl Hj] E Hl'. constructor.
  - rewrite (ev_id _ _ E). done.
  - auto.
  - destruct (ev_rejection _ _ E) as [->|[_ Hs]]; [|done].
    intros Hr. pose proof (ev_state _ _ E) as Hm. rewrite (Hj Hr) in Hm.
    by apply moves_terminal in Hm.
Qed.

(** What a section guarantees. *)
Record forward (st st' : Oms) : Prop := {
  fw_evolves : registry_evolves (orders st) (orders st');
  fw_ok : registry_ok (orders st) -> registry_ok (orders st');
  fw_keyed : registry_keyed (orders st) -> registry_keyed (orders st') }.

#[global] Instance forward_preorder : PreOrder forward.
Proof.
  split.
  - intros st. split; [reflexivity|done|done].
  - intros ??? [] []. split; [by etrans|auto|auto].
Qed.

Lemma forward_same st st' : orders st' = orders st -> forward st st'.
Proof. intros Ho. split; rewrite Ho; [reflexivity|done|done]. Qed.

#[export] Hint Extern 0 (forward ?x ?x) => reflexivity : core.
#[export] Hint Resolve forward_same : oms.

(** A section that works on one id. *)
Record forward_at (id : string) (st st' : Oms) : Prop := {
  fa_forward : forward st st';
  fa_local : forall other, other <> id -> orders st' !! other = orders st !! other }.

Lemma forward_at_same id st st' : orders st' = orders st -> forward_at id st st'.
Proof. intros Ho. split; [by apply forward_same|]. intros. by rewrite Ho. Qed.

#[export] Hint Extern 0 (forward_at _ ?x ?x) => by apply forward_at_same : core.

(** Writing a record that evolved back. *)
Lemma forward_put st st' id r r' :
  orders st !! id = Some r -> evolves r r' -> (legs_ok r -> legs_ok r') ->
  orders st' = <[id := r']> (orders st) -> forward_at id st st'.
Proof.
  intros Hr E L Ho. split; [|intros; by rewrite Ho, lookup_insert_ne].
  split; simpl; rewrite Ho.
  - intros i q Hq. destruct (decide (i = id)) as [->|Hne].
    + rewrite lookup_insert_eq. exists r'. split; [done|]. congruence.
    + rewrite lookup_insert_ne by done. exists q. split; [done|reflexivity].
  - intros Hok. apply map_Forall_insert_2; [|done].
    eapply record_ok_evolves; eauto.
  - intros Hk i q. rewrite lookup_insert_Some. intros [[<- <-]|[_ Hq]]; [|by apply Hk].
    rewrite (ev_id _ _ E). by apply Hk.
Qed.

(** Recording an id that was unknown. *)
Lemma forward_new st st' id r :
  orders st !! id = None -> record_ok id r -> orders st' = <[id := r]> (orders st) ->
  forward_at id st st'.
Proof.
  intros Hn Hr Ho. split; [|intros; by rewrite Ho, lookup_insert_ne].
  split; simpl; rewrite Ho.
  - intros i q Hq. rewrite lookup_insert_ne by congruence. exists q. split; [done|reflexivity].
  - intros Hok. by apply map_Forall_insert_2.
  - intros Hk i q. rewrite lookup_insert_Some. intros [[<- <-]|[_ Hq]]; [|by apply Hk].
    apply Hr.
Qed.

Lemma append_or_error_orders e st st' o :
  append_or_error e st = (o, st') -> orders st' = orders st /\ raced_reports st' = raced_reports st.
Proof. intros H. pose proof (append_or_error_frame e st) as F. rewrite H in F. exact F. Qed.

Lemma append_event_orders e st : orders (append_event e st) = orders st.
Proof. apply append_event_frame. Qed.

Lemma append_event_raced e st : raced_reports (append_event e st) = raced_reports st.
Proof. apply append_event_frame. Qed.

#[export] Hint Rewrite append_event_orders append_event_raced : oms.

(** The move to a terminal state with its rejection. *)
Lemma reject_evolves r e s :
  apply_transition (or_state r) Rejected = (Applied, s) ->
  evolves r (set_rejection (Some e) (set_state s r)).
Proof.
  unfold apply_transition. destruct (can_transition _ _) eqn:Hc; simpl; [|done]. intros [= <-].
  evolves_tac.
  - by apply moves_one.
  - right. split; [|done]. by eapply terminal_can_transition.
Qed.

Lemma transition_evolves r s : evolves r (set_state (apply_transition (or_state r) s).2 r).
Proof. pose proof (apply_transition_moves (or_state r) s). evolves_tac. done. Qed.

Lemma set_state_legs r s : same_legs r (set_state s r).
Proof. done. Qed.

(** ** Raced buffers *)

Lemma drain_spec id st :
  let '(raced, st') := drain_raced_reports id st in
  raced = default [] (raced_reports st !! id)
  /\ orders st' = orders st /\ raced_reports st' = delete id (raced_reports st).
Proof.
  unfold drain_raced_reports. destruct (raced_reports st !! id) eqn:E; simpl; [done|].
  by rewrite delete_id.
Qed.

Lemma open_buffer_orders id st : orders (open_buffer id st) = orders st.
Proof. unfold open_buffer. by destruct (raced_reports st !! id). Qed.

Lemma open_buffer_log id st : log (open_buffer id st) = log st.
Proof. unfold open_buffer. by destruct (raced_reports st !! id). Qed.

Lemma open_buffer_raced id st :
  raced_reports (open_buffer id st)
  = if is_none (raced_reports st !! id) then <[id := []]> (raced_reports st) else raced_reports st.
Proof. unfold open_buffer. by destruct (raced_reports st !! id). Qed.

(** ** Candidates *)

Lemma candidate_ok req v : record_ok (rq_client_order_id req) (candidate_of req v).
Proof.
  constructor; [done| |intros [? [=]]]. split; [|done]. intros i leg Hl. done.
Qed.

Definition rejected_candidate (req : OrderRequest) (v : string) (e : Error) : OrderRecord :=
  set_rejection (Some e) (set_state Rejected (candidate_of req v)).

Lemma rejected_candidate_ok req v e :
  record_ok (rq_client_order_id req) (rejected_candidate req v e).
Proof. constructor; [done| |done]. split; [|done]. intros i leg Hl. done. Qed.

Section Sections.
Context {W : Type} (cfg : OmsConfig W).

(** The ways through the first section of [place]. *)
Inductive place_begin_view (req : OrderRequest) (v : string) (st : Oms)
    : PlaceStep (W:=W) -> Oms -> Prop :=
  | pb_known r :
      orders st !! rq_client_order_id req = Some r ->
      place_begin_view req v st
        (PlaceDone (match or_rejection r with
                    | Some e => Err e
                    | None => Ok (mkPlaceOutcome r true) end)) st
  | pb_unroutable :
      orders st !! rq_client_order_id req = None ->
      connector_for cfg (resolve_venue cfg v) = None ->
      place_begin_view req v st
        (PlaceDone (Err (unsupported_venue_error cfg (resolve_venue cfg v)))) st
  | pb_throws :
      orders st !! rq_client_order_id req = None ->
      place_begin_view req v st PlaceThrows st
  | pb_rejected e o st1 :
      orders st !! rq_client_order_id req = None ->
      append_or_error (rejected_event (rejected_candidate req (resolve_venue cfg v) e)) st
        = (o, st1) ->
      place_begin_view req v st (PlaceDone (Err (default e o)))
        (let st2 := put_record (rq_client_order_id req)
                      (rejected_candidate req (resolve_venue cfg v) e) st1 in
         if is_none o then st2 else bump count_log_failure st2)
  | pb_unsent e st1 :
      orders st !! rq_client_order_id req = None ->
      append_or_error (place_submitted_event (candidate_of req (resolve_venue cfg v))) st
        = (Some e, st1) ->
      place_begin_view req v st
        (PlaceDone (Err (mkError "persistence"
           (message e +:+ " (order was not sent to the venue)"))))
        (bump count_log_failure st1)
  | pb_send connector st1 :
      orders st !! rq_client_order_id req = None ->
      connector_for cfg (resolve_venue cfg v) = Some connector ->
      append_or_error (place_submitted_event (candidate_of req (resolve_venue cfg v))) st
        = (None, st1) ->
      place_begin_view req v st (PlaceSend connector)
        (open_buffer (rq_client_order_id req)
           (put_record (rq_client_order_id req) (candidate_of req (resolve_venue cfg v)) st1)).

Lemma stage_place_view req v st connector :
  orders st !! rq_client_order_id req = None ->
  connector_for cfg (resolve_venue cfg v) = Some connector ->
  let '(step, st') := stage_place connector (candidate_of req (resolve_venue cfg v)) st in
  place_begin_view req v st step st'.
Proof.
  intros Hn Hc. unfold stage_place.
  destruct (append_or_error _ st) as [[e|] st1] eqn:Ha; econstructor; eauto.
Qed.

Lemma place_begin_spec req v st :
  let '(step, st') := place_begin cfg req v st in place_begin_view req v st step st'.
Proof.
  unfold place_begin, lookup. destruct (orders st !! _) as [r|] eqn:Hr.
  { pose proof (pb_known req v st r Hr) as H. by destruct (or_rejection r). }
  destruct (connector_for cfg _) as [connector|] eqn:Hc; [|by constructor].
  pose proof (stage_place_view req v st connector Hr Hc) as Hstage.
  destruct (limits_for _ _) as [limits|]; [|done].
  destruct (projected_position _ _ _ _ _) as [pos|]; [|by constructor].
  destruct (check_risk _ _ _) as [e|]; [|done].
  unfold reject_place. fold (rejected_candidate req (resolve_venue cfg v) e).
  destruct (append_or_error _ st) as [o st1] eqn:Ha.
  pose proof (pb_rejected req v st e o st1 Hr Ha) as H. by destruct o.
Qed.

Lemma place_begin_forward req v st step st' :
  place_begin_view req v st step st' -> forward_at (rq_client_order_id req) st st'.
Proof.
  destruct 1 as [r Hr|Hn Hc|Hn|e o st1 Hn Ha|e st1 Hn Ha|connector st1 Hn Hc Ha];
    try done; destruct (append_or_error_orders _ _ _ _ Ha) as [Ho _].
  - eapply (forward_new _ _ _ _ Hn (rejected_candidate_ok req _ e)).
    simpl. rewrite <- Ho. by destruct o.
  - by apply forward_at_same.
  - eapply (forward_new _ _ _ _ Hn (candidate_ok req _)).
    rewrite open_buffer_orders. simpl. by rewrite Ho.
Qed.

Lemma place_finish_forward req placement st :
  let '(_, st') := place_finish req placement st in
  forward_at (rq_client_order_id req) st st'
  /\ raced_reports st' = delete (rq_client_order_id req) (raced_reports st).
Proof.
  unfold place_finish, lookup. pose proof (drain_spec (rq_client_order_id req) st) as Hd.
  destruct (drain_raced_reports _ st) as [raced st1]. destruct Hd as (_ & Ho & Hra).
  destruct (orders st1 !! _) as [r|] eqn:Hr; [|split; [by apply forward_at_same|done]].
  rewrite Ho in Hr. destruct placement as [ack|err].
  - set (r1 := note_exchange_id r _). set (r2 := set_state _ r1).
    assert (E : evolves r r2) by (etrans; [apply note_exchange_id_evolves|apply transition_evolves]).
    assert (L : legs_ok r -> legs_ok r2) by (apply note_exchange_id_ok).
    destruct (append_or_error _ st1) as [[e|] st2] eqn:Ha;
      destruct (append_or_error_orders _ _ _ _ Ha) as [Ho2 Hra2].
    + split; [|simpl; congruence]. apply (forward_put _ _ _ _ _ Hr E L). simpl. congruence.
    + pose proof (apply_raced_spec raced r2 st2) as HR.
      destruct (apply_raced _ _ _) as [r3 st3]. destruct HR as (E3 & [F3 G3] & L3).
      split; [|simpl; congruence].
      eapply (forward_put _ _ _ _ r3 Hr); [by etrans|auto|simpl; congruence].
  - destruct (code err <>s "transport").
    + destruct (apply_transition _ _) as [[] s] eqn:Ht;
        [|split; [by apply forward_at_same|done]].
      split; [|simpl; by rewrite append_event_raced].
      eapply (forward_put _ _ _ _ _ Hr); [by apply reject_evolves|done|].
      simpl. rewrite append_event_orders. by rewrite Ho.
    + pose proof (apply_raced_spec raced r st1) as HR.
      destruct (apply_raced _ _ _) as [r3 st3]. destruct HR as (E3 & [F3 G3] & L3).
      split; [|simpl; congruence]. apply (forward_put _ _ _ _ _ Hr E3 L3). simpl. congruence.
Qed.

Lemma cancel_finish_forward id placement st :
  let '(_, st') := cancel_finish id placement st in
  forward_at id st st' /\ raced_reports st' = raced_reports st.
Proof.
  unfold cancel_finish, lookup. destruct (orders st !! id) as [r|] eqn:Hr; [|done].
  destruct placement as [ack|err]; [|done].
  set (r1 := note_exchange_id r _).
  pose proof (transition_evolves r1 Canceled) as E.
  destruct (apply_transition (or_state r1) Canceled) as [[] s] eqn:Ht; simpl in *;
    (split; [|by autorewrite with oms]).
  - eapply (forward_put _ _ _ _ (set_state s r1) Hr); [|apply note_exchange_id_ok|].
    + etrans; [apply note_exchange_id_evolves|exact E].
    + simpl. by rewrite append_event_orders.
  - eapply (forward_put _ _ _ _ r1 Hr);
      [apply note_exchange_id_evolves|apply note_exchange_id_ok|done].
Qed.

(** The first section of [amend] leaves the registry alone; it opens a buffer
    exactly when it sends, for an acknowledged working order without one. *)
Lemma amend_begin_spec cmd st :
  let '(step, st') := amend_begin cfg cmd st in
  let id := ac_client_order_id cmd in
  orders st' = orders st /\ log st' = log st
  /\ match step with
     | AmendSend connector wire =>
         exists r, orders st !! id = Some r
           /\ or_state r <> Pending /\ is_terminal (or_state r) = false
           /\ connector_for_record cfg r = Some connector
           /\ raced_reports st !! id = None
           /\ raced_reports st' = <[id := []]> (raced_reports st)
           /\ wire = mkAmendRequest (or_client_order_id r) (or_symbol r)
                (Some (default (or_price r) (ac_new_price cmd)))
                (Some (default (or_quantity r) (ac_new_quantity cmd)))
                (Some (or_side r)) (Some (or_type r)) (or_time_in_force r)
     | _ => st' = st
     end.
Proof.
  unfold amend_begin, lookup. cbv zeta.
  destruct (is_none (ac_new_price cmd) && is_none (ac_new_quantity cmd)); [done|].
  destruct (orders st !! _) as [r|] eqn:Hr; [|done].
  destruct (OrderState_eqb_spec (or_state r) Pending) as [|Hp]; [done|].
  destruct (is_terminal (or_state r)) eqn:Ht; [done|].
  destruct (connector_for_record cfg r) as [connector|] eqn:Hc; [|done].
  assert (Hstage : forall p q, let '(step, st') := stage_amend connector (ac_client_order_id cmd)
                                r p q st in
    orders st' = orders st /\ log st' = log st
    /\ match step with
       | AmendSend c wire => c = connector /\ raced_reports st !! ac_client_order_id cmd = None
           /\ raced_reports st' = <[ac_client_order_id cmd := []]> (raced_reports st)
           /\ wire = mkAmendRequest (or_client_order_id r) (or_symbol r) (Some p) (Some q)
                       (Some (or_side r)) (Some (or_type r)) (or_time_in_force r)
       | _ => st' = st
       end).
  { intros p q. unfold stage_amend. by destruct (raced_reports st !! _). }
  specialize (Hstage (default (or_price r) (ac_new_price cmd))
                (default (or_quantity r) (ac_new_quantity cmd))).
  destruct (stage_amend _ _ _ _ _ _) as [step st'] eqn:E.
  assert (Hgo : orders st' = orders st /\ log st' = log st /\ match step with
     | AmendSend c wire =>
         exists r0, Some r = Some r0
           /\ or_state r0 <> Pending /\ is_terminal (or_state r0) = false
           /\ connector_for_record cfg r0 = Some c
           /\ raced_reports st !! ac_client_order_id cmd = None
           /\ raced_reports st' = <[ac_client_order_id cmd := []]> (raced_reports st)
           /\ wire = mkAmendRequest (or_client_order_id r0) (or_symbol r0)
                (Some (default (or_price r0) (ac_new_price cmd)))
                (Some (default (or_quantity r0) (ac_new_quantity cmd)))
                (Some (or_side r0)) (Some (or_type r0)) (or_time_in_force r0)
     | _ => st' = st
     end).
  { destruct Hstage as (Ho & Hl & H). split_and!; [done..|]. destruct step; [done| |done].
    destruct H as (-> & ? & ? & ?). exists r. by split_and!. }
  clear Hstage. destruct (limits_for _ _) as [limits|]; [|exact Hgo].
  destruct (projected_position _ _ _ _ _) as [pos|]; [|done].
  destruct (check_risk _ _ _); [done|exact Hgo].
Qed.

Lemma amend_finish_forward id wire placement st :
  let '(_, st') := amend_finish id wire placement st in
  forward_at id st st' /\ raced_reports st' = delete id (raced_reports st).
Proof.
  unfold amend_finish, lookup. pose proof (drain_spec id st) as Hd.
  destruct (drain_raced_reports _ st) as [raced st1]. destruct Hd as (_ & Ho & Hra).
  destruct (orders st1 !! _) as [r|] eqn:Hr; [|split; [by apply forward_at_same|done]].
  rewrite Ho in Hr. destruct placement as [ack|err].
  - set (r0 := set_quantity _ (set_price _ r)). set (r1 := append_amend_leg r0 _).
    assert (E : evolves r r1).
    { etrans; [|apply append_amend_leg_evolves]. subst r0. evolves_tac. }
    assert (L : legs_ok r -> legs_ok r1) by (intros; apply append_amend_leg_ok; done).
    destruct (append_or_error _ st1) as [[e|] st2] eqn:Ha;
      destruct (append_or_error_orders _ _ _ _ Ha) as [Ho2 Hra2].
    + split; [|simpl; congruence]. apply (forward_put _ _ _ _ _ Hr E L). simpl. congruence.
    + pose proof (apply_raced_spec raced r1 st2) as HR.
      destruct (apply_raced _ _ _) as [r3 st3]. destruct HR as (E3 & [F3 G3] & L3).
      split; [|simpl; congruence].
      eapply (forward_put _ _ _ _ r3 Hr); [by etrans|auto|simpl; congruence].
  - assert (HA : let '(r1, st2) :=
      if negb (is_nil (or_legs r)) then
        if negb (str_empty (newest_unknown r raced "")) then
          adopt_unknown_leg r (newest_unknown r raced "") st1 else (r, st1)
      else (r, st1) in evolves r r1 /\ frame st1 st2 /\ (legs_ok r -> legs_ok r1)).
    { destruct (negb _); [|by split_and!; try reflexivity].
      destruct (negb _); [|by split_and!; try reflexivity]. apply adopt_unknown_leg_spec. }
    destruct (if negb (is_nil (or_legs r)) then _ else _) as [r1 st2].
    destruct HA as (E1 & [F1 G1] & L1).
    pose proof (apply_raced_spec raced r1 st2) as HR.
    destruct (apply_raced _ _ _) as [r3 st3]. destruct HR as (E3 & [F3 G3] & L3).
    split; [|simpl; congruence].
    eapply (forward_put _ _ _ _ r3 Hr); [by etrans|auto|simpl; congruence].
Qed.

Lemma on_execution_report_forward rep st :
  let st' := on_execution_report rep st in
  let id := er_client_order_id rep in
  forward_at id st st'
  /\ raced_reports st' = match raced_reports st !! id with
                         | Some flying => <[id := flying ++ [rep]]> (raced_reports st)
                         | None => raced_reports st
                         end
  /\ (is_Some (raced_reports st !! id) -> orders st' = orders st /\ log st' = log st).
Proof.
  simpl. unfold on_execution_report, lookup.
  destruct (latency_now (latency st)) as [t l]. simpl.
  destruct (raced_reports st !! _) as [flying|] eqn:Hra.
  { split_and!; try done; by apply forward_at_same. }
  destruct (orders st !! _) as [r|] eqn:Hr.
  2: { split_and!; try done; by apply forward_at_same. }
  pose proof (apply_arbitrated_report_spec r rep (with_latency l st)) as HR.
  destruct (apply_arbitrated_report _ _ _) as [r1 st1]. destruct HR as (E1 & [F1 G1] & L1).
  simpl in *. set (st2 := match latency st1 with Some _ => _ | None => _ end).
  assert (Ho : orders st2 = <[er_client_order_id rep := r1]> (orders st)
               /\ raced_reports st2 = raced_reports st).
  { subst st2. rewrite <- F1, <- G1. destruct (latency st1); [|done].
    destruct (_ <? _); [|done]. done. }
  destruct Ho as [Ho HG]. split_and!; [|done|by intros []].
  by apply (forward_put _ _ _ _ _ Hr E1 L1).
Qed.
End Sections.

(** ** Reconciliation *)

Lemma snapshot_record_ok s v adopted :
  record_ok (os_client_order_id s) (snapshot_record s v adopted).
Proof.
  constructor; [done| |intros [? [=]]]. unfold snapshot_record, legs_ok; simpl.
  destruct (str_empty (os_exchange_order_id s)) eqn:He; simpl.
  - apply str_empty_true in He. split; [done|exact He].
  - apply str_empty_false in He. split; [|done].
    intros i leg Hl. apply list_lookup_singleton_Some in Hl as [-> <-]. done.
Qed.

Lemma list_snapshot_spec v s report st :
  let '(_, st') := list_snapshot v s (report, st) in
  forward st st' /\ raced_reports st' = raced_reports st
  /\ (forall id, id <> os_client_order_id s \/ is_Some (raced_reports st !! id) ->
        orders st' !! id = orders st !! id).
Proof.
  unfold list_snapshot, lookup.
  destruct (str_empty (os_client_order_id s)); simpl; [done|].
  destruct (raced_reports st !! os_client_order_id s) eqn:Hra; simpl; [done|].
  assert (Hother : forall id m r, id <> os_client_order_id s \/ is_Some (raced_reports st !! id) ->
    m = orders st -> <[os_client_order_id s := r]> m !! id = orders st !! id).
  { intros id m r Hid ->. rewrite lookup_insert_ne; [done|]. intros <-.
    destruct Hid as [?|[? ?]]; congruence. }
  destruct (orders st !! _) as [r|] eqn:Hr.
  2: { unfold record_from_snapshot. simpl. split_and!.
       - eapply fa_forward, (forward_new _ _ _ _ Hr (snapshot_record_ok s v true)). simpl.
         by rewrite append_event_orders.
       - by rewrite append_event_raced.
       - intros id Hid. apply Hother; [done|by rewrite append_event_orders]. }
  set (p := if _ && _ then _ else _).
  assert (H1 : evolves r p.2 /\ (legs_ok r -> legs_ok p.2)).
  { subst p. destruct (_ && _); simpl; [|by split].
    split; [apply note_exchange_id_evolves|apply note_exchange_id_ok]. }
  destruct p as [changed r1]. simpl in H1. destruct H1 as [E1 L1].
  pose proof (apply_observation_spec r1 (os_state s) (os_filled_quantity s)
    (os_average_fill_price s) (os_price s) (os_quantity s) true) as H2.
  destruct (apply_observation _ _ _ _ _ _ _) as [observed r2].
  destruct H2 as (E2 & S2 & _).
  assert (E : evolves r r2) by (by etrans).
  assert (L : legs_ok r -> legs_ok r2) by (intros; eapply same_legs_ok; eauto).
  destruct (changed || observed); simpl; rewrite ?append_event_raced;
    (split_and!; [|done|intros id Hid; apply Hother; [done|by rewrite ?append_event_orders]]);
    eapply fa_forward, (forward_put _ _ _ _ _ Hr E L); simpl; by rewrite ?append_event_orders.
Qed.

Lemma listing_section_spec v snapshots acc :
  let st := acc.2 in
  let st' := (listing_section v snapshots acc).2 in
  forward st st' /\ raced_reports st' = raced_reports st
  /\ (forall id, is_Some (raced_reports st !! id) -> orders st' !! id = orders st !! id).
Proof.
  simpl. unfold listing_section. revert acc.
  induction snapshots as [|s snapshots IH]; intros [report st]; cbn [fold_left snd];
    [by split_and!|].
  pose proof (list_snapshot_spec v s report st) as H.
  destruct (list_snapshot v s (report, st)) as [report' st'].
  destruct H as (F & R & O). destruct (IH (report', st')) as (F' & R' & O'). simpl in *.
  split_and!; [by etrans|congruence|].
  intros id Hid. rewrite O' by (by rewrite R). apply O. by right.
Qed.

Lemma resolve_snapshot_spec r s st :
  let '(changed, r', st') := resolve_snapshot r s st in
  evolves r r' /\ frame st st' /\ (legs_ok r -> legs_ok r').
Proof.
  unfold resolve_snapshot. set (p := if _ && _ then _ else _).
  assert (H1 : evolves r p.1.2 /\ frame st p.2 /\ (legs_ok r -> legs_ok p.1.2)).
  { subst p. destruct (_ && _); simpl.
    { split_and!; [apply note_exchange_id_evolves|done|apply note_exchange_id_ok]. }
    destruct (_ && _); [|by split_and!]. simpl.
    split_and!; [apply note_exchange_id_evolves|done|apply note_exchange_id_ok]. }
  destruct p as [[changed r1] st1]. simpl in H1. destruct H1 as (E1 & F1 & L1).
  pose proof (apply_observation_spec r1 (os_state s) (os_filled_quantity s)
    (os_average_fill_price s) (os_price s) (os_quantity s) true) as H2.
  destruct (apply_observation _ _ _ _ _ _ _) as [observed r2].
  destruct H2 as (E2 & S2 & _).
  split_and!; [by etrans|done|]. intros. eapply same_legs_ok; eauto.
Qed.

Lemma resolve_section_spec item answer report st :
  let '(_, st') := resolve_section item answer (report, st) in
  forward_at (wi_id item) st st' /\ raced_reports st' = raced_reports st.
Proof.
  unfold resolve_section, lookup. destruct (orders st !! _) as [r|] eqn:Hr; [|done].
  assert (Habs : let '(_, st') :=
    if conclusive_absence answer then
      match apply_transition (or_state r) Rejected with
      | (Applied, s) =>
          (count_absent report,
           put_record (wi_id item) (set_rejection (Some venue_absent) (set_state s r))
             (append_event (rejected_event (set_rejection (Some venue_absent) (set_state s r)))
                (append_event (state_event (set_rejection (Some venue_absent) (set_state s r))) st)))
      | (TransitionRejected, _) => (count_absent report, st)
      end
    else (count_unresolved report, st) in
    forward_at (wi_id item) st st' /\ raced_reports st' = raced_reports st).
  { destruct (conclusive_absence _); [|done].
    destruct (apply_transition _ _) as [[] s] eqn:Ht; [|done]. simpl.
    rewrite !append_event_raced. split; [|done].
    eapply (forward_put _ _ _ _ _ Hr (reject_evolves r venue_absent s Ht)); [done|].
    simpl. by rewrite !append_event_orders. }
  destruct answer as [[s|]|e]; [|exact Habs..].
  pose proof (resolve_snapshot_spec r s st) as H.
  destruct (resolve_snapshot r s st) as [[changed r1] st1]. destruct H as (E & [F G] & L).
  destruct changed; simpl; rewrite ?append_event_raced; (split; [|done]);
    apply (forward_put _ _ _ _ _ Hr E L); simpl; by rewrite ?append_event_orders, F.
Qed.
