(* ===== verification/OmsSystem.v ===== *)
(** * Order management: interleavings

    The threads of the gateway (REST handlers, venue feeds, the reconcile and
    audit loops) meet in the critical sections.  [step] runs one section; the
    venue calls that are open between two sections are [sys_calls], and a venue
    may answer any of them at any time with any outcome. *)

From S2P Require Import Prelude Types OrderState Decimal Json Risk Latency EventLog OmsTypes Oms.
From S2P Require Import OmsReconcile OmsAudit OmsFacts OmsSections.

Inductive Call :=
  | CPlace (venue : string) (request : OrderRequest)
  | CCancel (id : string)
  | CAmend (id : string) (wire : AmendRequest)
  | CLookup (item : WorkItem).

Record Sys := mkSys { sys_oms : Oms; sys_calls : list Call }.

(** The id a place or an amend owns while its call is open. *)
Definition mutating_id (c : Call) : option string :=
  match c with
  | CPlace _ request => Some (rq_client_order_id request)
  | CAmend id _ => Some id
  | _ => None
  end.

(** The id that the other calls will look up when they return. *)
Definition bystander_id (c : Call) : option string :=
  match c with
  | CCancel id => Some id
  | CLookup item => Some (wi_id item)
  | _ => None
  end.

Definition mutating (cs : list Call) : list string := omap mutating_id cs.

(** The ids whose place request goes to a venue. *)
Definition placed_id (c : Call) : option string :=
  match c with CPlace _ request => Some (rq_client_order_id request) | _ => None end.
Definition placed (cs : list Call) : list string := omap placed_id cs.

Section System.
Context {W : Type} (cfg : OmsConfig W).

Definition opened_place (request : OrderRequest) (venue : string) (s : PlaceStep (W:=W)) : list Call :=
  match s with PlaceSend _ => [CPlace (resolve_venue cfg venue) request] | _ => [] end.
Definition opened_cancel (id : string) (s : CancelStep (W:=W)) : list Call :=
  match s with CancelSend _ _ => [CCancel id] | _ => [] end.
Definition opened_amend (id : string) (s : AmendStep (W:=W)) : list Call :=
  match s with AmendSend _ wire => [CAmend id wire] | _ => [] end.

(** The section that the answer to a call runs. *)
Inductive answered : Call -> Oms -> Oms -> Prop :=
  | an_place venue request placement st :
      answered (CPlace venue request) st (place_finish request placement st).2
  | an_cancel id placement st :
      answered (CCancel id) st (cancel_finish id placement st).2
  | an_amend id wire placement st :
      answered (CAmend id wire) st (amend_finish id wire placement st).2
  | an_lookup item answer report st :
      answered (CLookup item) st (resolve_section item answer (report, st)).2
  | an_unrouted item st : answered (CLookup item) st st.

(** One critical section; the label lists the venue calls it opens. *)
Inductive step : Sys -> list Call -> Sys -> Prop :=
  | st_place request venue s st st' cs :
      place_begin cfg request venue st = (s, st') ->
      step (mkSys st cs) (opened_place request venue s) (mkSys st' (cs ++ opened_place request venue s))
  | st_cancel id s st cs :
      cancel_begin cfg id st = s ->
      step (mkSys st cs) (opened_cancel id s) (mkSys st (cs ++ opened_cancel id s))
  | st_amend cmd s st st' cs :
      amend_begin cfg cmd st = (s, st') ->
      step (mkSys st cs) (opened_amend (ac_client_order_id cmd) s)
        (mkSys st' (cs ++ opened_amend (ac_client_order_id cmd) s))
  | st_worklist st cs :
      step (mkSys st cs) (map CLookup (reconcile_worklist cfg st))
        (mkSys st (cs ++ map CLookup (reconcile_worklist cfg st)))
  | st_answer c st st' pre post :
      answered c st st' -> step (mkSys st (pre ++ c :: post)) [] (mkSys st' (pre ++ post))
  | st_report report st cs :
      step (mkSys st cs) [] (mkSys (on_execution_report report st) cs)
  | st_listing venue snapshots report st cs :
      step (mkSys st cs) [] (mkSys (listing_section venue snapshots (report, st)).2 cs)
  | st_audit st cs : step (mkSys st cs) [] (mkSys (audit_begin cfg st).2 cs)
  | st_stamp st l cs : step (mkSys st cs) [] (mkSys (with_latency l st) cs).

Inductive run : Sys -> list Call -> Sys -> Prop :=
  | run_nil s : run s [] s
  | run_step s1 t1 s2 t2 s3 : run s1 t1 s2 -> step s2 t2 s3 -> run s1 (t1 ++ t2) s3.

(** *** The sections that open calls *)

Lemma cancel_begin_spec id st :
  match cancel_begin cfg id st with
  | CancelSend connector wire =>
      exists r, orders st !! id = Some r
        /\ (or_state r = Live \/ or_state r = PartiallyFilled)
        /\ connector_for_record cfg r = Some connector
        /\ wire = mkCancelRequest (or_client_order_id r) (or_symbol r)
  | _ => True
  end.
Proof.
  unfold cancel_begin, lookup. destruct (orders st !! id) as [r|]; [|done].
  destruct (connector_for_record cfg r) eqn:Hc;
    destruct (or_state r) eqn:Hs; simpl; eauto 10.
Qed.

Lemma worklist_spec st item :
  item ∈ reconcile_worklist cfg st ->
  exists r, orders st !! wi_id item = Some r /\ is_terminal (or_state r) = false
    /\ raced_reports st !! wi_id item = None.
Proof.
  unfold reconcile_worklist. intros Hin. apply list_elem_of_In in Hin.
  apply in_map_iff in Hin as ([id r] & <- & Hf).
  apply filter_In in Hf as [Hin Hb]. simpl in *. apply list_elem_of_In, elem_of_map_to_list in Hin.
  boolify. exists r. split_and!; [done|done|].
  by destruct (raced_reports st !! id).
Qed.

(** *** The invariant *)

Record Inv (s : Sys) : Prop := {
  inv_keyed : registry_keyed (orders (sys_oms s));
  inv_nodup : NoDup (mutating (sys_calls s));
  inv_raced : forall id,
    is_Some (raced_reports (sys_oms s) !! id) <-> id ∈ mutating (sys_calls s);
  inv_place : forall venue request, CPlace venue request ∈ sys_calls s ->
    orders (sys_oms s) !! rq_client_order_id request = Some (candidate_of request venue);
  inv_amend : forall id wire, CAmend id wire ∈ sys_calls s ->
    exists r, orders (sys_oms s) !! id = Some r /\ or_state r <> Pending;
  inv_known : forall c id, c ∈ sys_calls s -> bystander_id c = Some id ->
    is_Some (orders (sys_oms s) !! id);
  inv_apart : forall venue request c id, CPlace venue request ∈ sys_calls s -> c ∈ sys_calls s ->
    bystander_id c = Some id -> id <> rq_client_order_id request }.

Lemma elem_mutating c cs id : c ∈ cs -> mutating_id c = Some id -> id ∈ mutating cs.
Proof. intros. apply list_elem_of_omap. eauto. Qed.

Lemma not_pending_moves s t : moves s t -> s <> Pending -> t <> Pending.
Proof. intros Hm Hs ->. apply moves_stage in Hm. destruct Hm; [destruct s; simpl in *; lia|done]. Qed.

(** The facts about open calls survive any section that moves the registry
    forward and leaves the records of open places alone. *)
Lemma inv_forward st st' cs cs' :
  Inv (mkSys st cs) -> forward st st' -> cs' ⊆ cs ->
  (forall venue request, CPlace venue request ∈ cs' ->
     orders st' !! rq_client_order_id request = orders st !! rq_client_order_id request) ->
  NoDup (mutating cs') ->
  (forall id, is_Some (raced_reports st' !! id) <-> id ∈ mutating cs') ->
  Inv (mkSys st' cs').
Proof.
  intros [Hok Hnd Hra Hpl Ham Hkn Hap] [Hev _ Hok'] Hsub Hsame Hnd' Hra'. simpl in *.
  constructor; simpl; auto.
  - intros v request Hin. rewrite (Hsame v request Hin). by apply Hpl, Hsub.
  - intros id wire Hin. destruct (Ham id wire (Hsub _ Hin)) as (r & Hr & Hp).
    destruct (Hev _ _ Hr) as (r' & Hr' & E). exists r'. split; [done|].
    eapply not_pending_moves; [apply ev_state|]; eauto.
  - intros c id Hin Hb. destruct (Hkn c id (Hsub _ Hin) Hb) as (r & Hr).
    destruct (Hev _ _ Hr) as (r' & Hr' & _). by exists r'.
  - intros v request c id Hp Hc Hb. eapply Hap; eauto.
Qed.

(** Sections that open no call and close none. *)
Lemma inv_same_calls st st' cs :
  Inv (mkSys st cs) -> forward st st' ->
  (forall id, is_Some (raced_reports st' !! id) <-> is_Some (raced_reports st !! id)) ->
  (forall id, is_Some (raced_reports st !! id) -> orders st' !! id = orders st !! id) ->
  Inv (mkSys st' cs).
Proof.
  intros HI HF Hra Ho. apply (inv_forward st st' cs cs HI HF); [done| |apply HI|].
  - intros v request Hin. apply Ho. apply (inv_raced _ HI). simpl. by eapply elem_mutating.
  - intros id. rewrite Hra. apply (inv_raced _ HI).
Qed.

Lemma mutating_app a b : mutating (a ++ b) = mutating a ++ mutating b.
Proof. apply omap_app. Qed.

(** A returning call. *)
Lemma inv_answer c st st' pre post :
  Inv (mkSys st (pre ++ c :: post)) -> answered c st st' -> Inv (mkSys st' (pre ++ post)).
Proof.
  intros HI Ha.
  assert (Hsub : pre ++ post ⊆ pre ++ c :: post) by set_solver.
  pose proof (inv_nodup _ HI) as Hnd. pose proof (inv_raced _ HI) as Hra. simpl in *.
  rewrite mutating_app in Hnd, Hra. cbn [mutating omap list_omap] in Hnd, Hra.
  fold (mutating post) in Hnd, Hra.
  assert (Hcore : exists id, forward_at id st st'
    /\ (mutating_id c = Some id /\ raced_reports st' = delete id (raced_reports st)
        \/ bystander_id c = Some id /\ mutating_id c = None
           /\ raced_reports st' = raced_reports st)).
  { destruct Ha as [v req pl st|id pl st|id w pl st|item ans report st|item st].
    - exists (rq_client_order_id req). pose proof (place_finish_forward req pl st) as H.
      destruct (place_finish req pl st). naive_solver.
    - exists id. pose proof (cancel_finish_forward id pl st) as H.
      destruct (cancel_finish id pl st). naive_solver.
    - exists id. pose proof (amend_finish_forward id w pl st) as H.
      destruct (amend_finish id w pl st). naive_solver.
    - exists (wi_id item). pose proof (resolve_section_spec item ans report st) as H.
      destruct (resolve_section item ans (report, st)). naive_solver.
    - exists (wi_id item). split; [done|by right]. }
  destruct Hcore as (id & [HF Hloc] & Hcase).
  apply (inv_forward st st' _ _ HI HF Hsub).
  - intros v request Hin. apply Hloc. destruct Hcase as [[Hm _]|(Hb & _ & _)].
    + rewrite Hm in Hnd. intros Heq. apply NoDup_app in Hnd as (_ & Hd & Hnd).
      apply NoDup_cons in Hnd as [Hnd _]. apply elem_of_app in Hin as [Hin|Hin].
      * eapply (Hd id); [|by left]. rewrite <- Heq. by eapply elem_mutating.
      * apply Hnd. rewrite <- Heq. by eapply elem_mutating.
    + intros Heq. eapply (inv_apart _ HI v request c id); simpl; auto. set_solver.
  - rewrite mutating_app. destruct (mutating_id c); [|done].
    apply NoDup_app in Hnd as (H1 & Hd & Hnd). apply NoDup_cons in Hnd as [_ Hnd].
    apply NoDup_app. split_and!; auto. set_solver.
  - intros other. rewrite mutating_app. destruct Hcase as [[Hm ->]|(_ & Hm & ->)].
    + rewrite Hm in Hra, Hnd. apply NoDup_app in Hnd as (_ & Hd & Hnd).
      apply NoDup_cons in Hnd as [Hnd _]. destruct (decide (other = id)) as [->|Hne].
      * rewrite lookup_delete_eq. split; [by intros []|]. set_solver.
      * rewrite lookup_delete_ne by done. rewrite Hra. set_solver.
    + rewrite Hm in Hra. apply Hra.
Qed.

Lemma mutating_known st cs id :
  Inv (mkSys st cs) -> id ∈ mutating cs -> is_Some (orders st !! id).
Proof.
  intros HI Hin. apply list_elem_of_omap in Hin as (c & Hc & Hm).
  destruct c; simplify_eq/=.
  - pose proof (inv_place _ HI _ request Hc) as Hv. by eexists.
  - destruct (inv_amend _ HI _ _ Hc) as (r & Hr & _). by eexists.
Qed.

Lemma unknown_not_raced st cs id :
  Inv (mkSys st cs) -> orders st !! id = None -> raced_reports st !! id = None.
Proof.
  intros HI Hn. apply eq_None_not_Some. intros Hs. apply (inv_raced _ HI) in Hs.
  simpl in Hs. destruct (mutating_known _ _ _ HI Hs). congruence.
Qed.

Lemma inv_open_place request venue st st1 cs :
  Inv (mkSys st cs) -> orders st !! rq_client_order_id request = None ->
  orders st1 = <[rq_client_order_id request := candidate_of request venue]> (orders st) ->
  raced_reports st1 = <[rq_client_order_id request := []]> (raced_reports st) ->
  Inv (mkSys st1 (cs ++ [CPlace venue request])).
Proof.
  intros HI Hn Ho Hr.
  assert (HF : forward_at (rq_client_order_id request) st st1)
    by (by apply (forward_new _ _ _ _ Hn (candidate_ok request venue))).
  assert (Hnew : rq_client_order_id request ∉ mutating cs).
  { intros Hin. destruct (mutating_known _ _ _ HI Hin). congruence. }
  destruct HI as [Hok Hnd Hra Hpl Ham Hkn Hap]. destruct HF as [[Hev _ Hok'] Hloc]. simpl in *.
  constructor; simpl; auto.
  - rewrite mutating_app. apply NoDup_app. split_and!; [done| |by apply NoDup_singleton].
    set_solver.
  - intros id. rewrite mutating_app, Hr. destruct (decide (id = rq_client_order_id request)) as [->|Hne].
    + rewrite lookup_insert_eq. split; [|by eexists]. set_solver.
    + rewrite lookup_insert_ne, Hra by done. set_solver.
  - intros v req' Hin. apply elem_of_app in Hin as [Hin|Hin%list_elem_of_singleton].
    + pose proof (Hpl _ _ Hin) as Hv. rewrite Hloc; [done|congruence].
    + simplify_eq. by rewrite Ho, lookup_insert_eq.
  - intros id wire Hin. apply elem_of_app in Hin as [Hin|Hin%list_elem_of_singleton]; [|done].
    destruct (Ham _ _ Hin) as (r & Hrr & Hp). exists r. rewrite Hloc; [done|congruence].
  - intros c id Hin Hb. apply elem_of_app in Hin as [Hin|Hin%list_elem_of_singleton]; [|by subst].
    destruct (Hkn _ _ Hin Hb) as (r & Hrr). exists r. rewrite Hloc; [done|congruence].
  - intros v' req' c id Hp Hc Hb Heq.
    apply elem_of_app in Hc as [Hc|Hc%list_elem_of_singleton]; [|by subst].
    destruct (Hkn _ _ Hc Hb) as (r & Hrr).
    apply elem_of_app in Hp as [Hp|Hp%list_elem_of_singleton].
    + by eapply Hap.
    + simplify_eq.
Qed.

Lemma inv_open_amend id wire r st st1 cs :
  Inv (mkSys st cs) -> orders st !! id = Some r -> or_state r <> Pending ->
  raced_reports st !! id = None -> orders st1 = orders st ->
  raced_reports st1 = <[id := []]> (raced_reports st) ->
  Inv (mkSys st1 (cs ++ [CAmend id wire])).
Proof.
  intros HI Hr Hp Hn Ho Hr1. destruct HI as [Hok Hnd Hra Hpl Ham Hkn Hap]. simpl in *.
  assert (Hnew : id ∉ mutating cs).
  { intros Hin. apply Hra in Hin as [? ?]. congruence. }
  constructor; simpl; rewrite ?Ho; auto.
  - rewrite mutating_app. apply NoDup_app. split_and!; [done| |by apply NoDup_singleton].
    set_solver.
  - intros id'. rewrite mutating_app, Hr1. destruct (decide (id' = id)) as [->|Hne].
    + rewrite lookup_insert_eq. split; [|by eexists]. set_solver.
    + rewrite lookup_insert_ne, Hra by done. set_solver.
  - intros v req' Hin. apply elem_of_app in Hin as [Hin|Hin%list_elem_of_singleton]; [|done]. auto.
  - intros id' wire' Hin. apply elem_of_app in Hin as [Hin|Hin%list_elem_of_singleton]; [eauto|].
    simplify_eq. eauto.
  - intros c id' Hin Hb. apply elem_of_app in Hin as [Hin|Hin%list_elem_of_singleton]; [eauto|by subst].
  - intros v req' c id' Hpl' Hc Hb.
    apply elem_of_app in Hc as [Hc|Hc%list_elem_of_singleton]; [|by subst].
    apply elem_of_app in Hpl' as [Hpl'|Hpl'%list_elem_of_singleton]; [eauto|done].
Qed.

(** Calls that do not own an id: they must name a record that exists and is
    not being placed. *)
Lemma inv_open_bystanders st cs cs' :
  Inv (mkSys st cs) ->
  Forall (fun c => exists id r, bystander_id c = Some id /\ mutating_id c = None
            /\ orders st !! id = Some r
            /\ (raced_reports st !! id = None \/ or_state r <> Pending)) cs' ->
  Inv (mkSys st (cs ++ cs')).
Proof.
  intros HI Hall. destruct HI as [Hok Hnd Hra Hpl Ham Hkn Hap]. simpl in *.
  rewrite Forall_forall in Hall.
  assert (Hno : forall c, c ∈ cs' -> mutating_id c = None)
    by (intros c Hc; destruct (Hall c Hc) as (?&?&?&?&_); done).
  assert (Hm : mutating (cs ++ cs') = mutating cs).
  { rewrite mutating_app. rewrite <- (app_nil_r (mutating cs)) at 2. f_equal.
    clear -Hno. induction cs' as [|c cs' IH]; [done|]. simpl.
    unfold mutating in *. simpl. rewrite (Hno c) by (by left). apply IH. set_solver. }
  constructor; simpl; rewrite ?Hm; auto.
  - intros v req Hin. apply elem_of_app in Hin as [Hin|Hin]; [auto|]. apply Hno in Hin. done.
  - intros id w Hin. apply elem_of_app in Hin as [Hin|Hin]; [eauto|]. apply Hno in Hin. done.
  - intros c id Hin Hb. apply elem_of_app in Hin as [Hin|Hin]; [eauto|].
    destruct (Hall c Hin) as (id' & r & ? & _ & ? & _). simplify_eq. by eexists.
  - intros v req c id Hp Hc Hb.
    apply elem_of_app in Hp as [Hp|Hp]; [|by apply Hno in Hp].
    apply elem_of_app in Hc as [Hc|Hc]; [eauto|].
    destruct (Hall c Hc) as (id' & r & ? & _ & Hr & Hfree). simplify_eq. intros ->.
    destruct Hfree as [Hf|Hf].
    + assert (Hin : rq_client_order_id req ∈ mutating cs) by (by eapply elem_mutating).
      apply Hra in Hin as [? ?]. congruence.
    + pose proof (Hpl _ _ Hp) as Hv. simplify_eq.
Qed.

Lemma inv_step s t s' : Inv s -> step s t s' -> Inv s'.
Proof.
  intros HI Hs. destruct Hs as [req v ps st st' cs E|id ps st cs E|cmd ps st st' cs E
    |st cs|c st st' pre post Ha|rep st cs|v snaps rr st cs|st cs|st l cs].
  - pose proof (place_begin_spec cfg req v st) as Hv. rewrite E in Hv.
    pose proof (place_begin_forward cfg _ _ _ _ _ Hv) as [HF Hloc].
    assert (Hdone : raced_reports st' = raced_reports st ->
              orders st !! rq_client_order_id req = None -> Inv (mkSys st' cs)).
    { intros Hra Hn. apply (inv_same_calls st st' cs HI HF); rewrite ?Hra; [done|].
      intros id Hid. apply Hloc. intros ->.
      pose proof (unknown_not_raced _ _ _ HI Hn) as Hno. rewrite Hno in Hid. by destruct Hid. }
    destruct Hv as [r Hr|Hn Hc|Hn|e o st1 Hn Ha|e st1 Hn Ha|conn st1 Hn Hc Ha]; simpl;
      rewrite ?app_nil_r; try done;
      pose proof (append_or_error_orders _ _ _ _ Ha) as [Ho Hra].
    + apply Hdone; [|done]. by destruct o.
    + by apply Hdone.
    + eapply inv_open_place; [done|done|by rewrite open_buffer_orders; simpl; rewrite Ho|].
      rewrite open_buffer_raced. simpl. rewrite Hra.
      by rewrite (unknown_not_raced _ _ _ HI Hn).
  - apply inv_open_bystanders; [done|]. pose proof (cancel_begin_spec id st) as Hv.
    rewrite E in Hv. destruct ps as [o|conn wire]; simpl; [done|].
    destruct Hv as (r & Hr & Hst & _). apply Forall_singleton. exists id, r.
    split_and!; [done..|]. right. destruct Hst; congruence.
  - pose proof (amend_begin_spec cfg cmd st) as Hv. rewrite E in Hv. destruct Hv as (Ho & _ & Hv).
    destruct ps as [o|conn wire|]; simpl; rewrite ?app_nil_r; [by subst| |by subst].
    destruct Hv as (r & Hr & Hp & _ & _ & Hra & Hra' & _).
    by apply (inv_open_amend _ wire r st st').
  - apply inv_open_bystanders; [done|]. apply Forall_forall. intros c Hc.
    apply list_elem_of_fmap in Hc as (item & -> & Hitem).
    apply worklist_spec in Hitem as (r & Hr & _ & Hra). exists (wi_id item), r. auto.
  - by eapply inv_answer.
  - pose proof (on_execution_report_forward rep st) as ([HF Hloc] & Hra & Hsame).
    apply (inv_same_calls st _ cs HI HF).
    + intros id. rewrite Hra. destruct (raced_reports st !! er_client_order_id rep) eqn:Hb; [|done].
      destruct (decide (id = er_client_order_id rep)) as [->|Hne].
      * rewrite lookup_insert_eq, Hb. split; by eexists.
      * by rewrite lookup_insert_ne.
    + intros id Hid. destruct (decide (id = er_client_order_id rep)) as [->|Hne]; [|by apply Hloc].
      by destruct (Hsame Hid) as [-> _].
  - pose proof (listing_section_spec v snaps (rr, st)) as (HF & Hra & Hsame). simpl in *.
    apply (inv_same_calls st _ cs HI HF); [by rewrite Hra|done].
  - apply (inv_same_calls st _ cs HI); [by apply forward_same|done|done].
  - apply (inv_same_calls st _ cs HI); [by apply forward_same|done|done].
Qed.

Lemma run_inv s t s' : Inv s -> run s t s' -> Inv s'.
Proof.
  intros HI Hrun. induction Hrun as [|s1 t1 s2 t2 s3 Hrun IH Hstep]; [done|].
  eapply inv_step; [by apply IH|done].
Qed.

Lemma step_forward s t s' : step s t s' -> forward (sys_oms s) (sys_oms s').
Proof.
  destruct 1 as [req v ps st st' cs E|id ps st cs E|cmd ps st st' cs E
    |st cs|c st st' pre post Ha|rep st cs|v snaps rr st cs|st cs|st l cs]; simpl; try done.
  - pose proof (place_begin_spec cfg req v st) as Hv. rewrite E in Hv.
    by apply place_begin_forward in Hv as [HF _].
  - pose proof (amend_begin_spec cfg cmd st) as Hv. rewrite E in Hv.
    apply forward_same, Hv.
  - destruct Ha as [v req pl st|id pl st|id w pl st|item ans report st|item st]; [..|done].
    + pose proof (place_finish_forward req pl st) as H. destruct (place_finish req pl st). apply H.
    + pose proof (cancel_finish_forward id pl st) as H. destruct (cancel_finish id pl st). apply H.
    + pose proof (amend_finish_forward id w pl st) as H. destruct (amend_finish id w pl st). apply H.
    + pose proof (resolve_section_spec item ans report st) as H.
      destruct (resolve_section item ans (report, st)). apply H.
  - apply on_execution_report_forward.
  - apply (listing_section_spec v snaps (rr, st)).
Qed.

Lemma run_forward s t s' : run s t s' -> forward (sys_oms s) (sys_oms s').
Proof. induction 1; [done|]. etrans; [done|]. by eapply step_forward. Qed.

Lemma inv_init st : registry_keyed (orders st) -> raced_reports st = ∅ -> Inv (mkSys st []).
Proof.
  intros Hok Hra. constructor; simpl; try done; try (intros; set_solver).
  - constructor.
  - intros id. rewrite Hra, lookup_empty. split; [by intros []|]. intros H; inversion H.
Qed.

(** ** Properties of every interleaving *)

(** C8: Under any interleaving of requests, venue answers, reports and reconciliations no order
    disappears, its state only moves along the transition table, a terminal state never changes
    and the filled quantity never decreases. *)
Theorem registry_moves_forward s t s' id r :
  run s t s' -> orders (sys_oms s) !! id = Some r ->
  exists r', orders (sys_oms s') !! id = Some r' /\ evolves r r'
    /\ (is_terminal (or_state r) = true -> or_state r' = or_state r)
    /\ (forall c, parse_decimal (fill_text r) = Ok c ->
         exists d, parse_decimal (fill_text r') = Ok d /\ v16 c <= v16 d).
Proof.
  intros Hrun Hr. destruct (run_forward _ _ _ Hrun) as [Hev _ _].
  destruct (Hev _ _ Hr) as (r' & Hr' & E). exists r'. split_and!; [done|done| |].
  - intros Ht. eapply moves_terminal; [done|]. apply (ev_state _ _ E).
  - intros c Hc. destruct (ev_fill _ _ E) as [Heq|(c' & d & Hc' & Hd & Hlt)].
    + exists c. unfold fill_text in *. by rewrite Heq.
    + exists d. split; [by apply parse_fill_text|].
      assert (c = c') as -> by congruence. lia.
Qed.

(** C20: The leg table of every order stays a gapless chain: records are stored under their own
    id, leg versions are 1..N, the newest leg is the current exchange id (so the audit raises no
    version_gap), and a recorded rejection implies state Rejected. *)
Theorem no_version_gap st t s' id r :
  registry_ok (orders st) -> run (mkSys st []) t s' ->
  orders (sys_oms s') !! id = Some r ->
  or_client_order_id r = id
  /\ (forall i leg, or_legs r !! i = Some leg -> leg_version leg = Z.of_nat i + 1)
  /\ audit_legs id (length (or_legs r)) (or_legs r) 0 = []
  /\ audit_current_leg r = []
  /\ (is_Some (or_rejection r) -> or_state r = Rejected).
Proof.
  intros Hok Hrun Hr.
  pose proof (fw_ok _ _ (run_forward _ _ _ Hrun) Hok _ _ Hr) as [Hk [Hv Hl] Hj].
  split_and!; [done|done| | |done].
  - assert (Hgen : forall k legs, (forall i leg, legs !! i = Some leg ->
        leg_version leg = Z.of_nat (k + i) + 1) -> audit_legs id (length (or_legs r)) legs k = []).
    { intros k legs. revert k. induction legs as [|leg legs IH]; intros k Hg; simpl; [done|].
      rewrite (Hg 0%nat leg eq_refl), Nat.add_0_r, Z.eqb_refl. simpl. apply IH.
      intros i l Hi. rewrite (Hg (S i) l Hi). lia. }
    by apply Hgen.
  - unfold audit_current_leg. destruct (list.last (or_legs r)) as [leg|]; [|done].
    destruct Hl as [-> _]. by rewrite streqb_refl.
Qed.

(** At any moment at most one place or amend per clientOrderId is open at the venue, and the
    buffers of raced reports are exactly those of the open ones. *)
Theorem one_mutating_call st t s' :
  registry_keyed (orders st) -> raced_reports st = ∅ -> run (mkSys st []) t s' ->
  NoDup (mutating (sys_calls s'))
  /\ forall id, is_Some (raced_reports (sys_oms s') !! id) <-> id ∈ mutating (sys_calls s').
Proof.
  intros Hok Hra Hrun. pose proof (run_inv _ _ _ (inv_init st Hok Hra) Hrun) as HI.
  split; apply HI.
Qed.

(** While a place is open its record is exactly the staged Pending candidate, and cancel and
    amend of that id make no venue call. *)
Theorem open_place_untouched st t s' venue request :
  registry_keyed (orders st) -> raced_reports st = ∅ -> run (mkSys st []) t s' ->
  CPlace venue request ∈ sys_calls s' ->
  orders (sys_oms s') !! rq_client_order_id request = Some (candidate_of request venue)
    /\ (forall id s, cancel_begin cfg id (sys_oms s') = s -> id = rq_client_order_id request ->
           opened_cancel id s = [])
    /\ (forall cmd s st', amend_begin cfg cmd (sys_oms s') = (s, st') ->
           ac_client_order_id cmd = rq_client_order_id request ->
           opened_amend (ac_client_order_id cmd) s = []).
Proof.
  intros Hok Hra Hrun Hin. pose proof (run_inv _ _ _ (inv_init st Hok Hra) Hrun) as HI.
  pose proof (inv_place _ HI _ _ Hin) as Hv. split_and!; [done| |].
  - intros id s <- ->. pose proof (cancel_begin_spec (rq_client_order_id request) (sys_oms s')) as H.
    destruct (cancel_begin _ _ _); [done|]. destruct H as (r & Hr & Hst & _).
    rewrite Hv in Hr. simplify_eq. by destruct Hst.
  - intros cmd s st1 E Hid. pose proof (amend_begin_spec cfg cmd (sys_oms s')) as H.
    rewrite E, Hid in H. destruct s; [done| |done].
    destruct H as (_ & _ & r & Hr & Hp & _). rewrite Hv in Hr. by simplify_eq.
Qed.

Lemma step_placed s t s' id :
  Inv s -> step s t s' -> id ∈ placed t ->
  orders (sys_oms s) !! id = None /\ is_Some (orders (sys_oms s') !! id) /\ placed t = [id].
Proof.
  intros HI Hs. destruct Hs as [req v ps st st' cs E|id' ps st cs E|cmd ps st st' cs E
    |st cs|c st st' pre post Ha|rep st cs|v snaps rr st cs|st cs|st l cs];
    try (intros Hin; by inversion Hin); simpl.
  - pose proof (place_begin_spec cfg req v st) as Hv. rewrite E in Hv.
    destruct Hv as [r Hr|Hn Hc|Hn|e o st1 Hn Ha|e st1 Hn Ha|conn st1 Hn Hc Ha]; simpl;
      try (intros Hin; by inversion Hin).
    intros ->%list_elem_of_singleton. split_and!; [done| |done].
    rewrite open_buffer_orders. simpl. rewrite lookup_insert_eq. by eexists.
  - destruct ps; intros Hin; by inversion Hin.
  - destruct ps; intros Hin; by inversion Hin.
  - intros Hin. apply list_elem_of_omap in Hin as (c & Hc & Hid).
    apply list_elem_of_fmap in Hc as (item & -> & _). done.
Qed.

Lemma run_placed s t s' :
  Inv s -> run s t s' ->
  NoDup (placed t) /\ forall id, id ∈ placed t ->
    orders (sys_oms s) !! id = None /\ is_Some (orders (sys_oms s') !! id).
Proof.
  intros HI Hrun. induction Hrun as [|s1 t1 s2 t2 s3 Hrun IH Hstep].
  { split; [constructor|]. intros id Hin. inversion Hin. }
  destruct (IH HI) as [Hnd Hp]. pose proof (run_inv _ _ _ HI Hrun) as HI2.
  unfold placed in *. rewrite omap_app.
  pose proof (fun id => step_placed _ _ _ id HI2 Hstep) as Hsp. unfold placed in Hsp. split.
  - apply NoDup_app. split_and!; [done| |].
    + intros id Hin Hin2. destruct (Hp id Hin) as [_ [? ?]].
      destruct (Hsp _ Hin2) as [? _]. congruence.
    + destruct (omap placed_id t2) as [|id rest]; [constructor|].
      destruct (Hsp id) as (_ & _ & ->); [by left|]. apply NoDup_singleton.
  - intros id Hin. apply elem_of_app in Hin as [Hin|Hin].
    + destruct (Hp id Hin) as [? [r Hr]]. split; [done|].
      destruct (step_forward _ _ _ Hstep) as [Hev _ _].
      destruct (Hev _ _ Hr) as (r' & -> & _). by eexists.
    + destruct (Hsp id Hin) as (Hn & Hs3 & _). split; [|done].
      destruct (orders (sys_oms s1) !! id) as [r|] eqn:Hr; [|done].
      destruct (run_forward _ _ _ Hrun) as [Hev _ _].
      destruct (Hev _ _ Hr) as (r' & Hr' & _). congruence.
Qed.

(** Within one life of the process the places that are sent have distinct clientOrderIds, none
    of them known before: a duplicate request never reaches the venue. *)
Theorem place_sent_at_most_once st t s' :
  registry_keyed (orders st) -> raced_reports st = ∅ -> run (mkSys st []) t s' ->
  NoDup (placed t) /\ forall id, id ∈ placed t -> orders st !! id = None.
Proof.
  intros Hok Hra Hrun. destruct (run_placed _ _ _ (inv_init st Hok Hra) Hrun) as [Hnd Hp].
  split; [done|]. intros id Hin. by apply Hp.
Qed.
End System.

(** ** A concrete run: a place, a report that races its ack, the ack *)

Definition demo_connector : ExchangeConnector unit := {|
  place_order request w := (Ok (mkOrderPlacement (rq_client_order_id request) "x1"), w);
  cancel_order request w := (Ok (mkOrderPlacement (cx_client_order_id request) "x1"), w);
  amend_order request w := (Ok (mkOrderPlacement (am_client_order_id request) "x2"), w);
  get_order _ w := (Ok None, w);
  get_open_orders w := (Ok [], w);
  get_price _ w := (Ok "50000", w) |}.

Definition demo_cfg : OmsConfig unit :=
  mkOmsConfig [("okx", demo_connector)] "okx"
    (mkRiskConfig (Some (mkLimits "1" "100000" "2")) ∅).

Definition demo_oms : Oms :=
  mkOms ∅ ∅ [] (mkOmsStats 0 0 0 0 0 0) (Some (mkEventLog "orders.jsonl" true [] [])) None.

Definition demo_request : OrderRequest :=
  mkOrderRequest "c1" "BTC-USDT" Buy Limit "50000" "0.5" "".
Definition demo_report : ExecutionReport :=
  mkExecutionReport "c1" "x1" PartiallyFilled Buy "0.2" "49999".
Definition demo_ack : OrderPlacement := mkOrderPlacement "c1" "x1".

Definition demo_sent : Oms := (place_begin demo_cfg demo_request "" demo_oms).2.
Definition demo_raced : Oms := on_execution_report demo_report demo_sent.
Definition demo_filled : Oms := (place_finish demo_request (Ok demo_ack) demo_raced).2.

Lemma demo_run_open :
  run demo_cfg (mkSys demo_oms []) [CPlace "okx" demo_request] (mkSys demo_raced [CPlace "okx" demo_request]).
Proof.
  apply (run_step _ _ [CPlace "okx" demo_request] (mkSys demo_sent [CPlace "okx" demo_request]) []).
  - apply (run_step _ _ [] (mkSys demo_oms []) [CPlace "okx" demo_request]); [constructor|].
    exact (st_place demo_cfg demo_request "" (PlaceSend demo_connector) demo_oms demo_sent []
             eq_refl).
  - apply st_report.
Defined.

Lemma demo_run :
  run demo_cfg (mkSys demo_oms []) [CPlace "okx" demo_request] (mkSys demo_filled []).
Proof.
  apply (run_step _ _ [CPlace "okx" demo_request] (mkSys demo_raced [CPlace "okx" demo_request]) []).
  - exact demo_run_open.
  - apply (st_answer demo_cfg (CPlace "okx" demo_request) demo_raced demo_filled [] []).
    exact (an_place "okx" demo_request (Ok demo_ack) demo_raced).
Defined.

Lemma demo_ok : registry_ok (orders demo_oms).
Proof. intros id r H. vm_compute in H. discriminate H. Defined.

Lemma demo_keyed : registry_keyed (orders demo_oms).
Proof. intros id r H. vm_compute in H. discriminate H. Defined.

Definition demo_record : OrderRecord :=
  mkRecord "c1" "BTC-USDT" "okx" "x1" Buy Limit "GTC" "50000" "0.5" PartiallyFilled "0.2" "49999"
    [mkLeg 1 "x1"] false None.

Lemma demo_filled_record : orders demo_filled !! "c1" = Some demo_record.
Proof. vm_compute. reflexivity. Defined.

Lemma registry_moves_forward_witness :
  exists r', orders demo_filled !! "c1" = Some r'
    /\ evolves (candidate_of demo_request "okx") r'
    /\ (is_terminal Pending = true -> or_state r' = Pending)
    /\ (forall c, parse_decimal "0" = Ok c ->
          exists d, parse_decimal (fill_text r') = Ok d /\ v16 c <= v16 d).
Proof.
  apply (registry_moves_forward demo_cfg (mkSys demo_raced [CPlace "okx" demo_request]) []
           (mkSys demo_filled []) "c1" (candidate_of demo_request "okx")).
  - apply (run_step _ _ [] (mkSys demo_raced [CPlace "okx" demo_request]) []); [constructor|].
    apply (st_answer demo_cfg (CPlace "okx" demo_request) demo_raced demo_filled [] []).
    exact (an_place "okx" demo_request (Ok demo_ack) demo_raced).
  - vm_compute. reflexivity.
Defined.

Lemma no_version_gap_witness :
  or_client_order_id demo_record = "c1"
  /\ (forall i leg, or_legs demo_record !! i = Some leg -> leg_version leg = Z.of_nat i + 1)
  /\ audit_legs "c1" (length (or_legs demo_record)) (or_legs demo_record) 0 = []
  /\ audit_current_leg demo_record = []
  /\ (is_Some (or_rejection demo_record) -> or_state demo_record = Rejected).
Proof.
  exact (no_version_gap demo_cfg demo_oms _ _ "c1" demo_record demo_ok demo_run
           demo_filled_record).
Defined.

Lemma one_mutating_call_witness :
  NoDup ["c1"]
  /\ forall id, is_Some (raced_reports demo_raced !! id) <-> id ∈ ["c1"].
Proof. exact (one_mutating_call demo_cfg demo_oms _ _ demo_keyed eq_refl demo_run_open). Defined.

Lemma open_place_untouched_witness :
  orders demo_raced !! "c1" = Some (candidate_of demo_request "okx")
    /\ (forall id s, cancel_begin demo_cfg id demo_raced = s -> id = "c1" ->
           opened_cancel id s = [])
    /\ (forall cmd s st', amend_begin demo_cfg cmd demo_raced = (s, st') ->
           ac_client_order_id cmd = "c1" -> opened_amend (ac_client_order_id cmd) s = []).
Proof.
  apply (open_place_untouched demo_cfg demo_oms _ _ "okx" demo_request demo_keyed eq_refl demo_run_open).
  left.
Defined.

Lemma place_sent_at_most_once_witness :
  NoDup ["c1"] /\ forall id, id ∈ ["c1"] -> orders demo_oms !! id = None.
Proof. exact (place_sent_at_most_once demo_cfg demo_oms _ _ demo_keyed eq_refl demo_run). Defined.
