(* ===== verification/OmsThread.v ===== *)
(** * Order management: the operations of one thread are runs of the interleavings

    [OmsSystem.run] lists the critical sections and what a venue may answer.
    The operations of [Oms], [OmsReconcile] and [OmsAudit], which a thread of
    the gateway executes from end to end, are such runs, whatever calls the
    other threads have open ([cs]). *)

From S2P Require Import Prelude Types OrderState Json Risk Latency EventLog OmsTypes Oms OmsReconcile OmsAudit.
From S2P Require Import OmsFacts OmsSections OmsSystem.

Section Threads.
Context {W : Type} (cfg : OmsConfig W).

Lemma run_one s t s' : step cfg s t s' -> run cfg s t s'.
Proof. intros H. apply (run_step cfg s [] s t s'); [constructor|done]. Qed.

Lemma run_trans s1 t1 s2 t2 s3 : run cfg s1 t1 s2 -> run cfg s2 t2 s3 -> run cfg s1 (t1 ++ t2) s3.
Proof.
  intros H1 H2. revert H1. induction H2 as [|a ta b tb c Hab IH Hbc]; intros H1.
  - by rewrite app_nil_r.
  - rewrite app_assoc. eapply run_step; [by apply IH|done].
Qed.

Lemma run_app0 s1 t s2 s3 : run cfg s1 t s2 -> run cfg s2 [] s3 -> run cfg s1 t s3.
Proof. intros H1 H2. rewrite <- (app_nil_r t). by eapply run_trans. Qed.

Lemma run_0app s1 t s2 s3 : run cfg s1 [] s2 -> run cfg s2 t s3 -> run cfg s1 t s3.
Proof. apply (run_trans s1 []). Qed.

(** The registry may move under calls that stay open. *)
Lemma run_stamp st l cs : run cfg (mkSys st cs) [] (mkSys (with_latency l st) cs).
Proof. apply run_one, st_stamp. Qed.

Lemma run_answer c st st' cs : answered c st st' -> run cfg (mkSys st (cs ++ [c])) [] (mkSys st' cs).
Proof.
  intros H. apply run_one. rewrite <- (app_nil_r cs) at 2. by apply st_answer.
Qed.

Lemma send_stamps_run id hit entry st cs :
  run cfg (mkSys st cs) [] (mkSys (place_send_stamps id hit entry st) cs).
Proof.
  unfold place_send_stamps. destruct (latency st) as [l|]; [|constructor].
  destruct (now l). apply run_stamp.
Qed.

(** *** place, cancel, amend *)

Lemma place_run request venue hit st w o st' w' cs :
  place cfg request venue hit st w = (o, st', w') ->
  exists t, run cfg (mkSys st cs) t (mkSys st' cs) /\ (t = [] \/ t = [CPlace (resolve_venue cfg venue) request]).
Proof.
  unfold place. destruct (latency_now (latency st)) as [entry l].
  pose proof (run_stamp st l cs) as H0.
  destruct (place_begin cfg request venue (with_latency l st)) as [s st1] eqn:E.
  pose proof (run_one _ _ _ (st_place cfg request venue s _ st1 cs E)) as H1.
  pose proof (run_0app _ _ _ _ H0 H1) as H01. clear H0 H1.
  destruct s as [out|conn|]; simpl in H01; rewrite ?app_nil_r in H01; intros ?; simplify_eq;
    [by exists []; auto| |by exists []; auto].
  pose proof (send_stamps_run (rq_client_order_id request) hit entry st1 (cs ++ [CPlace (resolve_venue cfg venue) request])) as H2.
  destruct (place_order request w) as [placement w1] eqn:?.
  pose proof (an_place (resolve_venue cfg venue) request placement
    (place_send_stamps (rq_client_order_id request) hit entry st1)) as H3.
  destruct (place_finish _ _ _) as [outc st2]. simplify_eq.
  exists [CPlace (resolve_venue cfg venue) request]. split; [|by right].
  eapply run_app0; [done|]. eapply run_0app; [done|]. by apply run_answer.
Qed.

Lemma cancel_run id st w o st' w' cs :
  cancel cfg id st w = (o, st', w') ->
  exists t, run cfg (mkSys st cs) t (mkSys st' cs) /\ placed t = [].
Proof.
  unfold cancel. destruct (cancel_begin cfg id st) as [out|conn wire] eqn:E; intros H.
  - simplify_eq. exists []. split; [constructor|done].
  - destruct (cancel_order wire w) as [placement w1]. pose proof (an_cancel id placement st) as Ha.
    destruct (cancel_finish id placement st) as [outc st2]. simplify_eq.
    exists [CCancel id]. split; [|done]. eapply run_app0; [|by apply run_answer].
    apply run_one. by apply (st_cancel cfg id (CancelSend conn wire) st cs).
Qed.

Lemma amend_run cmd st w o st' w' cs :
  amend cfg cmd st w = (o, st', w') ->
  exists t, run cfg (mkSys st cs) t (mkSys st' cs) /\ placed t = [].
Proof.
  unfold amend. destruct (amend_begin cfg cmd st) as [s st1] eqn:E.
  pose proof (run_one _ _ _ (st_amend cfg cmd s st st1 cs E)) as H1.
  destruct s as [out|conn wire|]; simpl in H1; rewrite ?app_nil_r in H1; intros H; simplify_eq;
    [by exists []| |by exists []].
  destruct (amend_order wire w) as [placement w1].
  pose proof (an_amend (ac_client_order_id cmd) wire placement st1) as Ha.
  destruct (amend_finish _ _ _ _) as [outc st2]. simplify_eq.
  exists [CAmend (ac_client_order_id cmd) wire]. split; [|done].
  eapply run_app0; [done|]. by apply run_answer.
Qed.

(** *** reconcile and audit *)

Lemma listings_run (venues : list (string * ExchangeConnector W)) report st w cs :
  run cfg (mkSys st cs) [] (mkSys (reconcile_listings venues (report, st) w).1.2 cs).
Proof.
  revert report st w. induction venues as [|[venue conn] rest IH]; intros report st w; simpl;
    [constructor|].
  destruct (get_open_orders w) as [[snapshots|e] w1]; [|apply IH].
  pose proof (run_one _ _ _ (st_listing cfg venue snapshots report st cs)) as H.
  destruct (listing_section venue snapshots (report, st)) as [report1 st1].
  eapply run_0app; [exact H|apply IH].
Qed.

Lemma lookups_run open report st w cs :
  run cfg (mkSys st (cs ++ map CLookup open)) []
    (mkSys (reconcile_orders cfg open (report, st) w).1.2 cs).
Proof.
  revert report st w. induction open as [|item rest IH]; intros report st w;
    cbn [reconcile_orders map].
  { simpl. rewrite app_nil_r. constructor. }
  destruct (connector_for cfg (wi_venue item)) as [conn|].
  - destruct (get_order (wi_query item) w) as [answer w1].
    pose proof (an_lookup item answer report st) as H.
    destruct (resolve_section item answer (report, st)) as [report1 st1].
    eapply run_0app; [apply run_one, (st_answer cfg _ _ _ cs (map CLookup rest) H)|apply IH].
  - eapply run_0app; [apply run_one, (st_answer cfg _ _ _ cs (map CLookup rest) (an_unrouted item st))|].
    apply IH.
Qed.

Lemma placed_lookups open : placed (map CLookup open) = [].
Proof. by induction open. Qed.

Lemma reconcile_run st w cs :
  exists t, run cfg (mkSys st cs) t (mkSys (reconcile cfg st w).1.2 cs) /\ placed t = [].
Proof.
  unfold reconcile. pose proof (listings_run (connectors cfg) empty_report st w cs) as H.
  destruct (reconcile_listings (connectors cfg) (empty_report, st) w) as [[report st1] w1]. simpl in *.
  exists (map CLookup (reconcile_worklist cfg st1)). split; [|apply placed_lookups].
  eapply run_0app; [exact H|]. eapply run_app0; [apply run_one, st_worklist|apply lookups_run].
Qed.

Lemma audit_run st w cs : run cfg (mkSys st cs) [] (mkSys (audit cfg st w).1.2 cs).
Proof.
  unfold audit. pose proof (run_one _ _ _ (st_audit cfg st cs)) as H.
  destruct (audit_begin cfg st) as [[report open] st1]. simpl in H.
  by destruct (audit_orders cfg open st1 report w).
Qed.

Lemma report_run report st cs : run cfg (mkSys st cs) [] (mkSys (on_execution_report report st) cs).
Proof. apply run_one, st_report. Qed.
End Threads.
