(* ===== verification/OmsDurable.v ===== *)
(** * Order management: the log replays to the registry

    [durable] relates the record that replaying the log builds to the record in
    memory.  As long as log writes succeed, every critical section keeps the
    two registries related ([persisted]); a restart therefore rebuilds every
    order in its state, with its fills and its rejection, and never sends a
    known order again. *)

From S2P Require Import Prelude Types OrderState Decimal DecimalFacts DecimalText Json Risk.
From S2P Require Import Latency EventLog OmsTypes Oms OmsReconcile OmsReplay OmsAudit OmsFacts.
From S2P Require Import OmsSections OmsSystem.

(** The replayed record [q] carries what the live record [r] stands for. The
    order's own description is not in the event of a risk rejection. *)
Record durable (q r : OrderRecord) : Prop := {
  du_id : or_client_order_id q = or_client_order_id r;
  du_symbol : or_symbol q = or_symbol r;
  du_venue : or_venue q = or_venue r;
  du_state : or_state q = or_state r;
  du_filled : or_filled_quantity q = or_filled_quantity r;
  du_average : or_average_fill_price q = or_average_fill_price r;
  du_rejection : or_rejection q = or_rejection r;
  du_adopted : or_adopted q = or_adopted r;
  du_order : or_state r <> Rejected ->
    or_side q = or_side r /\ or_type q = or_type r /\ or_time_in_force q = or_time_in_force r }.

(** [r] describes the same durable facts as [r0]. *)
Definition unchanged (r0 r : OrderRecord) : Prop := forall q, durable q r0 -> durable q r.

(** [r] is [r0] after observations of one moment: at most a legal move and a
    larger fill. *)
Record observed (r0 r : OrderRecord) : Prop := {
  od_id : or_client_order_id r = or_client_order_id r0;
  od_symbol : or_symbol r = or_symbol r0;
  od_venue : or_venue r = or_venue r0;
  od_side : or_side r = or_side r0;
  od_type : or_type r = or_type r0;
  od_tif : or_time_in_force r = or_time_in_force r0;
  od_adopted : or_adopted r = or_adopted r0;
  od_rejection : or_rejection r = or_rejection r0;
  od_state : or_state r = or_state r0 \/ can_transition (or_state r0) (or_state r) = true;
  od_fill :
    (or_filled_quantity r = or_filled_quantity r0
     /\ or_average_fill_price r = or_average_fill_price r0)
    \/ exists c d, parse_decimal (fill_text r0) = Ok c
         /\ parse_decimal (or_filled_quantity r) = Ok d /\ v16 c < v16 d
         /\ (or_average_fill_price r = or_average_fill_price r0
             \/ or_average_fill_price r <> "") }.

Lemma observed_refl r : observed r r.
Proof. constructor; auto. Qed.

(** The same facts up to legs, price and quantity, before and after. *)
Definition core_eq (r r' : OrderRecord) : Prop :=
  or_client_order_id r' = or_client_order_id r /\ or_symbol r' = or_symbol r
  /\ or_venue r' = or_venue r /\ or_side r' = or_side r /\ or_type r' = or_type r
  /\ or_time_in_force r' = or_time_in_force r /\ or_adopted r' = or_adopted r
  /\ or_rejection r' = or_rejection r /\ or_state r' = or_state r
  /\ or_filled_quantity r' = or_filled_quantity r
  /\ or_average_fill_price r' = or_average_fill_price r.

Lemma core_eq_unchanged r r' : core_eq r r' -> unchanged r r'.
Proof.
  intros (?&?&?&?&?&?&?&?&?&?&?) q []. constructor; try congruence.
  intros Hne. destruct du_order0 as (?&?&?); [congruence|]. split_and!; congruence.
Qed.

Lemma core_eq_durable q q' r : core_eq q q' -> durable q r -> durable q' r.
Proof.
  intros (?&?&?&?&?&?&?&?&?&?&?) []. constructor; try congruence.
  intros Hne. destruct (du_order0 Hne) as (?&?&?). split_and!; congruence.
Qed.

Lemma core_eq_refl r : core_eq r r.
Proof. by split_and!. Qed.

Lemma note_exchange_id_core r id : core_eq r (note_exchange_id r id).
Proof. unfold note_exchange_id, core_eq. by destruct (_ || _). Qed.

Lemma observed_core r0 r1 r2 : core_eq r0 r1 -> observed r1 r2 -> observed r0 r2.
Proof.
  intros (?&?&?&?&?&?&?&?&Hs&Hf&?) []. constructor; try congruence.
    unfold fill_text in *. rewrite Hf in *.
    destruct od_fill0 as [[? ?]|(c & d & ? & ? & ? & Ha)]; [left; split; congruence|right].
    exists c, d. split_and!; try done. destruct Ha; [left; congruence|by right].
Qed.

Lemma observe_fill_observed r f a : observed r (observe_fill r f a).2.
Proof.
  unfold observe_fill. destruct (str_empty f); [apply observed_refl|].
  fold (fill_text r). destruct (parse_decimal f) as [d|] eqn:Hd; [|apply observed_refl].
  destruct (parse_decimal (fill_text r)) as [c|] eqn:Hc; [|apply observed_refl].
  destruct (0 <? compare d c) eqn:Hlt; [|apply observed_refl].
  rewrite compare_pos in Hlt by (eapply parse_decimal_wf; eassumption). boolify.
  destruct (str_empty a) eqn:Ha; constructor; simpl; auto; right; exists c, d; simpl;
    (split_and!; [done..|]); [by left|right; by apply str_empty_false].
Qed.

Lemma apply_observation_observed r s f a p q life :
  observed r (apply_observation r s f a p q life).2.
Proof.
  unfold apply_observation. pose proof (observe_fill_observed r f a) as H.
  pose proof (observe_fill_spec r f a) as Hs.
  destruct (observe_fill r f a) as [c1 r1]. destruct Hs as (_ & _ & Hs & _). simpl in H.
  destruct life; [|done].
  assert (H2 : observed r (observe_state r1 s).2).
  { unfold observe_state. destruct (OrderState_eqb_spec s (or_state r1)); [done|].
    unfold apply_transition. destruct (can_transition (or_state r1) s) eqn:Hc; simpl;
      destruct H; constructor; simpl; auto. right. by rewrite <- Hs. }
  destruct (observe_state r1 s) as [c2 r2]. simpl in H2.
  unfold observe_price, observe_quantity.
  destruct (_ && _); destruct (_ && _); simpl; destruct H2; by constructor.
Qed.

(** ** One event *)

Lemma observe_fill_replayed q r0 r :
  durable q r0 -> observed r0 r ->
  let q' := (observe_fill q (or_filled_quantity r) (or_average_fill_price r)).2 in
  or_filled_quantity q' = or_filled_quantity r
  /\ or_average_fill_price q' = or_average_fill_price r.
Proof.
  intros [] []. unfold observe_fill. fold (fill_text q).
  assert (Hft : fill_text q = fill_text r0) by (unfold fill_text; by rewrite du_filled0).
  rewrite Hft. destruct od_fill0 as [[Hf Ha]|(c & d & Hc & Hd & Hlt & Ha)].
  - destruct (str_empty (or_filled_quantity r)) eqn:He; simpl; [split; congruence|].
    destruct (parse_decimal (or_filled_quantity r)) as [d|] eqn:Hd; simpl; [|split; congruence].
    rewrite Hf in Hd. rewrite (parse_fill_text _ _ Hd).
    rewrite compare_pos by (eapply parse_decimal_wf; eassumption).
    rewrite Z.ltb_irrefl. simpl. split; congruence.
  - rewrite Hc, Hd. rewrite compare_pos by (eapply parse_decimal_wf; eassumption).
    rewrite (proj2 (Z.ltb_lt _ _) Hlt).
    destruct (str_empty (or_filled_quantity r)) eqn:He.
    { apply str_empty_true in He. rewrite He in Hd. discriminate Hd. }
    destruct (str_empty (or_average_fill_price r)) eqn:Hae; simpl; [|done].
    split; [done|]. apply str_empty_true in Hae. destruct Ha; congruence.
Qed.

Lemma replay_state_durable q r0 r :
  durable q r0 -> observed r0 r -> durable (replay_state (state_event r) q) r.
Proof.
  intros Hq Hr. unfold replay_state.
  change (event_or (state_event r) "state" "") with (to_string (or_state r)).
  rewrite parse_order_state_to_string.
  change (event_or (state_event r) "filledQuantity" "") with (or_filled_quantity r).
  change (event_or (state_event r) "averageFillPrice" "") with (or_average_fill_price r).
  change (event_or (state_event r) "exchangeOrderId" "") with (or_exchange_order_id r).
  pose proof (observe_fill_replayed q r0 r Hq Hr) as HF.
  pose proof (observe_fill_spec q (or_filled_quantity r) (or_average_fill_price r)) as HS.
  unfold apply_observation.
  destruct (observe_fill q (or_filled_quantity r) (or_average_fill_price r)) as [c1 q1].
  simpl in HF. destruct HF as [Hf Ha], HS as (E1 & _ & S1 & J1 & _).
  assert (H2 : durable (observe_state q1 (or_state r)).2 r).
  { destruct Hq, Hr, E1. unfold observe_state, apply_transition.
    destruct (OrderState_eqb_spec (or_state r) (or_state q1)) as [Heq|Hne].
    - constructor; simpl; try congruence. intros Hn. rewrite Heq, S1, du_state0 in Hn.
      destruct (du_order0 Hn) as (?&?&?). split_and!; congruence.
    - assert (Hc : can_transition (or_state q1) (or_state r) = true) by (destruct od_state0; congruence).
      rewrite Hc. constructor; simpl; try congruence. intros _.
      destruct du_order0 as (?&?&?); [|split_and!; congruence].
      intros Hrej. rewrite S1, du_state0, Hrej in Hc. by destruct (or_state r). }
  destruct (observe_state q1 (or_state r)) as [c2 q2]. simpl in *.
  destruct (str_empty (or_exchange_order_id q2)); [|done].
  eapply core_eq_durable; [apply note_exchange_id_core|done].
Qed.

Lemma replay_rejected_durable dv id q r e :
  or_client_order_id r = id -> or_rejection r = Some e -> or_state r = Rejected ->
  or_filled_quantity q = or_filled_quantity r ->
  or_average_fill_price q = or_average_fill_price r -> or_adopted q = or_adopted r ->
  durable (replay_rejected dv id (rejected_event r) q) r.
Proof.
  intros Hid Hrej Hs Hf Ha Had. unfold replay_rejected.
  change (event_or (rejected_event r) "symbol" (or_symbol q)) with (or_symbol r).
  change (event_or (rejected_event r) "venue" _) with (or_venue r).
  change (event_or (rejected_event r) "code" "rejected")
    with (code (match or_rejection r with Some e => e | None => mkError "" "" end)).
  change (event_or (rejected_event r) "reason" "")
    with (message (match or_rejection r with Some e => e | None => mkError "" "" end)).
  rewrite Hrej. constructor; simpl; try congruence. rewrite Hrej. by destruct e.
Qed.

(** Replaying an amend never moves anything but legs, price and quantity. *)
Lemma replay_amended_core q r :
  or_state q = or_state r -> core_eq q (replay_amended (amended_event r) q).
Proof.
  intros Hs. unfold replay_amended.
  change (event_or (amended_event r) "state" "") with (to_string (or_state r)).
  rewrite parse_order_state_to_string.
  set (q1 := if str_empty (event_or (amended_event r) "price" "") then q else _).
  set (q2 := if str_empty (event_or (amended_event r) "quantity" "") then q1 else _).
  assert (C2 : core_eq q q2) by (subst q2 q1; by repeat destruct (str_empty _)).
  clearbody q2. clear q1. cbv zeta.
  destruct (event_version (amended_event r) =? 0).
  - assert (C3 : core_eq q (note_exchange_id q2 (event_or (amended_event r) "exchangeOrderId" ""))).
    { pose proof (note_exchange_id_core q2 (event_or (amended_event r) "exchangeOrderId" "")) as C.
      unfold core_eq in *. intuition congruence. }
    destruct (or_state r) eqn:Hr; try done.
    destruct (OrderState_eqb_spec (or_state (note_exchange_id q2
      (event_or (amended_event r) "exchangeOrderId" ""))) Canceled) as [Hc|]; [|done].
    destruct C3 as (_&_&_&_&_&_&_&_&Hst&_). congruence.
  - destruct (str_empty _); done.
Qed.

Lemma replay_place_submitted dv r :
  or_state r = Pending -> or_filled_quantity r = "0" -> or_average_fill_price r = "" ->
  or_rejection r = None -> or_adopted r = false ->
  durable (replay_place dv "place_submitted" (or_client_order_id r) (place_submitted_event r)) r.
Proof.
  intros Hs Hf Ha Hj Had.
  change (replay_place dv "place_submitted" (or_client_order_id r) (place_submitted_event r))
    with (mkRecord (or_client_order_id r) (or_symbol r) (or_venue r) ""
      (default Buy (parse_side (side_to_string (or_side r))))
      (default Limit (parse_order_type (type_to_string (or_type r))))
      (or_time_in_force r) (or_price r) (or_quantity r) Pending "0" "" [] false None).
  rewrite parse_side_to_string, parse_order_type_to_string.
  constructor; simpl; auto.
Qed.

Lemma replay_place_accepted dv r :
  or_state r = Live -> or_filled_quantity r = "0" -> or_average_fill_price r = "" ->
  or_rejection r = None -> or_adopted r = false ->
  durable (replay_place dv "place_accepted" (or_client_order_id r) (place_accepted_event r)) r.
Proof.
  intros Hs Hf Ha Hj Had. unfold replay_place.
  change (event_or (place_accepted_event r) "side" "buy") with (side_to_string (or_side r)).
  change (event_or (place_accepted_event r) "orderType" "limit") with (type_to_string (or_type r)).
  rewrite parse_side_to_string, parse_order_type_to_string.
  constructor; simpl; auto.
Qed.

Lemma replay_place_adopted dv r :
  or_rejection r = None -> or_adopted r = true ->
  durable (replay_place dv "adopted" (or_client_order_id r) (adopted_event r)) r.
Proof.
  intros Hj Had. unfold replay_place.
  change (event_or (adopted_event r) "side" "buy") with (side_to_string (or_side r)).
  change (event_or (adopted_event r) "orderType" "limit") with (type_to_string (or_type r)).
  change (event_or (adopted_event r) "state" "live") with (to_string (or_state r)).
  rewrite parse_side_to_string, parse_order_type_to_string, parse_order_state_to_string.
  constructor; simpl; auto.
Qed.

(** ** The whole registry *)

Definition durable_registry (m m' : gmap string OrderRecord) : Prop :=
  forall id, match m !! id, m' !! id with
             | Some q, Some r => durable q r
             | None, None => True
             | _, _ => False
             end.

Lemma durable_insert m m' id q r :
  durable_registry m m' -> durable q r -> durable_registry (<[id := q]> m) (<[id := r]> m').
Proof.
  intros Hm Hq i. destruct (decide (i = id)) as [->|Hne]; [by rewrite !lookup_insert_eq|].
  rewrite !lookup_insert_ne by done. apply Hm.
Qed.

Lemma durable_update m m' id r q' r' :
  durable_registry m (<[id := r]> m') ->
  (forall q, m !! id = Some q -> durable q r -> durable q' r') ->
  durable_registry (<[id := q']> m) (<[id := r']> m').
Proof.
  intros Hm Hq i. specialize (Hm i). destruct (decide (i = id)) as [->|Hne].
  - rewrite !lookup_insert_eq in *. destruct (m !! id) as [q|]; [|done]. by apply (Hq q).
  - rewrite !lookup_insert_ne in * by done. apply Hm.
Qed.

(** Writes succeed from now on. *)
Definition log_up (st : Oms) : Prop :=
  exists l, log st = Some l /\ is_open l = true /\ faults l = [].

Definition entries_of (st : Oms) : list json :=
  match log st with Some l => entries l | None => [] end.

Lemma append_up e st :
  log_up st ->
  exists st', append_or_error e st = (None, st') /\ append_event e st = st' /\ log_up st'
    /\ entries_of st' = entries_of st ++ [e] /\ orders st' = orders st
    /\ raced_reports st' = raced_reports st.
Proof.
  intros (l & Hl & Ho & Hf).
  exists (with_log (Some (mkEventLog (path l) (is_open l) (entries l ++ [e]) [])) st).
  unfold append_event, append_or_error, append, log_up, entries_of. rewrite Hl, Ho, Hf. simpl.
  split_and!; try done. by eexists.
Qed.

Section Durable.
Context (dv : string).

Definition replayed (st : Oms) : gmap string OrderRecord := registry_of dv (entries_of st) ∅.

(** The log accounts for the registry with [r] written at [id]. *)
Definition persisted_with (id : string) (r : OrderRecord) (st : Oms) : Prop :=
  log_up st /\ or_client_order_id r = id
  /\ durable_registry (replayed st) (<[id := r]> (orders st)).

Definition persisted (st : Oms) : Prop :=
  log_up st /\ durable_registry (replayed st) (orders st).

Lemma persisted_put id r st : persisted_with id r st -> persisted (put_record id r st).
Proof. intros (Hl & _ & Hd). split; done. Qed.

Lemma persisted_get id r st :
  persisted st -> orders st !! id = Some r -> or_client_order_id r = id ->
  persisted_with id r st.
Proof. intros [Hl Hd] Hr Hid. split_and!; [done|done|]. by rewrite insert_id. Qed.

Lemma persisted_frame st st' :
  log st' = log st -> orders st' = orders st -> persisted st -> persisted st'.
Proof. intros Hl Ho. unfold persisted, log_up, replayed, entries_of. by rewrite Hl, Ho. Qed.

Lemma persisted_with_frame id r st st' :
  log st' = log st -> orders st' = orders st -> persisted_with id r st -> persisted_with id r st'.
Proof. intros Hl Ho. unfold persisted_with, log_up, replayed, entries_of. by rewrite Hl, Ho. Qed.

Lemma persisted_quiet id r r' st :
  core_eq r r' -> persisted_with id r st -> persisted_with id r' st.
Proof.
  intros Hc (Hl & Hid & Hd). split_and!; [done| |].
  - destruct Hc as [-> _]. done.
  - intros i. specialize (Hd i). destruct (decide (i = id)) as [->|Hne].
    + rewrite lookup_insert_eq in *. destruct (replayed st !! id); [|done].
      by apply (core_eq_unchanged r).
    + rewrite lookup_insert_ne in * by done. done.
Qed.

(** A logged event that rewrites the replayed record of [id]. *)
Lemma persisted_append id e r' st (f : option OrderRecord -> OrderRecord) :
  log_up st -> or_client_order_id r' = id ->
  apply_log_event dv e (replayed st) = <[id := f (replayed st !! id)]> (replayed st) ->
  (forall i, i <> id -> match replayed st !! i, orders st !! i with
     | Some q, Some r => durable q r | None, None => True | _, _ => False end) ->
  durable (f (replayed st !! id)) r' ->
  exists st', append_or_error e st = (None, st') /\ append_event e st = st'
    /\ raced_reports st' = raced_reports st /\ orders st' = orders st
    /\ persisted_with id r' st'.
Proof.
  intros Hup Hid Happ Hother Hd.
  destruct (append_up e st Hup) as (st' & H1 & H2 & Hup' & He & Ho & Hra).
  exists st'. split_and!; try done. split_and!; [done|done|].
  unfold replayed, registry_of. rewrite He, fold_left_app. simpl.
  fold (registry_of dv (entries_of st) ∅). fold (replayed st). rewrite Happ, Ho.
  intros i. destruct (decide (i = id)) as [->|Hne].
  - by rewrite !lookup_insert_eq.
  - rewrite !lookup_insert_ne by done. by apply Hother.
Qed.

Lemma durable_others st id r :
  durable_registry (replayed st) (<[id := r]> (orders st)) ->
  forall i, i <> id -> match replayed st !! i, orders st !! i with
     | Some q, Some r => durable q r | None, None => True | _, _ => False end.
Proof. intros Hd i Hne. specialize (Hd i). by rewrite lookup_insert_ne in Hd. Qed.

Lemma persisted_state id r0 r st :
  persisted_with id r0 st -> observed r0 r -> persisted_with id r (append_event (state_event r) st).
Proof.
  intros (Hup & Hid & Hd) Hobs.
  assert (Hq : exists q, replayed st !! id = Some q /\ durable q r0).
  { pose proof (Hd id) as H. rewrite lookup_insert_eq in H.
    destruct (replayed st !! id) as [q|]; [|done]. eauto. }
  destruct Hq as (q & Hq & Hqd).
  assert (Hidr : or_client_order_id r = id) by (rewrite (od_id _ _ Hobs); done).
  destruct (persisted_append id (state_event r) r st
    (fun o => replay_state (state_event r) (default q o))) as (st' & _ & -> & _ & _ & HP); try done.
  - change (apply_log_event dv (state_event r) (replayed st))
      with (match replayed st !! or_client_order_id r with
            | None => replayed st
            | Some q => <[or_client_order_id r := replay_state (state_event r) q]> (replayed st)
            end). rewrite Hidr, Hq. done.
  - by eapply durable_others.
  - rewrite Hq. by eapply replay_state_durable.
Qed.

Lemma persisted_amended id r st :
  persisted_with id r st ->
  exists st', append_or_error (amended_event r) st = (None, st')
    /\ raced_reports st' = raced_reports st /\ orders st' = orders st /\ persisted_with id r st'.
Proof.
  intros (Hup & Hid & Hd).
  assert (Hq : exists q, replayed st !! id = Some q /\ durable q r).
  { pose proof (Hd id) as H. rewrite lookup_insert_eq in H.
    destruct (replayed st !! id) as [q|]; [|done]. eauto. }
  destruct Hq as (q & Hq & Hqd).
  destruct (persisted_append id (amended_event r) r st
    (fun o => replay_amended (amended_event r) (default q o)))
    as (st' & H1 & _ & H2 & H3 & H4); try done; eauto.
  - change (apply_log_event dv (amended_event r) (replayed st))
      with (match replayed st !! or_client_order_id r with
            | None => replayed st
            | Some q => <[or_client_order_id r := replay_amended (amended_event r) q]> (replayed st)
            end). rewrite Hid, Hq. done.
  - by eapply durable_others.
  - rewrite Hq. simpl. eapply core_eq_durable; [|done]. apply replay_amended_core, Hqd.
Qed.

(** Recording a rejection: on a record the log knows, or on a new one. *)
Lemma persisted_rejected id r e st :
  log_up st -> or_client_order_id r = id -> or_rejection r = Some e -> or_state r = Rejected ->
  (forall i, i <> id -> match replayed st !! i, orders st !! i with
     | Some q, Some r => durable q r | None, None => True | _, _ => False end) ->
  (let q := default default_record (replayed st !! id) in
   or_filled_quantity q = or_filled_quantity r
   /\ or_average_fill_price q = or_average_fill_price r /\ or_adopted q = or_adopted r) ->
  exists st', append_or_error (rejected_event r) st = (None, st')
    /\ append_event (rejected_event r) st = st'
    /\ raced_reports st' = raced_reports st /\ orders st' = orders st /\ persisted_with id r st'.
Proof.
  intros Hup Hid Hrej Hs Hoth (Hf & Ha & Had).
  eapply (persisted_append id (rejected_event r) r st
    (fun o => replay_rejected dv id (rejected_event r) (default default_record o))); try done.
  - change (apply_log_event dv (rejected_event r) (replayed st))
      with (<[or_client_order_id r := replay_rejected dv (or_client_order_id r) (rejected_event r)
               (default default_record (replayed st !! or_client_order_id r))]> (replayed st)).
    by rewrite Hid.
  - by eapply replay_rejected_durable.
Qed.

(** *** Sections *)

Lemma persisted_report id r rep life st :
  persisted_with id r st ->
  let '(r', st') := apply_report r rep life st in persisted_with id r' st'.
Proof.
  intros HP. unfold apply_report. set (r0 := if str_empty _ then _ else r).
  assert (C0 : core_eq r r0).
  { subst r0. destruct (str_empty _); [apply note_exchange_id_core|done]. }
  pose proof (apply_observation_observed r0 (er_state rep) (er_filled_quantity rep)
    (er_average_fill_price rep) "" "" life) as Hobs.
  pose proof (apply_observation_spec r0 (er_state rep) (er_filled_quantity rep)
    (er_average_fill_price rep) "" "" life) as Hspec.
  destruct (apply_observation r0 _ _ _ _ _ _) as [changed r1]. simpl in Hobs.
  assert (Hp0 : persisted_with id r0 st) by (by eapply persisted_quiet).
  destruct changed.
  - apply (persisted_state id r0); [|done]. by apply (persisted_with_frame id r0 st).
  - destruct Hspec as (_&_&_&_&_&_&_&Heq). rewrite (Heq eq_refl).
    by apply (persisted_with_frame id r0 st).
Qed.

Lemma persisted_adopt id r xid st :
  persisted_with id r st ->
  let '(r', st') := adopt_unknown_leg r xid st in persisted_with id r' st'.
Proof.
  intros HP. simpl.
  apply (persisted_quiet id r); [apply note_exchange_id_core|].
  by apply (persisted_with_frame id r st).
Qed.

Lemma persisted_arbitrated id r rep st :
  persisted_with id r st ->
  let '(r', st') := apply_arbitrated_report r rep st in persisted_with id r' st'.
Proof.
  intros HP. unfold apply_arbitrated_report.
  destruct (_ && _); [|by apply persisted_report].
  destruct (leg_index_of _ _); [by apply persisted_report|].
  pose proof (persisted_adopt id r (er_exchange_order_id rep) st HP) as HA.
  destruct (adopt_unknown_leg _ _ _). by apply persisted_report.
Qed.

Lemma persisted_raced id raced r st :
  persisted_with id r st ->
  let '(r', st') := apply_raced raced r st in persisted_with id r' st'.
Proof.
  revert r st. induction raced as [|rep raced IH]; intros r st HP; [done|]. simpl.
  pose proof (persisted_arbitrated id r rep st HP) as HA.
  destruct (apply_arbitrated_report _ _ _). by apply IH.
Qed.

(** The end of both snapshot applications. *)
Lemma persisted_observe id r changed s f a p q st :
  persisted_with id r st ->
  let '(moved, r') := apply_observation r s f a p q true in
  if changed || moved then persisted_with id r' (append_event (state_event r') st)
  else persisted_with id r' st.
Proof.
  intros HW. pose proof (apply_observation_observed r s f a p q true) as Hobs.
  pose proof (apply_observation_spec r s f a p q true) as Hspec.
  destruct (apply_observation r s f a p q true) as [moved r']. simpl in Hobs.
  destruct (changed || moved) eqn:Hch; [by eapply persisted_state|].
  apply orb_false_iff in Hch as [_ ->]. destruct Hspec as (_&_&_&_&_&_&_&Heq).
  by rewrite (Heq eq_refl).
Qed.

Lemma persisted_listing v snaps acc :
  persisted acc.2 -> registry_keyed (orders acc.2) ->
  persisted (listing_section v snaps acc).2.
Proof.
  revert acc. induction snaps as [|s snaps IH]; intros [report st] HP Hk; [done|].
  cbn [listing_section fold_left]. fold (listing_section v snaps (list_snapshot v s (report, st))).
  pose proof (list_snapshot_spec v s report st) as HF.
  assert (Hone : persisted (list_snapshot v s (report, st)).2).
  { clear IH HF. unfold list_snapshot, lookup.
    destruct (_ || _); [done|].
    destruct (orders st !! os_client_order_id s) as [r|] eqn:Hr.
    - simpl in HP, Hk. pose proof (persisted_get _ _ _ HP Hr (Hk _ _ Hr)) as HW.
      set (p := if _ && _ then _ else _).
      assert (C0 : core_eq r p.2).
      { subst p. destruct (_ && _); [apply note_exchange_id_core|done]. }
      destruct p as [changed r1]. simpl in C0.
      assert (HW1 : persisted_with (os_client_order_id s) r1 st) by (by eapply persisted_quiet).
      pose proof (persisted_observe _ _ changed (os_state s) (os_filled_quantity s)
        (os_average_fill_price s) (os_price s) (os_quantity s) _ HW1) as HO.
      destruct (apply_observation r1 _ _ _ _ _ _) as [moved r2].
      by destruct (changed || moved); apply persisted_put.
    - simpl. unfold record_from_snapshot. apply persisted_put.
      simpl in HP. destruct HP as [Hup Hd]. pose proof (Hd (os_client_order_id s)) as Hn. rewrite Hr in Hn.
      set (rec := snapshot_record s v true).
      destruct (persisted_append (os_client_order_id s) (adopted_event rec) rec st
        (fun _ => replay_place dv "adopted" (or_client_order_id rec) (adopted_event rec)))
        as (st' & _ & -> & _ & _ & HW); try done.
      + intros i _. apply Hd.
      + by apply replay_place_adopted. }
  destruct (list_snapshot v s (report, st)) as [report' st']. simpl in *.
  apply IH; [done|]. simpl. apply HF, Hk.
Qed.

Lemma persisted_resolve item answer report st :
  persisted st -> registry_keyed (orders st) ->
  persisted (resolve_section item answer (report, st)).2.
Proof.
  intros HP Hk. unfold resolve_section, lookup.
  destruct (orders st !! wi_id item) as [r|] eqn:Hr; [|done].
  pose proof (persisted_get _ _ _ HP Hr (Hk _ _ Hr)) as HW.
  assert (Habs : persisted (
    if conclusive_absence answer then
      match apply_transition (or_state r) Rejected with
      | (Applied, s) =>
          (count_absent report,
           put_record (wi_id item) (set_rejection (Some venue_absent) (set_state s r))
             (append_event (rejected_event (set_rejection (Some venue_absent) (set_state s r)))
               (append_event (state_event (set_rejection (Some venue_absent) (set_state s r))) st)))
      | (TransitionRejected, _) => (count_absent report, st)
      end
    else (count_unresolved report, st)).2).
  { destruct (conclusive_absence _); [|done]. unfold apply_transition.
    destruct (can_transition (or_state r) Rejected) eqn:Hc; [|done]. simpl.
    assert (Hobs : observed r (set_state Rejected r)) by (constructor; simpl; auto).
    pose proof (persisted_state _ _ _ _ HW Hobs) as HW1.
    set (r1 := set_rejection (Some venue_absent) (set_state Rejected r)).
    change (state_event (set_state Rejected r)) with (state_event r1) in HW1.
    destruct HW1 as (Hup & Hid & Hd).
    destruct (persisted_rejected (wi_id item) r1 venue_absent (append_event (state_event r1) st))
      as (st' & _ & -> & _ & _ & HW2); try done.
    - by eapply durable_others.
    - specialize (Hd (wi_id item)). rewrite lookup_insert_eq in Hd.
      destruct (replayed _ !! _); [|done]. by destruct Hd.
    - by apply persisted_put. }
  destruct answer as [[s|]|e]; [|exact Habs..]. clear Habs.
  unfold resolve_snapshot. set (p := if _ && _ then _ else _).
  assert (C0 : persisted_with (wi_id item) p.1.2 p.2).
  { subst p. destruct (_ && _).
    { by apply (persisted_quiet _ r); [apply note_exchange_id_core|]. }
    destruct (_ && _); [|done].
    pose proof (persisted_adopt _ _ (os_exchange_order_id s) _ HW) as HA.
    by destruct (adopt_unknown_leg _ _ _). }
  destruct p as [[changed r1] st1]. simpl in C0.
  pose proof (persisted_observe _ _ changed (os_state s) (os_filled_quantity s)
    (os_average_fill_price s) (os_price s) (os_quantity s) _ C0) as HO.
  destruct (apply_observation r1 _ _ _ _ _ _) as [moved r2].
  by destruct (changed || moved); apply persisted_put.
Qed.

Lemma persisted_unknown st id :
  persisted st -> orders st !! id = None -> replayed st !! id = None.
Proof.
  intros [_ Hd] Hn. specialize (Hd id). rewrite Hn in Hd. by destruct (replayed st !! id).
Qed.

Context {W : Type} (cfg : OmsConfig W).

Lemma persisted_place_begin req v st step st' :
  persisted st -> place_begin_view cfg req v st step st' -> persisted st'.
Proof.
  intros HP Hv. destruct Hv as [r Hr|Hn Hc|Hn|e o st1 Hn Ha|e st1 Hn Ha|conn st1 Hn Hc Ha];
    try done; pose proof (persisted_unknown _ _ HP Hn) as Hq; destruct HP as [Hup Hd].
  - destruct (persisted_rejected (rq_client_order_id req)
      (rejected_candidate req (resolve_venue cfg v) e) e st)
      as (st2 & H1 & _ & _ & _ & HW); try done.
    { intros i _. apply Hd. }
    { by rewrite Hq. }
    rewrite Ha in H1. simplify_eq. simpl. by apply persisted_put.
  - destruct (append_up (place_submitted_event (candidate_of req (resolve_venue cfg v))) st Hup)
      as (st2 & H1 & _). congruence.
  - set (cand := candidate_of req (resolve_venue cfg v)) in *.
    destruct (persisted_append (rq_client_order_id req) (place_submitted_event cand) cand st
      (fun _ => replay_place dv "place_submitted" (or_client_order_id cand)
                  (place_submitted_event cand)))
      as (st2 & H1 & _ & _ & _ & HW); try done.
    { intros i _. apply Hd. }
    { by apply replay_place_submitted. }
    rewrite Ha in H1. simplify_eq.
    eapply persisted_frame; [apply open_buffer_log|apply open_buffer_orders|].
    by apply persisted_put.
Qed.

Lemma persisted_drain id st :
  persisted st -> let '(_, st') := drain_raced_reports id st in persisted st'.
Proof. intros HP. unfold drain_raced_reports. by destruct (raced_reports st !! id). Qed.

Lemma persisted_place_finish req venue placement st :
  persisted st ->
  orders st !! rq_client_order_id req = Some (candidate_of req venue) ->
  persisted (place_finish req placement st).2.
Proof.
  intros HP Hr. unfold place_finish, lookup.
  pose proof (drain_spec (rq_client_order_id req) st) as Hd.
  pose proof (persisted_drain (rq_client_order_id req) st HP) as HP1.
  destruct (drain_raced_reports _ st) as [raced st1]. destruct Hd as (_ & Ho & _).
  rewrite Ho, Hr. rewrite <- Ho in Hr. set (cand := candidate_of req venue) in *.
  pose proof (persisted_get _ _ _ HP1 Hr eq_refl) as HW. destruct HP1 as [Hup Hd].
  destruct placement as [ack|err].
  - set (r1 := note_exchange_id cand _).
    pose proof (note_exchange_id_core cand (op_exchange_order_id ack)) as C. fold r1 in C.
    destruct C as (C1&_&_&_&_&_&C2&C3&C4&C5&C6). rewrite C4. simpl.
    set (r2 := set_state Live r1).
    destruct (persisted_append (rq_client_order_id req) (place_accepted_event r2) r2 st1
      (fun _ => replay_place dv "place_accepted" (or_client_order_id r2) (place_accepted_event r2)))
      as (st2 & -> & _ & _ & _ & HW2); try done.
    + change (or_client_order_id r2) with (or_client_order_id r1).
      change (apply_log_event dv (place_accepted_event r2) (replayed st1))
        with (<[or_client_order_id r1 := replay_place dv "place_accepted" (or_client_order_id r1)
                 (place_accepted_event r2)]> (replayed st1)). by rewrite C1.
    + intros i _. apply Hd.
    + by apply replay_place_accepted.
    + pose proof (persisted_raced (rq_client_order_id req) raced r2 st2 HW2) as HR.
      destruct (apply_raced _ _ _). by apply persisted_put.
  - destruct (code err <>s "transport").
    + simpl. set (r1 := set_rejection (Some err) (set_state Rejected cand)).
      destruct HW as (_ & Hid & Hdw).
      destruct (persisted_rejected (rq_client_order_id req) r1 err st1)
        as (st2 & _ & -> & _ & _ & HW2); try done.
      * intros i _. apply Hd.
      * specialize (Hd (rq_client_order_id req)). rewrite Hr in Hd.
        destruct (replayed st1 !! _); [|done]. by destruct Hd.
      * by apply persisted_put.
    + pose proof (persisted_raced (rq_client_order_id req) raced cand st1 HW) as HR.
      destruct (apply_raced _ _ _). by apply persisted_put.
Qed.

Lemma persisted_cancel_finish id placement st :
  persisted st -> registry_keyed (orders st) -> persisted (cancel_finish id placement st).2.
Proof.
  intros HP Hk. unfold cancel_finish, lookup.
  destruct (orders st !! id) as [r|] eqn:Hr; [|done]. destruct placement as [ack|]; [|done].
  pose proof (persisted_get _ _ _ HP Hr (Hk _ _ Hr)) as HW.
  set (r1 := note_exchange_id r _).
  assert (HW1 : persisted_with id r1 st)
    by (apply (persisted_quiet _ r); [apply note_exchange_id_core|done]).
  unfold apply_transition. destruct (can_transition _ _) eqn:Hc; simpl; apply persisted_put; [|done].
  apply (persisted_state id r1); [done|]. constructor; simpl; auto.
Qed.

Lemma persisted_amend_finish id wire placement st :
  persisted st -> registry_keyed (orders st) ->
  persisted (amend_finish id wire placement st).2.
Proof.
  intros HP Hk. unfold amend_finish, lookup. pose proof (drain_spec id st) as Hd.
  pose proof (persisted_drain id st HP) as HP1.
  destruct (drain_raced_reports _ st) as [raced st1]. destruct Hd as (_ & Ho & _).
  rewrite <- Ho in Hk. destruct (orders st1 !! id) as [r|] eqn:Hr; [|done].
  pose proof (persisted_get _ _ _ HP1 Hr (Hk _ _ Hr)) as HW. destruct placement as [ack|err].
  - set (r1 := append_amend_leg _ _).
    assert (HW1 : persisted_with id r1 st1).
    { apply (persisted_quiet _ r); [|done]. subst r1. unfold append_amend_leg.
      by destruct (str_empty _). }
    destruct (persisted_amended id r1 st1 HW1) as (st2 & -> & _ & _ & HW2).
    pose proof (persisted_raced id raced r1 st2 HW2) as HR.
    destruct (apply_raced _ _ _). by apply persisted_put.
  - set (p := if negb (is_nil (or_legs r)) then _ else _).
    assert (HW1 : persisted_with id p.1 p.2).
    { subst p. destruct (negb _); [|done]. destruct (negb _); [|done].
      pose proof (persisted_adopt id r (newest_unknown r raced "") st1 HW) as HA.
      by destruct (adopt_unknown_leg _ _ _). }
    destruct p as [r1 st2]. pose proof (persisted_raced id raced r1 st2 HW1) as HR.
    destruct (apply_raced _ _ _). by apply persisted_put.
Qed.

Lemma persisted_on_report rep st :
  persisted st -> registry_keyed (orders st) -> persisted (on_execution_report rep st).
Proof.
  intros HP Hk. unfold on_execution_report, lookup.
  destruct (latency_now (latency st)) as [t l].
  assert (HP0 : persisted (with_latency l st)) by done.
  cbn [raced_reports with_latency orders].
  destruct (raced_reports st !! _); [done|].
  destruct (orders st !! _) as [r|] eqn:Hr; [|done].
  pose proof (persisted_get _ _ _ HP0 Hr (Hk _ _ Hr)) as HW.
  pose proof (persisted_arbitrated _ r rep _ HW) as HA.
  destruct (apply_arbitrated_report _ _ _) as [r1 st1]. apply persisted_put in HA.
  cbn [latency put_record with_orders]. destruct (latency st1); [|done].
  destruct (_ <? _); [|done]. by destruct (now _).
Qed.

Lemma persisted_step s t s' :
  Inv s -> persisted (sys_oms s) -> step cfg s t s' -> persisted (sys_oms s').
Proof.
  intros HI HP Hs. pose proof (inv_keyed _ HI) as Hk.
  destruct Hs as [req v ps st st' cs E|id ps st cs E|cmd ps st st' cs E
    |st cs|c st st' pre post Ha|rep st cs|v snaps rr st cs|st cs|st l cs]; simpl in *; try done.
  - pose proof (place_begin_spec cfg req v st) as Hv. rewrite E in Hv.
    by eapply persisted_place_begin.
  - pose proof (amend_begin_spec cfg cmd st) as Hv. rewrite E in Hv.
    destruct Hv as (Ho & Hl & _). by eapply persisted_frame.
  - destruct Ha as [v req pl st|id pl st|id w pl st|item ans report st|item st]; [..|done].
    + pose proof (inv_place _ HI v req) as Hv. specialize (Hv ltac:(simpl; set_solver)).
      by eapply persisted_place_finish.
    + by apply persisted_cancel_finish.
    + by apply persisted_amend_finish.
    + by apply persisted_resolve.
  - by apply persisted_on_report.
  - by apply persisted_listing.
Qed.

(** A crash between two sections, and the restart: the registry is the replay
    of the log; calls, buffers and counters are gone. *)
Definition restart (st : Oms) : Oms :=
  mkOms (replayed st) ∅ [] (mkOmsStats 0 0 0 0 0 0) (log st) (latency st).

Inductive lives : Sys -> list Call -> Sys -> Prop :=
  | lv_nil s : lives s [] s
  | lv_step s1 t1 s2 t2 s3 : lives s1 t1 s2 -> step cfg s2 t2 s3 -> lives s1 (t1 ++ t2) s3
  | lv_crash s1 t1 s2 : lives s1 t1 s2 -> lives s1 t1 (mkSys (restart (sys_oms s2)) []).

Lemma durable_refl r : durable r r.
Proof. by constructor. Qed.

Lemma restart_keyed st :
  persisted st -> registry_keyed (orders st) -> registry_keyed (orders (restart st)).
Proof.
  intros [_ Hd] Hk id q Hq. specialize (Hd id). simpl in Hq. rewrite Hq in Hd.
  destruct (orders st !! id) as [r|] eqn:Hr; [|done]. rewrite (du_id _ _ Hd). by apply Hk.
Qed.

Lemma persisted_restart st : persisted st -> persisted (restart st).
Proof.
  intros [Hup _]. split; [done|]. intros id. simpl.
  change (replayed (restart st)) with (replayed st).
  destruct (replayed st !! id); [apply durable_refl|done].
Qed.

Lemma lives_inv s t s' :
  Inv s -> persisted (sys_oms s) -> lives s t s' -> Inv s' /\ persisted (sys_oms s').
Proof.
  intros HI HP Hl. induction Hl as [|s1 t1 s2 t2 s3 Hl IH Hstep|s1 t1 s2 Hl IH]; [done| |];
    destruct (IH HI HP) as [HI2 HP2].
  - split; [by eapply inv_step|by eapply persisted_step].
  - split; [|by apply persisted_restart]. apply inv_init; [|done].
    apply restart_keyed; [done|apply HI2].
Qed.

Lemma run_persisted s t s' :
  Inv s -> persisted (sys_oms s) -> run cfg s t s' -> persisted (sys_oms s').
Proof.
  intros HI HP Hrun. apply (lives_inv s t s'); [done|done|].
  clear HI HP. induction Hrun; [apply lv_nil|by eapply lv_step].
Qed.

(** C5: Replaying the event log rebuilds the registry: after any run with restarts, folding the
    logged events over an empty registry gives, for every order, a record with the same id,
    symbol, venue, state, filled quantity, average price, rejection and adoption, and for orders
    that were not rejected the same side, type and time in force (log writes succeed; legs,
    price and quantity are not claimed). *)
Theorem log_replays_registry st t s' :
  log_up st -> durable_registry (replayed st) (orders st) -> registry_keyed (orders st) ->
  raced_reports st = ∅ -> lives (mkSys st []) t s' ->
  durable_registry (registry_of dv (entries_of (sys_oms s')) ∅) (orders (sys_oms s')).
Proof.
  intros Hup Hd Hk Hra Hl.
  destruct (lives_inv _ _ _ (inv_init st Hk Hra) (conj Hup Hd) Hl) as [_ [_ H]]. exact H.
Qed.

Lemma durable_known m m' id :
  durable_registry m m' -> is_Some (m !! id) <-> is_Some (m' !! id).
Proof.
  intros Hd. specialize (Hd id). destruct (m !! id), (m' !! id); try done;
    split; intros [? ?]; try done; by eexists.
Qed.

Lemma lives_placed s t s' :
  Inv s -> persisted (sys_oms s) -> lives s t s' ->
  NoDup (placed t)
  /\ (forall id, is_Some (orders (sys_oms s) !! id) -> is_Some (orders (sys_oms s') !! id))
  /\ (forall id, id ∈ placed t ->
       orders (sys_oms s) !! id = None /\ is_Some (orders (sys_oms s') !! id)).
Proof.
  intros HI HP Hl. induction Hl as [|s1 t1 s2 t2 s3 Hl IH Hstep|s1 t1 s2 Hl IH].
  - split_and!; [constructor|done|]. intros id Hin. inversion Hin.
  - destruct (IH HI HP) as (Hnd & Hkeep & Hp). destruct (lives_inv _ _ _ HI HP Hl) as [HI2 HP2].
    pose proof (fun id => step_placed cfg _ _ _ id HI2 Hstep) as Hsp.
    assert (Hkeep2 : forall id, is_Some (orders (sys_oms s2) !! id) ->
              is_Some (orders (sys_oms s3) !! id)).
    { intros id [r Hr]. destruct (step_forward _ _ _ _ Hstep) as [Hev _ _].
      destruct (Hev _ _ Hr) as (r' & -> & _). by eexists. }
    unfold placed in *. rewrite omap_app. split_and!; [|by auto|].
    + apply NoDup_app. split_and!; [done| |].
      * intros id Hin Hin2. destruct (Hp id Hin) as [_ [? ?]].
        destruct (Hsp _ Hin2) as [? _]. congruence.
      * destruct (omap placed_id t2) as [|id rest]; [constructor|].
        destruct (Hsp id) as (_ & _ & ->); [by left|]. apply NoDup_singleton.
    + intros id Hin. apply elem_of_app in Hin as [Hin|Hin].
      * destruct (Hp id Hin). auto.
      * destruct (Hsp id Hin) as (Hn & Hs3 & _). split; [|done].
        destruct (orders (sys_oms s1) !! id) as [r|] eqn:Hr; [|done].
        destruct (Hkeep id) as [? ?]; [by rewrite Hr; eexists|]. congruence.
  - destruct (IH HI HP) as (Hnd & Hkeep & Hp). destruct (lives_inv _ _ _ HI HP Hl) as [_ [_ Hd]].
    split_and!; [done| |].
    + intros id Hs. by apply (durable_known _ _ _ Hd), Hkeep.
    + intros id Hin. destruct (Hp id Hin). split; [done|]. by apply (durable_known _ _ _ Hd).
Qed.

(** At most one place per clientOrderId ever leaves the gateway, across crashes and restarts:
    while log writes succeed and starting from a registry the log accounts for, in any
    interleaving of requests, venue answers, reports, reconciliations and restarts that reload
    the registry from the log, the ids whose place was sent are distinct, were unknown at the
    start, and a later place of such an id sends nothing and changes nothing. *)
Theorem place_sent_once_across_restarts st t s' :
  log_up st -> durable_registry (replayed st) (orders st) -> registry_keyed (orders st) ->
  raced_reports st = ∅ -> lives (mkSys st []) t s' ->
  NoDup (placed t)
  /\ forall id, id ∈ placed t ->
       orders st !! id = None
       /\ forall request venue s st', rq_client_order_id request = id ->
            place_begin cfg request venue (sys_oms s') = (s, st') ->
            opened_place cfg request venue s = [] /\ st' = sys_oms s'.
Proof.
  intros Hup Hd Hk Hra Hl.
  destruct (lives_placed _ _ _ (inv_init st Hk Hra) (conj Hup Hd) Hl) as (Hnd & _ & Hp).
  split; [done|]. intros id Hin. destruct (Hp id Hin) as [Hn [r Hr]]. split; [done|].
  intros req v ps st' Hid E. pose proof (place_begin_spec cfg req v (sys_oms s')) as Hv.
  rewrite E in Hv. rewrite <- Hid in Hr. destruct Hv; try congruence. done.
Qed.
End Durable.

(** ** Witnesses: the concrete run, with a crash before the venue answers *)

Definition demo_restarted : Oms := restart "okx" demo_raced.

Lemma demo_lives : lives "okx" demo_cfg (mkSys demo_oms []) [CPlace "okx" demo_request] (mkSys demo_restarted []).
Proof.
  apply (lv_crash "okx" demo_cfg (mkSys demo_oms []) [CPlace "okx" demo_request]
           (mkSys demo_raced [CPlace "okx" demo_request])).
  apply (lv_step "okx" demo_cfg _ [CPlace "okx" demo_request] (mkSys demo_sent [CPlace "okx" demo_request]) []).
  - apply (lv_step "okx" demo_cfg _ [] (mkSys demo_oms []) [CPlace "okx" demo_request]); [constructor|].
    exact (st_place demo_cfg demo_request "" (PlaceSend demo_connector) demo_oms demo_sent []
             eq_refl).
  - apply st_report.
Defined.

Lemma demo_log_up : log_up demo_oms.
Proof. exists (mkEventLog "orders.jsonl" true [] []). done. Defined.

Lemma demo_durable : durable_registry (replayed "okx" demo_oms) (orders demo_oms).
Proof. intros id. done. Defined.

Lemma log_replays_registry_witness :
  durable_registry (registry_of "okx" (entries_of demo_restarted) ∅) (orders demo_restarted).
Proof.
  exact (log_replays_registry "okx" demo_cfg demo_oms _ _ demo_log_up demo_durable demo_keyed
           eq_refl demo_lives).
Defined.

Lemma place_sent_once_across_restarts_witness :
  NoDup ["c1"]
  /\ forall id, id ∈ ["c1"] ->
       orders demo_oms !! id = None
       /\ forall request venue s st', rq_client_order_id request = id ->
            place_begin demo_cfg request venue demo_restarted = (s, st') ->
            opened_place demo_cfg request venue s = [] /\ st' = demo_restarted.
Proof.
  exact (place_sent_once_across_restarts "okx" demo_cfg demo_oms _ _ demo_log_up demo_durable
           demo_keyed eq_refl demo_lives).
Defined.
