(* ===== verification/OmsProgram.v ===== *)
(** * Order management: the operations as programs of threads

    [Oms], [OmsReconcile] and [OmsAudit] run an operation from end to end.  Here
    the same operations are written as trees of what a thread does between two
    moments at which another thread may run: a critical section under the mutex
    of the order manager ([Locked]), a request that leaves for a venue ([Send]),
    the wait for its answer ([Await]).  [exec] runs a tree alone and gives back
    the operation (place_program and its siblings); [OmsThreads] runs any number
    of trees at once. *)

From S2P Require Import Prelude Types OrderState Decimal Json Risk Latency EventLog OmsTypes Oms OmsReconcile OmsAudit.

(** What leaves for a venue. *)
Inductive VenueCall :=
  | AskPlace (venue : string) (request : OrderRequest)
  | AskCancel (wire : CancelRequest)
  | AskAmend (wire : AmendRequest)
  | AskOrder (query : OrderQuery)
  | AskOpenOrders (venue : string)
  | AskPrice (symbol : string).

Inductive Prog (W A : Type) : Type :=
  | Ret (a : A)
  | Locked {B : Type} (section : Oms -> B * Oms) (k : B -> Prog W A)
  | Send (call : VenueCall) (rest : Prog W A)
  | Await {B : Type} (call : VenueCall) (answer : W -> B * W) (k : B -> Prog W A).
Arguments Ret {W A} a.
Arguments Locked {W A B} section k.
Arguments Send {W A} call rest.
Arguments Await {W A B} call answer k.

(** Sequencing, with stdpp's [x ← p; q] notation. *)
Fixpoint prog_bind {W A C : Type} (f : A -> Prog W C) (p : Prog W A) : Prog W C :=
  match p with
  | Ret a => f a
  | Locked section k => Locked section (fun b => prog_bind f (k b))
  | Send call rest => Send call (prog_bind f rest)
  | Await call answer k => Await call answer (fun b => prog_bind f (k b))
  end.

#[global] Instance prog_mret {W} : MRet (Prog W) := fun A a => Ret a.
#[global] Instance prog_mbind {W} : MBind (Prog W) := fun A C f p => prog_bind f p.

Definition locked {W B : Type} (section : Oms -> B * Oms) : Prog W B := Locked section Ret.
Definition ask {W B : Type} (call : VenueCall) (answer : W -> B * W) : Prog W B :=
  Send call (Await call answer Ret).

(** A tree run alone, in one thread. *)
Fixpoint exec {W A : Type} (p : Prog W A) (st : Oms) (w : W) : A * Oms * W :=
  match p with
  | Ret a => (a, st, w)
  | Locked section k => let '(b, st) := section st in exec (k b) st w
  | Send _ rest => exec rest st w
  | Await _ answer k => let '(b, w) := answer w in exec (k b) st w
  end.

Section Programs.
Context {W : Type} (cfg : OmsConfig W).

Definition stamp_section (st : Oms) : Z * Oms :=
  let '(t, l) := latency_now (latency st) in (t, with_latency l st).

Definition place_prog (a_request : OrderRequest) (a_venue : string) (a_rest_hit_ns : Z)
    : Prog W (option (Result PlaceOutcome)) :=
  oms_entry_ns ← locked stamp_section;
  s ← locked (place_begin cfg a_request a_venue);
  match s with
  | PlaceDone outcome => mret (Some outcome)
  | PlaceThrows => mret None
  | PlaceSend connector =>
      _ ← locked (fun st => (tt, place_send_stamps (rq_client_order_id a_request) a_rest_hit_ns
                                   oms_entry_ns st));
      placement ← ask (AskPlace (resolve_venue cfg a_venue) a_request)
                     (place_order (ExchangeConnector:=connector) a_request);
      outcome ← locked (place_finish a_request placement);
      mret (Some outcome)
  end.

Definition cancel_prog (a_client_order_id : string) : Prog W (Result OrderRecord) :=
  s ← locked (fun st => (cancel_begin cfg a_client_order_id st, st));
  match s with
  | CancelDone outcome => mret outcome
  | CancelSend connector wire =>
      placement ← ask (AskCancel wire) (cancel_order (ExchangeConnector:=connector) wire);
      locked (cancel_finish a_client_order_id placement)
  end.

Definition amend_prog (a_command : AmendCommand) : Prog W (option (Result OrderRecord)) :=
  s ← locked (amend_begin cfg a_command);
  match s with
  | AmendDone outcome => mret (Some outcome)
  | AmendThrows => mret None
  | AmendSend connector wire =>
      placement ← ask (AskAmend wire) (amend_order (ExchangeConnector:=connector) wire);
      outcome ← locked (amend_finish (ac_client_order_id a_command) wire placement);
      mret (Some outcome)
  end.

Fixpoint listings_prog (cs : list (string * ExchangeConnector W)) (report : ReconcileReport)
    : Prog W ReconcileReport :=
  match cs with
  | [] => mret report
  | (venue, connector) :: rest =>
      listing ← ask (AskOpenOrders venue) (get_open_orders (ExchangeConnector:=connector));
      match listing with
      | Err _ => listings_prog rest (flag_listing_failed report)
      | Ok snapshots =>
          report ← locked (fun st => listing_section venue snapshots (report, st));
          listings_prog rest report
      end
  end.

Fixpoint lookups_prog (open : list WorkItem) (report : ReconcileReport)
    : Prog W ReconcileReport :=
  match open with
  | [] => mret report
  | item :: rest =>
      match connector_for cfg (wi_venue item) with
      | None => lookups_prog rest (count_unresolved report)
      | Some connector =>
          answer ← ask (AskOrder (wi_query item)) (get_order (ExchangeConnector:=connector) (wi_query item));
          report ← locked (fun st => resolve_section item answer (report, st));
          lookups_prog rest report
      end
  end.

Definition reconcile_prog : Prog W ReconcileReport :=
  report ← listings_prog (connectors cfg) empty_report;
  open ← locked (fun st => (reconcile_worklist cfg st, st));
  lookups_prog open report.

Fixpoint audit_lookups_prog (open : list WorkItem) (report : AuditReport) : Prog W AuditReport :=
  match open with
  | [] => mret report
  | item :: rest =>
      match connector_for cfg (wi_venue item) with
      | None =>
          audit_lookups_prog rest
            (mkAuditReport
               (au_alerts report ++ [mkAlert (wi_id item) "lookup_failed"
                  ("no connector for venue " +:+ dquote +:+ wi_venue item +:+ dquote)])
               (au_orders_checked report) (au_venue_lookups report)
               (au_lookup_failures report + 1))
      | Some connector =>
          answer ← ask (AskOrder (wi_query item)) (get_order (ExchangeConnector:=connector) (wi_query item));
          report ← locked (fun st => (audit_answer item answer st report, st));
          audit_lookups_prog rest report
      end
  end.

Definition audit_prog : Prog W AuditReport :=
  begun ← locked (fun st => let '(report, open, st) := audit_begin cfg st in ((report, open), st));
  audit_lookups_prog begun.2 begun.1.

Definition report_prog (a_report : ExecutionReport) : Prog W unit :=
  locked (fun st => (tt, on_execution_report a_report st)).

Definition price_prog (a_symbol a_venue : string) : Prog W (Result PriceQuote) :=
  let venue := resolve_venue cfg a_venue in
  match connector_for cfg venue with
  | None => mret (Err (unsupported_venue_error cfg venue))
  | Some connector =>
      price ← ask (AskPrice a_symbol) (get_price (ExchangeConnector:=connector) a_symbol);
      mret (let! p := price in Ok (mkPriceQuote venue p))
  end.

(** ** The operations a thread may be started with *)

Inductive Operation :=
  | OpPlace (request : OrderRequest) (venue : string) (rest_hit_ns : Z)
  | OpCancel (id : string)
  | OpAmend (command : AmendCommand)
  | OpReconcile
  | OpAudit
  | OpReport (report : ExecutionReport)
  | OpPrice (symbol venue : string).

Inductive Answer :=
  | Placed (outcome : option (Result PlaceOutcome))
  | Canceled_ (outcome : Result OrderRecord)
  | Amended (outcome : option (Result OrderRecord))
  | Reconciled (report : ReconcileReport)
  | Audited (report : AuditReport)
  | Heard
  | Priced (price : Result PriceQuote).

Definition program (op : Operation) : Prog W Answer :=
  match op with
  | OpPlace request venue hit => o ← place_prog request venue hit; mret (Placed o)
  | OpCancel id => o ← cancel_prog id; mret (Canceled_ o)
  | OpAmend command => o ← amend_prog command; mret (Amended o)
  | OpReconcile => r ← reconcile_prog; mret (Reconciled r)
  | OpAudit => r ← audit_prog; mret (Audited r)
  | OpReport report => _ ← report_prog report; mret Heard
  | OpPrice symbol venue => p ← price_prog symbol venue; mret (Priced p)
  end.

(** The operation as the sequential definitions run it. *)
Definition sequential (op : Operation) (st : Oms) (w : W) : Answer * Oms * W :=
  match op with
  | OpPlace request venue hit =>
      let '(o, st, w) := place cfg request venue hit st w in (Placed o, st, w)
  | OpCancel id => let '(o, st, w) := cancel cfg id st w in (Canceled_ o, st, w)
  | OpAmend command => let '(o, st, w) := amend cfg command st w in (Amended o, st, w)
  | OpReconcile => let '(r, st, w) := reconcile cfg st w in (Reconciled r, st, w)
  | OpAudit => let '(r, st, w) := audit cfg st w in (Audited r, st, w)
  | OpReport report => (Heard, on_execution_report report st, w)
  | OpPrice symbol venue => let '(p, w) := oms_get_price cfg symbol venue w in (Priced p, st, w)
  end.

(** ** Running a tree alone *)

Lemma exec_bind {A C} (p : Prog W A) (f : A -> Prog W C) st w :
  exec (p ≫= f) st w = let '(a, st, w) := exec p st w in exec (f a) st w.
Proof.
  revert st w. unfold mbind, prog_mbind.
  induction p as [a|B section k IH|call rest IH|B call answer k IH]; intros st w; simpl;
    [done| |done|].
  - destruct (section st). apply IH.
  - destruct (answer w). apply IH.
Qed.

Lemma exec_locked {B} (section : Oms -> B * Oms) st w :
  exec (W:=W) (locked section) st w = (section st, w).
Proof. unfold locked. simpl. by destruct (section st). Qed.

Lemma exec_ask {B} call (answer : W -> B * W) st w :
  exec (ask call answer) st w = let '(b, w) := answer w in (b, st, w).
Proof. unfold ask. simpl. by destruct (answer w). Qed.

Lemma exec_ret {A} (a : A) st w : exec (W:=W) (mret a) st w = (a, st, w).
Proof. done. Qed.

Hint Rewrite @exec_bind @exec_locked @exec_ask @exec_ret : exec.

Lemma place_program request venue hit st w :
  exec (place_prog request venue hit) st w = place cfg request venue hit st w.
Proof.
  unfold place_prog, place, stamp_section.
  autorewrite with exec. destruct (latency_now _) as [entry l]. autorewrite with exec.
  destruct (place_begin _ _ _ _) as [[out|conn|] st1]; autorewrite with exec; [done| |done].
  destruct (place_order request w) as [pl w1]. autorewrite with exec.
  by destruct (place_finish _ _ _).
Qed.

Lemma cancel_program id st w : exec (cancel_prog id) st w = cancel cfg id st w.
Proof.
  unfold cancel_prog, cancel. autorewrite with exec.
  destruct (cancel_begin _ _ _) as [out|conn wire]; autorewrite with exec; [done|].
  destruct (cancel_order wire w) as [pl w1]. autorewrite with exec.
  by destruct (cancel_finish _ _ _).
Qed.

Lemma amend_program command st w : exec (amend_prog command) st w = amend cfg command st w.
Proof.
  unfold amend_prog, amend. autorewrite with exec.
  destruct (amend_begin _ _ _) as [[out|conn wire|] st1]; autorewrite with exec; [done| |done].
  destruct (amend_order wire w) as [pl w1]. autorewrite with exec.
  by destruct (amend_finish _ _ _ _).
Qed.

Lemma listings_program cs report st w :
  exec (listings_prog cs report) st w = reconcile_listings cs (report, st) w.
Proof.
  revert report st w. induction cs as [|[venue conn] rest IH]; intros report st w;
    cbn [listings_prog reconcile_listings]; [done|].
  autorewrite with exec. destruct (get_open_orders w) as [[snapshots|e] w1]; [|apply IH].
  autorewrite with exec. destruct (listing_section _ _ _) as [report1 st1]. apply IH.
Qed.

Lemma lookups_program open report st w :
  exec (lookups_prog open report) st w = reconcile_orders cfg open (report, st) w.
Proof.
  revert report st w. induction open as [|item rest IH]; intros report st w;
    cbn [lookups_prog reconcile_orders]; [done|].
  destruct (connector_for cfg (wi_venue item)) as [conn|]; [|apply IH].
  autorewrite with exec. destruct (get_order (wi_query item) w) as [answer w1].
  autorewrite with exec. destruct (resolve_section _ _ _) as [report1 st1]. apply IH.
Qed.

Lemma reconcile_program st w : exec reconcile_prog st w = reconcile cfg st w.
Proof.
  unfold reconcile_prog, reconcile. autorewrite with exec. rewrite listings_program.
  destruct (reconcile_listings _ _ _) as [[report st1] w1]. autorewrite with exec.
  apply lookups_program.
Qed.

Lemma audit_lookups_program open report st w :
  exec (audit_lookups_prog open report) st w
  = let '(report, w) := audit_orders cfg open st report w in (report, st, w).
Proof.
  revert report w. induction open as [|item rest IH]; intros report w;
    cbn [audit_lookups_prog audit_orders]; [done|].
  destruct (connector_for cfg (wi_venue item)) as [conn|]; [|apply IH].
  autorewrite with exec. destruct (get_order (wi_query item) w) as [answer w1].
  autorewrite with exec. apply IH.
Qed.

Lemma audit_program st w : exec (audit_prog) st w = audit cfg st w.
Proof.
  unfold audit_prog, audit. autorewrite with exec.
  destruct (audit_begin cfg st) as [[report open] st1]. apply audit_lookups_program.
Qed.

Lemma price_program symbol venue st w :
  exec (price_prog symbol venue) st w
  = let '(p, w) := oms_get_price cfg symbol venue w in (p, st, w).
Proof.
  unfold price_prog, oms_get_price. destruct (connector_for _ _) as [conn|]; [|done].
  autorewrite with exec. by destruct (get_price symbol w).
Qed.

(** The thread programs are the operations: run alone, the program of every operation (place,
    cancel, amend, reconcile, audit, report, price) gives the answer, the order manager and the
    world that the operation's definition gives. *)
Theorem programs_are_the_operations op st w :
  exec (program op) st w = sequential op st w.
Proof.
  destruct op; cbn [program sequential]; autorewrite with exec;
    rewrite ?place_program, ?cancel_program, ?amend_program, ?reconcile_program, ?audit_program,
      ?price_program.
  - by destruct (place _ _ _ _ _ _) as [[? ?] ?].
  - by destruct (cancel _ _ _ _) as [[? ?] ?].
  - by destruct (amend _ _ _ _) as [[? ?] ?].
  - by destruct (reconcile _ _ _) as [[? ?] ?].
  - by destruct (audit _ _ _) as [[? ?] ?].
  - unfold report_prog. by autorewrite with exec.
  - by destruct (oms_get_price _ _ _ _).
Qed.
End Programs.
