(* ===== verification/OmsThreads.v ===== *)
(** * Order management: threads

    Any number of threads run the programs of [OmsProgram] against one order
    manager and one world; the process may die at any moment and come back with
    the registry that the log gives.  Every such history is a history of the
    interleaving system of [OmsSystem] ([pool_simulated]), so what is proved of
    that system holds of the threads and of the requests they really send. *)

From S2P Require Import Prelude Types OrderState Decimal Json Risk Latency EventLog OmsTypes Oms OmsReconcile OmsReplay OmsAudit.
From S2P Require Import OmsFacts OmsSections OmsSystem OmsThread OmsDurable OmsProgram.

(** ** Runs, whatever the order of the open calls *)

Section RunsUpTo.
Context {W : Type} (cfg : OmsConfig W).

Lemma step_perm st cs ds t s' :
  step cfg (mkSys st cs) t s' -> cs ≡ₚ ds ->
  exists ds', step cfg (mkSys st ds) t (mkSys (sys_oms s') ds') /\ ds' ≡ₚ sys_calls s'.
Proof.
  intros Hs Hp. remember (mkSys st cs) as s eqn:Es.
  destruct Hs as [req v ps st0 st' cs0 E|id ps st0 cs0 E|cmd ps st0 st' cs0 E
    |st0 cs0|c st0 st' pre post Ha|rep st0 cs0|v snaps rr st0 cs0|st0 cs0|st0 l cs0]; simplify_eq; simpl;
    try (eexists; split; [econstructor; eassumption || reflexivity|by rewrite Hp]).
  rewrite <- Permutation_middle in Hp. symmetry in Hp.
  destruct (Permutation_vs_cons_inv Hp) as (pre' & post' & ->).
  exists (pre' ++ post'). split; [by apply st_answer|].
  apply (Permutation_cons_inv (a:=c)). by rewrite Permutation_middle.
Qed.

Lemma run_perm st cs t s' ds :
  run cfg (mkSys st cs) t s' -> cs ≡ₚ ds ->
  exists ds', run cfg (mkSys st ds) t (mkSys (sys_oms s') ds') /\ ds' ≡ₚ sys_calls s'.
Proof.
  intros Hr Hp. remember (mkSys st cs) as s eqn:Es.
  induction Hr as [|s1 t1 s2 t2 s3 Hr IH Hs]; subst; simpl.
  - exists ds. split; [constructor|done].
  - destruct (IH eq_refl) as (ds2 & H2 & P2). destruct s2 as [st2 cs2]. simpl in *.
    destruct (step_perm _ _ ds2 _ _ Hs) as (ds3 & H3 & P3); [done|].
    exists ds3. split; [by eapply run_step|done].
Qed.
End RunsUpTo.

(** ** The threads *)

Record Pool (W : Type) := mkPool {
  pl_threads : list (Prog W Answer);
  pl_oms : Oms;
  pl_world : W }.
Arguments mkPool {W}.
Arguments pl_threads {W}.
Arguments pl_oms {W}.
Arguments pl_world {W}.

(** The clientOrderIds of the places that leave for a venue. *)
Definition place_call (call : VenueCall) : option string :=
  match call with AskPlace _ request => Some (rq_client_order_id request) | _ => None end.
Definition places_sent (calls : list VenueCall) : list string := omap place_call calls.

Section Pools.
Context {W : Type} (dv : string) (cfg : OmsConfig W).

(** What one thread does next; [None] once it has returned. *)
Definition advance {A} (p : Prog W A) (st : Oms) (w : W)
    : option (list VenueCall * Prog W A * Oms * W) :=
  match p with
  | Ret _ => None
  | Locked section k => let '(b, st') := section st in Some ([], k b, st', w)
  | Send call rest => Some ([call], rest, st, w)
  | Await _ answer k => let '(b, w') := answer w in Some ([], k b, st, w')
  end.

(** One step of a thread, or its end. *)
Inductive works : Pool W -> list VenueCall -> Pool W -> Prop :=
  | wk_step pre p post st w calls p' st' w' :
      advance p st w = Some (calls, p', st', w') ->
      works (mkPool (pre ++ p :: post) st w) calls (mkPool (pre ++ p' :: post) st' w')
  | wk_return pre a post st w :
      works (mkPool (pre ++ Ret a :: post) st w) [] (mkPool (pre ++ post) st w).

(** A history: threads start, work and end, the world moves, the process dies. *)
Inductive history : Pool W -> list VenueCall -> Pool W -> Prop :=
  | hs_nil P : history P [] P
  | hs_work P c1 P2 c2 P3 : history P c1 P2 -> works P2 c2 P3 -> history P (c1 ++ c2) P3
  | hs_start P c ths st w op :
      history P c (mkPool ths st w) -> history P c (mkPool (ths ++ [program cfg op]) st w)
  | hs_world P c ths st w w' :
      history P c (mkPool ths st w) -> history P c (mkPool ths st w')
  | hs_crash P c ths st w w' :
      history P c (mkPool ths st w) -> history P c (mkPool [] (restart dv st) w').

(** ** The calls a thread stands for

    [tracks p cs unsent]: a thread at [p] has the calls [cs] of [OmsSystem]
    open, and the places [unsent] of them have not left for the venue yet. *)

(** The venue a place goes to: asked for or the default, and it has a connector. *)
Definition routable (venue : string) : Prop :=
  (exists v, venue = resolve_venue cfg v) /\ is_Some (connector_for cfg venue).

Definition backs (call : VenueCall) (cs : list Call) : Prop :=
  match call with
  | AskPlace venue request => CPlace venue request ∈ cs /\ routable venue
  | AskAmend wire => CAmend (am_client_order_id wire) wire ∈ cs
  | AskCancel wire => CCancel (cx_client_order_id wire) ∈ cs
  | _ => True
  end.

Fixpoint tracks {A} (p : Prog W A) (cs : list Call) (unsent : list string) : Prop :=
  match p with
  | Ret _ => cs = [] /\ unsent = []
  | Locked section k =>
      forall st, registry_keyed (orders st) ->
      exists t cs',
        (forall others, exists calls,
           run cfg (mkSys st (cs ++ others)) t (mkSys (section st).2 calls)
           /\ calls ≡ₚ cs' ++ others)
        /\ tracks (k (section st).1) cs' (unsent ++ placed t)
  | Send call rest =>
      exists unsent', unsent = places_sent [call] ++ unsent' /\ backs call cs /\ tracks rest cs unsent'
  | Await call answer k => backs call cs /\ forall b, tracks (k b) cs unsent
  end.

Lemma tracks_bind {A C} (p : Prog W A) (f : A -> Prog W C) cs unsent :
  tracks p cs unsent -> (forall a, tracks (f a) [] []) -> tracks (p ≫= f) cs unsent.
Proof.
  intros Hp Hf. revert cs unsent Hp. unfold mbind, prog_mbind.
  induction p as [a|B section k IH|call rest IH|B call answer k IH]; intros cs unsent; simpl.
  - intros [-> ->]. apply Hf.
  - intros Hp st Hk. destruct (Hp st Hk) as (t & cs' & Hr & Ht). exists t, cs'. auto.
  - intros (u' & -> & Hb & Ht). exists u'. auto.
  - intros [Hb Ht]. auto.
Qed.

Lemma tracks_ret {A} (a : A) : tracks (mret a) [] [].
Proof. done. Qed.

(** A section that opens and closes no call. *)
Lemma tracks_quiet {A B} (section : Oms -> B * Oms) (k : B -> Prog W A) cs unsent :
  (forall st ds, run cfg (mkSys st ds) [] (mkSys (section st).2 ds)) ->
  (forall b, tracks (k b) cs unsent) -> tracks (locked section ≫= k) cs unsent.
Proof.
  intros Hs Hk st _. exists [], cs. split; [|simpl; rewrite app_nil_r; apply Hk].
  intros others. exists (cs ++ others). by split.
Qed.

(** A section that opens calls, when the thread has none. *)
Lemma tracks_open {A B} (section : Oms -> B * Oms) (k : B -> Prog W A) :
  (forall st, registry_keyed (orders st) ->
     exists t cs, (forall ds, run cfg (mkSys st ds) t (mkSys (section st).2 (ds ++ cs)))
       /\ tracks (k (section st).1) cs (placed t)) ->
  tracks (locked section ≫= k) [] [].
Proof.
  intros H st Hk. destruct (H st Hk) as (t & cs & Hr & Ht). exists t, cs. split; [|done].
  intros others. exists (others ++ cs). split; [apply Hr|apply Permutation_app_comm].
Qed.

(** The section that the answer to the first open call runs. *)
Lemma tracks_answer {A B} c (section : Oms -> B * Oms) (k : B -> Prog W A) cs unsent :
  (forall st, answered c st (section st).2) ->
  (forall b, tracks (k b) cs unsent) -> tracks (locked section ≫= k) (c :: cs) unsent.
Proof.
  intros Ha Hk st _. exists [], cs. split; [|simpl; rewrite app_nil_r; apply Hk].
  intros others. exists (cs ++ others). split; [|done].
  apply run_one. apply (st_answer cfg c st _ [] (cs ++ others)), Ha.
Qed.

Lemma tracks_ask {A B} call (answer : W -> B * W) (k : B -> Prog W A) cs :
  backs call cs -> (forall b, tracks (k b) cs []) ->
  tracks (ask call answer ≫= k) cs (places_sent [call]).
Proof. intros Hb Hk. exists []. rewrite app_nil_r. split_and!; [done|done|]. by split. Qed.

(** *** The programs *)

Lemma tracks_place request venue hit : tracks (place_prog cfg request venue hit) [] [].
Proof.
  apply tracks_quiet.
  { intros st ds. unfold stamp_section. destruct (latency_now _). apply run_stamp. }
  intros entry. apply tracks_open. intros st _.
  pose proof (place_begin_spec cfg request venue st) as Hb.
  destruct (place_begin cfg request venue st) as [s st1] eqn:E.
  exists (opened_place cfg request venue s), (opened_place cfg request venue s). split.
  { intros ds. by apply run_one, st_place. }
  destruct s as [out|conn|]; [done| |done].
  apply tracks_quiet; [intros; apply send_stamps_run|]. intros _.
  assert (Hroute : routable (resolve_venue cfg venue))
    by (inversion Hb; subst; split; by eexists).
  apply (tracks_ask (AskPlace (resolve_venue cfg venue) request)).
  { split; [by left|done]. }
  intros placement.
  apply tracks_answer; [constructor|done].
Qed.

Lemma tracks_cancel id : tracks (cancel_prog cfg id) [] [].
Proof.
  apply tracks_open. intros st Hk. simpl.
  exists (opened_cancel id (cancel_begin cfg id st)), (opened_cancel id (cancel_begin cfg id st)).
  split.
  { intros ds. by apply run_one, st_cancel. }
  pose proof (cancel_begin_spec cfg id st) as Hs.
  destruct (cancel_begin cfg id st) as [out|conn wire]; [done|].
  destruct Hs as (r & Hr & _ & _ & ->).
  apply (tracks_ask (AskCancel _)).
  { simpl. rewrite (Hk _ _ Hr). by left. }
  intros placement. change (tracks (locked (cancel_finish id placement) ≫= mret) [CCancel id] []).
  apply tracks_answer; [constructor|done].
Qed.

Lemma tracks_amend command : tracks (amend_prog cfg command) [] [].
Proof.
  apply tracks_open. intros st Hk.
  pose proof (amend_begin_spec cfg command st) as Hs.
  destruct (amend_begin cfg command st) as [s st1] eqn:E.
  exists (opened_amend (ac_client_order_id command) s), (opened_amend (ac_client_order_id command) s).
  split.
  { intros ds. by apply run_one, st_amend. }
  destruct s as [out|conn wire|]; [done| |done].
  destruct Hs as (_ & _ & r & Hr & _ & _ & _ & _ & _ & Hw).
  apply (tracks_ask (AskAmend wire)).
  { simpl. rewrite Hw at 1. simpl. rewrite (Hk _ _ Hr). by left. }
  intros placement. apply tracks_answer; [constructor|done].
Qed.

Lemma tracks_listings cs report : tracks (listings_prog cs report) [] [].
Proof.
  revert report. induction cs as [|[venue conn] rest IH]; intros report; [done|].
  apply (tracks_ask (AskOpenOrders venue)); [done|]. intros [snapshots|e]; [|apply IH].
  apply tracks_quiet; [|apply IH]. intros st ds. by apply run_one, st_listing.
Qed.

(** The lookups that have a connector. *)
Definition routed (item : WorkItem) : bool := negb (is_none (connector_for cfg (wi_venue item))).
Definition lookups (open : list WorkItem) : list Call := map CLookup (List.filter routed open).

Lemma drop_unrouted open st ds :
  run cfg (mkSys st (ds ++ map CLookup open)) [] (mkSys st (ds ++ lookups open)).
Proof.
  revert ds. unfold lookups. induction open as [|item rest IH]; intros ds; simpl; [constructor|].
  destruct (routed item); simpl.
  - specialize (IH (ds ++ [CLookup item])). by rewrite <- !app_assoc in IH.
  - eapply run_0app; [|apply IH]. apply run_one, st_answer, an_unrouted.
Qed.

Lemma tracks_lookups open report : tracks (lookups_prog cfg open report) (lookups open) [].
Proof.
  revert report. unfold lookups, routed. induction open as [|item rest IH]; intros report; [done|].
  cbn [lookups_prog List.filter]. destruct (connector_for cfg (wi_venue item)) as [conn|]; [|apply IH].
  apply (tracks_ask (AskOrder _)); [done|]. intros answer.
  apply tracks_answer; [intros st; constructor|apply IH].
Qed.

Lemma tracks_reconcile : tracks (reconcile_prog cfg) [] [].
Proof.
  apply tracks_bind; [apply tracks_listings|]. intros report. apply tracks_open. intros st _. simpl.
  exists (map CLookup (reconcile_worklist cfg st)), (lookups (reconcile_worklist cfg st)). split.
  - intros ds. eapply run_app0; [apply run_one, st_worklist|apply drop_unrouted].
  - rewrite placed_lookups. apply tracks_lookups.
Qed.

Lemma tracks_audit_lookups open report : tracks (audit_lookups_prog cfg open report) [] [].
Proof.
  revert report. induction open as [|item rest IH]; intros report; [done|].
  cbn [audit_lookups_prog]. destruct (connector_for cfg (wi_venue item)) as [conn|]; [|apply IH].
  apply (tracks_ask (AskOrder _)); [done|]. intros answer.
  apply tracks_quiet; [intros; constructor|]. intros b. apply IH.
Qed.

Lemma tracks_audit : tracks (audit_prog cfg) [] [].
Proof.
  apply tracks_quiet; [|intros b; apply tracks_audit_lookups].
  intros st ds. pose proof (run_one cfg _ _ _ (st_audit cfg st ds)) as H.
  by destruct (audit_begin cfg st) as [[? ?] ?].
Qed.

Lemma tracks_price symbol venue : tracks (price_prog cfg symbol venue) [] [].
Proof.
  unfold price_prog. destruct (connector_for _ _); [|done].
  by apply (tracks_ask (AskPrice symbol)).
Qed.

Lemma tracks_program op : tracks (program cfg op) [] [].
Proof.
  destruct op; apply tracks_bind; try done.
  - apply tracks_place.
  - apply tracks_cancel.
  - apply tracks_amend.
  - apply tracks_reconcile.
  - apply tracks_audit.
  - intros st _. exists [], []. split; [|done]. intros others. exists others.
    split; [apply report_run|done].
  - apply tracks_price.
Qed.

(** ** The simulation *)

Definition stands_for (p : Prog W Answer) (c : list Call * list string) : Prop :=
  tracks p c.1 c.2.

(** [css]: for each thread its open calls and its unsent places. *)
Record simulates (P : Pool W) (sent : list string) (s : Sys) (opened : list string) : Prop := {
  sm_oms : sys_oms s = pl_oms P;
  sm_threads : exists css : list (list Call * list string),
    Forall2 stands_for (pl_threads P) css
    /\ sys_calls s ≡ₚ concat css.*1
    /\ sent ++ concat css.*2 ⊆+ opened }.

Lemma concat_middle {X} (a b : list (list X)) x : concat (a ++ x :: b) ≡ₚ x ++ concat a ++ concat b.
Proof. rewrite concat_app. simpl. by rewrite Permutation_app_swap_app. Qed.

Lemma simulates_start P sent s opened op :
  simulates P sent s opened ->
  simulates (mkPool (pl_threads P ++ [program cfg op]) (pl_oms P) (pl_world P)) sent s opened.
Proof.
  intros [Ho (css & Ht & Hc & Hs)]. split; [done|]. exists (css ++ [([], [])]). simpl.
  rewrite !fmap_app, !concat_app. simpl. rewrite !app_nil_r. split_and!; [|done|done].
  apply Forall2_app; [done|]. constructor; [apply tracks_program|constructor].
Qed.

(** The thread at [p] moves from [cs], [u] to [cs'], [u']. *)
Lemma simulates_step pre post (css1 css2 : list (list Call * list string)) cs u s t cs' u' p' st' w'
    sent sent' opened :
  Forall2 stands_for pre css1 ->
  Forall2 stands_for post css2 ->
  tracks p' cs' u' -> sys_calls s ≡ₚ concat (css1 ++ (cs, u) :: css2).*1 ->
  sent ++ concat (css1 ++ (cs, u) :: css2).*2 ⊆+ opened ->
  sent' ++ u' ≡ₚ u ++ placed t ->
  (forall others, exists calls,
     run cfg (mkSys (sys_oms s) (cs ++ others)) t (mkSys st' calls) /\ calls ≡ₚ cs' ++ others) ->
  exists s', run cfg s t s'
    /\ simulates (mkPool (pre ++ p' :: post) st' w') (sent ++ sent') s' (opened ++ placed t).
Proof.
  intros H1 H2 Ht Hc Hs Hu Hrun. rewrite fmap_app in Hc. rewrite fmap_app in Hs. simpl in Hc, Hs.
  rewrite concat_middle in Hc. rewrite concat_middle in Hs.
  destruct (Hrun (concat css1.*1 ++ concat css2.*1)) as (calls & Hr & Hp).
  destruct s as [st ds]. simpl in *.
  destruct (run_perm cfg _ _ _ _ ds Hr) as (ds' & Hr' & Hp'); [by rewrite Hc|].
  simpl in *. exists (mkSys st' ds'). split; [done|]. split; [done|].
  exists (css1 ++ (cs', u') :: css2). rewrite !fmap_app. simpl. rewrite !concat_middle.
  split_and!; [by apply Forall2_app, Forall2_cons|by rewrite Hp', Hp|].
  rewrite <- app_assoc, (app_assoc sent'), Hu, <- app_assoc.
  rewrite (app_assoc sent u), (Permutation_app_comm (placed t)), (app_assoc (sent ++ u)).
  apply submseteq_app; [|done]. by rewrite <- app_assoc.
Qed.

Lemma simulates_work P calls P' sent s opened :
  works P calls P' -> Inv s -> simulates P sent s opened ->
  exists t s', run cfg s t s'
    /\ simulates P' (sent ++ places_sent calls) s' (opened ++ placed t).
Proof.
  intros Hw HI [Ho (css & Ht & Hc & Hs)].
  destruct Hw as [pre p post st w calls p' st' w' Ha|pre a post st w]; simpl in *;
    apply Forall2_app_inv_l in Ht as (css1 & cssr & H1 & Hr & ->);
    apply Forall2_cons_inv_l in Hr as ([cs u] & css2 & Hp & H2 & ->); unfold stands_for in Hp; simpl in Hp.
  - destruct p as [a|B section k|call rest|B call answer k]; simpl in Ha, Hp; [done|..].
    + pose proof (inv_keyed _ HI) as Hk. rewrite Ho in Hk.
      destruct (Hp st Hk) as (t & cs' & Hrun & Ht). destruct (section st) as [b st1].
      simplify_eq. simpl in *. exists t.
      eapply simulates_step; done.
    + simplify_eq. destruct Hp as (u' & -> & _ & Ht). exists [].
      eapply simulates_step; try done; [by rewrite app_nil_r|].
      intros others. exists (cs ++ others). split; [constructor|done].
    + destruct (answer w) as [b w1]. simplify_eq. destruct Hp as [_ Ht]. exists [].
      eapply simulates_step; try done; [by rewrite app_nil_r|].
      intros others. exists (cs ++ others). split; [constructor|done].
  - destruct Hp as [-> ->]. exists [], s. split; [constructor|]. split; [done|].
    exists (css1 ++ css2). rewrite fmap_app in Hc. rewrite fmap_app in Hs. simpl in Hc, Hs.
    rewrite concat_middle in Hc. rewrite concat_middle in Hs. rewrite !fmap_app, !concat_app, !app_nil_r.
    split_and!; [by apply Forall2_app|done|done].
Qed.

Lemma lives_run s t s1 t1 s2 :
  lives dv cfg s t s1 -> run cfg s1 t1 s2 -> lives dv cfg s (t ++ t1) s2.
Proof.
  intros Hl Hr. revert Hl. induction Hr as [|s1 t1 s2 t2 s3 Hr IH Hs]; intros Hl.
  - by rewrite app_nil_r.
  - rewrite app_assoc. eapply lv_step; [by apply IH|done].
Qed.

Lemma history_simulated P calls P' s :
  history P calls P' -> Inv s -> persisted dv (sys_oms s) -> pl_threads P = [] ->
  sys_oms s = pl_oms P -> sys_calls s = [] ->
  exists t s', lives dv cfg s t s' /\ simulates P' (places_sent calls) s' (placed t).
Proof.
  intros Hh HI HP Hn Ho Hc.
  induction Hh as [P|P c1 P2 c2 P3 Hh IH Hw|P c ths st w op Hh IH|P c ths st w w' Hh IH
    |P c ths st w w' Hh IH].
  - exists [], s. split; [apply lv_nil|]. split; [done|]. exists []. rewrite Hn, Hc. done.
  - destruct IH as (t & s2 & Hl & Hs); [done..|].
    destruct (lives_inv dv cfg _ _ _ HI HP Hl) as [HI2 _].
    destruct (simulates_work _ _ _ _ _ _ Hw HI2 Hs) as (t2 & s3 & Hr & Hs3).
    exists (t ++ t2), s3. split; [by eapply lives_run|].
    unfold places_sent, placed in *. by rewrite !omap_app.
  - destruct IH as (t & s2 & Hl & Hs); [done..|]. exists t, s2. split; [done|].
    apply (simulates_start _ _ _ _ op Hs).
  - destruct IH as (t & s2 & Hl & [H1 H2]); [done..|]. exists t, s2. by split.
  - destruct IH as (t & s2 & Hl & [H1 (css & _ & _ & H2)]); [done..|].
    exists t, (mkSys (restart dv (sys_oms s2)) []). split; [by apply lv_crash|].
    simpl in H1. split; [simpl; by rewrite H1|]. exists []. split_and!; [constructor|done|].
    simpl. rewrite app_nil_r. etrans; [|exact H2]. by apply submseteq_inserts_r.
Qed.

(** Where the threads start: no thread yet, a registry the log accounts for. *)
Record fresh (st : Oms) : Prop := {
  fr_log : log_up st;
  fr_replays : durable_registry (replayed dv st) (orders st);
  fr_keyed : registry_keyed (orders st);
  fr_quiet : raced_reports st = ∅ }.

Lemma fresh_inv st : fresh st -> Inv (mkSys st []) /\ persisted dv st.
Proof. intros [Hl Hd Hk Hq]. split; [by apply inv_init|done]. Qed.

Lemma fresh_simulated st w calls P :
  fresh st -> history (mkPool [] st w) calls P ->
  exists t s', lives dv cfg (mkSys st []) t s' /\ simulates P (places_sent calls) s' (placed t)
    /\ Inv s' /\ persisted dv (sys_oms s').
Proof.
  intros [HI HP]%fresh_inv Hh.
  destruct (history_simulated _ _ _ (mkSys st []) Hh HI HP) as (t & s' & Hl & Hs); [done..|].
  exists t, s'. destruct (lives_inv dv cfg _ _ _ HI HP Hl). done.
Qed.

(** ** What the threads do to the venues *)

(** C7: Threads refine the interleaving system: whatever threads start, run, wait and end in
    whatever order, with crashes in between, the order manager goes through a life of the
    interleaving system that reaches the same state and its invariant, and the places that leave
    for a venue are among the calls that life opens, counted with multiplicity. *)
Theorem threads_refine_interleavings st w calls P :
  fresh st -> history (mkPool [] st w) calls P ->
  exists t s', lives dv cfg (mkSys st []) t s'
    /\ sys_oms s' = pl_oms P /\ Inv s' /\ places_sent calls ⊆+ placed t.
Proof.
  intros Hf Hh. destruct (fresh_simulated _ _ _ _ Hf Hh) as (t & s' & Hl & [Ho (css & _ & _ & Hs)] & HI & _).
  exists t, s'. split_and!; [done..|]. etrans; [|exact Hs]. by apply submseteq_inserts_r.
Qed.

(** What a request for a known id is answered. *)
Definition recorded_answer (r : OrderRecord) : Result PlaceOutcome :=
  match or_rejection r with
  | Some rejection => Err rejection
  | None => Ok (mkPlaceOutcome r true)
  end.

Lemma place_known request venue st r :
  orders st !! rq_client_order_id request = Some r ->
  place_begin cfg request venue st = (PlaceDone (recorded_answer r), st).
Proof.
  intros Hr. unfold place_begin, lookup, recorded_answer. rewrite Hr.
  by destruct (or_rejection r).
Qed.

(** The places a history sends, and the orders it keeps. *)
Lemma history_places st w calls P :
  fresh st -> history (mkPool [] st w) calls P ->
  NoDup (places_sent calls)
  /\ (forall id, is_Some (orders st !! id) -> is_Some (orders (pl_oms P) !! id))
  /\ (forall id, id ∈ places_sent calls ->
       orders st !! id = None /\ is_Some (orders (pl_oms P) !! id)).
Proof.
  intros Hf Hh. destruct (fresh_simulated _ _ _ _ Hf Hh) as (t & s' & Hl & [Ho (css & _ & _ & Hs)] & _).
  destruct (fresh_inv _ Hf) as [HI HP].
  destruct (lives_placed dv cfg _ _ _ HI HP Hl) as (Hnd & Hkeep & Hp). simpl in Hkeep, Hp.
  rewrite Ho in Hkeep, Hp.
  assert (Hsub : places_sent calls ⊆+ placed t).
  { etrans; [|exact Hs]. by apply submseteq_inserts_r. }
  split_and!; [|done|].
  - apply submseteq_Permutation in Hsub as [k Hk]. rewrite Hk in Hnd. by apply NoDup_app in Hnd as [? _].
  - intros id Hin. apply Hp. by eapply elem_of_submseteq.
Qed.

(** C4: No two threads send the same place, across crashes: in any history of threads whose log
    writes succeed, the place requests that really leave for a venue carry distinct
    clientOrderIds that were unknown at the start, and whoever asks for such an id again is
    answered with what the registry records and leaves it unchanged. *)
Theorem threads_send_each_place_once st w calls P :
  fresh st -> history (mkPool [] st w) calls P ->
  NoDup (places_sent calls)
  /\ forall id, id ∈ places_sent calls ->
       orders st !! id = None
       /\ exists r, orders (pl_oms P) !! id = Some r
            /\ forall request venue, rq_client_order_id request = id ->
                 place_begin cfg request venue (pl_oms P)
                 = (PlaceDone (recorded_answer r), pl_oms P).
Proof.
  intros Hf Hh. destruct (history_places _ _ _ _ Hf Hh) as (Hnd & _ & Hp). split; [done|].
  intros id Hin. destruct (Hp id Hin) as [Hn [r Hr]].
  split; [done|]. exists r. split; [done|]. intros request venue <-. by apply place_known.
Qed.

(** The call a thread is about to make or waits for. *)
Definition calling {A} (p : Prog W A) : option VenueCall :=
  match p with
  | Send call _ | Await call _ _ => Some call
  | _ => None
  end.

Definition owned_id (call : VenueCall) : option string :=
  match call with
  | AskPlace _ request => Some (rq_client_order_id request)
  | AskAmend wire => Some (am_client_order_id wire)
  | _ => None
  end.

Lemma calling_backs {A} (p : Prog W A) call cs u :
  calling p = Some call -> tracks p cs u -> backs call cs.
Proof. destruct p; simpl; intros ?; simplify_eq; naive_solver. Qed.

Lemma backs_owned call cs id :
  backs call cs -> owned_id call = Some id -> id ∈ mutating cs.
Proof.
  destruct call; simpl; intros Hb Ho; simplify_eq; [destruct Hb as [Hb _]|]; by eapply elem_mutating.
Qed.

(** Each calling thread has its call among the open ones. *)
Lemma calling_open P sent s opened i p call :
  simulates P sent s opened -> pl_threads P !! i = Some p -> calling p = Some call ->
  exists cs rest, sys_calls s ≡ₚ cs ++ rest /\ backs call cs
    /\ forall j q call', i <> j -> pl_threads P !! j = Some q -> calling q = Some call' -> backs call' rest.
Proof.
  intros [_ (css & Ht & Hc & _)] Hi Hcall.
  destruct (Forall2_lookup_l _ _ _ _ _ Ht Hi) as ([cs u] & Hcs & Hp).
  assert (Hlen : (i < length css)%nat) by by eapply lookup_lt_Some.
  rewrite <- (take_drop_middle css i _ Hcs), fmap_app in Hc. simpl in Hc. rewrite concat_middle in Hc.
  exists cs, (concat (take i css).*1 ++ concat (drop (S i) css).*1).
  split_and!; [done|by eapply calling_backs|].
  intros j q call' Hne Hj Hcall'.
  destruct (Forall2_lookup_l _ _ _ _ _ Ht Hj) as ([cs' u'] & Hcs' & Hp').
  pose proof (calling_backs _ _ _ _ Hcall' Hp') as Hb. simpl in Hb.
  assert (Hsub : cs' ⊆ concat (take i css).*1 ++ concat (drop (S i) css).*1).
  { assert (Hin : cs' ∈ (take i css).*1 \/ cs' ∈ (drop (S i) css).*1).
    { destruct (decide (j < i)%nat) as [Hlt|Hge].
      - left. apply list_elem_of_fmap. exists (cs', u'). split; [done|].
        apply list_elem_of_lookup. exists j. by rewrite lookup_take_lt.
      - right. apply list_elem_of_fmap. exists (cs', u'). split; [done|].
        apply list_elem_of_lookup. exists (j - S i)%nat. rewrite lookup_drop.
        by replace (S i + (j - S i))%nat with j by lia. }
    intros c Hinc. apply elem_of_app.
    destruct Hin; [left|right]; apply list_elem_of_In, in_concat; exists cs'; by rewrite <- !list_elem_of_In. }
  destruct call'; simpl in *; naive_solver.
Qed.

(** C9: Calls in flight never collide: at any moment of any history, while one thread makes or
    awaits a place or an amend of an order, no other thread makes or awaits a place or an amend
    of it, and none makes or awaits a cancel of it unless the first call is an amend. *)
Theorem threads_never_conflict st w calls P i j p q call call' id :
  fresh st -> history (mkPool [] st w) calls P ->
  i <> j -> pl_threads P !! i = Some p -> pl_threads P !! j = Some q ->
  calling p = Some call -> calling q = Some call' -> owned_id call = Some id ->
  owned_id call' <> Some id
  /\ (forall wire, call' = AskCancel wire -> cx_client_order_id wire = id ->
        exists amend_wire, call = AskAmend amend_wire).
Proof.
  intros Hf Hh Hne Hi Hj Hp Hq Hid.
  destruct (fresh_simulated _ _ _ _ Hf Hh) as (t & s' & _ & Hs & HI & _).
  destruct (calling_open _ _ _ _ _ _ _ Hs Hi Hp) as (cs & rest & Hc & Hb & Hothers).
  specialize (Hothers j q call' Hne Hj Hq).
  pose proof (inv_nodup _ HI) as Hnd. unfold mutating in Hnd. rewrite Hc, omap_app in Hnd.
  apply NoDup_app in Hnd as (_ & Hd & _). split.
  - intros Hid'. exact (Hd id (backs_owned _ _ _ Hb Hid) (backs_owned _ _ _ Hothers Hid')).
  - intros wire -> Hw. simpl in Hothers. destruct call as [venue request| |aw| | |]; simplify_eq; [|by exists aw].
    simpl in Hb, Hid. destruct Hb as [Hb _]. simplify_eq. exfalso.
    apply (inv_apart _ HI venue request (CCancel (cx_client_order_id wire)) (cx_client_order_id wire));
      [rewrite Hc; set_solver..|done|congruence].
Qed.

(** C10: A crash does not lose an order in flight: in any history of threads whose log writes
    succeed, if the process dies while a thread makes or awaits a place, the restarted registry
    holds that order Pending under the venue it was sent to, with its symbol, side and no fill;
    that venue has a connector, the next reconciliation looks the order up there by its
    clientOrderId and symbol, and a request with that clientOrderId is answered from the record
    instead of being sent again. *)
Theorem crash_keeps_open_places_pending st w calls P p venue request :
  fresh st -> history (mkPool [] st w) calls P ->
  p ∈ pl_threads P -> calling p = Some (AskPlace venue request) ->
  let id := rq_client_order_id request in
  let back := restart dv (pl_oms P) in
  exists r item, orders back !! id = Some r
    /\ or_venue r = venue /\ is_Some (connector_for cfg venue)
    /\ or_state r = Pending /\ or_symbol r = rq_instrument_id request
    /\ or_side r = rq_side request /\ or_filled_quantity r = "0" /\ or_rejection r = None
    /\ item ∈ reconcile_worklist cfg back
    /\ wi_id item = id /\ wi_venue item = venue
    /\ wi_query item = mkOrderQuery id (rq_instrument_id request)
    /\ (forall retry v, rq_client_order_id retry = id ->
          place_begin cfg retry v back = (PlaceDone (Ok (mkPlaceOutcome r true)), back)).
Proof.
  intros Hf Hh Hin Hcall id back.
  destruct (fresh_simulated _ _ _ _ Hf Hh) as (t & s' & _ & Hs & HI & [_ Hd]).
  apply list_elem_of_lookup in Hin as [i Hi].
  destruct (calling_open _ _ _ _ _ _ _ Hs Hi Hcall) as (cs & rest & Hc & Hb & _).
  destruct Hb as (Hb & [v0 Hresolved] & Hroute).
  pose proof (inv_place _ HI venue request) as Hv. specialize (Hv ltac:(rewrite Hc; set_solver)).
  rewrite (sm_oms _ _ _ _ Hs) in Hd, Hv. specialize (Hd id). fold id in Hv. rewrite Hv in Hd.
  change (replayed dv (pl_oms P)) with (orders back) in Hd.
  destruct (orders back !! id) as [r|] eqn:Hr; [|done].
  destruct Hd as [Hid Hsym Hvenue Hst Hfill _ Hrej _ Hrest]. simpl in *.
  destruct Hrest as (Hside & _ & _); [done|].
  exists r, (work_item cfg (id, r)). split_and!; try done.
  - unfold reconcile_worklist. apply list_elem_of_In, in_map, List.filter_In. split.
    + by apply list_elem_of_In, elem_of_map_to_list.
    + simpl. by rewrite Hst.
  - simpl. rewrite Hvenue, Hresolved. unfold resolve_venue.
    destruct (str_empty v0) eqn:E; [by destruct (str_empty (default_venue cfg))|by rewrite E].
  - simpl. by rewrite Hsym.
  - intros retry v Hretry. rewrite (place_known retry v back r) by (by rewrite Hretry).
    unfold recorded_answer. by rewrite Hrej.
Qed.

(** ** Threads return *)

(** What a thread may be after one of its steps. *)
Definition child {A} (q p : Prog W A) : Prop :=
  match p with
  | Ret _ => False
  | Locked _ k => exists b, q = k b
  | Send _ rest => q = rest
  | Await _ _ k => exists b, q = k b
  end.

Lemma child_wf A : well_founded (@child A).
Proof.
  intros p. induction p as [a|B section k IH|call rest IH|B call answer k IH];
    constructor; simpl; intros q Hq; [done|by destruct Hq as [b ->]|by subst|by destruct Hq as [b ->]].
Qed.

Lemma advance_child {A} (p : Prog W A) st w calls p' st' w' :
  advance p st w = Some (calls, p', st', w') -> child p' p.
Proof.
  destruct p as [a|B section k|call rest|B call answer k]; simpl; intros H; [done| |by simplify_eq|].
  - destruct (section st) as [b ?]. simplify_eq. by exists b.
  - destruct (answer w) as [b ?]. simplify_eq. by exists b.
Qed.

(** One thread moves on or is gone. *)
Definition shrinks (l' l : list (Prog W Answer)) : Prop :=
  exists pre p post, l = pre ++ p :: post
    /\ ((exists p', child p' p /\ l' = pre ++ p' :: post) \/ l' = pre ++ post).

Lemma shrinks_cons p l : Acc child p -> Acc shrinks l -> Acc shrinks (p :: l).
Proof.
  intros Hp. revert l. induction Hp as [p _ IHp]. intros l Hl. pose proof Hl as Hkeep.
  induction Hl as [l Hl IHl]. constructor. intros l' (pre & q & post & Heq & Hcase).
  destruct pre as [|p0 pre]; simplify_eq/=.
  - destruct Hcase as [(p' & Hc & ->)| ->]; [by apply IHp|done].
  - set (l := pre ++ q :: post) in *.
    assert (Hs : forall l2, ((exists p', child p' q /\ l2 = pre ++ p' :: post) \/ l2 = pre ++ post) ->
              Acc shrinks (p0 :: l2)).
    { intros l2 H2. assert (shrinks l2 l) by (by exists pre, q, post).
      apply IHl; [done|]. by apply Hl. }
    destruct Hcase as [(p' & Hc & ->)| ->]; apply Hs; [left; by exists p'|by right].
Qed.

Lemma shrinks_wf : well_founded shrinks.
Proof.
  intros l. induction l as [|p l IH].
  - constructor. intros l' (pre & q & post & Heq & _). by destruct pre.
  - apply shrinks_cons; [apply child_wf|done].
Qed.

Definition worked (P' P : Pool W) : Prop := exists calls, works P calls P'.

Lemma worked_shrinks P' P : worked P' P -> shrinks (pl_threads P') (pl_threads P).
Proof.
  intros [calls Hw]. destruct Hw as [pre p post st w calls p' st' w' Ha|pre a post st w]; simpl.
  - exists pre, p, post. split; [done|]. left. exists p'. split; [by eapply advance_child|done].
  - exists pre, (Ret a), post. auto.
Qed.

Lemma worked_wf : well_founded worked.
Proof.
  intros P. remember (pl_threads P) as l eqn:El. revert P El.
  induction (shrinks_wf l) as [l _ IH]. intros P ->. constructor. intros P' Hw.
  apply (IH (pl_threads P')); [by apply worked_shrinks|done].
Qed.

(** No thread waits for another one. *)
Lemma thread_moves pre p post st w :
  exists calls next st' w', works (mkPool (pre ++ p :: post) st w) calls (mkPool (pre ++ next ++ post) st' w').
Proof.
  destruct (advance p st w) as [[[[calls p'] st'] w']|] eqn:E.
  - exists calls, [p'], st', w'. by apply wk_step.
  - destruct p as [a|B section k|call rest|B call answer k]; simpl in E;
      [|by destruct (section st)|done|by destruct (answer w)].
    exists [], [], st, w. apply wk_return.
Qed.

(** A thread driven through the states it finds at each of its own steps. *)
Fixpoint drive {A} (found : list (Oms * W)) (p : Prog W A) : Prog W A :=
  match found with
  | [] => p
  | (st, w) :: found =>
      match advance p st w with
      | None => p
      | Some (_, p', _, _) => drive found p'
      end
  end.

(** [n] steps are enough. *)
Fixpoint within {A} (n : nat) (p : Prog W A) : Prop :=
  match p, n with
  | Ret _, _ => True
  | _, O => False
  | Locked _ k, S n => forall b, within n (k b)
  | Send _ rest, S n => within n rest
  | Await _ _ k, S n => forall b, within n (k b)
  end.

Lemma within_returns {A} (p : Prog W A) n found :
  within n p -> (n <= length found)%nat -> exists a, drive found p = Ret a.
Proof.
  revert p n. induction found as [|[st w] found IH]; intros p n Hw Hn; simpl in *.
  - assert (n = 0%nat) as -> by lia. destruct p; simpl in Hw; [by eexists|done..].
  - destruct p as [a|B section k|call rest|B call answer k]; simpl; [by eexists|..];
      (destruct n as [|n]; [done|]); simpl in Hw.
    + destruct (section st) as [b ?]. by apply (IH _ n); [|lia].
    + by apply (IH _ n); [|lia].
    + destruct (answer w) as [b ?]. by apply (IH _ n); [|lia].
Qed.

Definition own_steps (op : Operation) : option nat :=
  match op with
  | OpPlace _ _ _ => Some 6%nat
  | OpCancel _ | OpAmend _ => Some 4%nat
  | OpPrice _ _ => Some 2%nat
  | OpReport _ => Some 1%nat
  | OpReconcile | OpAudit => None
  end.

Lemma program_within op n : own_steps op = Some n -> within n (program cfg op).
Proof.
  destruct op; intros ?; simplify_eq/=; cbn; try done.
  - intros entry s. by destruct s.
  - intros s. by destruct s.
  - intros s. by destruct s.
  - unfold price_prog. by destruct (connector_for _ _).
Qed.

(** The programs are finite: every thread of a pool can move, no pool works for ever, and a
    place takes at most six sections and calls of its own, a cancel or an amend four, a price
    query two and a report one, whatever states it finds at them. *)
Theorem threads_return P :
  (forall i p, pl_threads P !! i = Some p -> exists calls next st w,
     works P calls (mkPool (take i (pl_threads P) ++ next ++ drop (S i) (pl_threads P)) st w))
  /\ Acc worked P
  /\ (exists st w, rtc (flip worked) P (mkPool [] st w))
  /\ forall op n found, own_steps op = Some n -> (n <= length found)%nat ->
       exists a, drive found (program cfg op) = Ret a.
Proof.
  split_and!.
  - intros i p Hi. destruct P as [ths st w]. simpl in Hi.
    pose proof (thread_moves (take i ths) p (drop (S i) ths) st w) as H.
    by rewrite (take_drop_middle ths i p Hi) in H.
  - apply worked_wf.
  - induction (worked_wf P) as [P _ IH]. destruct P as [[|p ths] st w]; [by exists st, w|].
    destruct (thread_moves [] p ths st w) as (calls & next & st1 & w1 & Hw). simpl in Hw.
    destruct (IH (mkPool (next ++ ths) st1 w1)) as (st' & w' & Hr); [by exists calls|]. exists st', w'.
    eapply rtc_l; [|done]. by exists calls.
  - intros op n found Hn. by apply within_returns, program_within.
Qed.

(** ** A scheduler *)

(** The next step of thread [i]. *)
Definition turn (i : nat) (P : Pool W) : list VenueCall * Pool W :=
  match pl_threads P !! i with
  | None => ([], P)
  | Some p =>
      match advance p (pl_oms P) (pl_world P) with
      | None => ([], mkPool (take i (pl_threads P) ++ drop (S i) (pl_threads P)) (pl_oms P) (pl_world P))
      | Some (calls, p', st, w) =>
          (calls, mkPool (take i (pl_threads P) ++ p' :: drop (S i) (pl_threads P)) st w)
      end
  end.

Fixpoint play (turns : list nat) (P : Pool W) : list VenueCall * Pool W :=
  match turns with
  | [] => ([], P)
  | i :: rest =>
      let '(calls, P) := turn i P in
      let '(more, P) := play rest P in (calls ++ more, P)
  end.

Lemma turn_works i P : turn i P = ([], P) \/ works P (turn i P).1 (turn i P).2.
Proof.
  destruct P as [ths st w]. unfold turn. simpl. destruct (ths !! i) as [p|] eqn:Hi; [right|by left].
  pose proof (take_drop_middle ths i p Hi) as Hths.
  set (pre := take i ths) in *. set (post := drop (S i) ths) in *. clearbody pre post. subst ths.
  destruct (advance p st w) as [[[[calls p'] st'] w']|] eqn:E; [by apply wk_step|].
  destruct p as [a|B section k|call rest|B call answer k]; simpl in E;
    [apply wk_return|by destruct (section st)|done|by destruct (answer w)].
Qed.

Lemma turn_history P0 c P i : history P0 c P -> history P0 (c ++ (turn i P).1) (turn i P).2.
Proof.
  intros Hh. destruct (turn_works i P) as [->|Hw]; [by rewrite app_nil_r|by eapply hs_work].
Qed.

Lemma play_history P0 c P turns :
  history P0 c P -> history P0 (c ++ (play turns P).1) (play turns P).2.
Proof.
  revert c P. induction turns as [|i rest IH]; intros c P Hh; cbn [play]; [by rewrite app_nil_r|].
  pose proof (turn_history _ _ _ i Hh) as H1. destruct (turn i P) as [calls P1]. cbn [fst snd] in H1.
  specialize (IH _ _ H1). destruct (play rest P1) as [more P2]. cbn [fst snd] in *.
  by rewrite app_assoc.
Qed.
End Pools.

(** ** A concrete history

    Two threads place the same order c1; the first sends it, the second is told
    of the recorded order; the process dies while the venue has not answered. *)

Definition demo_threads : Pool unit :=
  mkPool [program demo_cfg (OpPlace demo_request "" 0); program demo_cfg (OpPlace demo_request "okx" 0)]
    demo_oms tt.

(** Thread 0 up to the wait, thread 1 to its end. *)
Definition demo_turns : list nat := [0; 1; 0; 0; 1; 0; 1]%nat.
Definition demo_sending : Pool unit := (play demo_turns demo_threads).2.

Lemma demo_fresh : fresh "okx" demo_oms.
Proof. constructor; [exact demo_log_up|exact demo_durable|exact demo_keyed|reflexivity]. Defined.

Lemma demo_history : history "okx" demo_cfg (mkPool [] demo_oms tt) [AskPlace "okx" demo_request] demo_sending.
Proof.
  change [AskPlace "okx" demo_request] with ([] ++ (play demo_turns demo_threads).1).
  apply play_history. apply (hs_start "okx" demo_cfg _ [] [program demo_cfg (OpPlace demo_request "" 0)]).
  apply (hs_start "okx" demo_cfg _ [] []). constructor.
Defined.

Lemma threads_refine_interleavings_witness :
  exists t s', lives "okx" demo_cfg (mkSys demo_oms []) t s'
    /\ sys_oms s' = pl_oms demo_sending /\ Inv s' /\ places_sent [AskPlace "okx" demo_request] ⊆+ placed t.
Proof. exact (threads_refine_interleavings "okx" demo_cfg demo_oms tt _ _ demo_fresh demo_history). Defined.

Lemma threads_send_each_place_once_witness :
  NoDup ["c1"]
  /\ forall id, id ∈ ["c1"] ->
       orders demo_oms !! id = None
       /\ exists r, orders (pl_oms demo_sending) !! id = Some r
            /\ forall request venue, rq_client_order_id request = id ->
                 place_begin demo_cfg request venue (pl_oms demo_sending)
                 = (PlaceDone (recorded_answer r), pl_oms demo_sending).
Proof. exact (threads_send_each_place_once "okx" demo_cfg demo_oms tt _ _ demo_fresh demo_history). Defined.

(** The thread that waits for the venue. *)
Definition demo_waiting : Prog unit Answer :=
  nth 0 (pl_threads demo_sending) (Ret Heard).

Lemma demo_waiting_calls : calling demo_waiting = Some (AskPlace "okx" demo_request).
Proof. vm_compute. reflexivity. Defined.

Lemma demo_waiting_in : demo_waiting ∈ pl_threads demo_sending.
Proof.
  apply list_elem_of_In, nth_In.
  assert (length (pl_threads demo_sending) = 1%nat) as -> by (vm_compute; reflexivity). lia.
Defined.

Lemma crash_keeps_open_places_pending_witness :
  exists r item, orders (restart "okx" (pl_oms demo_sending)) !! "c1" = Some r
    /\ or_venue r = "okx" /\ or_state r = Pending
    /\ item ∈ reconcile_worklist demo_cfg (restart "okx" (pl_oms demo_sending))
    /\ wi_venue item = "okx" /\ wi_query item = mkOrderQuery "c1" "BTC-USDT".
Proof.
  destruct (crash_keeps_open_places_pending "okx" demo_cfg demo_oms tt _ _ demo_waiting "okx" demo_request
              demo_fresh demo_history demo_waiting_in demo_waiting_calls)
    as (r & item & Hr & Hv & _ & Hp & _ & _ & _ & _ & Hi & _ & Hwv & Hq & _).
  exists r, item. split_and!; assumption.
Defined.

(** Two orders on their way at once. *)
Definition demo_other : OrderRequest := mkOrderRequest "c2" "BTC-USDT" Buy Limit "50000" "0.5" "".
Definition demo_pair : Pool unit :=
  mkPool [program demo_cfg (OpPlace demo_request "" 0); program demo_cfg (OpPlace demo_other "" 0)]
    demo_oms tt.
Definition demo_both : list VenueCall * Pool unit := play [0; 1; 0; 1; 0; 1; 1; 0]%nat demo_pair.

Lemma demo_both_history : history "okx" demo_cfg (mkPool [] demo_oms tt) ([] ++ demo_both.1) demo_both.2.
Proof.
  apply play_history. apply (hs_start "okx" demo_cfg _ [] [program demo_cfg (OpPlace demo_request "" 0)]).
  apply (hs_start "okx" demo_cfg _ [] []). constructor.
Defined.

Definition demo_thread (i : nat) : Prog unit Answer := nth i (pl_threads demo_both.2) (Ret Heard).

Lemma demo_calls :
  calling (demo_thread 0) = Some (AskPlace "okx" demo_request)
  /\ calling (demo_thread 1) = Some (AskPlace "okx" demo_other).
Proof. vm_compute. split; reflexivity. Defined.

Lemma demo_length : length (pl_threads demo_both.2) = 2%nat.
Proof. vm_compute. reflexivity. Defined.

Lemma demo_lookup i : (i < 2)%nat -> pl_threads demo_both.2 !! i = Some (demo_thread i).
Proof.
  intros Hi. destruct (nth_lookup_or_length (pl_threads demo_both.2) i (Ret Heard)) as [H|H]; [exact H|].
  rewrite demo_length in H. lia.
Defined.

Lemma threads_never_conflict_witness :
  owned_id (AskPlace "okx" demo_other) <> Some "c1"
  /\ (forall wire, AskPlace "okx" demo_other = AskCancel wire -> cx_client_order_id wire = "c1" ->
        exists amend_wire, AskPlace "okx" demo_request = AskAmend amend_wire).
Proof.
  exact (threads_never_conflict "okx" demo_cfg demo_oms tt _ _ 0 1 (demo_thread 0) (demo_thread 1)
           _ _ "c1" demo_fresh demo_both_history ltac:(discriminate) (demo_lookup 0 ltac:(lia)) (demo_lookup 1 ltac:(lia))
           (proj1 demo_calls) (proj2 demo_calls) eq_refl).
Defined.

Lemma threads_return_witness :
  exists a, drive (repeat (demo_oms, tt) 6) (program demo_cfg (OpPlace demo_request "" 0)) = Ret a.
Proof.
  destruct (threads_return demo_cfg demo_pair) as (_ & _ & _ & H).
  exact (H (OpPlace demo_request "" 0) 6%nat (repeat (demo_oms, tt) 6) eq_refl (le_n 6)).
Defined.
