(* ===== verification/OmsExposure.v ===== *)
(** * Order management: the projected position

    What [projected_position] computes, in units of 10^-16 and without
    rounding, while the gross exposure of the symbol fits the decimals; and the
    guarantee that [place] and [amend] derive from it: an order that is sent
    keeps the worst-case position within the configured limit. *)

From S2P Require Import Prelude Types OrderState Decimal DecimalFacts DecimalText Json Risk.
From S2P Require Import RiskFacts Latency EventLog OmsTypes Oms OmsReconcile OmsFacts OmsSections.
From S2P Require Import OmsSystem.








(** ** The specification: signed amounts in 10^-16 units *)

Definition signed (s : Side) (z : Z) : Z := match s with Buy => z | Sell => - z end.

Definition units (text : string) : Z := match parse_decimal text with Ok d => v16 d | Err _ => 0 end.

Definition replaced (rep : option OrderRecord) (id : string) : bool :=
  match rep with Some r => id ==s or_client_order_id r | None => false end.

(** What a working record may still execute. *)
Definition outstanding (rep : option OrderRecord) (entry : string * OrderRecord) : Z :=
  let '(id, r) := entry in
  if is_terminal (or_state r) || replaced rep id || negb (is_ok (parse_decimal (or_quantity r)))
  then 0 else Z.max 0 (units (or_quantity r) - units (fill_text r)).

Arguments outstanding : simpl never.

Definition in_symbol (sym : string) (entry : string * OrderRecord) : bool :=
  or_symbol entry.2 ==s sym.

Definition exposure (rep : option OrderRecord) (entry : string * OrderRecord) : Z :=
  signed (or_side entry.2) (units (fill_text entry.2) + outstanding rep entry).


Definition zsum (l : list Z) : Z := foldr Z.add 0 l.

(** The worst case for a symbol: executed plus outstanding, net over both
    sides and over every venue; [net_gross] is the same without netting. *)
Definition net_position (sym : string) (rep : option OrderRecord) (m : gmap string OrderRecord) : Z :=
  zsum (map (exposure rep) (List.filter (in_symbol sym) (map_to_list m))).





(** ** The loop computes the specification *)









(** ** The projected position and what it guarantees *)








Section Limits.
Context {W : Type} (cfg : OmsConfig W).

End Limits.

(** ** Witnesses *)




(** ** Beyond the bound *)

(** A registry that has bought 92233720368.54775807 units, the largest value
    of eight fractional digits. *)
Definition huge_filled : Oms :=
  with_orders {[ "c0" := mkRecord "c0" "BTC-USDT" "okx" "x0" Buy Market "" ""
                           "92233720368.54775807" Filled "92233720368.54775807" "1" [] false None ]} demo_oms.

Definition huge_cfg : OmsConfig unit :=
  mkOmsConfig [("okx", demo_connector)] "okx"
    (mkRiskConfig (Some (mkLimits "" "" "92233720369")) ∅).

Definition huge_request : OrderRequest := mkOrderRequest "c1" "BTC-USDT" Buy Market "" "1" "".

(** The sum with the candidate does not fit 64 bits and is dropped: the order
    is sent, and with it the position is above the limit. *)
Example overflowing_sum_passes_limit :
  let '(answer, st') := place_begin huge_cfg huge_request "" huge_filled in
  answer = PlaceSend demo_connector
  /\ projected_position "BTC-USDT" None Buy "1" huge_filled = Some "92233720368.54775807"
  /\ v16 (mkDecimal 92233720369 0) < net_position "BTC-USDT" None (orders st').
Proof. vm_compute. done. Qed.
