(* ===== verification/OmsBehaviour.v ===== *)
(** * Order management: what the operations answer

    Functional facts of the operations of [Oms] and [OmsReconcile]: idempotent
    retries, arbitration by the leg table, the amend race, reconciliation as a
    repair of what the audit reports, and the sorted listing. *)

From S2P Require Import Prelude Types OrderState Decimal DecimalFacts DecimalText Json Risk.
From S2P Require Import Latency EventLog OmsTypes Oms OmsReconcile OmsAudit OmsFacts OmsSections.
From S2P Require Import OmsSystem OmsDurable.

(** ** Observations *)

Lemma observe_fill_again r f a r' :
  (observe_fill r f a).2 = r' -> observe_fill r' f a = (false, r').
Proof.
  intros <-. unfold observe_fill. destruct (str_empty f) eqn:He; [done|].
  fold (fill_text r). destruct (parse_decimal f) as [d|] eqn:Hd; [|done].
  destruct (parse_decimal (fill_text r)) as [c|] eqn:Hc; [|simpl; fold (fill_text r); by rewrite Hc].
  destruct (0 <? compare d c) eqn:Hlt; simpl.
  - set (r' := if str_empty a then _ else _).
    assert (Hf : or_filled_quantity r' = f) by (subst r'; by destruct (str_empty a)).
    rewrite Hf, He, Hd. rewrite compare_pos by (eapply parse_decimal_wf; eassumption).
    by rewrite Z.ltb_irrefl.
  - fold (fill_text r). by rewrite Hc, Hlt.
Qed.

Lemma observe_fill_cong r r' f a :
  or_filled_quantity r' = or_filled_quantity r ->
  observe_fill r f a = (false, r) -> observe_fill r' f a = (false, r').
Proof.
  intros Hf. unfold observe_fill. rewrite Hf. destruct (str_empty f); [done|].
  destruct (parse_decimal f) as [d|]; [|done].
  destruct (parse_decimal _) as [c|]; [|done]. by destruct (0 <? _).
Qed.

(** Duplicated observations are stale: applying the same observation to the record it produced
    changes nothing and reports no change. *)
Theorem apply_observation_idempotent r s f a p q life :
  let r' := (apply_observation r s f a p q life).2 in
  apply_observation r' s f a p q life = (false, r').
Proof.
  unfold apply_observation. pose proof (observe_fill_again r f a) as HF.
  destruct (observe_fill r f a) as [c1 r1]. specialize (HF r1 eq_refl).
  destruct life; simpl; [|by rewrite HF].
  pose proof (observe_state_spec r1 s) as H2. destruct (observe_state r1 s) as [c2 r2] eqn:E2.
  destruct H2 as (_ & _ & S2 & _ & F2 & _).
  pose proof (observe_price_spec r2 p) as H3. destruct (observe_price r2 p) as [c3 r3].
  destruct H3 as (_ & _ & S3 & _ & F3 & _ & P3 & _).
  pose proof (observe_quantity_spec r3 q) as H4. destruct (observe_quantity r3 q) as [c4 r4].
  destruct H4 as (_ & _ & S4 & _ & F4 & P4 & Q4 & _). simpl.
  rewrite (observe_fill_cong r1 r4) by congruence.
  assert (Hst : observe_state r4 s = (false, r4)).
  { unfold observe_state. rewrite S4, S3, S2. unfold apply_transition.
    destruct (can_transition (or_state r1) s) eqn:Hc; simpl.
    - by destruct (OrderState_eqb_spec s s).
    - destruct (OrderState_eqb_spec s (or_state r1)); [done|]. rewrite Hc.
      f_equal. assert (or_state r4 = or_state r1) as <-.
      { rewrite S4, S3, S2. unfold apply_transition. by rewrite Hc. }
      by destruct r4. }
  assert (Hpr : observe_price r4 p = (false, r4)).
  { unfold observe_price. rewrite P4, P3. destruct (str_empty p); simpl; [done|].
    by rewrite streqb_refl. }
  assert (Hqt : observe_quantity r4 q = (false, r4)).
  { unfold observe_quantity. rewrite Q4. destruct (str_empty q); simpl; [done|].
    by rewrite streqb_refl. }
  by rewrite Hst, Hpr, Hqt.
Qed.

(** ** Arbitration by the leg table *)

Lemma observe_fill_keeps r f a :
  let r' := (observe_fill r f a).2 in
  or_state r' = or_state r /\ or_price r' = or_price r /\ or_quantity r' = or_quantity r
  /\ same_legs r r' /\ or_rejection r' = or_rejection r.
Proof.
  pose proof (observe_fill_spec r f a) as H. destruct (observe_fill r f a) as [c r'].
  destruct H as (_ & ? & ? & ? & ? & ? & _). done.
Qed.

(** A report that names an older leg and not the current one. *)
Definition superseded (r : OrderRecord) (id : string) : Prop :=
  (exists leg, leg ∈ or_legs r /\ leg_exchange_order_id leg = id)
  /\ or_exchange_order_id r <> id /\ id <> "".

Lemma superseded_index r id :
  legs_ok r -> superseded r id ->
  exists i, leg_index_of r id = Some i /\ (S i < length (or_legs r))%nat.
Proof.
  intros [_ Hl] ((leg & Hin & Hleg) & Hcur & _).
  pose proof (leg_index_of_spec r id) as H. destruct (leg_index_of r id) as [i|].
  - exists i. split; [done|]. destruct H as (leg' & Hi & Hid & _).
    pose proof (lookup_lt_Some _ _ _ Hi) as Hlt. destruct (decide (S i = length (or_legs r))); [|lia].
    exfalso. apply Hcur. rewrite last_lookup in Hl. replace (pred (length (or_legs r))) with i in Hl by lia.
    rewrite Hi in Hl. destruct Hl as [Hl _]. congruence.
  - exfalso. by apply (H leg).
Qed.

Lemma superseded_keeps r rep st :
  legs_ok r -> superseded r (er_exchange_order_id rep) ->
  let r' := (apply_arbitrated_report r rep st).1 in
  or_state r' = or_state r /\ or_price r' = or_price r /\ or_quantity r' = or_quantity r
  /\ same_legs r r' /\ or_rejection r' = or_rejection r
  /\ or_filled_quantity r' = or_filled_quantity
       (observe_fill r (er_filled_quantity rep) (er_average_fill_price rep)).2.
Proof.
  intros Hok Hs. destruct (superseded_index r _ Hok Hs) as (i & Hi & Hlt).
  destruct Hs as ((leg & Hin & _) & Hcur & Hne). unfold apply_arbitrated_report.
  rewrite (proj2 (str_empty_false _) Hne). destruct (or_legs r) as [|l0 ls] eqn:Hlegs; [inversion Hin|].
  cbn [andb is_nil negb]. rewrite Hi. rewrite (proj2 (Nat.ltb_lt _ _) Hlt).
  unfold apply_report, apply_observation. cbn [negb].
  assert (Hx : str_empty (or_exchange_order_id r) = false).
  { apply str_empty_false. destruct Hok as [_ Hl]. rewrite Hlegs in Hl.
    destruct (list.last (l0 :: ls)) eqn:E; [tauto|]. by apply last_None in E. }
  rewrite Hx. pose proof (observe_fill_keeps r (er_filled_quantity rep) (er_average_fill_price rep)) as HK.
  destruct (observe_fill r _ _) as [c r']. destruct c; simpl in *; tauto.
Qed.

(** A report for a superseded leg contributes only its fill: state, price, quantity, legs and
    current id stay, and the filled quantity can only grow. *)
Theorem superseded_report_only_fills r rep st :
  legs_ok r -> superseded r (er_exchange_order_id rep) ->
  let r' := (apply_arbitrated_report r rep st).1 in
  or_state r' = or_state r /\ or_price r' = or_price r /\ or_quantity r' = or_quantity r
  /\ or_legs r' = or_legs r /\ or_exchange_order_id r' = or_exchange_order_id r
  /\ fill_grows r r'.
Proof.
  intros Hok Hs. destruct (superseded_keeps r rep st Hok Hs) as (? & ? & ? & [? ?] & _).
  pose proof (apply_arbitrated_report_spec r rep st) as HS.
  destruct (apply_arbitrated_report r rep st) as [r' st']. destruct HS as (HE & _).
  split_and!; try done. apply HE.
Qed.

(** ** The amend race *)

Lemma superseded_all_keep raced r st :
  legs_ok r ->
  Forall (fun rep => superseded r (er_exchange_order_id rep)) raced ->
  let r' := (apply_raced raced r st).1 in
  or_state r' = or_state r /\ or_price r' = or_price r /\ or_quantity r' = or_quantity r
  /\ same_legs r r'.
Proof.
  revert r st. induction raced as [|rep raced IH]; intros r st Hok Hall; simpl.
  { by split_and!. }
  apply Forall_cons in Hall as [Hrep Hall].
  pose proof (superseded_keeps r rep st Hok Hrep) as HK. simpl in HK.
  destruct (apply_arbitrated_report r rep st) as [r1 st1]. simpl in HK.
  destruct HK as (S1 & P1 & Q1 & L1 & _).
  destruct (IH r1 st1) as (S2 & P2 & Q2 & L2).
  - by eapply same_legs_ok.
  - eapply Forall_impl; [exact Hall|]. intros rep' (Hex & Hc & Hn). destruct L1 as [El Ec].
    split_and!; [by rewrite El|by rewrite Ec|done].
  - split_and!; try congruence. by etrans.
Qed.

(** C18: An amend outlives its old leg: when the venue acknowledges with a new id, reports of
    the old legs that raced the call, a cancellation included, neither change the state nor the
    amended price and quantity; the record carries the new id, one leg more, and its buffer is
    gone. *)
Theorem amend_survives_old_leg id wire ack st r :
  orders st !! id = Some r -> legs_ok r -> or_legs r <> [] -> log_up st ->
  op_exchange_order_id ack <> "" ->
  (forall leg, leg ∈ or_legs r -> leg_exchange_order_id leg <> op_exchange_order_id ack) ->
  Forall (fun rep => exists leg, leg ∈ or_legs r
            /\ leg_exchange_order_id leg = er_exchange_order_id rep
            /\ er_exchange_order_id rep <> "") (default [] (raced_reports st !! id)) ->
  exists r' st', amend_finish id wire (Ok ack) st = (Ok r', st')
    /\ orders st' !! id = Some r'
    /\ or_state r' = or_state r
    /\ or_price r' = default "" (am_new_price wire)
    /\ or_quantity r' = default "" (am_new_quantity wire)
    /\ or_exchange_order_id r' = op_exchange_order_id ack
    /\ length (or_legs r') = S (length (or_legs r))
    /\ raced_reports st' !! id = None.
Proof.
  intros Hr Hok Hlegs Hup Hack Hfresh Hraced. unfold amend_finish, lookup.
  pose proof (drain_spec id st) as Hd.
  assert (Hlog : log (drain_raced_reports id st).2 = log st)
    by (unfold drain_raced_reports; by destruct (raced_reports st !! id)).
  destruct (drain_raced_reports id st) as [raced st1]. destruct Hd as (-> & Ho & Hra).
  rewrite Ho, Hr. simpl in Hlog.
  set (r1 := append_amend_leg _ _).
  assert (Hup1 : log_up st1) by (unfold log_up; by rewrite Hlog).
  destruct (append_up (amended_event r1) st1 Hup1) as (st2 & -> & _ & _ & _ & Ho2 & Hra2).
  assert (Hr1 : legs_ok r1) by (apply append_amend_leg_ok; exact Hok).
  assert (Hl1 : or_legs r1 = or_legs r ++ [mkLeg (Z.of_nat (length (or_legs r)) + 1)
                                            (op_exchange_order_id ack)]
                /\ or_exchange_order_id r1 = op_exchange_order_id ack
                /\ or_state r1 = or_state r /\ or_price r1 = default "" (am_new_price wire)
                /\ or_quantity r1 = default "" (am_new_quantity wire)).
  { subst r1. unfold append_amend_leg. by rewrite (proj2 (str_empty_false _) Hack). }
  destruct Hl1 as (Hl & Hx & Hs & Hp & Hq).
  destruct (superseded_all_keep (default [] (raced_reports st !! id)) r1 st2 Hr1)
    as (S2 & P2 & Q2 & L2 & X2).
  { eapply Forall_impl; [exact Hraced|]. intros rep (leg & Hin & Hid & Hne).
    split_and!; [|rewrite Hx, <- Hid; intros Heq; by apply (Hfresh leg)|done].
    exists leg. rewrite Hl. split; [set_solver|done]. }
  pose proof (apply_raced_spec (default [] (raced_reports st !! id)) r1 st2) as HF.
  destruct (apply_raced _ r1 st2) as [r3 st3]. destruct HF as (_ & [F1 F2] & _). simpl in *.
  exists r3, (put_record id r3 st3). split_and!; try congruence.
  - simpl. by rewrite lookup_insert_eq.
  - rewrite L2, Hl, length_app. simpl. lia.
  - simpl. by rewrite F2, Hra2, Hra, lookup_delete_eq.
Qed.

(** ** Idempotent retries *)

Section Retries.
Context {W : Type} (cfg : OmsConfig W).

(** A cancel that ended in Canceled can be repeated: it returns the same record without a venue
    call or any change. *)
Theorem cancel_idempotent id st w r st' w' :
  cancel cfg id st w = (Ok r, st', w') -> or_state r = Canceled ->
  cancel cfg id st' w' = (Ok r, st', w').
Proof.
  intros Hc Hs.
  assert (Hrec : orders st' !! id = Some r).
  { unfold cancel in Hc. destruct (cancel_begin cfg id st) as [o|conn wire] eqn:Hb.
    - injection Hc as -> -> ->. unfold cancel_begin, lookup in Hb.
      repeat (case_match; simplify_eq; try done).
    - destruct (cancel_order wire w) as [placement w1]. unfold cancel_finish, lookup in Hc.
      destruct (orders st !! id) as [r0|]; [|done]. destruct placement as [ack|]; [|done].
      destruct (apply_transition _ _) as [[] s]; simplify_eq; simpl; by rewrite lookup_insert_eq. }
  unfold cancel, cancel_begin, lookup. rewrite Hrec, Hs. done.
Qed.

(** What a place answers for an id the registry knows. *)
Definition recorded_outcome (r : OrderRecord) : Result PlaceOutcome :=
  match or_rejection r with Some e => Err e | None => Ok (mkPlaceOutcome r true) end.

(** C19: A repeated place replays the recorded outcome: after a place that was recorded, another
    one with the same clientOrderId, whatever its other fields, returns the record (or its
    rejection) without touching registry, buffers, log or venue. *)
Theorem place_replays req venue hit st w outcome st' w' req2 venue2 hit2 w2 :
  place cfg req venue hit st w = (Some outcome, st', w') ->
  (forall e, outcome = Err e -> code e <> "persistence" /\ code e <> "invalid_request") ->
  rq_client_order_id req2 = rq_client_order_id req ->
  exists r st2, orders st' !! rq_client_order_id req = Some r
    /\ place cfg req2 venue2 hit2 st' w2 = (Some (recorded_outcome r), st2, w2)
    /\ orders st2 = orders st' /\ raced_reports st2 = raced_reports st' /\ log st2 = log st'.
Proof.
  intros Hp Hne Hid. unfold place in Hp. destruct (latency_now (latency st)) as [t l].
  pose proof (place_begin_spec cfg req venue (with_latency l st)) as Hv.
  destruct (place_begin cfg req venue (with_latency l st)) as [s st1].
  assert (Hknown : is_Some (orders st' !! rq_client_order_id req)).
  { destruct Hv as [r Hr|Hn Hc|Hn|e o st1 Hn Ha|e st1 Hn Ha|conn st1 Hn Hc Ha]; simplify_eq.
    - by exists r.
    - by destruct (Hne _ eq_refl) as [_ []].
    - destruct o; simpl; rewrite lookup_insert_eq; by eexists.
    - by destruct (Hne _ eq_refl) as [[] _].
    - set (st2 := open_buffer _ _) in Hp. destruct (place_order req w) as [pl w1].
      assert (Hs2 : orders (place_send_stamps (rq_client_order_id req) hit t st2) = orders st2)
        by (unfold place_send_stamps; destruct (latency st2) as [ll|]; [by destruct (now ll)|done]).
      set (st3 := place_send_stamps _ _ _ _) in Hp, Hs2.
      pose proof (place_finish_forward req pl st3) as HF.
      destruct (place_finish req pl st3) as [o st4]. simplify_eq.
      destruct HF as [[[Hev _ _] _] _].
      assert (Hsome : is_Some (orders st3 !! rq_client_order_id req)).
      { rewrite Hs2. subst st2. rewrite open_buffer_orders. simpl. rewrite lookup_insert_eq.
        by eexists. }
      destruct Hsome as [r Hr]. destruct (Hev _ _ Hr) as (r' & Hr' & _). by exists r'. }
  destruct Hknown as [r Hr]. exists r.
  unfold place, place_begin, lookup. rewrite Hid.
  destruct (latency_now (latency st')) as [t2 l2]. cbn [orders with_latency]. rewrite Hr.
  unfold recorded_outcome. destruct (or_rejection r); eexists; split_and!; done.
Qed.
End Retries.

(** ** The listing *)

Lemma id_le_total : Total id_le.
Proof. intros a b. unfold id_le. apply String.leb_total. Qed.

Lemma string_compare_trans_lt a b c :
  String.compare a b = Lt -> String.compare b c = Lt -> String.compare a c = Lt.
Proof.
  revert b c. induction a as [|x a IH]; intros [|y b] [|z c]; simpl; try done.
  unfold Ascii.compare.
  destruct (N.compare_spec (N_of_ascii x) (N_of_ascii y)) as [E1|L1|L1]; try done;
    destruct (N.compare_spec (N_of_ascii y) (N_of_ascii z)) as [E2|L2|L2]; try done; intros H1 H2.
  - rewrite E1, E2, N.compare_refl. by apply IH with b.
  - rewrite E1. by apply N.compare_lt_iff in L2 as ->.
  - rewrite <- E2. by apply N.compare_lt_iff in L1 as ->.
  - assert (H : (N_of_ascii x < N_of_ascii z)%N) by lia. by apply N.compare_lt_iff in H as ->.
Qed.

Lemma string_leb_trans a b c :
  String.leb a b = true -> String.leb b c = true -> String.leb a c = true.
Proof.
  unfold String.leb.
  destruct (String.compare a b) eqn:E1; [| |done]; destruct (String.compare b c) eqn:E2; try done;
    intros _ _.
  - apply String.compare_eq_iff in E1, E2. subst.
    pose proof (String.compare_antisym c c) as Hc. by destruct (String.compare c c).
  - apply String.compare_eq_iff in E1. subst. by rewrite E2.
  - apply String.compare_eq_iff in E2. subst. by rewrite E1.
  - by rewrite (string_compare_trans_lt a b c).
Qed.

#[global] Instance id_le_trans : Transitive id_le.
Proof. intros a b c. apply string_leb_trans. Qed.

(** The listing is the registry, sorted by clientOrderId. *)
Theorem all_orders_sorted st :
  StronglySorted id_le (all_orders st)
  /\ all_orders st ≡ₚ map snd (map_to_list (orders st)).
Proof.
  split.
  - pose proof id_le_total. apply StronglySorted_merge_sort; apply _.
  - apply merge_sort_Permutation.
Qed.

(** ** Reconciliation repairs what the audit reports *)

Lemma adopted_leg_known r id :
  leg_index_of r id = None -> id <> "" -> id <> or_exchange_order_id r ->
  exists i, leg_index_of (note_exchange_id r id) id = Some i.
Proof.
  intros Hno Hne Hcur. pose proof (leg_index_of_spec (note_exchange_id r id) id) as H.
  destruct (leg_index_of (note_exchange_id r id) id) as [i|]; [by exists i|].
  exfalso. unfold note_exchange_id in H. rewrite (proj2 (str_empty_false _) Hne) in H.
  rewrite (proj2 (streqb_false _ _) Hcur) in H. simpl in H.
  eapply (H (mkLeg _ id)); [|done]. apply elem_of_app. right. by left.
Qed.

(** Knowing a leg is knowing it in any longer table. *)
Lemma leg_known_prefix r r' id :
  or_legs r `prefix_of` or_legs r' -> is_Some (leg_index_of r id) -> is_Some (leg_index_of r' id).
Proof.
  intros [k Hk] [i Hi]. pose proof (leg_index_of_spec r id) as H. rewrite Hi in H.
  destruct H as (leg & Hl & Hid & _).
  pose proof (leg_index_of_spec r' id) as H'. destruct (leg_index_of r' id) as [j|]; [by exists j|].
  exfalso. apply (H' leg); [|done]. rewrite Hk. apply elem_of_app. left.
  by eapply list_elem_of_lookup_2.
Qed.

Lemma compare_decimal_same a b : a = b -> forall r, compare_decimal a b = Some r -> r = 0.
Proof.
  intros <- r. unfold compare_decimal. destruct (parse_decimal _) as [d|] eqn:Hd; [|done].
  intros [= <-]. apply parse_decimal_wf in Hd as (W & _). rewrite compare_value by done.
  by rewrite Z.compare_refl.
Qed.

Lemma drift_same id check detail a b :
  (forall r, compare_decimal a b = Some r -> r = 0) ->
  drift_alert id check detail (compare_decimal a b) = [].
Proof.
  intros H. unfold drift_alert. destruct (compare_decimal a b) as [r|]; [|done].
  by rewrite (H r eq_refl).
Qed.

Lemma resolve_snapshot_leg r s st :
  legs_ok r -> os_exchange_order_id s <> "" ->
  let '(_, r1, _) := resolve_snapshot r s st in
  is_Some (leg_index_of r1 (os_exchange_order_id s))
  /\ exists r0, (apply_observation r0 (os_state s) (os_filled_quantity s)
                   (os_average_fill_price s) (os_price s) (os_quantity s) true).2 = r1
       /\ or_state r0 = or_state r /\ or_filled_quantity r0 = or_filled_quantity r
       /\ or_price r0 = or_price r /\ or_quantity r0 = or_quantity r.
Proof.
  intros Hok Hne. unfold resolve_snapshot.
  set (p := if _ && _ then _ else _).
  assert (H0 : is_Some (leg_index_of p.1.2 (os_exchange_order_id s))
    /\ or_state p.1.2 = or_state r /\ or_filled_quantity p.1.2 = or_filled_quantity r
    /\ or_price p.1.2 = or_price r /\ or_quantity p.1.2 = or_quantity r).
  { pose proof (note_exchange_id_rest r (os_exchange_order_id s)) as HR.
    subst p. rewrite (proj2 (str_empty_false _) Hne). cbn [negb andb]. rewrite andb_true_r.
    destruct (str_empty (or_exchange_order_id r)) eqn:He; simpl in *.
    - apply str_empty_true in He. split; [|tauto].
      destruct (leg_index_of r (os_exchange_order_id s)) as [i|] eqn:Hi.
      + apply (leg_known_prefix r); [apply note_exchange_id_evolves|by rewrite Hi; eexists].
      + apply adopted_leg_known; congruence.
    - destruct (leg_index_of r (os_exchange_order_id s)) as [i|] eqn:Hi; simpl.
      + split; [by rewrite Hi; eexists|done].
      + split; [|tauto]. apply adopted_leg_known; [done|done|]. intros Heq.
        apply str_empty_false in He. destruct Hok as [_ Hl].
        destruct (list.last (or_legs r)) as [leg|] eqn:Hlast; [|done].
        pose proof (leg_index_of_spec r (os_exchange_order_id s)) as Hsp. rewrite Hi in Hsp.
        apply (Hsp leg); [|destruct Hl; congruence].
        rewrite last_lookup in Hlast. by eapply list_elem_of_lookup_2. }
  destruct p as [[changed r0] st0]. simpl in H0. destruct H0 as (Hleg & Hs & Hf & Hp & Hq).
  pose proof (apply_observation_spec r0 (os_state s) (os_filled_quantity s)
    (os_average_fill_price s) (os_price s) (os_quantity s) true) as HS.
  destruct (apply_observation r0 _ _ _ _ _ _) as [moved r1] eqn:E. destruct HS as (HE & _).
  split; [eapply leg_known_prefix; [apply HE|done]|]. exists r0. by rewrite E.
Qed.

Lemma observed_fill_agrees r s f c :
  parse_decimal (os_filled_quantity s) = Ok f -> parse_decimal (fill_text r) = Ok c ->
  v16 c <= v16 f ->
  forall z, compare_decimal
    (or_filled_quantity (observe_fill r (os_filled_quantity s) (os_average_fill_price s)).2)
    (os_filled_quantity s) = Some z -> z = 0.
Proof.
  intros Hf Hc Hle z.
  assert (He : str_empty (os_filled_quantity s) = false).
  { apply str_empty_false. intros E. rewrite E in Hf. discriminate Hf. }
  unfold observe_fill. rewrite He, Hf. fold (fill_text r). rewrite Hc.
  rewrite compare_pos by (eapply parse_decimal_wf; eassumption).
  destruct (Z.ltb_spec (v16 c) (v16 f)) as [Hlt|Hge]; simpl.
  - apply compare_decimal_same. destruct (str_empty (os_average_fill_price s)); reflexivity.
  - unfold compare_decimal. fold (fill_text r). rewrite Hc, He, Hf. intros [= <-].
    rewrite compare_value by (eapply parse_decimal_wf; eassumption).
    assert (v16 c = v16 f) as -> by lia. by rewrite Z.compare_refl.
Qed.

(** C21: Reconciliation repairs drift: let a record's leg table be well formed, and let a venue
    snapshot have an id, the record's state or one reachable in one step, a price and a quantity
    wherever the record has them, and a fill that is not behind the record's, both readable;
    after it is applied, the audit of the record against that snapshot reports nothing. *)
Theorem reconcile_repairs r s st f c :
  legs_ok r -> os_exchange_order_id s <> "" ->
  (os_state s = or_state r \/ can_transition (or_state r) (os_state s) = true) ->
  parse_decimal (os_filled_quantity s) = Ok f -> parse_decimal (fill_text r) = Ok c ->
  v16 c <= v16 f ->
  (os_price s <> "" \/ or_price r = "") -> (os_quantity s <> "" \/ or_quantity r = "") ->
  let '(_, r1, _) := resolve_snapshot r s st in audit_record_vs_snapshot r1 s [] = [].
Proof.
  intros Hok Hx Hst Hf Hc Hle Hp Hq. pose proof (resolve_snapshot_leg r s st Hok Hx) as HR.
  destruct (resolve_snapshot r s st) as [[changed r1] st1].
  destruct HR as ([i Hi] & r0 & <- & Hs0 & Hf0 & Hp0 & Hq0).
  pose proof (apply_observation_spec r0 (os_state s) (os_filled_quantity s)
    (os_average_fill_price s) (os_price s) (os_quantity s) true) as HS.
  destruct (apply_observation r0 _ _ _ _ _ _) as [moved r1] eqn:E. simpl in *.
  destruct HS as (_ & _ & S1 & _ & F1 & P1 & Q1 & _).
  assert (Hpick : forall mine theirs, (theirs <> "" \/ mine = "") ->
            (if negb (str_empty theirs) then theirs else mine) = theirs).
  { intros mine theirs H. destruct (str_empty theirs) eqn:He; simpl; [|done].
    apply str_empty_true in He. destruct H; congruence. }
  rewrite Hp0 in P1. rewrite Hq0 in Q1. rewrite (Hpick _ _ Hp) in P1. rewrite (Hpick _ _ Hq) in Q1.
  unfold audit_record_vs_snapshot. rewrite Hi. simpl.
  rewrite andb_false_r. simpl.
  assert (Hstate : or_state r1 = os_state s).
  { rewrite S1, Hs0. unfold apply_transition. destruct Hst as [-> | ->]; [|done].
    by destruct (can_transition _ _). }
  rewrite Hstate. destruct (OrderState_eqb_spec (os_state s) (os_state s)); [simpl|done].
  rewrite P1, Q1, F1. rewrite !drift_same; [done| | |].
  - by apply compare_decimal_same.
  - by apply compare_decimal_same.
  - apply (observed_fill_agrees r0 s f c); [done| |done]. unfold fill_text in *. by rewrite Hf0.
Qed.

(** The venue answers that it does not know the order; OKX also says so with two
    error codes. *)
Definition denies (answer : Result (option OrderSnapshot)) : Prop :=
  answer = Ok None
  \/ exists text, answer = Err (mkError "venue:51603" text) \/ answer = Err (mkError "venue:51016" text).

(** C22: Absence is terminal only when it is conclusive: when the lookup answers that there is
    no such order, or fails with the venue's code 51603 or 51016, a recorded order that is not
    terminal becomes Rejected with the code venue_absent (a terminal one stays as it is, the
    other records too) and is counted as absent; when it fails with any other code, a transport
    failure included, nothing changes but the unresolved counter. *)
Theorem reconcile_absence item answer report st r :
  orders st !! wi_id item = Some r ->
  let '(report', st') := resolve_section item answer (report, st) in
  (denies answer ->
     report' = count_absent report
     /\ if is_terminal (or_state r) then st' = st
        else orders st' = <[wi_id item := set_rejection (Some venue_absent) (set_state Rejected r)]> (orders st))
  /\ (forall e, answer = Err e -> code e <> "venue:51603" -> code e <> "venue:51016" ->
        st' = st /\ report' = count_unresolved report).
Proof.
  intros Hr. unfold resolve_section, lookup. rewrite Hr.
  assert (Hden : denies answer -> conclusive_absence answer = true /\ forall s, answer <> Ok (Some s)).
  { intros [->|(text & [->| ->])]; by split. }
  assert (Hterm : apply_transition (or_state r) Rejected
                  = if is_terminal (or_state r) then (TransitionRejected, or_state r) else (Applied, Rejected))
    by (by destruct (or_state r)).
  destruct answer as [[s|]|e]; rewrite ?Hterm.
  - destruct (resolve_snapshot r s st) as [[changed r1] st1]. destruct changed; try case_match;
      (split; [intros Hd; by destruct (proj2 (Hden Hd) s)|done]).
  - simpl. destruct (is_terminal (or_state r)); simpl; (split; [|done]); intros _; autorewrite with oms; done.
  - destruct (conclusive_absence (Err e)) eqn:Hc.
    + assert (Hno : forall e0, Err (T:=option OrderSnapshot) e = Err e0 ->
                code e0 <> "venue:51603" -> code e0 <> "venue:51016" -> False).
      { intros ? [= <-] H1 H2. simpl in Hc. apply orb_true_iff in Hc as [H|H]; apply streqb_true in H; done. }
      destruct (is_terminal (or_state r)); simpl;
        (split; [intros _; autorewrite with oms; done|intros e0 He H1 H2; by destruct (Hno e0 He H1 H2)]).
    + split; [intros Hd; by destruct (Hden Hd)|]. by intros ? [= <-].
Qed.

(** ** Witnesses *)

Definition demo_snapshot : OrderSnapshot :=
  mkOrderSnapshot "c1" "x9" "BTC-USDT" Filled Buy Limit "49999.5" "0.5" "0.50" "49999.5".

Lemma demo_record_legs_ok : legs_ok demo_record.
Proof.
  split; [|done]. intros i leg Hl. apply list_lookup_singleton_Some in Hl as [-> <-]. done.
Defined.

Lemma reconcile_repairs_witness :
  let '(_, r1, _) := resolve_snapshot demo_record demo_snapshot demo_filled in
  audit_record_vs_snapshot r1 demo_snapshot [] = [].
Proof.
  apply (reconcile_repairs demo_record demo_snapshot demo_filled (mkDecimal 5 1) (mkDecimal 2 1)).
  - exact demo_record_legs_ok.
  - discriminate.
  - right. reflexivity.
  - reflexivity.
  - reflexivity.
  - vm_compute. discriminate.
  - left. discriminate.
  - left. discriminate.
Defined.

Definition demo_item : WorkItem := mkWorkItem "c1" "okx" (mkOrderQuery "c1" "BTC-USDT").

Lemma reconcile_absence_witness :
  orders (resolve_section demo_item (Ok None) (empty_report, demo_filled)).2 !! "c1"
  = Some (set_rejection (Some venue_absent) (set_state Rejected demo_record))
  /\ (resolve_section demo_item (Err (mkError "transport" "")) (empty_report, demo_filled)).2 = demo_filled.
Proof.
  pose proof (reconcile_absence demo_item (Ok None) empty_report demo_filled demo_record
                demo_filled_record) as H.
  pose proof (reconcile_absence demo_item (Err (mkError "transport" "")) empty_report demo_filled
                demo_record demo_filled_record) as H'.
  destruct (resolve_section _ (Ok None) _) as [report st]. destruct H as [H _].
  destruct (resolve_section _ (Err _) _) as [report' st']. destruct H' as [_ H']. split.
  - destruct (H (or_introl eq_refl)) as [_ Ho]. simpl in Ho. simpl. rewrite Ho. apply lookup_insert_eq.
  - destruct (H' _ eq_refl) as [Hs _]; [discriminate|discriminate|exact Hs].
Defined.

(** An amend of the working order, while the old leg's cancellation and a last
    fill of it are buffered. *)
Definition demo_amend : AmendRequest :=
  mkAmendRequest "c1" "BTC-USDT" (Some "49000") (Some "0.4") (Some Buy) (Some Limit) "GTC".
Definition demo_amending : Oms :=
  on_execution_report (mkExecutionReport "c1" "x1" Canceled Buy "0.3" "49999")
    (amend_begin demo_cfg (mkAmendCommand "c1" (Some "49000") (Some "0.4")) demo_filled).2.

Lemma demo_amending_record : orders demo_amending !! "c1" = Some demo_record.
Proof. vm_compute. reflexivity. Defined.

Lemma demo_amending_raced :
  raced_reports demo_amending !! "c1" = Some [mkExecutionReport "c1" "x1" Canceled Buy "0.3" "49999"].
Proof. vm_compute. reflexivity. Defined.

Lemma demo_amending_log : log_up demo_amending.
Proof. eexists. vm_compute. split; [reflexivity|split; reflexivity]. Defined.

Lemma amend_survives_old_leg_witness :
  exists r' st', amend_finish "c1" demo_amend (Ok (mkOrderPlacement "c1" "x2")) demo_amending
                 = (Ok r', st')
    /\ orders st' !! "c1" = Some r'
    /\ or_state r' = PartiallyFilled
    /\ or_price r' = "49000"
    /\ or_quantity r' = "0.4"
    /\ or_exchange_order_id r' = "x2"
    /\ length (or_legs r') = 2%nat
    /\ raced_reports st' !! "c1" = None.
Proof.
  apply (amend_survives_old_leg "c1" demo_amend (mkOrderPlacement "c1" "x2") demo_amending demo_record).
  - exact demo_amending_record.
  - exact demo_record_legs_ok.
  - discriminate.
  - exact demo_amending_log.
  - discriminate.
  - intros leg Hl. apply list_elem_of_singleton in Hl as ->. discriminate.
  - rewrite demo_amending_raced. repeat constructor. exists (mkLeg 1 "x1").
    split_and!; [left|reflexivity|discriminate].
Defined.

Lemma superseded_report_only_fills_witness :
  let r := set_exchange_order_id "x2" (push_leg demo_record "x2") in
  let r' := (apply_arbitrated_report r (mkExecutionReport "c1" "x1" Canceled Buy "0.3" "1") demo_oms).1 in
  or_state r' = or_state r /\ or_price r' = or_price r /\ or_quantity r' = or_quantity r
  /\ or_legs r' = or_legs r /\ or_exchange_order_id r' = or_exchange_order_id r
  /\ fill_grows r r'.
Proof.
  apply superseded_report_only_fills.
  - apply push_leg_ok; [exact demo_record_legs_ok|discriminate].
  - split_and!; [|discriminate|discriminate]. exists (mkLeg 1 "x1"). split; [left|reflexivity].
Defined.

Definition demo_canceled : Oms := (cancel demo_cfg "c1" demo_filled tt).1.2.
Definition demo_canceled_record : OrderRecord := set_state Canceled demo_record.

Lemma cancel_idempotent_witness :
  cancel demo_cfg "c1" demo_canceled tt = (Ok demo_canceled_record, demo_canceled, tt).
Proof.
  apply (cancel_idempotent demo_cfg "c1" demo_filled tt); [vm_compute|]; reflexivity.
Defined.

Definition demo_placed : Oms := (place demo_cfg demo_request "" 0 demo_oms tt).1.2.

Lemma place_replays_witness :
  exists r st2, orders demo_placed !! "c1" = Some r
    /\ place demo_cfg demo_request "binance" 0 demo_placed tt = (Some (recorded_outcome r), st2, tt)
    /\ orders st2 = orders demo_placed /\ raced_reports st2 = raced_reports demo_placed
    /\ log st2 = log demo_placed.
Proof.
  apply (place_replays demo_cfg demo_request "" 0 demo_oms tt
    (Ok (mkPlaceOutcome (mkRecord "c1" "BTC-USDT" "okx" "x1" Buy Limit "GTC" "50000" "0.5" Live
                           "0" "" [mkLeg 1 "x1"] false None) false)) demo_placed tt).
  - vm_compute. reflexivity.
  - intros e H. discriminate H.
  - reflexivity.
Defined.

(** A Pending record whose order the venue shows canceled stays Pending, and
    counts as exposure: the table has no step for it. *)
Example pending_canceled_snapshot_stays_pending :
  let snapshot := mkOrderSnapshot "c1" "x1" "BTC-USDT" Canceled Buy Limit "50000" "0.5" "0" "" in
  or_state (resolve_snapshot (candidate_of demo_request "okx") snapshot demo_oms).1.2 = Pending.
Proof. vm_compute. reflexivity. Qed.

(** A venue that replaces the order: the full quantity is sent although 0.2 are
    executed, and the first fills of the new leg, whose executed quantity
    starts at zero, are stale for the registry. *)
Example replacement_leg_restarts_fills :
  let '(s, st) := amend_begin demo_cfg (mkAmendCommand "c1" (Some "49000") None) demo_filled in
  match s with
  | AmendSend _ wire =>
      am_new_quantity wire = Some "0.5"
      /\ let st := (amend_finish "c1" wire (Ok (mkOrderPlacement "c1" "x2")) st).2 in
         let st := on_execution_report (mkExecutionReport "c1" "x2" PartiallyFilled Buy "0.1" "49000") st in
         (or_filled_quantity <$> orders st !! "c1") = Some "0.2"
         /\ (or_exchange_order_id <$> orders st !! "c1") = Some "x2"
  | _ => False
  end.
Proof. vm_compute. done. Qed.
