(* ===== verification/Retry.v ===== *)
(** * Retries of outbound requests: src/core/retry.hpp and retry.cpp

    The policy and its JSON form, the backoff with its jitter in IEEE double
    arithmetic, and the driver.  Time, sleep and randomness are injected, as in
    the source: they are functions on a world [W], which the attempts change
    too.  Instants are nanoseconds (the steady clock's), policy durations are
    milliseconds. *)

From S2P Require Import Prelude Json.

(** ** Doubles *)

Definition f64_of_int (z : Z) : spec_float := binary_normalize 53 1024 z 0 false.
Definition f64_mul : spec_float -> spec_float -> spec_float := SFmul 53 1024.
Definition f64_sub : spec_float -> spec_float -> spec_float := SFsub 53 1024.
Definition f64_geb (a b : spec_float) : bool := SFleb b a.

(** [static_cast<long long>] of a double in range: towards zero. *)
Definition f64_trunc (f : spec_float) : Z :=
  match f with
  | S754_finite s m e =>
      let magnitude := if 0 <=? e then Z.pos m * 2 ^ e else Z.quot (Z.pos m) (2 ^ (- e)) in
      if s then - magnitude else magnitude
  | _ => 0
  end.

Definition f64_zero : spec_float := S754_zero false.
Definition f64_one : spec_float := f64_of_int 1.
(** The double nearest to 0.999999. *)
Definition f64_almost_one : spec_float := S754_finite false 9007190247541737 (-53).

(** [json::get<double>] of a number. *)
Definition json_double (j : json) : spec_float :=
  match j with
  | JInt z | JUint z => f64_of_int z
  | JFloat f => f
  | _ => f64_zero
  end.

(** ** The policy *)

Record RetryPolicy := mkRetryPolicy {
  max_attempts : Z;
  initial_backoff : Z;
  max_backoff : Z;
  multiplier : spec_float;
  jitter : spec_float;
  budget : Z }.

Definition default_retry_policy : RetryPolicy :=
  mkRetryPolicy 3 100 2000 (f64_of_int 2) (S754_finite false 4503599627370496 (-53)) 5000.

Definition kMaxAttemptsLimit : Z := 100.
Definition kMaxDurationMs : Z := 3600000.

Definition field_error (prefix a_name suffix : string) : string :=
  prefix +:+ dquote +:+ a_name +:+ dquote +:+ suffix.

Definition unsigned_ms_field (a_node : json) (a_name : string) (a_default : Z) : string + Z :=
  match jfind a_node a_name with
  | None => inr a_default
  | Some (JUint value) =>
      if kMaxDurationMs <? value then inl (field_error "retry field " a_name " is out of range")
      else inr value
  | Some _ => inl (field_error "retry field " a_name " must be an unsigned number")
  end.

Definition retry_error (text : string) : Error := mkError "protocol" text.

Definition read_max_attempts (a_node : json) (a_default : Z) : Result Z :=
  match jfind a_node "maxAttempts" with
  | None => Ok a_default
  | Some (JUint value) =>
      if (value <? 1) || (kMaxAttemptsLimit <? value)
      then Err (retry_error (field_error "retry field " "maxAttempts" " must be in [1, 100]"))
      else Ok value
  | Some _ =>
      Err (retry_error (field_error "retry field " "maxAttempts" " must be an unsigned number"))
  end.

Definition read_multiplier (a_node : json) (a_default : spec_float) : Result spec_float :=
  match jfind a_node "multiplier" with
  | None => Ok a_default
  | Some node =>
      if negb (is_number node)
      then Err (retry_error (field_error "retry field " "multiplier" " must be a number"))
      else if negb (f64_geb (json_double node) f64_one)
      then Err (retry_error (field_error "retry field " "multiplier" " must be >= 1.0"))
      else Ok (json_double node)
  end.

Definition read_jitter (a_node : json) (a_default : spec_float) : Result spec_float :=
  match jfind a_node "jitter" with
  | None => Ok a_default
  | Some node =>
      if negb (is_number node)
      then Err (retry_error (field_error "retry field " "jitter" " must be a number"))
      else if negb (f64_geb (json_double node) f64_zero && SFleb (json_double node) f64_one)
      then Err (retry_error (field_error "retry field " "jitter" " must be in [0, 1]"))
      else Ok (json_double node)
  end.

Definition retry_policy_from_json (a_node : json) (a_defaults : RetryPolicy)
    : Result RetryPolicy :=
  if negb (is_object a_node) then Err (retry_error "retry config must be a JSON object")
  else
    let! attempts := read_max_attempts a_node (max_attempts a_defaults) in
    match unsigned_ms_field a_node "initialBackoffMs" (initial_backoff a_defaults) with
    | inl error => Err (retry_error error)
    | inr initial =>
    match unsigned_ms_field a_node "maxBackoffMs" (max_backoff a_defaults) with
    | inl error => Err (retry_error error)
    | inr maximum =>
    match unsigned_ms_field a_node "budgetMs" (budget a_defaults) with
    | inl error => Err (retry_error error)
    | inr total =>
        if maximum <? initial
        then Err (retry_error "retry maxBackoffMs must be >= initialBackoffMs")
        else
          let! m := read_multiplier a_node (multiplier a_defaults) in
          let! j := read_jitter a_node (jitter a_defaults) in
          Ok (mkRetryPolicy attempts initial maximum m j total)
    end end end.

(** ** Backoff *)

(** The loop of [backoff_for], [n] multiplications; [None] stands for the early
    return of the maximum. *)
Fixpoint backoff_loop (n : nat) (a_policy : RetryPolicy) (raw : spec_float) : option spec_float :=
  match n with
  | O => Some raw
  | S n' =>
      let raw := f64_mul raw (multiplier a_policy) in
      if f64_geb raw (f64_of_int (max_backoff a_policy)) then None
      else backoff_loop n' a_policy raw
  end.

Definition backoff_for (a_policy : RetryPolicy) (a_retry_index : Z) : Z :=
  let index := Z.max a_retry_index 1 in
  match backoff_loop (Z.to_nat (index - 1)) a_policy (f64_of_int (initial_backoff a_policy)) with
  | None => max_backoff a_policy
  | Some raw => Z.max (Z.min (f64_trunc raw) (max_backoff a_policy)) 0
  end.

(** [std::clamp]. *)
Definition f64_clamp (v lo hi : spec_float) : spec_float :=
  if SFltb v lo then lo else if SFltb hi v then hi else v.

Definition apply_jitter (a_policy : RetryPolicy) (a_raw : Z) (a_u01 : spec_float) : Z :=
  let clamped := f64_clamp a_u01 f64_zero f64_almost_one in
  let factor := f64_sub f64_one (f64_mul (jitter a_policy) clamped) in
  Z.max (f64_trunc (f64_mul (f64_of_int a_raw) factor)) 0.

(** ** The driver

    [a_retryable] may read the world: the callers' predicates look at a flag
    that the attempt sets. *)

Record RetryClock (W : Type) := mkRetryClock {
  rc_now : W -> Z * W;
  rc_sleep : Z -> W -> W;
  rc_random01 : W -> spec_float * W }.
Arguments rc_now {W}.
Arguments rc_sleep {W}.
Arguments rc_random01 {W}.
Arguments mkRetryClock {W}.

Definition ns_per_ms : Z := 1000000.

Section Driver.
Context {W T : Type} (a_policy : RetryPolicy) (a_clock : RetryClock W)
  (a_attempt : W -> Result T * W) (a_retryable : Error -> W -> bool).

Definition retry_exhausted : Error := mkError "protocol" "retry driver exhausted attempts".

(** The [for] loop from [attempt_index] on; [left] turns remain. *)
Fixpoint retry_loop (left : nat) (deadline attempt_index : Z) (w : W) : Result T * W :=
  match left with
  | O => (Err retry_exhausted, w)
  | S left' =>
      let '(result, w) := a_attempt w in
      let last_attempt := max_attempts a_policy <=? attempt_index + 1 in
      match result with
      | Ok _ => (result, w)
      | Err error =>
          if last_attempt || negb (a_retryable error w) then (result, w)
          else
            let '(failed_at, w) := rc_now a_clock w in
            if deadline <=? failed_at then (result, w)
            else
              let raw := backoff_for a_policy (attempt_index + 1) in
              let '(u01, w) := rc_random01 a_clock w in
              let delay := apply_jitter a_policy raw u01 in
              let remaining := deadline - failed_at in
              let delay := if remaining <? delay * ns_per_ms
                           then Z.quot remaining ns_per_ms else delay in
              retry_loop left' deadline (attempt_index + 1) (rc_sleep a_clock delay w)
      end
  end.

Definition with_retries (w : W) : Result T * W :=
  let '(start, w) := rc_now a_clock w in
  retry_loop (Z.to_nat (max_attempts a_policy)) (start + budget a_policy * ns_per_ms) 0 w.

(** Rule for the driver: [I] holds before every attempt, [Post] after the one
    that is returned; reading the clock, sleeping and drawing a random number
    disturb neither. *)
Section Rule.
Context (I : W -> Prop) (Post : Result T -> W -> Prop).
Hypothesis attempt_ok : forall w, I w ->
  let '(r, w') := a_attempt w in
  Post r w' /\ forall e, r = Err e -> a_retryable e w' = true -> I w'.
Hypothesis now_I : forall w, I w -> I (rc_now a_clock w).2.
Hypothesis now_Post : forall r w, Post r w -> Post r (rc_now a_clock w).2.
Hypothesis random_I : forall w, I w -> I (rc_random01 a_clock w).2.
Hypothesis sleep_I : forall d w, I w -> I (rc_sleep a_clock d w).

Lemma retry_loop_rule left deadline index w :
  index + Z.of_nat left = max_attempts a_policy -> (1 <= left)%nat -> I w ->
  let '(r, w') := retry_loop left deadline index w in Post r w'.
Proof.
  revert index w. induction left as [|left IH]; intros index w Hi Hl Hw; [lia|].
  cbn [retry_loop]. pose proof (attempt_ok w Hw) as Ha.
  destruct (a_attempt w) as [r w1]. destruct Ha as [HP HI]. destruct r as [v|e]; [done|].
  destruct ((max_attempts a_policy <=? index + 1) || negb (a_retryable e w1)) eqn:Hstop; [done|].
  apply orb_false_iff in Hstop as [Hlast Hretry]. boolify.
  pose proof (now_I w1 (HI e eq_refl Hretry)) as HI2. pose proof (now_Post _ _ HP) as HP2.
  destruct (rc_now a_clock w1) as [t w2]. simpl in HI2, HP2.
  destruct (deadline <=? t); [done|].
  pose proof (random_I _ HI2) as HI3. destruct (rc_random01 a_clock w2) as [u w3].
  apply IH; [lia|lia|]. by apply sleep_I.
Qed.

Lemma with_retries_rule w :
  1 <= max_attempts a_policy -> I w -> let '(r, w') := with_retries w in Post r w'.
Proof.
  intros Hm Hw. unfold with_retries. pose proof (now_I w Hw) as Hn.
  destruct (rc_now a_clock w) as [start w1]. apply retry_loop_rule; [lia|lia|done].
Qed.
End Rule.
End Driver.

(** ** What a parsed policy guarantees *)

Record policy_valid (p : RetryPolicy) : Prop := {
  pv_attempts : 1 <= max_attempts p <= kMaxAttemptsLimit;
  pv_initial : 0 <= initial_backoff p <= max_backoff p;
  pv_maximum : max_backoff p <= kMaxDurationMs;
  pv_budget : 0 <= budget p <= kMaxDurationMs;
  pv_multiplier : f64_geb (multiplier p) f64_one = true;
  pv_jitter : f64_geb (jitter p) f64_zero = true /\ SFleb (jitter p) f64_one = true }.

(** Unsigned JSON numbers are not negative. *)
Definition unsigned_fields (node : json) : Prop :=
  forall name v, jfind node name = Some (JUint v) -> 0 <= v.

Lemma unsigned_ms_field_range node name d v :
  unsigned_fields node -> 0 <= d <= kMaxDurationMs ->
  unsigned_ms_field node name d = inr v -> 0 <= v <= kMaxDurationMs.
Proof.
  intros Hu Hd. unfold unsigned_ms_field.
  destruct (jfind node name) as [[]|] eqn:Hf; intros H; simplify_eq; [|done].
  apply Hu in Hf. destruct (Z.ltb_spec kMaxDurationMs z); simplify_eq. lia.
Qed.

Lemma read_multiplier_valid node d m :
  f64_geb d f64_one = true -> read_multiplier node d = Ok m -> f64_geb m f64_one = true.
Proof.
  unfold read_multiplier. intros Hd H. destruct (jfind node "multiplier") as [j|]; [|by simplify_eq].
  destruct (is_number j); [|done]. destruct (f64_geb (json_double j) f64_one) eqn:E; by simplify_eq/=.
Qed.

Lemma read_jitter_valid node d m :
  f64_geb d f64_zero = true /\ SFleb d f64_one = true -> read_jitter node d = Ok m ->
  f64_geb m f64_zero = true /\ SFleb m f64_one = true.
Proof.
  unfold read_jitter. intros Hd H. destruct (jfind node "jitter") as [j|]; [|by simplify_eq].
  destruct (is_number j); [|done].
  destruct (f64_geb (json_double j) f64_zero) eqn:E1, (SFleb (json_double j) f64_one) eqn:E2;
    by simplify_eq/=.
Qed.

(** A policy read from JSON satisfies the driver's preconditions: attempts in 1..100, ordered
    backoffs and a budget within the hour, a multiplier of at least one and a jitter between
    zero and one. *)
Theorem retry_policy_from_json_valid node defaults p :
  unsigned_fields node -> policy_valid defaults ->
  retry_policy_from_json node defaults = Ok p -> policy_valid p.
Proof.
  intros Hu [Da Di Dm Db Dmu Dj]. unfold retry_policy_from_json, read_max_attempts.
  destruct (is_object node); [|done]. simpl. intros H.
  assert (Ha : exists a, 1 <= a <= kMaxAttemptsLimit /\
    match jfind node "maxAttempts" with
    | None => Ok (max_attempts defaults)
    | Some (JUint value) =>
        if (value <? 1) || (kMaxAttemptsLimit <? value)
        then Err (retry_error (field_error "retry field " "maxAttempts" " must be in [1, 100]"))
        else Ok value
    | Some _ => Err (retry_error (field_error "retry field " "maxAttempts" " must be an unsigned number"))
    end = Ok a).
  { destruct (jfind node "maxAttempts") as [[]|]; try done; [|eauto].
    destruct (Z.ltb_spec z 1), (Z.ltb_spec kMaxAttemptsLimit z); try done. exists z. split; [lia|done]. }
  destruct Ha as (a & Har & Ha). rewrite Ha in H. clear Ha.
  destruct (unsigned_ms_field node "initialBackoffMs" _) as [?|i] eqn:Hi; [done|].
  destruct (unsigned_ms_field node "maxBackoffMs" _) as [?|mx] eqn:Hm; [done|].
  destruct (unsigned_ms_field node "budgetMs" _) as [?|b] eqn:Hb; [done|].
  apply unsigned_ms_field_range in Hi; [|done|lia]. apply unsigned_ms_field_range in Hm; [|done|lia].
  apply unsigned_ms_field_range in Hb; [|done|lia].
  destruct (Z.ltb_spec mx i); [done|].
  destruct (read_multiplier _ _) as [m|] eqn:Hmu; [|done].
  destruct (read_jitter _ _) as [j|] eqn:Hj; [|done]. simplify_eq.
  constructor; simpl; try lia; [by eapply read_multiplier_valid|by eapply read_jitter_valid].
Qed.

(** The backoff stays within the policy's maximum and the jitter never makes it negative. *)
Theorem backoff_bounded p k u :
  0 <= max_backoff p ->
  0 <= backoff_for p k <= max_backoff p /\ 0 <= apply_jitter p (backoff_for p k) u.
Proof.
  intros Hp. unfold backoff_for, apply_jitter. split; [|lia].
  destruct (backoff_loop _ _ _); lia.
Qed.

(** ** The driver's traces *)

Section Traces.
Context {W T : Type} (a_policy : RetryPolicy) (a_clock : RetryClock W)
  (a_attempt : W -> Result T * W) (a_retryable : Error -> W -> bool).

Inductive RetryEvent :=
  | EvNow (t : Z)
  | EvAttempt (r : Result T)
  | EvSleep (ms : Z).

(** The same clock and attempt, writing down what happens. *)
Definition traced_clock : RetryClock (W * list RetryEvent) := {|
  rc_now '(w, l) := let '(t, w) := rc_now a_clock w in (t, (w, l ++ [EvNow t]));
  rc_sleep d '(w, l) := (rc_sleep a_clock d w, l ++ [EvSleep d]);
  rc_random01 '(w, l) := let '(u, w) := rc_random01 a_clock w in (u, (w, l)) |}.

Definition traced_attempt (wl : W * list RetryEvent) : Result T * (W * list RetryEvent) :=
  let '(w, l) := wl in let '(r, w) := a_attempt w in (r, (w, l ++ [EvAttempt r])).

Definition traced_retryable (e : Error) (wl : W * list RetryEvent) : bool := a_retryable e wl.1.

(** [n] attempts ending with [r]: a retry follows a retryable failure seen
    before the deadline, after a sleep that ends by the deadline. *)
Inductive retry_trace (deadline : Z) : nat -> Result T -> list RetryEvent -> Prop :=
  | rt_done r : retry_trace deadline 1 r [EvAttempt r]
  | rt_late e t :
      deadline <= t -> retry_trace deadline 1 (Err e) [EvAttempt (Err e); EvNow t]
  | rt_again e t d n r rest :
      (exists w, a_retryable e w = true) -> t < deadline -> 0 <= d -> t + d * ns_per_ms <= deadline ->
      retry_trace deadline n r rest ->
      retry_trace deadline (S n) r (EvAttempt (Err e) :: EvNow t :: EvSleep d :: rest).

Lemma retry_loop_trace left deadline index w l :
  index + Z.of_nat left = max_attempts a_policy -> (1 <= left)%nat ->
  let '(r, (_, l')) := retry_loop a_policy traced_clock traced_attempt traced_retryable
                         left deadline index (w, l) in
  exists n rest, l' = l ++ rest /\ retry_trace deadline n r rest /\ (n <= left)%nat.
Proof.
  revert index w l. induction left as [|left IH]; intros index w l Hi Hl; [lia|].
  cbn [retry_loop traced_attempt]. destruct (a_attempt w) as [r w1].
  destruct r as [v|e].
  { exists 1%nat, [EvAttempt (Ok v)]. split_and!; [done|constructor|lia]. }
  destruct ((max_attempts a_policy <=? index + 1) || negb (traced_retryable e (w1, l ++ [EvAttempt (Err e)]))) eqn:Hstop.
  { exists 1%nat, [EvAttempt (Err e)]. split_and!; [done|constructor|lia]. }
  apply orb_false_iff in Hstop as [Hlast Hretry]. boolify.
  cbn [traced_clock rc_now]. destruct (rc_now a_clock w1) as [t w2].
  destruct (Z.leb_spec deadline t) as [Hlate|Htime].
  { exists 1%nat, [EvAttempt (Err e); EvNow t]. rewrite <- app_assoc.
    split_and!; [done|by constructor|lia]. }
  cbn [traced_clock rc_random01 rc_sleep]. destruct (rc_random01 a_clock w2) as [u w3]. cbv zeta.
  set (d0 := apply_jitter a_policy (backoff_for a_policy (index + 1)) u).
  assert (Hd0 : 0 <= d0) by (subst d0; unfold apply_jitter; lia).
  set (d := if deadline - t <? d0 * ns_per_ms then Z.quot (deadline - t) ns_per_ms else d0).
  assert (Hd : 0 <= d /\ t + d * ns_per_ms <= deadline).
  { subst d. unfold ns_per_ms. destruct (Z.ltb_spec (deadline - t) (d0 * 1000000)); [|lia].
    rewrite Z.quot_div_nonneg by lia.
    pose proof (Z.mul_div_le (deadline - t) 1000000 ltac:(lia)).
    pose proof (Z.div_pos (deadline - t) 1000000 ltac:(lia) ltac:(lia)). lia. }
  specialize (IH (index + 1) (rc_sleep a_clock d w3)
    (((l ++ [EvAttempt (Err e)]) ++ [EvNow t]) ++ [EvSleep d]) ltac:(lia) ltac:(lia)).
  destruct (retry_loop _ _ _ _ _ _ _ _) as [r [w' l']].
  destruct IH as (n & rest & -> & Ht & Hn).
  exists (S n), (EvAttempt (Err e) :: EvNow t :: EvSleep d :: rest).
  split_and!; [by rewrite <- !app_assoc| |lia]. destruct Hd. constructor; try done. by exists w1.
Qed.

(** C39: The retry driver respects attempts and budget: at most maxAttempts attempts run, each
    one but the first follows a retryable failure seen before the deadline and a sleep that is
    not negative and ends by the deadline, and the last attempt's result is returned. *)
Theorem with_retries_bounded w :
  1 <= max_attempts a_policy ->
  let '(r, (_, l)) := with_retries a_policy traced_clock traced_attempt traced_retryable (w, []) in
  exists start n rest, l = EvNow start :: rest
    /\ retry_trace (start + budget a_policy * ns_per_ms) n r rest
    /\ Z.of_nat n <= max_attempts a_policy.
Proof.
  intros Hmax. unfold with_retries. cbn [traced_clock rc_now].
  destruct (rc_now a_clock w) as [start w1].
  pose proof (retry_loop_trace (Z.to_nat (max_attempts a_policy))
    (start + budget a_policy * ns_per_ms) 0 w1 [EvNow start] ltac:(lia) ltac:(lia)) as H.
  cbn [app]. destruct (retry_loop _ _ _ _ _ _ _ _) as [r [w' l']].
  destruct H as (n & rest & -> & Ht & Hn). exists start, n, rest. split_and!; [done|done|lia].
Qed.
End Traces.

(** ** Witnesses *)

Definition sample_retry_node : json :=
  jobj [("maxAttempts", JUint 4); ("maxBackoffMs", JUint 800); ("multiplier", JFloat (f64_of_int 3))].

(** The bound on the attempts alone. *)
Lemma retry_policy_attempts node defaults p :
  1 <= max_attempts defaults -> retry_policy_from_json node defaults = Ok p -> 1 <= max_attempts p.
Proof.
  intros Hd. unfold retry_policy_from_json. destruct (negb (is_object node)); [done|].
  destruct (read_max_attempts node (max_attempts defaults)) as [attempts|] eqn:Ha; [|done].
  assert (Hle : 1 <= attempts).
  { unfold read_max_attempts in Ha. destruct (jfind node "maxAttempts") as [[]|]; simplify_eq; [|done].
    destruct ((z <? 1) || (kMaxAttemptsLimit <? z)) eqn:Hz; simplify_eq. boolify. lia. }
  intros H. repeat case_match; by simplify_eq/=.
Qed.

Lemma default_policy_valid : policy_valid default_retry_policy.
Proof. constructor; vm_compute; repeat split; discriminate. Defined.

Lemma retry_policy_from_json_valid_witness :
  policy_valid (mkRetryPolicy 4 100 800 (f64_of_int 3) (jitter default_retry_policy) 5000).
Proof.
  apply (retry_policy_from_json_valid sample_retry_node default_retry_policy).
  - intros name v H. unfold sample_retry_node in H. rewrite jfind_jobj in H. simpl in H.
    destruct (name ==s "maxAttempts"); [injection H as <-; discriminate|].
    destruct (name ==s "maxBackoffMs"); [injection H as <-; discriminate|].
    destruct (name ==s "multiplier"); discriminate H.
  - exact default_policy_valid.
  - vm_compute. reflexivity.
Defined.

Lemma backoff_bounded_witness :
  0 <= backoff_for default_retry_policy 9 <= 2000
  /\ 0 <= apply_jitter default_retry_policy (backoff_for default_retry_policy 9) f64_zero.
Proof. apply (backoff_bounded default_retry_policy 9 f64_zero). discriminate. Defined.

(** A venue that is down; the world is the time in nanoseconds. *)
Definition demo_clock : RetryClock Z :=
  mkRetryClock (fun t => (t, t + 1)) (fun d t => t + d * ns_per_ms) (fun t => (f64_zero, t)).
Definition demo_attempt (t : Z) : Result unit * Z :=
  (Err (mkError "transport" "down"), t + 1000000000).

Lemma with_retries_bounded_witness :
  let '(r, (_, l)) := with_retries default_retry_policy (traced_clock demo_clock)
                        (traced_attempt demo_attempt) (traced_retryable (fun _ _ => true)) (0, []) in
  exists start n rest, l = EvNow start :: rest
    /\ retry_trace (W:=Z) (fun _ _ => true) (start + budget default_retry_policy * ns_per_ms) n r rest
    /\ Z.of_nat n <= max_attempts default_retry_policy.
Proof.
  apply (with_retries_bounded default_retry_policy demo_clock demo_attempt (fun _ _ => true) 0).
  discriminate.
Defined.

Example backoff_sequence :
  map (backoff_for default_retry_policy) [1; 2; 3; 4; 5; 6; 7] = [100; 200; 400; 800; 1600; 2000; 2000].
Proof. vm_compute. reflexivity. Qed.

(** A retry may start at the deadline itself: the sleep is cut to end there and
    the time is not looked at again before the attempt. *)
Definition short_budget : RetryPolicy := mkRetryPolicy 3 100 100 f64_one f64_zero 50.

Definition still_venue (w : Z * list Z) : Result unit * (Z * list Z) :=
  (Err (mkError "transport" "down"), (w.1, w.2 ++ [w.1])).

Definition ns_clock : RetryClock (Z * list Z) :=
  mkRetryClock (fun w => (w.1, w)) (fun d w => (w.1 + d * ns_per_ms, w.2)) (fun w => (f64_zero, w)).

Example retry_starts_at_deadline :
  (with_retries short_budget ns_clock still_venue (fun _ _ => true) (0, [])).2.2
  = [0; budget short_budget * ns_per_ms].
Proof. vm_compute. reflexivity. Qed.
