(* ===== verification/Resolve.v ===== *)
(** * Resolve, then retry: what the venues share

    Both venues send a state-changing request, look the order up when the
    answer is lost, and send again only when the lookup permits it
    (okx_resilient.hpp, binance_resilient.hpp).  This file holds the common
    driver and the common proof: the requests and lookups of a run are written
    down with what they asked, a monitor checks the log, and
    [retry_while_safe_ok] reduces a venue's theorem to a statement about one
    attempt. *)

From S2P Require Import Prelude Retry.

(** ** The driver *)

(** A clock of the environment alone. *)
Definition lift_clock {W X : Type} (c : RetryClock W) : RetryClock (W * X) := {|
  rc_now '(w, x) := let '(t, w) := rc_now c w in (t, (w, x));
  rc_sleep d '(w, x) := (rc_sleep c d w, x);
  rc_random01 '(w, x) := let '(u, w) := rc_random01 c w in (u, (w, x)) |}.

Definition transport_error {W : Type} (e : Error) (_ : W) : bool := code e ==s "transport".

(** [with_retries] with the captured local [safe_to_resend] as the retry
    condition: the flag is the second half of the state. *)
Definition retry_while_safe {W T : Type} (a_policy : RetryPolicy) (a_clock : RetryClock W)
    (attempt : W * bool -> Result T * (W * bool)) (w : W) : Result T * W :=
  let '(result, (w, _)) :=
    with_retries a_policy (lift_clock a_clock) attempt (fun _ s => s.2) (w, false) in
  (result, w).

(** ** The requests written down *)

(** A state-changing request or a lookup, each with what was asked and the
    answer it got: [R] are the requests and [S] what they answer, [Q] the
    queries and [I] what a lookup finds. *)
Inductive Call (R Q S I : Type) :=
  | CSend (request : R) (r : Result S)
  | CGet (query : Q) (r : Result (option I)).
Arguments CSend {R Q S I} request r.
Arguments CGet {R Q S I} query r.

Definition logging {C A B W : Type} (call : A -> B -> C) (send : A -> W -> B * W) (a : A)
    (s : W * list C) : B * (W * list C) :=
  let '(w, l) := s in let '(r, w) := send a w in (r, (w, l ++ [call a r])).

(** Every request of a log is [request], and every lookup asks for [query]. *)
Definition only_about {R Q S I : Type} (request : R) (query : Q) (l : list (Call R Q S I)) : Prop :=
  Forall (fun c => match c with CSend rq _ => rq = request | CGet q _ => q = query end) l.

Definition lost {S : Type} (r : Result S) : bool :=
  match r with Err e => code e ==s "transport" | Ok _ => false end.

Definition transport_failure {A : Type} (a : Result A) : Prop :=
  exists e, a = Err e /\ code e = "transport".

(** The monitor of a log: a request may be sent first ([true], _) and again
    only right after a lookup with an answer in [permits], when the previous
    request was lost to a transport failure. *)
Fixpoint monitor {R Q S I : Type} (permits : Result (option I) -> bool) (s : bool * bool)
    (l : list (Call R Q S I)) : option (bool * bool) :=
  match l with
  | [] => Some s
  | CSend _ r :: l => if s.1 then monitor permits (false, lost r) l else None
  | CGet _ a :: l => monitor permits (s.2 && permits a, s.2) l
  end.

Definition resends_ok {R Q S I : Type} (permits : Result (option I) -> bool)
    (l : list (Call R Q S I)) : bool :=
  match monitor permits (true, false) l with Some _ => true | None => false end.

Definition says_found {I : Type} (p : I -> bool) (a : Result (option I)) : bool :=
  match a with Ok (Some info) => p info | _ => false end.

(** Success rests on the last call: its acknowledgement, or an order found. *)
Definition confirmed {R Q S I T : Type} (sent : S -> T -> Prop) (found : I -> T -> Prop) (result : T)
    (l : list (Call R Q S I)) : Prop :=
  exists before,
    (exists rq s, l = before ++ [CSend rq (Ok s)] /\ sent s result)
    \/ (exists q info, l = before ++ [CGet q (Ok (Some info))] /\ found info result).

Section Logs.
Context {R Q S I : Type}.
Implicit Types (l : list (Call R Q S I)) (permits : Result (option I) -> bool).

Lemma monitor_app permits s l1 l2 :
  monitor permits s (l1 ++ l2)
  = match monitor permits s l1 with Some s' => monitor permits s' l2 | None => None end.
Proof. revert s. induction l1 as [|[rq r|q a] l1 IH]; intros s; simpl; [done| |done]. by destruct s.1. Qed.

Lemma monitor_gets permits p x (q : Q) fs a :
  monitor (R:=R) (S:=S) permits (p, x) (map (CGet q) (fs ++ [a])) = Some (x && permits a, x).
Proof. revert p. induction fs as [|f fs IH]; intros p; simpl; [done|apply IH]. Qed.

(** The request of an attempt, then a lookup. *)
Lemma send_then_gets permits (rq : R) (r : Result S) (q : Q) fs a flag :
  (flag = true -> lost r && permits a = true) ->
  forall x, exists s, monitor permits (true, x) (CSend rq r :: map (CGet q) (fs ++ [a])) = Some s
                      /\ (flag = true -> s.1 = true).
Proof. intros Hf x. simpl. rewrite monitor_gets. by eexists. Qed.

Lemma only_about_send_gets (rq : R) (r : Result S) (q : Q) (answers : list (Result (option I))) :
  only_about rq q (CSend rq r :: map (CGet q) answers).
Proof. constructor; [done|]. induction answers; by constructor. Qed.

Lemma only_about_app rq q l1 l2 : only_about rq q l1 -> only_about rq q l2 -> only_about rq q (l1 ++ l2).
Proof. apply Forall_app_2. Qed.

Section Confirmed.
Context {T : Type} (sent : S -> T -> Prop) (found : I -> T -> Prop).

Lemma confirmed_app result l1 l2 :
  confirmed sent found result l2 -> confirmed sent found result (l1 ++ l2).
Proof.
  intros (b & [(rq & s & -> & Hs)|(q & info & -> & Hf)]); exists (l1 ++ b);
    [left; exists rq, s|right; exists q, info]; by rewrite app_assoc.
Qed.

Lemma confirmed_sent result (rq : R) s :
  sent s result -> confirmed (Q:=Q) sent found result [CSend rq (Ok s)].
Proof. exists []. left. by exists rq, s. Qed.

Lemma confirmed_get result (c : Call R Q S I) (q : Q) fs info :
  found info result -> confirmed sent found result (c :: map (CGet q) (fs ++ [Ok (Some info)])).
Proof. intros. exists (c :: map (CGet q) fs). right. exists q, info. by rewrite map_app. Qed.
End Confirmed.
End Logs.

(** ** One attempt, and the run *)

(** Retried lookups over any state that carries a log and an invariant,
    whatever is concluded from an answer: transport failures, then the answer
    that counts. *)
Section Lookups.
Context {St R Q S I T : Type} (a_policy : RetryPolicy) (a_clock : RetryClock St) (query : Q)
  (attempt : St -> Result T * St) (log : St -> list (Call R Q S I)) (inv : St -> Prop)
  (concludes : Result (option I) -> Result T -> Prop).
Context (Hattempts : 1 <= max_attempts a_policy).
Context (Hattempt : forall s, inv s -> let '(r, s') := attempt s in inv s' /\ exists a,
  log s' = log s ++ [CGet query a] /\ concludes a r
  /\ (forall e, r = Err e -> code e = "transport" -> transport_failure a)).
Context (Hnow : forall s, log (rc_now a_clock s).2 = log s /\ (inv s -> inv (rc_now a_clock s).2)).
Context (Hrandom : forall s, log (rc_random01 a_clock s).2 = log s
                            /\ (inv s -> inv (rc_random01 a_clock s).2)).
Context (Hsleep : forall d s, log (rc_sleep a_clock d s) = log s /\ (inv s -> inv (rc_sleep a_clock d s))).

Lemma gets_log_rule s :
  inv s -> let '(r, s') := with_retries a_policy a_clock attempt transport_error s in
  exists fs a, log s' = log s ++ map (CGet query) (fs ++ [a])
    /\ Forall transport_failure fs /\ concludes a r.
Proof.
  intros Hs.
  apply (with_retries_rule a_policy a_clock attempt transport_error
    (fun s1 => inv s1 /\ exists fs, log s1 = log s ++ map (CGet query) fs /\ Forall transport_failure fs)
    (fun r s1 => exists fs a, log s1 = log s ++ map (CGet query) (fs ++ [a]) /\ Forall transport_failure fs
                              /\ concludes a r)); [| | | | |done|].
  - intros s1 (Hi & fs & Hl & Hfs). specialize (Hattempt s1 Hi). destruct (attempt s1) as [r s2].
    destruct Hattempt as (Hi2 & a & Hl2 & Hc & Ht). rewrite Hl in Hl2. split.
    + exists fs, a. by rewrite Hl2, map_app, app_assoc.
    + intros e -> He. split; [done|]. exists (fs ++ [a]). split; [by rewrite Hl2, map_app, app_assoc|].
      apply Forall_app_2; [done|]. apply Forall_singleton, (Ht e); [done|].
      by apply streqb_true in He.
  - intros s1 (Hi & H). destruct (Hnow s1) as [-> Hn]. auto.
  - intros r s1 H. by destruct (Hnow s1) as [-> _].
  - intros s1 (Hi & H). destruct (Hrandom s1) as [-> Hn]. auto.
  - intros d s1 (Hi & H). destruct (Hsleep d s1) as [-> Hn]. auto.
  - split; [done|]. exists []. by rewrite app_nil_r.
Qed.
End Lookups.

Section Traces.
Context {W R Q S I T : Type} (a_policy : RetryPolicy) (a_clock : RetryClock W).
Context (Hattempts : 1 <= max_attempts a_policy).
Local Notation clock := (lift_clock (X:=list (Call R Q S I)) a_clock).

(** [gets_log_rule] for lookups that only change the environment. *)
Lemma gets_log (get : Q -> W -> Result (option I) * W)
    (conc : Result (option I) -> Result T) q w l :
  (forall a e, conc a = Err e -> code e = "transport" -> transport_failure a) ->
  let '(r, (_, l')) := with_retries a_policy clock
    (fun s => let '(result, s) := logging CGet get q s in (conc result, s)) transport_error (w, l) in
  exists fs a, l' = l ++ map (CGet q) (fs ++ [a]) /\ Forall transport_failure fs /\ r = conc a.
Proof.
  intros Hconc.
  unshelve epose proof (gets_log_rule a_policy clock q
    (fun s => let '(result, s) := logging CGet get q s in (conc result, s)) snd (fun _ => True)
    (fun a r => r = conc a) Hattempts _ _ _ _ (w, l) Logic.I) as H.
  - intros [w1 l1] _. simpl. destruct (get q w1) as [a w2]. split; [done|].
    exists a. split_and!; [done|done|]. by apply Hconc.
  - intros [w1 l1]. simpl. by destruct (rc_now a_clock w1).
  - intros [w1 l1]. simpl. by destruct (rc_random01 a_clock w1).
  - by intros d [w1 l1].
  - by destruct (with_retries _ _ _ _ _) as [r [w' l']].
Qed.

(** One attempt: it sends [rq] and looks up [q] only, what it sends is permitted
    when it starts permitted, a retry is asked for only with permission, a
    success is confirmed. *)
Definition attempt_ok (rq : R) (q : Q) (permits : Result (option I) -> bool) (sent : S -> T -> Prop)
    (found : I -> T -> Prop)
    (attempt : (W * list (Call R Q S I)) * bool -> Result T * ((W * list (Call R Q S I)) * bool)) : Prop :=
  forall w l b, let '(r, ((_, l'), flag)) := attempt ((w, l), b) in
    exists calls, l' = l ++ calls /\ only_about rq q calls
      /\ (forall x, exists s, monitor permits (true, x) calls = Some s /\ (flag = true -> s.1 = true))
      /\ (forall result, r = Ok result -> confirmed sent found result calls).

Lemma retry_while_safe_ok rq q permits sent found attempt w :
  attempt_ok rq q permits sent found attempt ->
  let '(r, (_, l)) := retry_while_safe a_policy clock attempt (w, []) in
  only_about rq q l /\ resends_ok permits l = true /\ forall result, r = Ok result -> confirmed sent found result l.
Proof.
  intros Hok. unfold retry_while_safe, resends_ok.
  unshelve epose proof (with_retries_rule a_policy (lift_clock clock) attempt
    (fun _ s => s.2)
    (fun s => only_about rq q s.1.2
              /\ exists st, monitor permits (true, false) s.1.2 = Some st /\ st.1 = true)
    (fun r s => only_about rq q s.1.2 /\ (exists st, monitor permits (true, false) s.1.2 = Some st)
                /\ forall result, r = Ok result -> confirmed sent found result s.1.2)
    _ _ _ _ _ ((w, []), false) Hattempts _) as Hrule.
  - intros [[w1 l1] b] (Habout & [p x] & Hl & Hp). simpl in Hl, Hp. subst p.
    specialize (Hok w1 l1 b). destruct (attempt _) as [r [[w2 l2] flag]].
    destruct Hok as (calls & -> & Hcalls & Hmon & Hack). destruct (Hmon x) as (s & Hs & Hflag).
    assert (Hall : monitor permits (true, false) (l1 ++ calls) = Some s)
      by (by rewrite monitor_app, Hl).
    pose proof (only_about_app _ _ _ _ Habout Hcalls) as Hall2.
    simpl. split; [split_and!; [done|by exists s|]|].
    + intros ack Hr. by apply confirmed_app, Hack.
    + intros e _ Hf. split; [done|]. exists s. split; [done|by apply Hflag].
  - intros [[w1 l1] b] H. simpl. by destruct (rc_now a_clock w1).
  - intros r [[w1 l1] b] H. simpl. by destruct (rc_now a_clock w1).
  - intros [[w1 l1] b] H. simpl. by destruct (rc_random01 a_clock w1).
  - intros d [[w1 l1] b] H. done.
  - split; [constructor|]. by exists (true, false).
  - destruct (with_retries _ _ _ _ _) as [r [[w' l'] b]].
    destruct Hrule as (Habout & [st Hst] & Hack). simpl in Hst. rewrite Hst. done.
Qed.
End Traces.

(** A clock that does not move, for examples. *)
Definition still_clock : RetryClock Z :=
  mkRetryClock (fun w => (0, w)) (fun _ w => w) (fun w => (f64_zero, w)).

(** Prove [attempt_ok] of a branch that made only its request, or its request
    and the lookup with the answers [fs ++ [a]]. *)
Ltac sent_only rq r :=
  exists [CSend rq r]; split_and!;
  [done|exact (only_about_send_gets rq r _ [])|intros ?; by eexists
  |let k := fresh in let H := fresh in
   intros k H; try done; try (injection H as H; subst k); try (by apply confirmed_sent)].

Ltac looked_up rq r q fs a :=
  exists (CSend rq r :: map (CGet q) (fs ++ [a])); split_and!;
  [by rewrite <- app_assoc|apply only_about_send_gets|apply send_then_gets; try done|try (intros ? ?; discriminate)].
