(* ===== verification/VenueAccount.v ===== *)
(** * What a venue has accepted: the account of places

    [accepted id w] counts the places with the client order id [id] that the
    venues have accepted in the world [w].  This file says what a request may do
    to the account ([quiet], [places_one]), what a connector promises of it to
    the core ([PlacesOnce]), and carries both through the retry driver.  The
    account is of the venue's side: nothing the gateway keeps is counted. *)

From S2P Require Import Prelude Types Retry Resolve.

Section Account.
Context {W : Type} (accepted : string -> W -> nat).

Definition keeps (w w' : W) : Prop := forall id, accepted id w' = accepted id w.
Definition keeps_others (own : string) (w w' : W) : Prop :=
  forall id, id <> own -> accepted id w' = accepted id w.

#[global] Instance keeps_equivalence : Equivalence keeps.
Proof. split; [by intros w id|by intros w w' H id|intros w1 w2 w3 H1 H2 id; by rewrite H2]. Qed.
#[global] Instance keeps_others_equivalence own : Equivalence (keeps_others own).
Proof.
  split; [by intros w id|intros w w' H id Hid; by rewrite H|].
  intros w1 w2 w3 H1 H2 id Hid. by rewrite H2, H1.
Qed.
#[global] Instance keeps_subrelation own : subrelation keeps (keeps_others own).
Proof. intros w w' H id _. apply H. Qed.

(** A request that accepts nothing. *)
Definition quiet {B : Type} (f : W -> B * W) : Prop := forall w, keeps w (f w).2.

(** One request for an order [own]: answered or not, the venue accepts it at
    most once, and it has done so when it says so. *)
Definition places_one {B : Type} (own : string) (f : W -> Result B * W) : Prop := forall w,
  let '(r, w') := f w in
  keeps_others own w w'
  /\ (accepted own w' = accepted own w \/ accepted own w' = S (accepted own w))
  /\ forall b, r = Ok b -> accepted own w' = S (accepted own w).

(** However many requests are sent: of an order that was not accepted, at most
    one is, and exactly one when the result is a success. *)
Definition places_once {B : Type} (own : string) (f : W -> Result B * W) : Prop := forall w,
  let '(r, w') := f w in
  keeps_others own w w'
  /\ (accepted own w = 0%nat ->
      (accepted own w' <= 1)%nat /\ forall b, r = Ok b -> accepted own w' = 1%nat).

(** Reading the clock, sleeping and drawing a random number accept nothing: a
    request that was lost does not arrive later. *)
Class QuietClock (clock : RetryClock W) : Prop := {
  qc_now : quiet (rc_now clock);
  qc_random : quiet (rc_random01 clock);
  qc_sleep d w : keeps w (rc_sleep clock d w) }.

(** A connector whose requests other than places accept nothing. *)
Class QuietRequests (conn : ExchangeConnector W) : Prop := {
  qr_cancel request : quiet (cancel_order request);
  qr_amend request : quiet (amend_order request);
  qr_get query : quiet (get_order query);
  qr_open : quiet get_open_orders;
  qr_price symbol : quiet (get_price symbol) }.

(** What the core may rely on. *)
Class PlacesOnce (conn : ExchangeConnector W) : Prop := {
  po_place request : places_once (rq_client_order_id request) (place_order request);
  po_requests : QuietRequests conn }.

(** A connector to another venue than the one the account is of. *)
Class PlacesElsewhere (conn : ExchangeConnector W) : Prop := {
  pe_place request : quiet (place_order request);
  pe_requests : QuietRequests conn }.

(** A place whose answer is only made stricter. *)
Lemma places_once_answer {B C} own (f : W -> Result B * W) (g : Result B -> Result C) :
  places_once own f -> (forall r c, g r = Ok c -> exists b, r = Ok b) ->
  places_once own (fun w => let '(r, w) := f w in (g r, w)).
Proof.
  intros Hf Hg w. specialize (Hf w). destruct (f w) as [r w']. destruct Hf as [Ho H].
  split; [done|]. intros H0. destruct (H H0) as [Hle Hok]. split; [done|].
  intros c Hc. destruct (Hg r c Hc) as [b ->]. by apply (Hok b).
Qed.

Lemma quiet_answer {B C} (f : W -> B * W) (g : B -> C) :
  quiet f -> quiet (fun w => let '(b, w) := f w in (g b, w)).
Proof. intros Hf w. specialize (Hf w). by destruct (f w). Qed.

(** ** Through the retry driver *)

(** What a lookup's result says about the order [own]: [Some true] seen,
    [Some false] unknown to the venue. *)
Definition tells {T : Type} (own : string) (sight : T -> option bool) (t : T) (w : W) : Prop :=
  match sight t with
  | Some true => accepted own w <> 0%nat
  | Some false => accepted own w = 0%nat
  | None => True
  end.

Section Driver.
Context (policy : RetryPolicy) (clock : RetryClock W) `{!QuietClock clock}.
Context (Hattempts : 1 <= max_attempts policy).

Lemma retried_tells {T} own (sight : T -> option bool) (attempt : W -> Result T * W) retryable w :
  (forall w1, let '(r, w2) := attempt w1 in
     keeps w1 w2 /\ forall t, r = Ok t -> tells own sight t w2) ->
  let '(r, w') := with_retries policy clock attempt retryable w in
  keeps w w' /\ forall t, r = Ok t -> tells own sight t w'.
Proof.
  intros Ha.
  apply (with_retries_rule policy clock attempt retryable (keeps w)
    (fun r w' => keeps w w' /\ forall t, r = Ok t -> tells own sight t w')); [| | | | |done|done].
  - intros w1 H1. specialize (Ha w1). destruct (attempt w1) as [r w2]. destruct Ha as [H2 Ht].
    assert (keeps w w2) by by etrans. by split.
  - intros w1 H1. etrans; [exact H1|apply qc_now].
  - intros r w1 [H1 Ht]. split; [etrans; [exact H1|apply qc_now]|].
    intros t Hr. specialize (Ht t Hr). unfold tells in *. by rewrite (qc_now w1 own).
  - intros w1 H1. etrans; [exact H1|apply qc_random].
  - intros d w1 H1. etrans; [exact H1|apply qc_sleep].
Qed.

Lemma retries_quiet {T} (attempt : W -> Result T * W) retryable :
  quiet attempt -> quiet (with_retries policy clock attempt retryable).
Proof.
  intros Ha w.
  pose proof (retried_tells "" (fun _ => None) attempt retryable w) as H.
  destruct (with_retries _ _ _ _ _) as [r w']. apply H.
  intros w1. specialize (Ha w1). destruct (attempt w1). by split.
Qed.
End Driver.
End Account.

#[global] Existing Instance po_requests.
#[global] Existing Instance pe_requests.

(** ** The account of several venues *)

(** The account of a connector's venue, added to those of the others. *)
Lemma places_once_total {W : Type} (here elsewhere total : string -> W -> nat) (conn : ExchangeConnector W) :
  (forall id w, total id w = here id w + elsewhere id w)%nat ->
  PlacesOnce here conn -> PlacesElsewhere elsewhere conn -> PlacesOnce total conn.
Proof.
  intros Ht [Hp [Hc Ha Hg Ho Hpr]] [Hp' [Hc' Ha' Hg' Ho' Hpr']].
  assert (Hq : forall {B} (f : W -> B * W), quiet here f -> quiet elsewhere f -> quiet total f).
  { intros B f H1 H2 w id. by rewrite !Ht, (H1 w id), (H2 w id). }
  split; [|split; auto].
  intros request w. specialize (Hp request w). specialize (Hp' request w).
  destruct (place_order request w) as [r w']. destruct Hp as [Hk H]. simpl in Hp'. split.
  - intros id Hid. by rewrite !Ht, (Hk id Hid), (Hp' id).
  - rewrite !Ht, (Hp' _). intros H0. assert (H0' : here (rq_client_order_id request) w = 0%nat) by lia.
    destruct (H H0') as [Hle Hok]. split; [lia|]. intros b Hb. rewrite (Hok b Hb). lia.
Qed.

(** The account of a world that carries more. *)
Definition first_account {W X : Type} (accepted : string -> W -> nat) (id : string) (s : W * X) : nat :=
  accepted id s.1.

#[global] Instance lift_quiet_clock {W X} accepted (clock : RetryClock W) :
  QuietClock accepted clock -> QuietClock (first_account (X:=X) accepted) (lift_clock clock).
Proof.
  intros [Hn Hr Hs]. split.
  - intros [w x] id. specialize (Hn w id). simpl. by destruct (rc_now clock w).
  - intros [w x] id. specialize (Hr w id). simpl. by destruct (rc_random01 clock w).
  - intros d [w x] id. apply Hs.
Qed.

(** ** Resolve, then retry *)

Section Resolved.
Context {W : Type} (accepted : string -> W -> nat).
Context (policy : RetryPolicy) (clock : RetryClock W) `{!QuietClock accepted clock}.
Context (Hattempts : 1 <= max_attempts policy).

(** One attempt; the flag permits another one only while nothing was accepted. *)
Definition attempts_once {T : Type} (own : string)
    (attempt : W * bool -> Result T * (W * bool)) : Prop := forall s,
  let '(r, s') := attempt s in
  keeps_others accepted own s.1 s'.1
  /\ (accepted own s.1 = 0%nat ->
      (accepted own s'.1 <= 1)%nat /\ (forall t, r = Ok t -> accepted own s'.1 = 1%nat)
      /\ (s'.2 = true -> accepted own s'.1 = 0%nat)).

Lemma account_kept own w (Q : nat -> Prop) (s s' : W * bool) :
  keeps (first_account accepted) s s' -> keeps_others accepted own w s.1 /\ Q (accepted own s.1) ->
  keeps_others accepted own w s'.1 /\ Q (accepted own s'.1).
Proof.
  intros Hk [Ho HQ]. unfold keeps, first_account in Hk. split; [|by rewrite Hk].
  intros id Hid. by rewrite Hk, Ho.
Qed.

Lemma retry_while_safe_once {T} own (attempt : W * bool -> Result T * (W * bool)) :
  attempts_once own attempt -> places_once accepted own (retry_while_safe policy clock attempt).
Proof.
  intros Ha w. unfold retry_while_safe.
  pose (before := fun n : nat => accepted own w = 0%nat -> n = 0%nat).
  pose (after := fun (r : Result T) (n : nat) =>
    accepted own w = 0%nat -> (n <= 1)%nat /\ forall t, r = Ok t -> n = 1%nat).
  unshelve epose proof (with_retries_rule policy (lift_clock clock) attempt (fun _ s => s.2)
    (fun s => keeps_others accepted own w s.1 /\ before (accepted own s.1))
    (fun r s => keeps_others accepted own w s.1 /\ after r (accepted own s.1))
    _ _ _ _ _ (w, false) Hattempts _) as H.
  - intros s [Ho H0]. specialize (Ha s). destruct (attempt s) as [r s'].
    destruct Ha as [Ho' H']. assert (keeps_others accepted own w s'.1) by by etrans.
    split; [|intros e _ Hf; simpl in Hf]; (split; [done|]); intros Hw;
      destruct (H' (H0 Hw)) as (? & ? & ?); by auto.
  - intros s. apply account_kept, (qc_now _ (clock:=lift_clock clock)).
  - intros r s. apply (account_kept _ _ (after r)), (qc_now _ (clock:=lift_clock clock)).
  - intros s. apply account_kept, (qc_random _ (clock:=lift_clock clock)).
  - intros d s. apply account_kept, (qc_sleep _ (clock:=lift_clock clock)).
  - split; [reflexivity|by intros H0].
  - destruct (with_retries _ _ _ _ _) as [r [w' b]]. exact H.
Qed.

Lemma retry_while_safe_quiet {T} (attempt : W * bool -> Result T * (W * bool)) :
  quiet (first_account accepted) attempt -> quiet accepted (retry_while_safe policy clock attempt).
Proof.
  intros Ha w. unfold retry_while_safe.
  pose proof (retries_quiet (first_account accepted) policy (lift_clock clock) Hattempts attempt
                (fun _ s => s.2) Ha (w, false)) as H.
  by destruct (with_retries _ _ _ _ _) as [r [w' b]].
Qed.

(** A place that was answered, or an error that the lookup has settled. *)
Lemma place_settled {T} own (f : W -> Result T * W) w :
  places_one accepted own f -> let '(r, w1) := f w in
  keeps_others accepted own w w1
  /\ (accepted own w = 0%nat -> (accepted own w1 <= 1)%nat
      /\ forall t, r = Ok t -> accepted own w1 = 1%nat).
Proof.
  intros Hf. specialize (Hf w). destruct (f w) as [r w1]. destruct Hf as (Ho & Hc & Hok).
  split; [done|]. intros H0. rewrite H0 in Hc, Hok. split; [lia|exact Hok].
Qed.
End Resolved.
