(* ===== verification/Config.v ===== *)
(** * Gateway configuration: src/core/config.hpp and config.cpp

    [load_config] on the parsed file; opening the file and parsing JSON are the
    environment's. *)

From S2P Require Import Prelude Json Risk RiskFacts.

Record GatewayConfig := mkGatewayConfig {
  rest_port : Z;
  persistence_log : option string;
  latency_log : option string;
  cfg_risk : RiskConfig;
  cfg_default_venue : string;
  audit_interval_ms : Z;
  okx : json;
  binance : json }.

Definition default_config : GatewayConfig :=
  mkGatewayConfig 8080 None None (mkRiskConfig None ∅) "okx" 30000 (JObject []) (JObject []).

Definition kMinPort : Z := 1.
Definition kMaxPort : Z := 65535.
Definition kMaxAuditIntervalMs : Z := 86400000.

Definition config_error (text : string) : Error := mkError "protocol" text.

(** The unsigned number [name] of an object, with the error otherwise. *)
Definition unsigned_member (node : json) (name : string) (error : Error) : Result Z :=
  match node with
  | JObject _ => match jfind node name with Some (JUint v) => Ok v | _ => Err error end
  | _ => Err error
  end.

Definition string_member (node : json) (name : string) (error : Error) : Result string :=
  match node with
  | JObject _ => match jfind node name with Some (JString s) => Ok s | _ => Err error end
  | _ => Err error
  end.

Definition read_port (root : json) : Result Z :=
  match jfind root "rest" with
  | None => Ok (rest_port default_config)
  | Some rest =>
      let! port := unsigned_member rest "port" (config_error
        ("rest section must be an object with unsigned numeric " +:+ dquote +:+ "port" +:+ dquote)) in
      if (port <? kMinPort) || (kMaxPort <? port)
      then Err (config_error "rest.port is out of range [1, 65535]") else Ok port
  end.

Definition read_log_path (root : json) (section : string) : Result (option string) :=
  match jfind root section with
  | None => Ok None
  | Some node =>
      let! path := string_member node "logPath" (config_error
        (section +:+ " section must be an object with string " +:+ dquote +:+ "logPath" +:+ dquote)) in
      Ok (Some path)
  end.

Definition read_risk (root : json) : Result RiskConfig :=
  match jfind root "risk" with
  | None => Ok (cfg_risk default_config)
  | Some node => risk_config_from_json node
  end.

Definition read_venue_section (root : json) (name : string) : Result json :=
  match jfind root name with
  | None => Ok (JObject [])
  | Some node =>
      if negb (is_object node)
      then Err (config_error (name +:+ " section must be a JSON object")) else Ok node
  end.

Definition read_default_venue (root : json) : Result string :=
  match jfind root "defaultVenue" with
  | None => Ok (cfg_default_venue default_config)
  | Some (JString s) => Ok s
  | Some _ => Err (config_error "defaultVenue must be a string")
  end.

Definition read_audit (root : json) : Result Z :=
  match jfind root "audit" with
  | None => Ok (audit_interval_ms default_config)
  | Some audit =>
      let! interval := unsigned_member audit "intervalMs" (config_error
        ("audit section must be an object with unsigned numeric " +:+ dquote +:+ "intervalMs"
         +:+ dquote)) in
      if kMaxAuditIntervalMs <? interval
      then Err (config_error "audit.intervalMs is out of range [0, 86400000]") else Ok interval
  end.

(** [file]: [None] when it cannot be opened, [Some None] when the parser
    discards it. *)
Definition load_config (a_path : string) (file : option (option json)) : Result GatewayConfig :=
  match file with
  | None => Err (mkError "io" ("cannot open config file: " +:+ a_path))
  | Some None => Err (config_error ("config file is not valid JSON: " +:+ a_path))
  | Some (Some root) =>
      if negb (is_object root) then Err (config_error "config root must be a JSON object")
      else
        let! port := read_port root in
        let! persistence := read_log_path root "persistence" in
        let! latency := read_log_path root "latency" in
        let! risk := read_risk root in
        let! okx_section := read_venue_section root "okx" in
        let! binance_section := read_venue_section root "binance" in
        let! venue := read_default_venue root in
        let! interval := read_audit root in
        Ok (mkGatewayConfig port persistence latency risk venue interval okx_section
              binance_section)
  end.

Record config_valid (c : GatewayConfig) : Prop := {
  cv_port : kMinPort <= rest_port c <= kMaxPort;
  cv_audit : audit_interval_ms c <= kMaxAuditIntervalMs;
  cv_okx : is_object (okx c) = true;
  cv_binance : is_object (binance c) = true;
  cv_risk : config_ok (cfg_risk c) }.

Lemma read_port_range root p : read_port root = Ok p -> kMinPort <= p <= kMaxPort.
Proof.
  unfold read_port, unsigned_member, kMinPort, kMaxPort. intros H.
  destruct (jfind root "rest") as [rest|]; [|simplify_eq; simpl; lia].
  destruct rest; try done. destruct (jfind _ "port") as [[]|]; try done.
  destruct (Z.ltb_spec z 1), (Z.ltb_spec 65535 z); simplify_eq/=. lia.
Qed.

Lemma read_audit_range root p : read_audit root = Ok p -> p <= kMaxAuditIntervalMs.
Proof.
  unfold read_audit, unsigned_member, kMaxAuditIntervalMs. intros H.
  destruct (jfind root "audit") as [node|]; [|simplify_eq; simpl; lia].
  destruct node; try done. destruct (jfind _ "intervalMs") as [[]|]; try done.
  destruct (Z.ltb_spec 86400000 z); simplify_eq. lia.
Qed.

Lemma read_venue_section_object root name j :
  read_venue_section root name = Ok j -> is_object j = true.
Proof.
  unfold read_venue_section. intros H. destruct (jfind root name) as [node|]; [|by simplify_eq].
  by destruct (is_object node) eqn:E; simplify_eq/=.
Qed.

(** A configuration that loads is usable: the port and the audit interval are in range, the
    venue sections are objects and the risk limits parse. *)
Theorem load_config_valid a_path file c :
  load_config a_path file = Ok c -> config_valid c.
Proof.
  unfold load_config. intros H. destruct file as [[root|]|]; try done.
  destruct (is_object root); [|done]. simpl in H.
  destruct (read_port root) eqn:Hp; [|done].
  destruct (read_log_path root "persistence"); [|done].
  destruct (read_log_path root "latency"); [|done].
  destruct (read_risk root) eqn:Hr; [|done].
  destruct (read_venue_section root "okx") eqn:Ho; [|done].
  destruct (read_venue_section root "binance") eqn:Hb; [|done].
  destruct (read_default_venue root); [|done].
  destruct (read_audit root) eqn:Ha; [|done]. injection H as <-.
  constructor; simpl; eauto using read_port_range, read_audit_range, read_venue_section_object.
  unfold read_risk in Hr. destruct (jfind root "risk"); [by eapply risk_config_ok|].
  injection Hr as <-. by split; [|apply map_Forall_empty].
Qed.

Lemma load_config_valid_witness :
  config_valid (mkGatewayConfig 9000 (Some "orders.jsonl") None (mkRiskConfig None ∅) "okx" 30000
                  (JObject []) (JObject [])).
Proof.
  apply (load_config_valid "gateway.json"
    (Some (Some (jobj [("rest", jobj [("port", JUint 9000)]);
                       ("persistence", jobj [("logPath", JString "orders.jsonl")])])))).
  vm_compute. reflexivity.
Defined.
