(* ===== verification/OkxWire.v ===== *)
(** * OKX wire codec: src/exchange/okx/okx_wire.hpp and okx_wire.cpp

    Request bodies, query strings and the parsing of the venue's items.  The
    text of a JSON value ([dump]) is the library's, a parameter of the fields
    that are not strings. *)

From S2P Require Import Prelude Types Json.

Record OkxPlaceRequest := mkOkxPlaceRequest {
  xp_cl_ord_id : string;
  xp_inst_id : string;
  xp_side : string;
  xp_ord_type : string;
  xp_px : string;
  xp_sz : string;
  xp_td_if : string;
  xp_td_mode : string }.

Record OkxCxlRequest := mkOkxCxlRequest { xc_inst_id : string; xc_cl_ord_id : string }.

Record OkxAmendRequest := mkOkxAmendRequest {
  xa_inst_id : string;
  xa_cl_ord_id : string;
  xa_new_px : option string;
  xa_new_sz : option string }.

Record OkxQuery := mkOkxQuery { xq_inst_id : string; xq_cl_ord_id : string }.

Record OkxDemoBalanceAdjustment := mkOkxAdjustment { adj_ccy : string; adj_amt : string }.

Record OkxDemoBalanceRequest := mkOkxDemoBalanceRequest {
  demo_type : string;
  demo_adjustments : list OkxDemoBalanceAdjustment }.

Record OkxOrderAck := mkOkxOrderAck {
  xk_ord_id : string;
  xk_cl_ord_id : string;
  xk_s_code : string;
  xk_s_msg : string }.

Record OkxOrderInfo := mkOkxOrderInfo {
  xi_ord_id : string;
  xi_cl_ord_id : string;
  xi_inst_id : string;
  xi_state : string;
  xi_side : string;
  xi_ord_type : string;
  xi_px : string;
  xi_sz : string;
  xi_avg_px : string;
  xi_acc_fill_sz : string }.

Definition empty_info : OkxOrderInfo := mkOkxOrderInfo "" "" "" "" "" "" "" "" "" "".

(** ** Enumerations *)

Definition map_okx_state (a_state : string) : option OrderState :=
  if a_state ==s "live" then Some Live
  else if a_state ==s "partially_filled" then Some PartiallyFilled
  else if a_state ==s "filled" then Some Filled
  else if a_state ==s "canceled" then Some Canceled
  else None.

Definition map_okx_side (a_side : string) : option Side :=
  if a_side ==s "buy" then Some Buy
  else if a_side ==s "sell" then Some Sell
  else None.

(** ** Bodies *)

Definition place_to_json (a_request : OkxPlaceRequest) : json :=
  let body := jobj [("clOrdId", JString (xp_cl_ord_id a_request));
                    ("instId", JString (xp_inst_id a_request));
                    ("tdMode", JString (xp_td_mode a_request));
                    ("side", JString (xp_side a_request));
                    ("ordType", JString (xp_ord_type a_request));
                    ("px", JString (xp_px a_request));
                    ("sz", JString (xp_sz a_request))] in
  let body := if str_empty (xp_px a_request) then jerase body "px" else body in
  if negb (str_empty (xp_td_if a_request))
  then jset body "tdIf" (JString (xp_td_if a_request)) else body.

Definition cancel_to_json (a_request : OkxCxlRequest) : json :=
  jobj [("instId", JString (xc_inst_id a_request)); ("clOrdId", JString (xc_cl_ord_id a_request))].

Definition amend_to_json (a_request : OkxAmendRequest) : Result json :=
  if is_none (xa_new_px a_request) && is_none (xa_new_sz a_request)
  then Err (mkError "protocol" "amend requires newPx and/or newSz")
  else
    let body := jobj [("instId", JString (xa_inst_id a_request));
                      ("clOrdId", JString (xa_cl_ord_id a_request))] in
    let body := match xa_new_px a_request with
                | Some px => jset body "newPx" (JString px) | None => body end in
    let body := match xa_new_sz a_request with
                | Some sz => jset body "newSz" (JString sz) | None => body end in
    Ok body.

Definition demo_to_json (a_request : OkxDemoBalanceRequest) : json :=
  jobj [("type", JString (demo_type a_request));
        ("adjustments", JArray (map (fun adjustment =>
           jobj [("ccy", JString (adj_ccy adjustment)); ("amt", JString (adj_amt adjustment))])
           (demo_adjustments a_request)))].

(** ** Percent-encoding *)

Definition unreserved (c : ascii) : bool :=
  ch_between "A" "Z" c || ch_between "a" "z" c || is_digit c
  || Ascii.eqb c "-" || Ascii.eqb c "_" || Ascii.eqb c "." || Ascii.eqb c "~".

Definition hex_digit (n : N) : ascii :=
  if (n <? 10)%N then ascii_of_N (48 + n) else ascii_of_N (55 + n).

Fixpoint url_encode (a_value : string) : string :=
  match a_value with
  | EmptyString => EmptyString
  | String c rest =>
      if unreserved c then String c (url_encode rest)
      else String "%" (String (hex_digit (N.shiftr (byte_of c) 4))
                         (String (hex_digit (N.land (byte_of c) 15)) (url_encode rest)))
  end.

Definition to_query (a_query : OkxQuery) : string :=
  "instId=" +:+ url_encode (xq_inst_id a_query) +:+ "&clOrdId=" +:+ url_encode (xq_cl_ord_id a_query).

(** ** Items *)

Section Items.
Context (dump : json -> string).

Definition field_string (a_item : json) (a_name : string) : string :=
  match jfind a_item a_name with
  | None | Some JNull => ""
  | Some (JString s) => s
  | Some value => dump value
  end.

Definition parse_order_ack (a_item : json) : OkxOrderAck :=
  mkOkxOrderAck (field_string a_item "ordId") (field_string a_item "clOrdId")
    (field_string a_item "sCode") (field_string a_item "sMsg").

Definition parse_order_info (a_item : json) : OkxOrderInfo :=
  mkOkxOrderInfo (field_string a_item "ordId") (field_string a_item "clOrdId")
    (field_string a_item "instId") (field_string a_item "state") (field_string a_item "side")
    (field_string a_item "ordType") (field_string a_item "px") (field_string a_item "sz")
    (field_string a_item "avgPx") (field_string a_item "accFillSz").
End Items.

(** ** What the encoder guarantees *)

Definition hex_value (c : ascii) : option N :=
  if is_digit c then Some (byte_of c - 48)%N
  else if ch_between "A" "F" c then Some (byte_of c - 55)%N
  else None.

(** The decoding a server applies to a query component. *)
Fixpoint url_decode (s : string) : option string :=
  match s with
  | EmptyString => Some EmptyString
  | String c rest =>
      if Ascii.eqb c "%" then
        match rest with
        | String h (String l rest') =>
            match hex_value h, hex_value l, url_decode rest' with
            | Some x, Some y, Some d => Some (String (ascii_of_N (16 * x + y)) d)
            | _, _, _ => None
            end
        | _ => None
        end
      else match url_decode rest with Some d => Some (String c d) | None => None end
  end.

Definition query_char (c : ascii) : bool := unreserved c || Ascii.eqb c "%".

(** One escape: a check over the 256 bytes. *)
Definition escape_ok (c : ascii) : bool :=
  let h := hex_digit (N.shiftr (byte_of c) 4) in
  let l := hex_digit (N.land (byte_of c) 15) in
  query_char h && query_char l &&
  match hex_value h, hex_value l with
  | Some x, Some y => Ascii.eqb (ascii_of_N (16 * x + y)) c
  | _, _ => false
  end && (if unreserved c then negb (Ascii.eqb c "%") else true).

Lemma escape_ok_all c : escape_ok c = true.
Proof. destruct c as [[] [] [] [] [] [] [] []]; vm_compute; reflexivity. Qed.

(** Percent-encoding round-trips for every byte string and its output holds only unreserved
    characters and escapes, so that a value never breaks out of its query component. *)
Theorem url_encode_roundtrip s :
  url_decode (url_encode s) = Some s /\ str_forallb query_char (url_encode s) = true.
Proof.
  induction s as [|c s [IHd IHq]]; [done|]. pose proof (escape_ok_all c) as Hc.
  unfold escape_ok in Hc. simpl. destruct (unreserved c) eqn:Hu.
  - apply andb_prop in Hc as [_ Hc]. apply negb_true_iff in Hc. simpl.
    rewrite Hc, IHd. split; [done|]. unfold query_char at 1. by rewrite Hu.
  - apply andb_prop in Hc as [Hc _]. apply andb_prop in Hc as [Hc Hv].
    apply andb_prop in Hc as [Hh Hl].
    set (h := hex_digit (N.shiftr (byte_of c) 4)) in *.
    set (l := hex_digit (N.land (byte_of c) 15)) in *. simpl.
    destruct (hex_value h), (hex_value l); try done. rewrite IHd.
    apply Ascii.eqb_eq in Hv. rewrite Hv, Hh, Hl, IHq. done.
Qed.
