(* ===== verification/OkxClient.v ===== *)
(** * OKX REST client: src/exchange/okx/okx_rest_client.hpp, okx_rest_client.cpp and okx_signer.cpp

    Configuration, request signing, the envelope and the classification of
    failures, and one request per trade endpoint.  The network, the time stamp,
    the JSON library and the keyed hash are parameters: [http_send] answers
    [None] when no HTTP response came back. *)

From S2P Require Import Prelude Types Json Retry OkxWire.

(** ** Configuration *)

Record OkxWsConfig := mkOkxWsConfig {
  ws_enabled : bool;
  ws_host : string;
  ws_port : Z;
  ws_use_tls : bool;
  ws_path : string;
  ping_interval : Z;
  max_missed_pongs : Z }.

Record OkxConfig := mkOkxConfig {
  api_key : string;
  secret_key : string;
  passphrase : string;
  host : string;
  port : Z;
  use_tls : bool;
  demo_trading : bool;
  rest_connect_timeout_ms : Z;
  rest_read_timeout_ms : Z;
  retry : RetryPolicy;
  ws : OkxWsConfig }.

Definition default_ws : OkxWsConfig :=
  mkOkxWsConfig true "ws.okx.com" 8443 true "/ws/v5/private" 20000 2.

Definition okx_string_field (a_node : json) (a_name : string) : option string :=
  jstring a_node a_name.

Definition okx_error (text : string) : Error := mkError "protocol" text.

(** An optional unsigned number in a range. *)
Definition ranged_field (a_node : json) (a_name : string) (lo hi a_default : Z) (text : string)
    : Result Z :=
  match jfind a_node a_name with
  | None => Ok a_default
  | Some (JUint v) => if (v <? lo) || (hi <? v) then Err (okx_error text) else Ok v
  | Some _ => Err (okx_error text)
  end.

Definition bool_field (a_node : json) (a_name : string) (a_default : bool) (text : string)
    : Result bool :=
  match jfind a_node a_name with
  | None => Ok a_default
  | Some (JBool b) => Ok b
  | Some _ => Err (okx_error text)
  end.

Definition ws_config_from_json (a_node : json) (a_defaults : OkxWsConfig) : Result OkxWsConfig :=
  if negb (is_object a_node) then Err (okx_error "okx ws config must be a JSON object")
  else
    let! enabled := bool_field a_node "enabled" (ws_enabled a_defaults)
                      "okx ws enabled must be a boolean" in
    let host := default (ws_host a_defaults) (okx_string_field a_node "host") in
    let! port := ranged_field a_node "port" 1 65535 (ws_port a_defaults)
                   "okx ws port must be an unsigned number in [1, 65535]" in
    let! use_tls := bool_field a_node "useTls" (ws_use_tls a_defaults)
                      "okx ws useTls must be a boolean" in
    let path := default (ws_path a_defaults) (okx_string_field a_node "path") in
    let! interval := ranged_field a_node "pingIntervalMs" 1 600000 (ping_interval a_defaults)
                       "okx ws pingIntervalMs must be in [1, 600000]" in
    let! missed := ranged_field a_node "maxMissedPongs" 1 100 (max_missed_pongs a_defaults)
                     "okx ws maxMissedPongs must be in [1, 100]" in
    Ok (mkOkxWsConfig enabled host port use_tls path interval missed).

Definition missing_names (a_section : json) (names : list string) : list string :=
  List.filter (fun n => is_none (okx_string_field a_section n)) names.

Definition okx_config_from_json (a_section : json) : Result OkxConfig :=
  if negb (is_object a_section) then Err (okx_error "okx config section must be a JSON object")
  else
    let missing := comma_join (missing_names a_section ["apiKey"; "secretKey"; "passphrase"]) in
    if negb (str_empty missing)
    then Err (okx_error ("okx config missing or non-string field(s): " +:+ missing))
    else
      let! port := match jfind a_section "port" with
                   | None => Ok 443
                   | Some (JUint v) => Ok (to_int v)
                   | Some _ => Err (okx_error "okx port must be an unsigned number")
                   end in
      let! use_tls := bool_field a_section "useTls" true "okx useTls must be a boolean" in
      let! demo := bool_field a_section "demoTrading" false "okx demoTrading must be a boolean" in
      let! connect_timeout := ranged_field a_section "restConnectTimeoutMs" 1 600000 5000
                                "okx restConnectTimeoutMs must be in [1, 600000]" in
      let! read_timeout := ranged_field a_section "restReadTimeoutMs" 1 600000 5000
                             "okx restReadTimeoutMs must be in [1, 600000]" in
      let! policy := match jfind a_section "retry" with
                     | None => Ok default_retry_policy
                     | Some node => retry_policy_from_json node default_retry_policy
                     end in
      let! ws := match jfind a_section "ws" with
                 | None => Ok default_ws
                 | Some node => ws_config_from_json node default_ws
                 end in
      Ok (mkOkxConfig (default "" (okx_string_field a_section "apiKey"))
            (default "" (okx_string_field a_section "secretKey"))
            (default "" (okx_string_field a_section "passphrase"))
            (default "www.okx.com" (okx_string_field a_section "host"))
            port use_tls demo connect_timeout read_timeout policy ws).

(** ** Envelope and failures *)

Definition kPathPlace : string := "/api/v5/trade/order".
Definition kPathCancel : string := "/api/v5/trade/cancel-order".
Definition kPathAmend : string := "/api/v5/trade/amend-order".
Definition kPathOrderInfo : string := "/api/v5/trade/order".
Definition kPathOrdersPending : string := "/api/v5/trade/orders-pending".
Definition kPathTicker : string := "/api/v5/market/ticker".
Definition kPathDemoAdjustBalance : string := "/api/v5/account/demo-adjust-balance".

Section Client.
Context (parse : string -> option json) (dump : json -> string)
  (hmac_sha256_base64 : string -> string -> string).

(** The detail of a rejection: the message, the first item's code and
    message, or the bare code. *)
Definition envelope_detail (envelope : json) (code : string) : string :=
  let msg := default "" (okx_string_field envelope "msg") in
  let detail :=
    match jfind envelope "data" with
    | Some (JArray (JObject fields :: _)) =>
        msg +:+ " [" +:+ default "" (okx_string_field (JObject fields) "sCode") +:+ ": "
        +:+ default "" (okx_string_field (JObject fields) "sMsg") +:+ "]"
    | _ => msg
    end in
  if str_empty detail then code else detail.

Definition parse_envelope (a_body a_path : string) : Result json :=
  match parse a_body with
  | Some (JObject fields) =>
      let envelope := JObject fields in
      match okx_string_field envelope "code" with
      | None => Err (okx_error ("envelope missing string field " +:+ dquote +:+ "code" +:+ dquote))
      | Some code =>
          if code <>s "0" then
            Err (mkError ("venue:" +:+ code)
                   ("OKX rejected " +:+ a_path +:+ ": " +:+ envelope_detail envelope code))
          else match jfind envelope "data" with
               | Some (JArray _) => Ok envelope
               | _ => Err (okx_error ("envelope missing " +:+ dquote +:+ "data" +:+ dquote
                                      +:+ " array"))
               end
      end
  | _ => Err (okx_error ("response is not a JSON object: " +:+ a_body))
  end.

(** [code.rfind("venue:", 0) == 0]. *)
Definition is_venue_code (code : string) : bool := String.prefix "venue:" code.

Definition classify_http_error (a_status : Z) (a_body a_path : string) : Error :=
  let describe := "unexpected HTTP status " +:+ std_to_string a_status +:+ " from " +:+ a_path in
  if (500 <=? a_status) || (a_status =? 429) then mkError "transport" describe
  else
    let fallback := okx_error (describe +:+ " without an OKX error envelope: " +:+ a_body) in
    match parse_envelope a_body a_path with
    | Err e => if is_venue_code (code e) then e else fallback
    | Ok _ => fallback
    end.

(** okx_signer.cpp: what is hashed, and the login of the private feed. *)
Definition sign_request (a_timestamp a_method a_path a_body a_secret : string) : string :=
  hmac_sha256_base64 a_secret (a_timestamp +:+ a_method +:+ a_path +:+ a_body).

Definition sign_ws_login (a_timestamp a_secret : string) : string :=
  sign_request a_timestamp "GET" "/users/self/verify" "" a_secret.

(** ** Requests *)

Context {W : Type}
  (http_send : string -> string -> list (string * string) -> string -> W -> option (Z * string) * W)
  (timestamp : W -> string * W) (config : OkxConfig).

Definition signed_headers (a_timestamp a_method a_path a_body : string) : list (string * string) :=
  [("OK-ACCESS-KEY", api_key config);
   ("OK-ACCESS-SIGN", sign_request a_timestamp a_method a_path a_body (secret_key config));
   ("OK-ACCESS-TIMESTAMP", a_timestamp);
   ("OK-ACCESS-PASSPHRASE", passphrase config)]
  ++ (if demo_trading config then [("x-simulated-trading", "1")] else []).

Definition network_failure : Error :=
  mkError "transport" ("network failure talking to " +:+ host config).

Definition signed_request_raw (a_method a_path a_body : string) (w : W)
    : Result (Z * string) * W :=
  let '(stamp, w) := timestamp w in
  match http_send a_method a_path (signed_headers stamp a_method a_path a_body) a_body w with
  | (None, w) => (Err network_failure, w)
  | (Some answer, w) => (Ok answer, w)
  end.

(** The answer of a request as an envelope or an error. *)
Definition answer_envelope (answer : Z * string) (a_path : string) : Result json :=
  let '(status, body) := answer in
  if negb (status =? 200) then Err (classify_http_error status body a_path)
  else parse_envelope body a_path.

Definition signed_request (a_method a_path a_body : string) (w : W) : Result json * W :=
  let '(raw, w) := signed_request_raw a_method a_path a_body w in
  (let! answer := raw in answer_envelope answer a_path, w).

(** [envelope.at("data")], an array by [parse_envelope]. *)
Definition envelope_data (envelope : json) : list json :=
  match jfind envelope "data" with Some (JArray items) => items | _ => [] end.

Definition first_object (items : list json) : option json :=
  match items with JObject fields :: _ => Some (JObject fields) | _ => None end.

Definition ack_of (envelope : json) (empty_text : string) : Result OkxOrderAck :=
  match first_object (envelope_data envelope) with
  | Some item => Ok (parse_order_ack dump item)
  | None => Err (okx_error empty_text)
  end.

Definition okx_place_order (a_request : OkxPlaceRequest) (w : W) : Result OkxOrderAck * W :=
  let '(envelope, w) := signed_request "POST" kPathPlace (dump (place_to_json a_request)) w in
  (let! e := envelope in ack_of e "place-order data array is empty", w).

Definition okx_cancel_order (a_request : OkxCxlRequest) (w : W) : Result OkxOrderAck * W :=
  let '(envelope, w) := signed_request "POST" kPathCancel (dump (cancel_to_json a_request)) w in
  (let! e := envelope in ack_of e "cancel-order data array is empty", w).

Definition okx_amend_order (a_request : OkxAmendRequest) (w : W) : Result OkxOrderAck * W :=
  match amend_to_json a_request with
  | Err e => (Err e, w)
  | Ok body =>
      let '(envelope, w) := signed_request "POST" kPathAmend (dump body) w in
      (let! e := envelope in ack_of e "amend-order data array is empty", w)
  end.

Definition info_of (envelope : json) : Result (option OkxOrderInfo) :=
  match envelope_data envelope with
  | [] => Ok None
  | JObject fields :: _ => Ok (Some (parse_order_info dump (JObject fields)))
  | _ => Err (okx_error "order-info data[0] is not an object")
  end.

Definition okx_get_order (a_query : OkxQuery) (w : W) : Result (option OkxOrderInfo) * W :=
  let '(envelope, w) := signed_request "GET" (kPathOrderInfo +:+ "?" +:+ to_query a_query) "" w in
  (let! e := envelope in info_of e, w).

Fixpoint pending_infos (items : list json) : Result (list OkxOrderInfo) :=
  match items with
  | [] => Ok []
  | JObject fields :: rest =>
      let! infos := pending_infos rest in
      Ok (parse_order_info dump (JObject fields) :: infos)
  | _ => Err (okx_error "orders-pending data item is not an object")
  end.

Definition get_orders_pending (w : W) : Result (list OkxOrderInfo) * W :=
  let '(envelope, w) := signed_request "GET" kPathOrdersPending "" w in
  (let! e := envelope in pending_infos (envelope_data e), w).

Definition adjust_demo_balance (a_request : OkxDemoBalanceRequest) (w : W) : Result json * W :=
  let '(raw, w) := signed_request_raw "POST" kPathDemoAdjustBalance
                     (dump (demo_to_json a_request)) w in
  (let! answer := raw in
   let! envelope := answer_envelope answer kPathDemoAdjustBalance in
   Ok (JArray (envelope_data envelope)), w).

Definition ticker_price (envelope : json) : Result string :=
  match first_object (envelope_data envelope) with
  | None => Err (okx_error "ticker data[0] is missing or not an object")
  | Some item =>
      match okx_string_field item "last" with
      | None => Err (okx_error ("ticker data[0] missing string field " +:+ dquote +:+ "last"
                                +:+ dquote))
      | Some last => Ok last
      end
  end.

(** Public market data: no signature; the path of an error names the query. *)
Definition get_ticker (a_instrument_id : string) (w : W) : Result string * W :=
  let path := kPathTicker +:+ "?instId=" +:+ a_instrument_id in
  match http_send "GET" path [] "" w with
  | (None, w) => (Err network_failure, w)
  | (Some (status, body), w) =>
      (if negb (status =? 200) then Err (classify_http_error status body path)
       else let! envelope := parse_envelope body kPathTicker in ticker_price envelope, w)
  end.

(** ** Failures that may be retried *)

Lemma parse_envelope_code body p e :
  parse_envelope body p = Err e -> code e = "protocol" \/ is_venue_code (code e) = true.
Proof.
  unfold parse_envelope. destruct (parse body) as [j|]; [|intros [= <-]; by left].
  destruct j; try (intros [= <-]; by left).
  destruct (okx_string_field (JObject fields) "code") as [c|]; [|intros [= <-]; by left].
  destruct (c ==s "0"); cbn [negb]; [|intros [= <-]; right; by destruct c].
  destruct (jfind (JObject fields) "data") as [[]|]; intros H; simplify_eq; by left.
Qed.

Lemma classify_transport status body p :
  code (classify_http_error status body p) = "transport" <-> 500 <= status \/ status = 429.
Proof.
  unfold classify_http_error. destruct (Z.leb_spec 500 status); simpl; [split; auto|].
  destruct (Z.eqb_spec status 429); simpl; [split; auto|].
  split; [|intros [?|?]; lia]. intros Hc. exfalso.
  destruct (parse_envelope body p) as [j|e]; [discriminate Hc|].
  destruct (is_venue_code (code e)) eqn:Hv; [|discriminate Hc].
  rewrite Hc in Hv. discriminate Hv.
Qed.

(** The code transport means that the outcome is unknown: a signed request ends with it exactly
    when no answer came back or the HTTP status was 429 or at least 500. *)
Theorem transport_means_unknown_outcome method p body w :
  let '(result, _) := signed_request method p body w in
  let '(stamp, w1) := timestamp w in
  let '(answer, _) := http_send method p (signed_headers stamp method p body) body w1 in
  (exists e, result = Err e /\ code e = "transport")
  <-> answer = None \/ exists status text, answer = Some (status, text)
                        /\ (500 <= status \/ status = 429).
Proof.
  unfold signed_request, signed_request_raw. destruct (timestamp w) as [stamp w1].
  destruct (http_send _ _ _ _ w1) as [[[status text]|] w2]; simpl.
  2: { split; [by left|]. intros _. eexists. split; [done|reflexivity]. }
  destruct (Z.eqb_spec status 200) as [->|Hne]; simpl.
  - split.
    + intros (e & He & Hc). destruct (parse_envelope_code _ _ _ He) as [Hp|Hv];
        rewrite Hc in *; discriminate.
    + intros [|(s & t & [= <- <-] & Hs)]; [done|lia].
  - split.
    + intros (e & [= <-] & Hc). right. exists status, text. split; [done|].
      by apply classify_transport in Hc.
    + intros [|(s & t & [= <- <-] & Hs)]; [done|]. eexists. split; [done|].
      by apply classify_transport.
Qed.

(** What an envelope must hold to be accepted, and the code of the error otherwise. *)
Theorem envelope_accepts body p :
  match parse_envelope body p with
  | Ok envelope => parse body = Some envelope /\ okx_string_field envelope "code" = Some "0"
      /\ exists items, jfind envelope "data" = Some (JArray items)
                       /\ envelope_data envelope = items
  | Err e => (exists c envelope, parse body = Some envelope
                /\ okx_string_field envelope "code" = Some c /\ c <> "0"
                /\ code e = "venue:" +:+ c)
             \/ code e = "protocol"
  end.
Proof.
  unfold parse_envelope. destruct (parse body) as [j|] eqn:Hp; [|by right].
  destruct j; try (by right).
  destruct (okx_string_field (JObject fields) "code") as [c|] eqn:Hc; [|by right].
  destruct (streqb_spec c "0") as [->|Hne]; cbn [negb].
  - destruct (jfind (JObject fields) "data") as [[]|] eqn:Hd; try (by right).
    split_and!; [done|done|]. eexists. unfold envelope_data. by rewrite Hd.
  - left. exists c, (JObject fields). done.
Qed.
End Client.

(** ** The HTTP client of a request

    httplib is a parameter: what a client with an endpoint and two timeouts
    answers to a GET and to a POST. *)

Record HttpEndpoint := mkEndpoint {
  ep_tls : bool;
  ep_host : string;
  ep_port : Z;
  ep_connect_us : Z;
  ep_read_us : Z }.

Section Http.
Context {W : Type}
  (http_get : HttpEndpoint -> string -> list (string * string) -> W -> option (Z * string) * W)
  (http_post : HttpEndpoint -> string -> list (string * string) -> string -> string -> W ->
               option (Z * string) * W).

(** The template argument is the choice of [use_tls]; the timeouts are
    products of two ints. *)
Definition endpoint_of (client_tls : bool) (a_config : OkxConfig) : HttpEndpoint :=
  mkEndpoint client_tls (host a_config) (port a_config) (rest_connect_timeout_ms a_config * 1000)
    (rest_read_timeout_ms a_config * 1000).

Definition perform_request (client_tls : bool) (a_config : OkxConfig) (a_method a_path : string)
    (a_headers : list (string * string)) (a_body : string) : W -> option (Z * string) * W :=
  let client := endpoint_of client_tls a_config in
  if a_method ==s "GET" then http_get client a_path a_headers
  else http_post client a_path a_headers a_body "application/json".

(** What [signed_request_raw] sends with. *)
Definition http_send_of (config : OkxConfig) :=
  perform_request (use_tls config) config.
End Http.

Lemma ranged_field_range node name lo hi d text v :
  lo <= d <= hi -> ranged_field node name lo hi d text = Ok v -> lo <= v <= hi.
Proof.
  intros Hd. unfold ranged_field. destruct (jfind node name) as [j|]; [|by intros [= <-]].
  destruct j as [| | |u| | | |]; try done.
  destruct (Z.ltb_spec u lo), (Z.ltb_spec hi u); simpl; intros [= <-]; lia.
Qed.

Ltac accepted H :=
  repeat match type of H with
  | (match ?e with Ok _ => _ | Err _ => Err _ end) = Ok _ =>
      let E := fresh "Ea" in destruct e eqn:E; [|discriminate H]
  end.

Lemma accepted_attempts a_section config :
  okx_config_from_json a_section = Ok config -> 1 <= max_attempts (retry config).
Proof.
  unfold okx_config_from_json. destruct (negb (is_object a_section)); [done|].
  destruct (negb (str_empty _)); [done|]. intros H. accepted H. simplify_eq. simpl.
  match goal with E : match jfind a_section "retry" with _ => _ end = Ok _ |- _ => revert E end.
  destruct (jfind a_section "retry") as [node|].
  - by apply retry_policy_attempts.
  - by intros [= <-].
Qed.

Lemma accepted_ws node defaults config :
  1 <= ping_interval defaults <= 600000 -> 1 <= max_missed_pongs defaults <= 100 ->
  1 <= ws_port defaults <= 65535 -> ws_config_from_json node defaults = Ok config ->
  1 <= ping_interval config <= 600000 /\ 1 <= max_missed_pongs config <= 100
  /\ 1 <= ws_port config <= 65535.
Proof.
  intros Hi Hm Hp. unfold ws_config_from_json. destruct (negb (is_object node)); [done|].
  intros H. accepted H. simplify_eq. simpl.
  split; [|split]; by eapply ranged_field_range; [|eassumption].
Qed.

(** A configuration that was accepted has timeouts whose microseconds, computed in int, do not
    overflow, a feed port in the range of ports, and a watchdog of at most 17 hours. *)
Theorem accepted_timeouts_fit a_section config :
  okx_config_from_json a_section = Ok config ->
  let ep := endpoint_of (use_tls config) config in
  1000 <= ep_connect_us ep < 2 ^ 31 /\ 1000 <= ep_read_us ep < 2 ^ 31
  /\ 2 <= ping_interval (ws config) * (max_missed_pongs (ws config) + 1) <= 60600000
  /\ 1 <= ws_port (ws config) <= 65535.
Proof.
  unfold okx_config_from_json. destruct (negb (is_object a_section)); [done|].
  destruct (negb (str_empty _)); [done|]. intros H. accepted H. simplify_eq. simpl.
  assert (forall node name text v, ranged_field node name 1 600000 5000 text = Ok v -> 1 <= v <= 600000) as Hr
    by (intros *; apply ranged_field_range; lia).
  repeat match goal with E : ranged_field _ _ 1 600000 5000 _ = Ok _ |- _ => apply Hr in E end.
  match goal with |- context [max_missed_pongs ?w] =>
    assert (1 <= ping_interval w <= 600000 /\ 1 <= max_missed_pongs w <= 100 /\ 1 <= ws_port w <= 65535) as (Hi & Hm & Hp)
  end.
  { destruct (jfind a_section "ws"); [by eapply accepted_ws; [..|eassumption]|by simplify_eq]. }
  split_and!; try lia; nia.
Qed.

Definition sample_section : json :=
  JObject [("apiKey", JString "key"); ("secretKey", JString "secret"); ("passphrase", JString "phrase");
           ("restConnectTimeoutMs", JUint 600000)].

Lemma accepted_timeouts_fit_witness :
  exists config, okx_config_from_json sample_section = Ok config
    /\ 1000 <= rest_connect_timeout_ms config * 1000 < 2 ^ 31.
Proof.
  eexists. split; [reflexivity|]. apply (accepted_timeouts_fit sample_section). reflexivity.
Defined.
