(* ===== verification/OkxResilient.v ===== *)
(** * Resolve, then retry: src/exchange/okx/okx_resilient.hpp

    The template parameter [ClientT] is the class [OkxTradeClient]; the
    captured local [safe_to_resend] is the second half of the state the retry
    driver threads.  The theorems run the functions against a client that
    writes down every request it sends. *)

From S2P Require Import Prelude Types Json Retry Resolve OkxWire OkxClient.

Class OkxTradeClient (W : Type) := {
  cl_place : OkxPlaceRequest -> W -> Result OkxOrderAck * W;
  cl_cancel : OkxCxlRequest -> W -> Result OkxOrderAck * W;
  cl_amend : OkxAmendRequest -> W -> Result OkxOrderAck * W;
  cl_get : OkxQuery -> W -> Result (option OkxOrderInfo) * W
}.

(** [OkxRestClient] is such a client. *)
#[global] Instance rest_trade_client {W : Type} (parse : string -> option json)
    (dump : json -> string) (hmac : string -> string -> string)
    (http_send : string -> string -> list (string * string) -> string -> W -> option (Z * string) * W)
    (timestamp : W -> string * W) (config : OkxConfig) : OkxTradeClient W | 10 := {
  cl_place := okx_place_order parse dump hmac http_send timestamp config;
  cl_cancel := okx_cancel_order parse dump hmac http_send timestamp config;
  cl_amend := okx_amend_order parse dump hmac http_send timestamp config;
  cl_get := okx_get_order parse dump hmac http_send timestamp config
}.

Inductive LookupOutcome := Found | Absent | Inconclusive.

Record LookupResult := mkLookup {
  lk_outcome : LookupOutcome;
  lk_info : OkxOrderInfo;
  lk_error : option Error }.

(** What one answer of a lookup settles; a transport failure is retried. *)
Definition conclude (result : Result (option OkxOrderInfo)) : Result LookupResult :=
  match result with
  | Ok (Some info) => Ok (mkLookup Found info None)
  | Ok None => Ok (mkLookup Absent empty_info None)
  | Err error =>
      if code error ==s "venue:51603" then Ok (mkLookup Absent empty_info None)
      else if code error ==s "transport" then Err error
      else Ok (mkLookup Inconclusive empty_info (Some error))
  end.

(** [lookup.error.value_or(error).message]. *)
Definition unresolved_message (what cl_ord_id : string) (l : LookupResult) (e : Error) : Error :=
  mkError "transport" (what +:+ " outcome unresolved for clOrdId " +:+ cl_ord_id +:+ ": "
                       +:+ message (default e (lk_error l))).

Definition synthesized_ack (a_info : OkxOrderInfo) : OkxOrderAck :=
  mkOkxOrderAck (xi_ord_id a_info) (xi_cl_ord_id a_info) "0" "".

(** The amend landed: the venue shows every requested value. *)
Definition matches_request (a_info : OkxOrderInfo) (a_request : OkxAmendRequest) : bool :=
  match xa_new_px a_request with Some px => xi_px a_info ==s px | None => true end
  && match xa_new_sz a_request with Some sz => xi_sz a_info ==s sz | None => true end.

Section Resilient.
Context {W : Type} `{!OkxTradeClient W} (a_policy : RetryPolicy) (a_clock : RetryClock W).

Definition lookup_order (a_query : OkxQuery) (w : W) : LookupResult * W :=
  let '(resolved, w) :=
    with_retries a_policy a_clock
      (fun w => let '(result, w) := cl_get a_query w in (conclude result, w))
      transport_error w in
  (match resolved with
   | Ok l => l
   | Err e => mkLookup Inconclusive empty_info (Some e)
   end, w).

Definition place_attempt (a_request : OkxPlaceRequest) (s : W * bool)
    : Result OkxOrderAck * (W * bool) :=
  let query := mkOkxQuery (xp_inst_id a_request) (xp_cl_ord_id a_request) in
  let '(result, w) := cl_place a_request s.1 in
  match result with
  | Ok _ => (result, (w, false))
  | Err error =>
      if (code error ==s "transport") || (code error ==s "venue:51000") then
        let '(lookup, w) := lookup_order query w in
        match lk_outcome lookup with
        | Found => (Ok (synthesized_ack (lk_info lookup)), (w, false))
        | outcome =>
            if code error ==s "venue:51000" then (result, (w, false))
            else match outcome with
                 | Absent => (result, (w, true))
                 | _ => (Err (unresolved_message "place" (xp_cl_ord_id a_request) lookup error),
                         (w, false))
                 end
        end
      else (result, (w, false))
  end.

Definition cancel_attempt (a_request : OkxCxlRequest) (s : W * bool)
    : Result OkxOrderAck * (W * bool) :=
  let query := mkOkxQuery (xc_inst_id a_request) (xc_cl_ord_id a_request) in
  let '(result, w) := cl_cancel a_request s.1 in
  match result with
  | Ok _ => (result, (w, false))
  | Err error =>
      if code error ==s "transport" then
        let '(lookup, w) := lookup_order query w in
        match lk_outcome lookup with
        | Found =>
            if xi_state (lk_info lookup) ==s "canceled"
            then (Ok (synthesized_ack (lk_info lookup)), (w, false))
            else (result, (w, true))
        | Absent => (Err (mkError "venue:51603" "cancel target not found on the venue"), (w, false))
        | Inconclusive =>
            (Err (unresolved_message "cancel" (xc_cl_ord_id a_request) lookup error), (w, false))
        end
      else if code error ==s "venue:51017" then
        let '(lookup, w) := lookup_order query w in
        match lk_outcome lookup with
        | Found =>
            if xi_state (lk_info lookup) ==s "canceled"
            then (Ok (synthesized_ack (lk_info lookup)), (w, false))
            else (result, (w, false))
        | _ => (result, (w, false))
        end
      else (result, (w, false))
  end.

Definition amend_attempt (a_request : OkxAmendRequest) (s : W * bool)
    : Result OkxOrderAck * (W * bool) :=
  let query := mkOkxQuery (xa_inst_id a_request) (xa_cl_ord_id a_request) in
  let '(result, w) := cl_amend a_request s.1 in
  match result with
  | Ok _ => (result, (w, false))
  | Err error =>
      if code error ==s "transport" then
        let '(lookup, w) := lookup_order query w in
        match lk_outcome lookup with
        | Found =>
            if matches_request (lk_info lookup) a_request
            then (Ok (synthesized_ack (lk_info lookup)), (w, false))
            else (result, (w, true))
        | Absent => (Err (mkError "venue:51603" "amend target not found on the venue"), (w, false))
        | Inconclusive =>
            (Err (unresolved_message "amend" (xa_cl_ord_id a_request) lookup error), (w, false))
        end
      else (result, (w, false))
  end.

Definition resilient_place (a_request : OkxPlaceRequest) : W -> Result OkxOrderAck * W :=
  retry_while_safe a_policy a_clock (place_attempt a_request).
Definition resilient_cancel (a_request : OkxCxlRequest) : W -> Result OkxOrderAck * W :=
  retry_while_safe a_policy a_clock (cancel_attempt a_request).
Definition resilient_amend (a_request : OkxAmendRequest) : W -> Result OkxOrderAck * W :=
  retry_while_safe a_policy a_clock (amend_attempt a_request).
End Resilient.

(** ** The requests written down *)

(** The state-changing requests. *)
Inductive OkxRequest :=
  | RqPlace (request : OkxPlaceRequest)
  | RqCancel (request : OkxCxlRequest)
  | RqAmend (request : OkxAmendRequest).

Notation OkxCall := (Call OkxRequest OkxQuery OkxOrderAck OkxOrderInfo).

Definition traced_client {W : Type} (c : OkxTradeClient W) : OkxTradeClient (W * list OkxCall) := {|
  cl_place := logging (fun rq => CSend (RqPlace rq)) cl_place;
  cl_cancel := logging (fun rq => CSend (RqCancel rq)) cl_cancel;
  cl_amend := logging (fun rq => CSend (RqAmend rq)) cl_amend;
  cl_get := logging CGet cl_get |}.

(** The venue does not know the order. *)
Definition says_absent (a : Result (option OkxOrderInfo)) : bool :=
  match a with
  | Ok None => true
  | Ok (Some _) => false
  | Err e => code e ==s "venue:51603"
  end.

(** A success: the acknowledgement itself, or the one made of an order found
    that is as wanted. *)
Definition acknowledged (accept : OkxOrderInfo -> bool) (ack : OkxOrderAck) (l : list OkxCall) : Prop :=
  confirmed eq (fun info ack => accept info = true /\ ack = synthesized_ack info) ack l.

Definition canceled_info (info : OkxOrderInfo) : bool := xi_state info ==s "canceled".

(** A lookup's result after its last answer. *)
Definition settle (a : Result (option OkxOrderInfo)) : LookupResult :=
  match conclude a with Ok l => l | Err e => mkLookup Inconclusive empty_info (Some e) end.

Lemma settle_found a : lk_outcome (settle a) = Found -> exists info, a = Ok (Some info).
Proof.
  destruct a as [[info|]|e]; unfold settle, conclude; [eauto|done|].
  by repeat case_match; simplify_eq/=.
Qed.

Lemma settle_absent a : lk_outcome (settle a) = Absent -> says_absent a = true.
Proof. unfold settle, conclude. repeat case_match; simplify_eq/=; congruence. Qed.

Section Traces.
Context {W : Type} (c : OkxTradeClient W) (a_policy : RetryPolicy) (a_clock : RetryClock W).
Context (Hattempts : 1 <= max_attempts a_policy).
#[local] Existing Instance traced_client.
Local Notation clock := (lift_clock (X:=list OkxCall) a_clock).

(** [gets_log] for this client. *)
Lemma okx_gets_log {T : Type} (conc : Result (option OkxOrderInfo) -> Result T) q w l :
  (forall a e, conc a = Err e -> code e = "transport" -> transport_failure a) ->
  let '(r, (_, l')) := with_retries a_policy clock
    (fun s => let '(result, s) := cl_get q s in (conc result, s)) transport_error (w, l) in
  exists fs a, l' = l ++ map (CGet q) (fs ++ [a]) /\ Forall transport_failure fs /\ r = conc a.
Proof. exact (gets_log a_policy a_clock Hattempts (@cl_get W c) conc q w l). Qed.

Lemma conclude_transport a e :
  conclude a = Err e -> code e = "transport" -> transport_failure a.
Proof.
  intros He Ht. exists e. split; [|done].
  unfold conclude in He. by repeat case_match; simplify_eq.
Qed.

Lemma lookup_log q w l :
  let '(res, (_, l')) := lookup_order a_policy clock q (w, l) in
  exists fs a, l' = l ++ map (CGet q) (fs ++ [a]) /\ Forall transport_failure fs /\ res = settle a.
Proof.
  unfold lookup_order. pose proof (okx_gets_log conclude q w l conclude_transport) as H.
  destruct (with_retries _ _ _ _ _) as [r [w' l']].
  destruct H as (fs & a & Hl & Hfs & ->). by exists fs, a.
Qed.

Local Notation okx_attempt_ok rq q permits accept attempt :=
  (attempt_ok (S:=OkxOrderAck) (I:=OkxOrderInfo) rq q permits eq
     (fun info ack => accept info = true /\ ack = synthesized_ack info) attempt).

(** Names the calls of the lookup an attempt makes. *)
Ltac run_lookup q w1 l1 fs a :=
  let H := fresh in
  pose proof (lookup_log q w1 l1) as H;
  destruct (lookup_order _ _ q (w1, l1)) as [? [? ?]]; destruct H as (fs & a & -> & _ & ->).

Lemma says_found_settle p a : lk_outcome (settle a) = Found ->
  says_found p a = p (lk_info (settle a)).
Proof. intros H. by destruct (settle_found _ H) as [info ->]. Qed.

(** A lookup of the attempt found the order as wanted: success. *)
Lemma found_confirms accept rq e q fs a ack :
  lk_outcome (settle a) = Found -> accept (lk_info (settle a)) = true ->
  Ok (synthesized_ack (lk_info (settle a))) = Ok ack ->
  acknowledged accept ack (CSend rq (Err e) :: map (CGet q) (fs ++ [a])).
Proof.
  intros Ho Ha H. injection H as <-. destruct (settle_found _ Ho) as [info ->].
  by apply confirmed_get.
Qed.

Lemma place_attempt_ok rq :
  okx_attempt_ok (RqPlace rq)
    (mkOkxQuery (xp_inst_id rq) (xp_cl_ord_id rq))
    says_absent (fun _ => true) (place_attempt a_policy clock rq).
Proof.
  intros w l b. unfold place_attempt. simpl. destruct (cl_place rq w) as [r w1]. simpl.
  destruct r as [ack|e]; [sent_only (RqPlace rq) (Ok ack : Result OkxOrderAck)|].
  destruct (code e ==s "transport") eqn:Ht; simpl.
  - run_lookup (mkOkxQuery (xp_inst_id rq) (xp_cl_ord_id rq)) w1
      (l ++ [CSend (RqPlace rq) (Err e)]) fs a.
    assert (He : (code e ==s "venue:51000") = false)
      by (apply streqb_true in Ht; by rewrite Ht).
    rewrite He. destruct (lk_outcome (settle a)) eqn:Ho; looked_up (RqPlace rq) (Err e : Result OkxOrderAck) (mkOkxQuery (xp_inst_id rq) (xp_cl_ord_id rq)) fs a.
    + intros ack. by apply found_confirms.
    + intros _. simpl. by rewrite Ht, (settle_absent _ Ho).
  - destruct (code e ==s "venue:51000"); [|sent_only (RqPlace rq) (Err e : Result OkxOrderAck)].
    run_lookup (mkOkxQuery (xp_inst_id rq) (xp_cl_ord_id rq)) w1
      (l ++ [CSend (RqPlace rq) (Err e)]) fs a.
    destruct (lk_outcome (settle a)) eqn:Ho; looked_up (RqPlace rq) (Err e : Result OkxOrderAck) (mkOkxQuery (xp_inst_id rq) (xp_cl_ord_id rq)) fs a.
    intros ack. by apply found_confirms.
Qed.
Lemma cancel_attempt_ok rq :
  okx_attempt_ok (RqCancel rq)
    (mkOkxQuery (xc_inst_id rq) (xc_cl_ord_id rq))
    (says_found (fun i => negb (canceled_info i))) canceled_info
    (cancel_attempt a_policy clock rq).
Proof.
  intros w l b. unfold cancel_attempt. simpl. destruct (cl_cancel rq w) as [r w1]. simpl.
  destruct r as [ack|e]; [sent_only (RqCancel rq) (Ok ack : Result OkxOrderAck)|].
  destruct (code e ==s "transport") eqn:Ht; simpl.
  - run_lookup (mkOkxQuery (xc_inst_id rq) (xc_cl_ord_id rq)) w1 (l ++ [CSend (RqCancel rq) (Err e)]) fs a.
    destruct (lk_outcome (settle a)) eqn:Ho;
      [destruct (xi_state (lk_info (settle a)) ==s "canceled") eqn:Hs|..];
      looked_up (RqCancel rq) (Err e : Result OkxOrderAck) (mkOkxQuery (xc_inst_id rq) (xc_cl_ord_id rq)) fs a.
    + intros ack. by apply found_confirms.
    + intros _. simpl. rewrite Ht, says_found_settle by done. unfold canceled_info. by rewrite Hs.
  - destruct (code e ==s "venue:51017"); [|sent_only (RqCancel rq) (Err e : Result OkxOrderAck)].
    run_lookup (mkOkxQuery (xc_inst_id rq) (xc_cl_ord_id rq)) w1 (l ++ [CSend (RqCancel rq) (Err e)]) fs a.
    destruct (lk_outcome (settle a)) eqn:Ho;
      [destruct (xi_state (lk_info (settle a)) ==s "canceled") eqn:Hs|..];
      looked_up (RqCancel rq) (Err e : Result OkxOrderAck) (mkOkxQuery (xc_inst_id rq) (xc_cl_ord_id rq)) fs a.
    intros ack. by apply found_confirms.
Qed.

Lemma amend_attempt_ok rq :
  okx_attempt_ok (RqAmend rq)
    (mkOkxQuery (xa_inst_id rq) (xa_cl_ord_id rq))
    (says_found (fun i => negb (matches_request i rq))) (fun i => matches_request i rq)
    (amend_attempt a_policy clock rq).
Proof.
  intros w l b. unfold amend_attempt. simpl. destruct (cl_amend rq w) as [r w1]. simpl.
  destruct r as [ack|e]; [sent_only (RqAmend rq) (Ok ack : Result OkxOrderAck)|].
  destruct (code e ==s "transport") eqn:Ht; simpl; [|sent_only (RqAmend rq) (Err e : Result OkxOrderAck)].
  run_lookup (mkOkxQuery (xa_inst_id rq) (xa_cl_ord_id rq)) w1 (l ++ [CSend (RqAmend rq) (Err e)]) fs a.
  destruct (lk_outcome (settle a)) eqn:Ho;
    [destruct (matches_request (lk_info (settle a)) rq) eqn:Hs|..];
    looked_up (RqAmend rq) (Err e : Result OkxOrderAck) (mkOkxQuery (xa_inst_id rq) (xa_cl_ord_id rq)) fs a.
  - intros ack. by apply found_confirms.
  - intros _. simpl. rewrite Ht, says_found_settle by done. by rewrite Hs.
Qed.

(** C12: No blind re-send: with every request and lookup to OKX written down together with what
    it asked, every place sent is the caller's request and every lookup asks for its clOrdId at
    its instrument; a place is sent again only after the previous one was lost to a transport
    failure and the lookup right before the re-send answered that the venue does not know that
    order; a success rests on the last request, either its acknowledgement or an order found by
    the lookup. *)
Theorem place_resent_only_when_absent rq w :
  let '(r, (_, l)) := resilient_place a_policy clock rq (w, []) in
  only_about (RqPlace rq) (mkOkxQuery (xp_inst_id rq) (xp_cl_ord_id rq)) l
  /\ resends_ok says_absent l = true
  /\ forall ack, r = Ok ack -> acknowledged (fun _ => true) ack l.
Proof. apply (retry_while_safe_ok _ _ Hattempts), place_attempt_ok. Qed.

(** C14: A cancel succeeds only on the venue's word: with every request and lookup to OKX
    written down together with what it asked, every cancel sent is the caller's request and
    every lookup asks for its clOrdId at its instrument; a success rests on the last request,
    which was acknowledged or whose lookup showed the order canceled; a cancel is sent again
    only after a lost one whose lookup found the order not canceled. *)
Theorem cancel_confirmed_by_venue rq w :
  let '(r, (_, l)) := resilient_cancel a_policy clock rq (w, []) in
  only_about (RqCancel rq) (mkOkxQuery (xc_inst_id rq) (xc_cl_ord_id rq)) l
  /\ resends_ok (says_found (fun i => negb (canceled_info i))) l = true
  /\ forall ack, r = Ok ack -> acknowledged canceled_info ack l.
Proof. apply (retry_while_safe_ok _ _ Hattempts), cancel_attempt_ok. Qed.

(** An amend succeeds only on the venue's word: the last request was acknowledged or the lookup
    showed every requested value; an amend is sent again only after a lost one whose lookup
    found other values. Every request and every lookup is for this order. *)
Theorem amend_confirmed_by_venue rq w :
  let '(r, (_, l)) := resilient_amend a_policy clock rq (w, []) in
  only_about (RqAmend rq) (mkOkxQuery (xa_inst_id rq) (xa_cl_ord_id rq)) l
  /\ resends_ok (says_found (fun i => negb (matches_request i rq))) l = true
  /\ forall ack, r = Ok ack -> acknowledged (fun i => matches_request i rq) ack l.
Proof. apply (retry_while_safe_ok _ _ Hattempts), amend_attempt_ok. Qed.
End Traces.

(** ** A venue that loses the first request; the world counts the answers *)

Definition lossy_client : OkxTradeClient Z :=
  let lossy {A} (_ : A) (w : Z) : Result OkxOrderAck * Z :=
    (if w =? 0 then Err (mkError "transport" "lost") else Ok (mkOkxOrderAck "77" "a1" "0" ""), w + 1) in
  {| cl_place := lossy; cl_cancel := lossy; cl_amend := lossy;
     cl_get _ w := (Ok (if w <? 3 then None else Some empty_info), w + 1) |}.

Definition sample_place : OkxPlaceRequest :=
  mkOkxPlaceRequest "a1" "BTC-USDT" "buy" "limit" "50000" "0.1" "" "cash".

Lemma place_resent_only_when_absent_witness :
  let '(r, (_, l)) := resilient_place (OkxTradeClient0:=traced_client lossy_client) default_retry_policy
                        (lift_clock still_clock) sample_place (0, []) in
  only_about (RqPlace sample_place) (mkOkxQuery "BTC-USDT" "a1") l
  /\ resends_ok says_absent l = true /\ forall ack, r = Ok ack -> acknowledged (fun _ => true) ack l.
Proof. apply (place_resent_only_when_absent lossy_client default_retry_policy still_clock). discriminate. Defined.

Lemma cancel_confirmed_by_venue_witness :
  let '(r, (_, l)) := resilient_cancel (OkxTradeClient0:=traced_client lossy_client) default_retry_policy
                        (lift_clock still_clock) (mkOkxCxlRequest "BTC-USDT" "a1") (0, []) in
  only_about (RqCancel (mkOkxCxlRequest "BTC-USDT" "a1")) (mkOkxQuery "BTC-USDT" "a1") l
  /\ resends_ok (says_found (fun i => negb (canceled_info i))) l = true
  /\ forall ack, r = Ok ack -> acknowledged canceled_info ack l.
Proof. apply (cancel_confirmed_by_venue lossy_client default_retry_policy still_clock). discriminate. Defined.

Lemma amend_confirmed_by_venue_witness :
  let rq := mkOkxAmendRequest "BTC-USDT" "a1" (Some "51000") None in
  let '(r, (_, l)) := resilient_amend (OkxTradeClient0:=traced_client lossy_client) default_retry_policy
                        (lift_clock still_clock) rq (0, []) in
  only_about (RqAmend rq) (mkOkxQuery "BTC-USDT" "a1") l
  /\ resends_ok (says_found (fun i => negb (matches_request i rq))) l = true
  /\ forall ack, r = Ok ack -> acknowledged (fun i => matches_request i rq) ack l.
Proof. apply (amend_confirmed_by_venue lossy_client default_retry_policy still_clock). discriminate. Defined.

(** The lost place, the conclusive absence, the one re-send. *)
Example lossy_place :
  resilient_place (OkxTradeClient0:=traced_client lossy_client) default_retry_policy (lift_clock still_clock)
    sample_place (0, [])
  = (Ok (mkOkxOrderAck "77" "a1" "0" ""),
     (3, [CSend (RqPlace sample_place) (Err (mkError "transport" "lost"));
          CGet (mkOkxQuery "BTC-USDT" "a1") (Ok None);
          CSend (RqPlace sample_place) (Ok (mkOkxOrderAck "77" "a1" "0" ""))])).
Proof. vm_compute. reflexivity. Qed.
