(* ===== verification/OkxConnector.v ===== *)
(** * OKX connector: src/exchange/okx/okx_connector.cpp

    The venue's [ExchangeConnector]: wire conversion around the resilient
    calls, reads with plain transport retries, snapshot normalisation that
    fails closed.  [OkxMarketClient] names the client calls outside
    [OkxTradeClient]. *)

From S2P Require Import Prelude Types Json Retry Resolve OkxWire OkxClient OkxResilient.

Definition ack_to_placement (a_ack : OkxOrderAck) : Result OrderPlacement :=
  if negb (str_empty (xk_s_code a_ack)) && (xk_s_code a_ack <>s "0")
  then Err (mkError ("venue:" +:+ xk_s_code a_ack) ("OKX rejected request: " +:+ xk_s_msg a_ack))
  else Ok (mkOrderPlacement (xk_cl_ord_id a_ack) (xk_ord_id a_ack)).

(** [td_mode] keeps its default, "cash". *)
Definition to_wire (a_request : OrderRequest) : OkxPlaceRequest :=
  mkOkxPlaceRequest (rq_client_order_id a_request) (rq_instrument_id a_request)
    (match rq_side a_request with Buy => "buy" | Sell => "sell" end)
    (match rq_type a_request with Limit => "limit" | Market => "market" end)
    (rq_price a_request) (rq_quantity a_request) (rq_time_in_force a_request) "cash".

Definition map_ord_type (a_type : string) : option OrderType :=
  if a_type ==s "limit" then Some Limit
  else if a_type ==s "market" then Some Market
  else None.

Definition to_snapshot (a_info : OkxOrderInfo) : Result OrderSnapshot :=
  match map_okx_state (xi_state a_info) with
  | None => Err (mkError "protocol" ("unknown OKX order state: " +:+ xi_state a_info))
  | Some state =>
      match map_okx_side (xi_side a_info) with
      | None => Err (mkError "protocol" ("unknown OKX order side: " +:+ xi_side a_info))
      | Some side =>
          match map_ord_type (xi_ord_type a_info) with
          | None => Err (mkError "protocol" ("unknown OKX order type: " +:+ xi_ord_type a_info))
          | Some type =>
              Ok (mkOrderSnapshot (xi_cl_ord_id a_info) (xi_ord_id a_info) (xi_inst_id a_info)
                    state side type (xi_px a_info) (xi_sz a_info) (xi_acc_fill_sz a_info)
                    (xi_avg_px a_info))
          end
      end
  end.

(** What one answer of [get_order] means to the core: an unknown order is a
    conclusive absence. *)
Definition conclude_snapshot (result : Result (option OkxOrderInfo)) : Result (option OrderSnapshot) :=
  match result with
  | Err error => if code error ==s "venue:51603" then Ok None else Err error
  | Ok None => Ok None
  | Ok (Some info) => let! snapshot := to_snapshot info in Ok (Some snapshot)
  end.

(** Listed orders the gateway cannot represent are skipped. *)
Fixpoint representable (infos : list OkxOrderInfo) : list OrderSnapshot :=
  match infos with
  | [] => []
  | info :: rest =>
      match to_snapshot info with
      | Ok snapshot => snapshot :: representable rest
      | Err _ => representable rest
      end
  end.

Class OkxMarketClient (W : Type) := {
  cl_pending : W -> Result (list OkxOrderInfo) * W;
  cl_ticker : string -> W -> Result string * W;
  cl_demo : OkxDemoBalanceRequest -> W -> Result json * W
}.

Section Connector.
Context {W : Type} `{!OkxTradeClient W} `{!OkxMarketClient W}
  (config : OkxConfig) (retry_clock : RetryClock W).

Definition placement_of (ack : Result OkxOrderAck) : Result OrderPlacement :=
  let! a := ack in ack_to_placement a.

Definition okx_connector_place (a_request : OrderRequest) (w : W) : Result OrderPlacement * W :=
  let '(ack, w) := resilient_place (OkxClient.retry config) retry_clock (to_wire a_request) w in
  (placement_of ack, w).

Definition okx_connector_cancel (a_request : CancelRequest) (w : W) : Result OrderPlacement * W :=
  let '(ack, w) := resilient_cancel (OkxClient.retry config) retry_clock
                     (mkOkxCxlRequest (cx_instrument_id a_request) (cx_client_order_id a_request)) w in
  (placement_of ack, w).

Definition okx_connector_amend (a_request : AmendRequest) (w : W) : Result OrderPlacement * W :=
  let '(ack, w) := resilient_amend (OkxClient.retry config) retry_clock
                     (mkOkxAmendRequest (am_instrument_id a_request) (am_client_order_id a_request)
                        (am_new_price a_request) (am_new_quantity a_request)) w in
  (placement_of ack, w).

Definition okx_connector_get_order (a_query : OrderQuery) (w : W)
    : Result (option OrderSnapshot) * W :=
  let wire_query := mkOkxQuery (oq_instrument_id a_query) (oq_client_order_id a_query) in
  with_retries (OkxClient.retry config) retry_clock
    (fun w => let '(result, w) := cl_get wire_query w in (conclude_snapshot result, w))
    transport_error w.

Definition okx_connector_open_orders (w : W) : Result (list OrderSnapshot) * W :=
  let '(pending, w) := with_retries (OkxClient.retry config) retry_clock cl_pending
                         transport_error w in
  (let! infos := pending in Ok (representable infos), w).

Definition okx_connector_price (a_instrument_id : string) (w : W) : Result string * W :=
  with_retries (OkxClient.retry config) retry_clock (cl_ticker a_instrument_id) transport_error w.

(** Outside [ExchangeConnector]: one attempt, demo accounts only. *)
Definition okx_connector_adjust_demo_balance (a_request : OkxDemoBalanceRequest) (w : W)
    : Result json * W :=
  if negb (demo_trading config)
  then (Err (mkError "invalid_request" "demo balance adjustment requires okx demoTrading"), w)
  else cl_demo a_request w.
End Connector.

#[global] Instance okx_exchange_connector {W : Type} (c : OkxTradeClient W) (m : OkxMarketClient W)
    (config : OkxConfig) (retry_clock : RetryClock W) : ExchangeConnector W | 10 := {
  place_order := okx_connector_place config retry_clock;
  cancel_order := okx_connector_cancel config retry_clock;
  amend_order := okx_connector_amend config retry_clock;
  get_order := okx_connector_get_order config retry_clock;
  get_open_orders := okx_connector_open_orders config retry_clock;
  get_price := okx_connector_price config retry_clock
}.

#[global] Instance rest_market_client {W : Type} (parse : string -> option json)
    (dump : json -> string) (hmac : string -> string -> string)
    (http_send : string -> string -> list (string * string) -> string -> W -> option (Z * string) * W)
    (timestamp : W -> string * W) (config : OkxConfig) : OkxMarketClient W | 10 := {
  cl_pending := get_orders_pending parse dump hmac http_send timestamp config;
  cl_ticker := get_ticker parse http_send config;
  cl_demo := adjust_demo_balance parse dump hmac http_send timestamp config
}.

(** ** What the core may rely on *)

(** The wire form of a placement read back: every field of the request is
    there. *)
Definition read_place (body : json) : option OrderRequest :=
  match jstring body "clOrdId", jstring body "instId", jstring body "sz" with
  | Some id, Some inst, Some sz =>
      match jstring body "side", jstring body "ordType" with
      | Some side, Some type =>
          match map_okx_side side, map_ord_type type with
          | Some s, Some t =>
              Some (mkOrderRequest id inst s t (default "" (jstring body "px")) sz
                      (default "" (jstring body "tdIf")))
          | _, _ => None
          end
      | _, _ => None
      end
  | _, _, _ => None
  end.

(** The body of an OKX place carries the whole request: reading id, instrument, side, type,
    price, quantity and time in force back from the JSON gives the request. *)
Theorem place_body_carries_request rq :
  read_place (place_to_json (to_wire rq)) = Some rq.
Proof.
  destruct rq as [id inst side type px qty tif]. unfold read_place, place_to_json, to_wire. simpl.
  destruct px as [|c px], tif as [|d tif], side, type; reflexivity.
Qed.

Lemma to_snapshot_code info e : to_snapshot info = Err e -> code e = "protocol".
Proof. unfold to_snapshot. repeat case_match; intros; by simplify_eq. Qed.

Lemma conclude_snapshot_transport a e :
  conclude_snapshot a = Err e -> code e = "transport" -> transport_failure a.
Proof.
  unfold conclude_snapshot, transport_failure. intros He Ht.
  destruct a as [[info|]|e']; [|done|].
  - destruct (to_snapshot info) as [s|e'] eqn:Hs; [done|]. simplify_eq.
    apply to_snapshot_code in Hs. congruence.
  - exists e'. destruct (code e' ==s "venue:51603"); by simplify_eq.
Qed.

(** The answer the core gets for a query, and the venue's last word. *)
Definition snapshot_evidence (r : Result (option OrderSnapshot)) (a : Result (option OkxOrderInfo)) : Prop :=
  match r with
  | Ok None => says_absent a = true
  | Ok (Some s) => exists info, a = Ok (Some info) /\ to_snapshot info = Ok s
  | Err e => a = Err e \/ exists info, a = Ok (Some info) /\ to_snapshot info = Err e
  end.

(** What the core learns about an order rests on the venue's last answer: lookups lost to
    transport failures are followed by one answer, and only that answer decides between absent,
    the normalised snapshot and an error. *)
Theorem get_order_rests_on_last_answer {W} (c : OkxTradeClient W) config clock query w :
  1 <= max_attempts (OkxClient.retry config) ->
  let '(r, (_, l)) := okx_connector_get_order (OkxTradeClient0:=traced_client c) config
                        (lift_clock clock) query (w, []) in
  exists lost_answers last, l = map (CGet (mkOkxQuery (oq_instrument_id query) (oq_client_order_id query))) (lost_answers ++ [last])
    /\ Forall transport_failure lost_answers /\ snapshot_evidence r last.
Proof.
  intros Hmax. unfold okx_connector_get_order.
  pose proof (okx_gets_log c _ clock Hmax conclude_snapshot
    (mkOkxQuery (oq_instrument_id query) (oq_client_order_id query)) w []
    conclude_snapshot_transport) as H.
  destruct (with_retries _ _ _ _ _) as [r [w' l]]. destruct H as (fs & a & -> & Hfs & ->).
  exists fs, a. split_and!; [done|done|].
  destruct a as [[info|]|e]; simpl; [|done|].
  - destruct (to_snapshot info) eqn:Hs; simpl; [by exists info|right; by exists info].
  - destruct (code e ==s "venue:51603") eqn:Hc; simpl; [done|by left].
Qed.

Definition sample_config : OkxConfig :=
  mkOkxConfig "k" "s" "p" "www.okx.com" 443 true true 5000 5000 default_retry_policy default_ws.

Lemma get_order_rests_on_last_answer_witness :
  let '(r, (_, l)) := okx_connector_get_order (OkxTradeClient0:=traced_client lossy_client)
                        sample_config (lift_clock still_clock) (mkOrderQuery "a1" "BTC-USDT") (0, []) in
  exists lost_answers last, l = map (CGet (mkOkxQuery "BTC-USDT" "a1")) (lost_answers ++ [last])
    /\ Forall transport_failure lost_answers /\ snapshot_evidence r last.
Proof. apply (get_order_rests_on_last_answer lossy_client sample_config still_clock). discriminate. Defined.
