(* ===== verification/OkxAccount.v ===== *)
(** * The OKX connector places an order at most once

    [OkxAccount] states what the requests of the OKX client do to the account of
    accepted places; [okx_places_once] is the promise of the connector. *)

From S2P Require Import Prelude Types Retry Resolve VenueAccount OkxWire OkxClient OkxResilient OkxConnector.

(** The requests that place nothing. *)
Class OkxQuiet {W : Type} (accepted : string -> W -> nat) (c : OkxTradeClient W)
    (m : OkxMarketClient W) : Prop := {
  oq_cancel request : quiet accepted (cl_cancel request);
  oq_amend request : quiet accepted (cl_amend request);
  oq_get query : quiet accepted (cl_get query);
  oq_pending : quiet accepted cl_pending;
  oq_ticker symbol : quiet accepted (cl_ticker symbol) }.

(** A venue that answers lookups for the orders it has accepted. *)
Class OkxAccount {W : Type} (accepted : string -> W -> nat) (c : OkxTradeClient W)
    (m : OkxMarketClient W) : Prop := {
  oa_quiet :: OkxQuiet accepted c m;
  oa_place request : places_one accepted (xp_cl_ord_id request) (cl_place request);
  oa_absent query w : says_absent (cl_get query w).1 = true -> accepted (xq_cl_ord_id query) w = 0%nat;
  oa_found query w info : (cl_get query w).1 = Ok (Some info) -> accepted (xq_cl_ord_id query) w <> 0%nat }.

Section Requests.
Context {W : Type} (accepted : string -> W -> nat) {c : OkxTradeClient W} {m : OkxMarketClient W}.
Context `{!OkxQuiet accepted c m}.
Context (policy : RetryPolicy) (clock : RetryClock W) `{!QuietClock accepted clock}.
Context (Hattempts : 1 <= max_attempts policy).

Lemma okx_lookup_quiet query : quiet accepted (lookup_order policy clock query).
Proof.
  intros w. unfold lookup_order.
  pose proof (retries_quiet accepted policy clock Hattempts
    (fun w => let '(result, w) := cl_get query w in (conclude result, w)) transport_error
    (quiet_answer accepted _ conclude (oq_get query)) w) as H.
  by destruct (with_retries _ _ _ _ _).
Qed.

(** An attempt: its request, and a lookup unless its answer settles it. *)
Ltac request_then_lookup sends query w id :=
  let H := fresh in let w1 := fresh "w" in
  pose proof (sends w id) as H;
  match type of H with context [?f w] => destruct (f w) as [? w1] end;
  pose proof (okx_lookup_quiet query w1 id);
  destruct (lookup_order _ _ query w1) as [? ?];
  repeat case_match; simplify_eq/=; congruence.

Lemma okx_cancel_attempt_quiet request :
  quiet (first_account accepted) (cancel_attempt policy clock request).
Proof.
  intros [w b] id. unfold cancel_attempt, first_account. simpl.
  request_then_lookup (oq_cancel (accepted:=accepted) request)
    (mkOkxQuery (xc_inst_id request) (xc_cl_ord_id request)) w id.
Qed.

Lemma okx_amend_attempt_quiet request :
  quiet (first_account accepted) (amend_attempt policy clock request).
Proof.
  intros [w b] id. unfold amend_attempt, first_account. simpl.
  request_then_lookup (oq_amend (accepted:=accepted) request)
    (mkOkxQuery (xa_inst_id request) (xa_cl_ord_id request)) w id.
Qed.

Lemma okx_place_attempt_quiet request :
  quiet accepted (cl_place request) -> quiet (first_account accepted) (place_attempt policy clock request).
Proof.
  intros Hp [w b] id. unfold place_attempt, first_account. simpl.
  request_then_lookup Hp (mkOkxQuery (xp_inst_id request) (xp_cl_ord_id request)) w id.
Qed.
End Requests.

Section Account.
Context {W : Type} (accepted : string -> W -> nat) {c : OkxTradeClient W} {m : OkxMarketClient W}.
Context `{!OkxAccount accepted c m}.
Context (policy : RetryPolicy) (clock : RetryClock W) `{!QuietClock accepted clock}.
Context (Hattempts : 1 <= max_attempts policy).

Definition okx_sight (l : LookupResult) : option bool :=
  match lk_outcome l with Found => Some true | Absent => Some false | Inconclusive => None end.

Lemma okx_lookup_tells query w :
  let '(l, w') := lookup_order policy clock query w in
  keeps accepted w w' /\ tells accepted (xq_cl_ord_id query) okx_sight l w'.
Proof.
  unfold lookup_order.
  pose proof (retried_tells accepted policy clock Hattempts (xq_cl_ord_id query) okx_sight
    (fun w => let '(result, w) := cl_get query w in (conclude result, w)) transport_error w) as H.
  destruct (with_retries _ _ _ _ _) as [r w']. destruct H as [Hk Ht].
  - intros w1. pose proof (oq_get query w1) as Hk. pose proof (oa_absent query w1) as Ha.
    pose proof (oa_found query w1) as Hf. destruct (cl_get query w1) as [a w2]. simpl in *.
    split; [done|]. intros l Hl. unfold tells, okx_sight, conclude in *. rewrite (Hk _).
    repeat case_match; simplify_eq/=; eauto.
  - split; [done|]. destruct r as [l|e]; [by apply Ht|done].
Qed.

Lemma okx_place_attempt_once request :
  attempts_once accepted (xp_cl_ord_id request) (place_attempt policy clock request).
Proof.
  intros [w b]. unfold place_attempt. set (id := xp_cl_ord_id request). simpl.
  pose proof (place_settled accepted id _ w (oa_place request)) as Hp.
  destruct (cl_place request w) as [r w1]. destruct Hp as [Ho H1].
  destruct r as [ack|e]; [simpl; naive_solver|].
  destruct ((code e ==s "transport") || (code e ==s "venue:51000")); [|simpl; naive_solver].
  pose proof (okx_lookup_tells (mkOkxQuery (xp_inst_id request) id) w1) as Hl.
  destruct (lookup_order _ _ _ w1) as [l w2]. destruct Hl as [Hk Ht].
  assert (Ho2 : keeps_others accepted id w w2) by (by rewrite <- Hk).
  assert (H2 : accepted id w = 0%nat -> (accepted id w2 <= 1)%nat) by (rewrite (Hk id); naive_solver).
  unfold tells, okx_sight in Ht. simpl in Ht.
  destruct (lk_outcome l); [|destruct (code e ==s "venue:51000")..]; simpl;
    (split; [done|]); intros H0; specialize (H2 H0); (split_and!; [lia|..]); intros; try done; lia.
Qed.

Lemma okx_resilient_place_once request :
  places_once accepted (xp_cl_ord_id request) (resilient_place policy clock request).
Proof. apply retry_while_safe_once; [done..|]. apply okx_place_attempt_once. Qed.
End Account.

#[global] Instance okx_quiet_requests {W : Type} accepted (c : OkxTradeClient W) (m : OkxMarketClient W)
    (config : OkxConfig) (clock : RetryClock W) :
  OkxQuiet accepted c m -> QuietClock accepted clock -> 1 <= max_attempts (OkxClient.retry config) ->
  QuietRequests accepted (okx_exchange_connector c m config clock).
Proof.
  intros Ha Hc Hattempts. split; simpl.
  - intros request. apply (quiet_answer _ _ placement_of).
    apply retry_while_safe_quiet; [done..|]. by apply (okx_cancel_attempt_quiet accepted (m:=m)).
  - intros request. apply (quiet_answer _ _ placement_of).
    apply retry_while_safe_quiet; [done..|]. by apply (okx_amend_attempt_quiet accepted (m:=m)).
  - intros query. apply retries_quiet; [done..|].
    apply (quiet_answer _ _ conclude_snapshot), oq_get.
  - apply (quiet_answer _ _ (fun p => let! infos := p in Ok (representable infos))).
    apply retries_quiet; [done..|]. apply oq_pending.
  - intros symbol. apply retries_quiet; [done..|]. apply oq_ticker.
Qed.

#[global] Instance okx_places_once {W : Type} accepted (c : OkxTradeClient W) (m : OkxMarketClient W)
    (config : OkxConfig) (clock : RetryClock W) :
  OkxAccount accepted c m -> QuietClock accepted clock -> 1 <= max_attempts (OkxClient.retry config) ->
  PlacesOnce accepted (okx_exchange_connector c m config clock).
Proof.
  intros Ha Hc Hattempts. split; [|apply okx_quiet_requests; [apply _|done..]]. simpl. intros request.
  apply (places_once_answer _ (xp_cl_ord_id (to_wire request)) _ placement_of).
  - by apply (okx_resilient_place_once accepted (m:=m)).
  - intros [ack|e] p Hp; [by eexists|done].
Qed.

#[global] Instance okx_places_elsewhere {W : Type} accepted (c : OkxTradeClient W) (m : OkxMarketClient W)
    (config : OkxConfig) (clock : RetryClock W) :
  OkxQuiet accepted c m -> (forall request, quiet accepted (cl_place request)) ->
  QuietClock accepted clock -> 1 <= max_attempts (OkxClient.retry config) ->
  PlacesElsewhere accepted (okx_exchange_connector c m config clock).
Proof.
  intros Ha Hp Hc Hattempts. split; [|by apply okx_quiet_requests]. simpl. intros request.
  apply (quiet_answer _ _ placement_of).
  apply retry_while_safe_quiet; [done..|]. by apply (okx_place_attempt_quiet accepted (m:=m)).
Qed.
