(* ===== verification/FeedSupport.v ===== *)
(** * Supervisor of the venue feeds: src/exchange/ws_feed_support.hpp

    The reconnect loop runs over the outcomes of the sessions that ended
    without a stop request; the random numbers are part of the input. *)

From S2P Require Import Prelude Types Json Retry.

Record FeedSessionOutcome := mkOutcome { so_failure : string; so_healthy : bool }.

(** [unsigned], 32 bits. *)
Definition incr32 (n : Z) : Z := (n + 1) mod 2 ^ 32.

(** The counter after a session. *)
Definition next_attempt (connect_attempt : Z) (outcome : FeedSessionOutcome) : Z :=
  incr32 (if so_healthy outcome then 0 else connect_attempt).

(** [reconnect_loop]: per session, what [a_on_disconnected] receives and how
    long the supervisor then sleeps. *)
Fixpoint reconnect_loop (a_policy : RetryPolicy) (connect_attempt : Z)
    (sessions : list (FeedSessionOutcome * spec_float)) : list (string * Z) :=
  match sessions with
  | [] => []
  | (outcome, u01) :: rest =>
      let connect_attempt := next_attempt connect_attempt outcome in
      let raw := backoff_for a_policy (to_int connect_attempt) in
      (so_failure outcome, apply_jitter a_policy raw u01)
      :: reconnect_loop a_policy connect_attempt rest
  end.

(** How the supervisor's reader sees one turn of its loop. *)
Inductive ReadStep :=
  | ReadText (message : string)
  | ReadEnd (stop_requested watchdog_fired : bool)
  | StopSeen.

Definition attempts_after (start : Z) (sessions : list (FeedSessionOutcome * spec_float)) : Z :=
  fold_left (fun n s => next_attempt n s.1) sessions start.

Lemma reconnect_loop_app p n l1 l2 :
  reconnect_loop p n (l1 ++ l2) = reconnect_loop p n l1 ++ reconnect_loop p (attempts_after n l1) l2.
Proof.
  revert n. induction l1 as [|[o u] l1 IH]; intros n; [done|]. simpl. by rewrite IH.
Qed.

Lemma attempts_unhealthy n l :
  0 <= n -> n + Z.of_nat (length l) < 2 ^ 32 -> Forall (fun s => so_healthy s.1 = false) l ->
  attempts_after n l = n + Z.of_nat (length l).
Proof.
  revert n. induction l as [|[o u] l IH]; intros n Hn Hlen Hl; [simpl; lia|].
  apply Forall_cons in Hl as [Ho Hl]. simpl in *. unfold attempts_after. simpl.
  fold (attempts_after (next_attempt n o) l). unfold next_attempt, incr32. rewrite Ho.
  rewrite Z.mod_small by lia. rewrite IH by (done || lia). lia.
Qed.

(** The reconnect backoff restarts after a healthy session: whatever came before, the delay
    after k further unhealthy sessions is the one of retry k+1 counted from the healthy session,
    so that an old outage never pins the delay at its maximum. *)
Theorem reconnect_backoff_restarts p start before healthy unhealthy failed u :
  so_healthy healthy.1 = true -> Forall (fun s => so_healthy s.1 = false) unhealthy ->
  so_healthy failed = false -> Z.of_nat (length unhealthy) + 2 < 2 ^ 31 ->
  exists done_so_far,
    reconnect_loop p start (before ++ healthy :: unhealthy ++ [(failed, u)])
    = done_so_far ++ [(so_failure failed,
        apply_jitter p (backoff_for p (Z.of_nat (length unhealthy) + 2)) u)]
    /\ length done_so_far = (length before + S (length unhealthy))%nat.
Proof.
  intros Hh Hu Hf Hlen. change (2 ^ 31) with 2147483648 in Hlen. rewrite reconnect_loop_app.
  set (n := attempts_after start before). destruct healthy as [h uh]. simpl in Hh.
  assert (Hn : next_attempt n h = 1) by (unfold next_attempt; by rewrite Hh).
  cbn [reconnect_loop]. rewrite Hn, reconnect_loop_app.
  rewrite attempts_unhealthy by (done || lia). cbn [reconnect_loop].
  unfold next_attempt. rewrite Hf. unfold incr32, to_int.
  change (2 ^ 31) with 2147483648. change (2 ^ 32) with 4294967296.
  rewrite (Z.mod_small (1 + Z.of_nat (length unhealthy) + 1)) by lia.
  rewrite (Z.mod_small (1 + Z.of_nat (length unhealthy) + 1 + _)) by lia.
  eexists (_ ++ _ :: _). split.
  - rewrite <- app_assoc. simpl. repeat f_equal; lia.
  - rewrite length_app. simpl. f_equal.
    + clear. generalize start. induction before as [|[o v] l IH]; intros m; simpl; [done|]. by rewrite IH.
    + f_equal. clear. generalize 1. induction unhealthy as [|[o v] l IH]; intros m; simpl; [done|].
      by rewrite IH.
Qed.

Lemma reconnect_backoff_restarts_witness :
  exists done_so_far,
    reconnect_loop default_retry_policy 7
      ([] ++ (mkOutcome "a" true, f64_zero) :: [(mkOutcome "b" false, f64_zero)]
          ++ [(mkOutcome "c" false, f64_zero)])
    = done_so_far ++ [(so_failure (mkOutcome "c" false),
        apply_jitter default_retry_policy (backoff_for default_retry_policy (Z.of_nat 1 + 2)) f64_zero)]
    /\ length done_so_far = 2%nat.
Proof.
  apply (reconnect_backoff_restarts default_retry_policy 7 [] (mkOutcome "a" true, f64_zero)
           [(mkOutcome "b" false, f64_zero)] (mkOutcome "c" false)); [done| |done|done].
  by constructor.
Defined.
