(* ===== verification/FeedShutdown.v ===== *)
(** * Stopping a feed: what the systems of threads of both venues share

    The socket both supervisors read from, runs of a step relation that names
    who moves, and the argument that a stopped system drains: every step of the
    supervisor spends some of a rank, every wait that ends some of a budget of
    waits, and some thread can always bring the end nearer. *)

From S2P Require Import Prelude.

(** ** The socket: third_party/httplib.h, [WebSocketClient]

    [close] before [connect] does nothing; a closed one refuses to send, and a
    read that begins on it fails at once, but a read that is already waiting
    goes on waiting for bytes or for its own timeout. *)
Inductive Socket := Fresh | Open | Closed.

Definition socket_close (k : option Socket) : option Socket :=
  match k with Some Open => Some Closed | _ => k end.

Definition socket_open (k : option Socket) : bool := match k with Some Open => true | _ => false end.

Definition connected (k : option Socket) : Prop := k = Some Open \/ k = Some Closed.

(** How a wait of a supervisor ends: the awaited thing came, or the wait
    failed (refused, closed by the peer, timed out), which leaves the socket
    closed, or something else came. *)
Inductive WaitEnd := Came | Failed | Other.

Definition read_socket (e : WaitEnd) (k : option Socket) : option Socket :=
  match e with Failed => Some Closed | _ => k end.

(** ** Runs *)

Section Runs.
Context {S A : Type} (step : A -> S -> S -> Prop).

Inductive runs : S -> list A -> S -> Prop :=
  | runs_nil s : runs s [] s
  | runs_step s1 l s2 a s3 : runs s1 l s2 -> step a s2 s3 -> runs s1 (l ++ [a]) s3.

Lemma runs_cons a s1 s2 l s3 : step a s1 s2 -> runs s2 l s3 -> runs s1 (a :: l) s3.
Proof.
  intros Ha Hr. induction Hr as [s2|s2 l s3 b s4 Hr IH Hb].
  - apply (runs_step s1 [] s1 a s2); [constructor|done].
  - rewrite app_comm_cons. eapply runs_step; [by apply IH|done].
Qed.

Lemma runs_app s1 l1 s2 l2 s3 : runs s1 l1 s2 -> runs s2 l2 s3 -> runs s1 (l1 ++ l2) s3.
Proof.
  intros H1 H2. induction H2 as [s2|s2 l2 s3 a s4 H2 IH Ha]; [by rewrite app_nil_r|].
  rewrite app_assoc. eapply runs_step; [by apply IH|done].
Qed.

Lemma runs_inv (P : S -> Prop) :
  (forall a s s', P s -> step a s s' -> P s') -> forall s l s', P s -> runs s l s' -> P s'.
Proof.
  intros Hp s l s' Hs Hr. induction Hr as [|s1 l s2 a s3 Hr IH Ha]; [done|].
  apply (Hp a s2); [by apply IH|done].
Qed.

(** [f] summed over the moves of a run. *)
Definition total (f : A -> nat) (l : list A) : nat := foldr (fun a n => f a + n)%nat 0%nat l.

Lemma total_snoc f l a : total f (l ++ [a]) = (total f l + f a)%nat.
Proof. unfold total. induction l as [|b l IH]; simpl; [lia|]. rewrite IH. lia. Qed.

(** ** Draining *)

(** [stopping]: the caller waits for the supervisor; [free]: the moves of the
    other threads; [own] and [wait] count those of the supervisor. *)
Class Draining (stopping ended : S -> Prop) (free : A -> Prop) (own wait : A -> nat)
    (rank waits left : S -> nat) : Prop := {
  drain_spends a s s' : stopping s -> free a -> step a s s' ->
    stopping s' /\ (own a + rank s' <= rank s)%nat /\ (wait a + waits s' <= waits s)%nat;
  drain_moves s : stopping s ->
    ended s \/ exists a s', free a /\ step a s s' /\ (left s' < left s)%nat }.

Context {stopping ended : S -> Prop} {free : A -> Prop} {own wait : A -> nat}
  {rank waits left : S -> nat} `{!Draining stopping ended free own wait rank waits left}.

Lemma drain_bounds s l s' :
  stopping s -> runs s l s' -> Forall free l ->
  stopping s' /\ (total own l + rank s' <= rank s)%nat /\ (total wait l + waits s' <= waits s)%nat.
Proof.
  intros Hs Hr Hl. induction Hr as [s|s1 l s2 a s3 Hr IH Ha]; [done|].
  apply Forall_app in Hl as [Hl Hfree]. apply Forall_cons in Hfree as [Hfree _].
  destruct (IH Hs Hl) as (Hs2 & Ho & Hw).
  destruct (drain_spends _ _ _ Hs2 Hfree Ha) as (Hs3 & Ho3 & Hw3).
  rewrite !total_snoc. split; [done|]. lia.
Qed.

Lemma drain_ends s : stopping s -> exists l s', runs s l s' /\ Forall free l /\ stopping s' /\ ended s'.
Proof.
  remember (left s) as n eqn:En. revert s En. induction (lt_wf n) as [n _ IH]. intros s -> Hs.
  destruct (drain_moves s Hs) as [He|(a & s2 & Hfree & Ha & Hlt)].
  { exists [], s. split_and!; [constructor|constructor|done|done]. }
  destruct (IH _ Hlt s2 eq_refl) as (l & s3 & Hr & Hl & Hs3 & He);
    [by destruct (drain_spends _ _ _ Hs Hfree Ha)|].
  exists (a :: l), s3. split_and!; [by eapply runs_cons|by constructor|done|done].
Qed.
End Runs.

(** ** Scripts: runs that evaluate

    A script lists moves that a function carries out. *)

Section Scripts.
Context {S A M : Type} (step : A -> S -> S -> Prop) (actor : M -> A) (move : M -> S -> option S).

Fixpoint script (ms : list M) (s : S) : option S :=
  match ms with
  | [] => Some s
  | m :: ms => match move m s with Some s => script ms s | None => None end
  end.

Lemma script_run :
  (forall m s s', move m s = Some s' -> step (actor m) s s') ->
  forall ms s s', script ms s = Some s' -> runs step s (map actor ms) s'.
Proof.
  intros Hm ms. induction ms as [|m ms IH]; intros s s' H; simpl in H; [simplify_eq; constructor|].
  destruct (move m s) as [s1|] eqn:H1; [|done]. eapply runs_cons; [by apply Hm|by apply IH].
Qed.
End Scripts.
