(* ===== verification/OkxFeed.v ===== *)
(** * OKX private orders feed: src/exchange/okx/okx_ws_client.cpp

    One session as a function of what the socket answers (the result of the
    connection and of the sends, the text frames in the order they are read)
    to what the feed does (frames it sends, events and reports it emits).
    Both handlers are installed, as OkxConnector::start installs them. *)

From S2P Require Import Prelude Types Json Retry OkxWire OkxClient FeedSupport.

Inductive FeedEventType := Connecting | Connected | Disconnected | Stopped | ProtocolWarning.

Inductive FeedAction :=
  | Emit (a_type : FeedEventType) (a_detail : string)
  | Report (a_report : ExecutionReport)
  | Send (a_text : string).

Definition ws_host_for (a_config : OkxConfig) : string :=
  if demo_trading a_config && (ws_host (ws a_config) ==s "ws.okx.com")
  then "wspap.okx.com" else ws_host (ws a_config).

Definition checked_string (a_node : json) (a_name : string) : string :=
  default "" (jstring a_node a_name).

Definition patience_ms (a_config : OkxWsConfig) : Z :=
  ping_interval a_config * (max_missed_pongs a_config + 1).

(** One turn of [run_pinger] after its sleep: close a silent connection, or
    send a ping. *)
Inductive PingTurn := PingStop | PingWatchdog | PingSend.

Definition pinger_turn (a_config : OkxWsConfig) (stop_requested : bool) (now last_inbound_ms : Z)
    : PingTurn :=
  if stop_requested then PingStop
  else if patience_ms a_config <? now - last_inbound_ms then PingWatchdog
  else PingSend.

Section Feed.
Context (parse : string -> option json) (dump : json -> string)
  (hmac_sha256_base64 : string -> string -> string).

Definition quoted (text : string) : string := dquote +:+ text +:+ dquote.

(** One item of the data array. *)
Definition dispatch_item (item : json) : FeedAction :=
  if negb (is_object item) then Emit ProtocolWarning "orders data item is not an object"
  else
    let info := parse_order_info dump item in
    match map_okx_state (xi_state info) with
    | None => Emit ProtocolWarning ("unknown OKX order state " +:+ quoted (xi_state info)
                                    +:+ "; item skipped")
    | Some state =>
        if str_empty (xi_cl_ord_id info)
        then Emit ProtocolWarning "orders item without clOrdId; skipped"
        else match map_okx_side (xi_side info) with
             | None => Emit ProtocolWarning ("unknown OKX order side " +:+ quoted (xi_side info)
                                             +:+ "; item skipped")
             | Some side =>
                 Report (mkExecutionReport (xi_cl_ord_id info) (xi_ord_id info) state side
                           (xi_acc_fill_sz info) (xi_avg_px info))
             end
    end.

Definition dispatch_orders_message (a_message : json) : list FeedAction :=
  match jfind a_message "arg", jfind a_message "data" with
  | Some (JObject _), Some (JArray items) => map dispatch_item items
  | _, _ => [Emit ProtocolWarning ("malformed orders message: " +:+ dump a_message)]
  end.

(** One text frame of a subscribed session. *)
Definition handle_frame (message : string) : list FeedAction :=
  if message ==s "pong" then []
  else if message ==s "ping" then [Send "pong"]
  else match parse message with
       | None => [Emit ProtocolWarning "non-JSON text frame skipped"]
       | Some parsed =>
           match jfind parsed "event" with
           | Some (JString event) =>
               if event ==s "error"
               then [Emit ProtocolWarning ("venue error event: " +:+ message)] else []
           | _ => dispatch_orders_message parsed
           end
       end.

(** The reader's loop: what it does, why it ended, whether it saw a frame.
    [None]: the given turns do not end the session. *)
Fixpoint read_loop (steps : list ReadStep) : option (list FeedAction * string * bool) :=
  match steps with
  | [] => None
  | StopSeen :: _ => Some ([], "", false)
  | ReadEnd stop_requested watchdog_fired :: _ =>
      Some ([], if stop_requested then ""
                else if watchdog_fired then "watchdog closed a silent connection"
                else "connection lost", false)
  | ReadText message :: rest =>
      match read_loop rest with
      | Some (actions, reason, _) => Some (handle_frame message ++ actions, reason, true)
      | None => None
      end
  end.

Context (config : OkxConfig).

Definition session_url : string :=
  (if ws_use_tls (ws config) then "wss://" else "ws://") +:+ ws_host_for config +:+ ":"
  +:+ std_to_string (ws_port (ws config)) +:+ ws_path (ws config).

Definition login_request (timestamp : string) : json :=
  jobj [("op", JString "login");
        ("args", JArray [jobj [("apiKey", JString (api_key config));
                               ("passphrase", JString (passphrase config));
                               ("timestamp", JString timestamp);
                               ("sign", JString (sign_ws_login hmac_sha256_base64 timestamp
                                                   (secret_key config)))]])].

Definition subscribe_request : json :=
  jobj [("op", JString "subscribe");
        ("args", JArray [jobj [("channel", JString "orders"); ("instType", JString "SPOT")]])].

Definition login_accepted (reply : string) : bool :=
  match parse reply with
  | Some ack => is_object ack && (checked_string ack "event" ==s "login")
                && (checked_string ack "code" ==s "0")
  | None => false
  end.

Definition subscribe_accepted (reply : string) : bool :=
  match parse reply with
  | Some ack => is_object ack && (checked_string ack "event" ==s "subscribe")
  | None => false
  end.

(** What the socket answers during a session; a read is [None] when it
    returns no text. *)
Record SessionInput := mkInput {
  in_connect_error : option Z;
  in_timestamp : string;
  in_login_sent : bool;
  in_login_reply : option string;
  in_subscribe_sent : bool;
  in_subscribe_reply : option string;
  in_steps : list ReadStep;
  in_uptime_ns : Z }.

Definition healthy_ns : Z := 30 * 1000000000.

Definition run_session (i : SessionInput) : option (FeedSessionOutcome * list FeedAction) :=
  let connecting := Emit Connecting session_url in
  let failed text done := Some (mkOutcome text false, done) in
  match in_connect_error i with
  | Some e =>
      failed ("connect failed to " +:+ session_url +:+ ": error " +:+ std_to_string e) [connecting]
  | None =>
      if negb (in_login_sent i) then failed "failed to send login request" [connecting]
      else
        let done := [connecting; Send (dump (login_request (in_timestamp i)))] in
        match in_login_reply i with
        | None => failed "connection closed waiting for login ack" done
        | Some reply =>
            if negb (login_accepted reply) then failed ("login rejected: " +:+ reply) done
            else if negb (in_subscribe_sent i) then failed "failed to send subscribe request" done
            else
              let done := done ++ [Send (dump subscribe_request)] in
              match in_subscribe_reply i with
              | None => failed "connection closed waiting for subscribe ack" done
              | Some sub_reply =>
                  if negb (subscribe_accepted sub_reply)
                  then failed ("subscribe rejected: " +:+ sub_reply) done
                  else
                    match read_loop (in_steps i) with
                    | None => None
                    | Some (actions, reason, inbound) =>
                        Some (mkOutcome reason (inbound || (healthy_ns <=? in_uptime_ns i)),
                              done ++ Emit Connected "orders channel subscribed" :: actions)
                    end
              end
        end
  end.
End Feed.

(** [OkxConnector::start]: what an event tells the core about connectivity. *)
Definition connectivity_of (a_type : FeedEventType) : option bool :=
  match a_type with
  | Connected => Some true
  | Disconnected | Stopped => Some false
  | Connecting | ProtocolWarning => None
  end.

(** ** Where reports come from *)

Section FeedFacts.
Context (parse : string -> option json) (dump : json -> string)
  (hmac : string -> string -> string) (config : OkxConfig).

(** A frame whose data array holds an order with a known state and side and
    a client id: the report is that order's. *)
Definition reported (message : string) (r : ExecutionReport) : Prop :=
  exists m items fields, parse message = Some m /\ jfind m "data" = Some (JArray items)
    /\ In (JObject fields) items
    /\ let info := parse_order_info dump (JObject fields) in
       er_client_order_id r = xi_cl_ord_id info /\ xi_cl_ord_id info <> ""
       /\ er_exchange_order_id r = xi_ord_id info
       /\ map_okx_state (xi_state info) = Some (er_state r)
       /\ map_okx_side (xi_side info) = Some (er_side r)
       /\ er_filled_quantity r = xi_acc_fill_sz info
       /\ er_average_fill_price r = xi_avg_px info.

Lemma dispatch_item_report item r :
  dispatch_item dump item = Report r ->
  exists fields, item = JObject fields
    /\ let info := parse_order_info dump item in
       er_client_order_id r = xi_cl_ord_id info /\ xi_cl_ord_id info <> ""
       /\ er_exchange_order_id r = xi_ord_id info
       /\ map_okx_state (xi_state info) = Some (er_state r)
       /\ map_okx_side (xi_side info) = Some (er_side r)
       /\ er_filled_quantity r = xi_acc_fill_sz info
       /\ er_average_fill_price r = xi_avg_px info.
Proof.
  unfold dispatch_item. destruct item; simpl; try done. cbv zeta.
  destruct (map_okx_state _) as [state|] eqn:Hstate; [|done].
  destruct (str_empty _) eqn:Hid; [done|].
  destruct (map_okx_side _) as [side|] eqn:Hside; [|done].
  intros H. injection H as <-. exists fields. split; [done|]. cbn.
  repeat split; try done. intros He. cbn in Hid, He. by rewrite He in Hid.
Qed.

Lemma handle_frame_report message r :
  In (Report r) (handle_frame parse dump message) -> reported message r.
Proof.
  unfold handle_frame.
  destruct (message ==s "pong"); [by intros []|].
  destruct (message ==s "ping"); [by intros [|[]]|].
  destruct (parse message) as [m|] eqn:Hp; [|by intros [|[]]].
  assert (Hd : In (Report r) (dispatch_orders_message dump m) -> reported message r).
  { unfold dispatch_orders_message.
    destruct (jfind m "arg") as [[]|]; try (by intros [|[]]).
    destruct (jfind m "data") as [[]|] eqn:Hdata; try (by intros [|[]]).
    intros (item & Hr & Hin)%in_map_iff.
    destruct (dispatch_item_report _ _ Hr) as (fs & -> & Hinfo).
    by exists m, items, fs. }
  destruct (jfind m "event") as [[]|]; try exact Hd.
  destruct (s ==s "error"); [by intros [|[]]|by intros []].
Qed.

Lemma read_loop_report steps actions reason inbound r :
  read_loop parse dump steps = Some (actions, reason, inbound) -> In (Report r) actions ->
  exists message, In (ReadText message) steps /\ reported message r.
Proof.
  revert actions reason inbound. induction steps as [|s steps IH]; intros actions reason inbound H Hin;
    [done|]. destruct s as [message|a b|]; simpl in H; [|by simplify_eq|by simplify_eq].
  destruct (read_loop parse dump steps) as [[[rest why] b]|]; [|done]. simplify_eq.
  apply in_app_iff in Hin as [Hin|Hin].
  - exists message. split; [by left|by apply handle_frame_report].
  - destruct (IH _ _ _ eq_refl Hin) as (m & Hm & Hr). exists m. split; [by right|done].
Qed.

(** C35: Execution reports come only from an authenticated session: a report is emitted after
    login and subscription were acknowledged and Connected was signalled, and it carries the
    fields of an object in the data array of a frame that was read, with a known state, a known
    side and a client id. *)
Theorem feed_reports_authenticated i outcome actions r :
  run_session parse dump hmac config i = Some (outcome, actions) -> In (Report r) actions ->
  exists login sub before after message,
    in_login_reply i = Some login /\ login_accepted parse login = true
    /\ in_subscribe_reply i = Some sub /\ subscribe_accepted parse sub = true
    /\ actions = before ++ Emit Connected "orders channel subscribed" :: after
    /\ (forall r', ~ In (Report r') before)
    /\ In (ReadText message) (in_steps i) /\ reported message r.
Proof.
  unfold run_session. destruct (in_connect_error i); [intros H Hin; simplify_eq; by destruct Hin as [|[]]|].
  destruct (in_login_sent i); simpl; [|intros H Hin; simplify_eq; by destruct Hin as [|[]]].
  destruct (in_login_reply i) as [login|]; [|intros H Hin; simplify_eq; by destruct Hin as [|[|[]]]].
  destruct (login_accepted parse login) eqn:Hl; simpl;
    [|intros H Hin; simplify_eq; by destruct Hin as [|[|[]]]].
  destruct (in_subscribe_sent i); simpl; [|intros H Hin; simplify_eq; by destruct Hin as [|[|[]]]].
  destruct (in_subscribe_reply i) as [sub|];
    [|intros H Hin; simplify_eq; by destruct Hin as [|[|[|[]]]]].
  destruct (subscribe_accepted parse sub) eqn:Hs; simpl;
    [|intros H Hin; simplify_eq; by destruct Hin as [|[|[|[]]]]].
  destruct (read_loop parse dump (in_steps i)) as [[[acts reason] inbound]|] eqn:Hread; [|done].
  intros H Hin. simplify_eq. destruct Hin as [|[|[|[|Hin]]]]; try done.
  destruct (read_loop_report _ _ _ _ _ Hread Hin) as (message & Hm & Hr).
  exists login, sub.
  eexists [_; _; _], acts, message. split_and!; try done.
  intros r' [|[|[|[]]]]; done.
Qed.
End FeedFacts.

(** A session that logs in, subscribes and reads one order. *)
Definition demo_parse (text : string) : option json :=
  if text ==s "L" then Some (jobj [("event", JString "login"); ("code", JString "0")])
  else if text ==s "S" then Some (jobj [("event", JString "subscribe")])
  else if text ==s "O" then
    Some (jobj [("arg", jobj []);
                ("data", JArray [jobj [("ordId", JString "77"); ("clOrdId", JString "a1");
                                       ("state", JString "filled"); ("side", JString "buy");
                                       ("accFillSz", JString "0.1"); ("avgPx", JString "50000")]])])
  else None.

Definition demo_session : SessionInput :=
  mkInput None "1700000000.000" true (Some "L") true (Some "S")
    [ReadText "ping"; ReadText "O"; ReadEnd false false] 0.

Definition demo_report : ExecutionReport := mkExecutionReport "a1" "77" Filled Buy "0.1" "50000".

Definition demo_ws_config : OkxConfig :=
  mkOkxConfig "k" "s" "p" "www.okx.com" 443 true true 5000 5000 default_retry_policy default_ws.

Lemma feed_reports_authenticated_witness :
  exists login sub before after message,
    in_login_reply demo_session = Some login /\ login_accepted demo_parse login = true
    /\ in_subscribe_reply demo_session = Some sub /\ subscribe_accepted demo_parse sub = true
    /\ [Emit Connecting "wss://wspap.okx.com:8443/ws/v5/private"; Send ""; Send "";
        Emit Connected "orders channel subscribed"; Send "pong"; Report demo_report]
       = before ++ Emit Connected "orders channel subscribed" :: after
    /\ (forall r', ~ In (Report r') before)
    /\ In (ReadText message) (in_steps demo_session)
    /\ reported demo_parse (fun _ => "") message demo_report.
Proof.
  apply (feed_reports_authenticated demo_parse (fun _ => "") (fun _ _ => "") demo_ws_config
           demo_session (mkOutcome "connection lost" true)).
  - vm_compute. reflexivity.
  - simpl. tauto.
Defined.
