(* ===== verification/OkxFeedSystem.v ===== *)
(** * The threads of the OKX orders feed: okx_ws_client.cpp, ws_feed_support.hpp

    Three threads meet in one session: the supervisor ([run], [run_session]),
    the pinger it starts once subscribed ([run_pinger]) and the thread that
    calls [start] and [stop].  They share the stop token, the client object
    that [run_session] keeps on its stack, and [close_active_session_], the
    closure that lets [stop] close that object.

    The blocks under [session_mutex_] are single steps: they exclude each other.
    A wait (for the connection, for a frame, for a sleep to pass) begins in one
    step and ends in another. *)

From S2P Require Import Prelude Types OkxClient OkxFeed FeedShutdown.

(** Where the supervisor is. *)
Inductive Supervisor :=
  | SvNone | SvTop | SvRegister | SvConnect
  | SvLoginSend | SvLoginRead | SvLoginWait
  | SvSubscribeSend | SvSubscribeRead | SvSubscribeWait
  | SvLoop | SvRead | SvWait
  | SvFinish | SvClose | SvJoin | SvClear | SvDestroy
  | SvAfter | SvSleep | SvStopped | SvExited.

Inductive Pinger := PgNone | PgSleep | PgTurn | PgExited.
Inductive Control := CtIdle | CtClose | CtJoin.

Record FeedSys := mkFeed {
  fs_running : bool;
  fs_control : Control;
  fs_stop : bool;
  fs_supervisor : Supervisor;
  fs_socket : option Socket;
  fs_registered : bool;
  fs_pinger : Pinger;
  fs_ping_stop : bool;
  fs_watchdog : bool }.

Definition initial_feed : FeedSys := mkFeed false CtIdle false SvNone None false PgNone false false.

Definition set_control (running : bool) (c : Control) (stop : bool) (sv : Supervisor) (s : FeedSys) : FeedSys :=
  mkFeed running c stop sv (fs_socket s) (fs_registered s) (fs_pinger s) (fs_ping_stop s) (fs_watchdog s).
Definition set_supervisor (sv : Supervisor) (s : FeedSys) : FeedSys :=
  mkFeed (fs_running s) (fs_control s) (fs_stop s) sv (fs_socket s) (fs_registered s) (fs_pinger s)
    (fs_ping_stop s) (fs_watchdog s).
Definition set_socket (k : option Socket) (s : FeedSys) : FeedSys :=
  mkFeed (fs_running s) (fs_control s) (fs_stop s) (fs_supervisor s) k (fs_registered s) (fs_pinger s)
    (fs_ping_stop s) (fs_watchdog s).
Definition set_registered (r : bool) (s : FeedSys) : FeedSys :=
  mkFeed (fs_running s) (fs_control s) (fs_stop s) (fs_supervisor s) (fs_socket s) r (fs_pinger s)
    (fs_ping_stop s) (fs_watchdog s).
Definition set_pinger (p : Pinger) (stop watchdog : bool) (s : FeedSys) : FeedSys :=
  mkFeed (fs_running s) (fs_control s) (fs_stop s) (fs_supervisor s) (fs_socket s) (fs_registered s) p
    stop watchdog.

(** ** The caller of [start] and [stop] *)

(** [start]: nothing when the feed is disabled or runs; a new supervisor has
    a stop token of its own. *)
Definition feed_start (enabled : bool) (s : FeedSys) : FeedSys :=
  if negb enabled || fs_running s then s else set_control true CtIdle false SvTop s.

(** [stop], up to the lock: a thread to join is asked to stop. *)
Definition feed_stop (s : FeedSys) : FeedSys :=
  match fs_supervisor s with
  | SvNone => set_control false CtIdle (fs_stop s) SvNone s
  | sv => set_control (fs_running s) CtClose true sv s
  end.

(** Under the lock: the registered closure closes the session's client. *)
Definition feed_close (s : FeedSys) : FeedSys :=
  let s := if fs_registered s then set_socket (socket_close (fs_socket s)) s else s in
  set_control (fs_running s) CtJoin (fs_stop s) (fs_supervisor s) s.

Definition feed_joined (s : FeedSys) : FeedSys := set_control false CtIdle (fs_stop s) SvNone s.

(** ** The supervisor *)

(** What a step of the supervisor that waits for nothing does; [ok]: what a
    send returned. *)
Definition supervisor_own (ok : bool) (s : FeedSys) : option FeedSys :=
  let closed := negb (socket_open (fs_socket s)) in
  let sends next := Some (set_supervisor (if closed || negb ok then SvClear else next) s) in
  let reads wait failed := Some (set_supervisor (if closed then failed else wait) s) in
  match fs_supervisor s with
  | SvTop => Some (if fs_stop s then set_supervisor SvStopped s
                   else set_supervisor SvRegister (set_socket (Some Fresh) s))
  | SvRegister => Some (set_supervisor SvConnect (set_registered true s))
  | SvLoginSend => sends SvLoginRead
  | SvLoginRead => reads SvLoginWait SvClear
  | SvSubscribeSend => sends SvSubscribeRead
  | SvSubscribeRead => reads SvSubscribeWait SvClear
  | SvLoop => Some (set_supervisor (if fs_stop s then SvFinish else SvRead) s)
  | SvRead => reads SvWait SvFinish
  | SvFinish => Some (set_supervisor SvClose (set_pinger (fs_pinger s) true (fs_watchdog s) s))
  | SvClose => Some (set_supervisor SvJoin (set_socket (socket_close (fs_socket s)) s))
  | SvJoin => match fs_pinger s with
              | PgExited => Some (set_supervisor SvClear (set_pinger PgNone true (fs_watchdog s) s))
              | _ => None
              end
  | SvClear => Some (set_supervisor SvDestroy (set_registered false s))
  | SvDestroy => Some (set_supervisor SvAfter (set_socket None s))
  | SvAfter => Some (set_supervisor (if fs_stop s then SvStopped else SvSleep) s)
  | SvSleep => if fs_stop s then Some (set_supervisor SvTop s) else None
  | SvStopped => Some (set_supervisor SvExited s)
  | SvConnect | SvLoginWait | SvSubscribeWait | SvWait | SvNone | SvExited => None
  end.

(** The end of a wait of the supervisor; a read of something else than text leaves
    the socket as it was. *)
Definition supervisor_wakes (e : WaitEnd) (s : FeedSys) : option FeedSys :=
  let read next failed :=
    Some (set_supervisor (match e with Came => next | _ => failed end)
            (set_socket (read_socket e (fs_socket s)) s)) in
  match fs_supervisor s with
  | SvConnect =>
      Some (match e with
            | Came => set_supervisor SvLoginSend (set_socket (Some Open) s)
            | _ => set_supervisor SvClear s
            end)
  | SvLoginWait => read SvSubscribeSend SvClear
  | SvSubscribeWait =>
      match e with
      | Came => Some (set_supervisor SvLoop (set_pinger PgSleep false false s))
      | _ => read SvLoop SvClear
      end
  | SvWait => read SvLoop SvFinish
  | SvSleep => Some (set_supervisor SvTop s)
  | _ => None
  end.

(** ** The pinger *)

(** After its sleep it looks at its stop token; then it acts as [pinger_turn]
    decides, watchdog or ping. *)
Definition pinger_wakes (turn : PingTurn) (sent : bool) (s : FeedSys) : option FeedSys :=
  match fs_pinger s with
  | PgSleep => Some (set_pinger (if fs_ping_stop s then PgExited else PgTurn) (fs_ping_stop s) (fs_watchdog s) s)
  | PgTurn =>
      match turn with
      | PingStop => None
      | PingWatchdog =>
          Some (set_socket (socket_close (fs_socket s)) (set_pinger PgExited (fs_ping_stop s) true s))
      | PingSend =>
          let closed := negb (socket_open (fs_socket s)) in
          Some (set_pinger (if closed || negb sent then PgExited else PgSleep) (fs_ping_stop s)
                  (fs_watchdog s) s)
      end
  | PgNone | PgExited => None
  end.

(** ** The system *)

Inductive Actor := ByControl | BySupervisor | BySupervisorWait | ByPinger.

Section FeedSystem.
Context (enabled : bool).

Inductive feed_step : Actor -> FeedSys -> FeedSys -> Prop :=
  | fd_start s : fs_control s = CtIdle -> feed_step ByControl s (feed_start enabled s)
  | fd_stop s : fs_control s = CtIdle -> feed_step ByControl s (feed_stop s)
  | fd_close s : fs_control s = CtClose -> feed_step ByControl s (feed_close s)
  | fd_join s : fs_control s = CtJoin -> fs_supervisor s = SvExited -> feed_step ByControl s (feed_joined s)
  | fd_own ok s s' : supervisor_own ok s = Some s' -> feed_step BySupervisor s s'
  | fd_wake e s s' : supervisor_wakes e s = Some s' -> feed_step BySupervisorWait s s'
  | fd_ping turn sent s s' : pinger_wakes turn sent s = Some s' -> feed_step ByPinger s s'.

Notation feed_run := (runs feed_step).

(** *** What every reachable state satisfies *)

Definition in_handshake (sv : Supervisor) : bool :=
  match sv with
  | SvLoginSend | SvLoginRead | SvLoginWait | SvSubscribeSend | SvSubscribeRead | SvSubscribeWait => true
  | _ => false
  end.
Definition in_loop (sv : Supervisor) : bool :=
  match sv with SvLoop | SvRead | SvWait | SvFinish => true | _ => false end.
Definition outside (sv : Supervisor) : bool :=
  match sv with
  | SvNone | SvTop | SvAfter | SvSleep | SvStopped | SvExited => true
  | _ => false
  end.

(** The client object, the closure and the pinger, by the supervisor's place. *)
Definition session_ok (s : FeedSys) : Prop :=
  match fs_supervisor s with
  | SvRegister => fs_socket s = Some Fresh /\ fs_registered s = false /\ fs_pinger s = PgNone
  | SvConnect => fs_socket s = Some Fresh /\ fs_registered s = true /\ fs_pinger s = PgNone
  | SvClose => connected (fs_socket s) /\ fs_registered s = true /\ fs_pinger s <> PgNone /\ fs_ping_stop s = true
  | SvJoin => fs_socket s = Some Closed /\ fs_registered s = true /\ fs_pinger s <> PgNone
              /\ fs_ping_stop s = true
  | SvClear => is_Some (fs_socket s) /\ fs_registered s = true /\ fs_pinger s = PgNone
  | SvDestroy => is_Some (fs_socket s) /\ fs_registered s = false /\ fs_pinger s = PgNone
  | sv =>
      if in_handshake sv then connected (fs_socket s) /\ fs_registered s = true /\ fs_pinger s = PgNone
      else if in_loop sv then connected (fs_socket s) /\ fs_registered s = true /\ fs_pinger s <> PgNone
                              /\ fs_ping_stop s = false
      else fs_socket s = None /\ fs_registered s = false /\ fs_pinger s = PgNone
  end.

Definition control_ok (s : FeedSys) : Prop :=
  match fs_control s with
  | CtIdle => (fs_supervisor s = SvNone <-> fs_running s = false)
              /\ (fs_supervisor s <> SvNone -> fs_stop s = false)
  | CtClose | CtJoin => fs_running s = true /\ fs_stop s = true /\ fs_supervisor s <> SvNone
  end.

Definition FeedInv (s : FeedSys) : Prop := session_ok s /\ control_ok s.

Lemma initial_feed_ok : FeedInv initial_feed.
Proof. split; [done|]. split; done. Qed.

Ltac feed_solve :=
  first [done
    | solve [intuition (subst; cbn in *; try done; try congruence; eauto)]
    | naive_solver].

Ltac feed_cases s :=
  destruct s as [running control stop sv socket registered pinger ping_stop watchdog];
  unfold FeedInv, session_ok, control_ok, connected in *; cbn in *.

Lemma supervisor_own_ok ok s s' : FeedInv s -> supervisor_own ok s = Some s' -> FeedInv s'.
Proof.
  intros [Hs Hc]. feed_cases s.
  destruct sv; cbn in *; try done; intros H; cbv zeta in H;
    repeat match goal with
    | H : context [if ?b then _ else _] |- _ => destruct b; cbn in H
    | H : context [match socket with _ => _ end] |- _ => destruct socket as [[]|]; cbn in H
    | H : context [match pinger with _ => _ end] |- _ => destruct pinger; cbn in H
    end; simplify_eq; cbn; (split; [|destruct control; try feed_solve]); try feed_solve.
Qed.

Lemma supervisor_wakes_ok e s s' : FeedInv s -> supervisor_wakes e s = Some s' -> FeedInv s'.
Proof.
  intros [Hs Hc]. feed_cases s.
  destruct sv; cbn in *; try done; intros H; destruct e; cbn in H; simplify_eq; cbn;
    (split; [|destruct control; try feed_solve]); try feed_solve.
Qed.

Lemma pinger_wakes_ok turn sent s s' : FeedInv s -> pinger_wakes turn sent s = Some s' -> FeedInv s'.
Proof.
  intros [Hs Hc]. feed_cases s.
  destruct pinger; cbn; [done| | |done]; intros H; [simplify_eq|destruct turn, sent; simplify_eq]; cbn;
    (split; [|exact Hc]); destruct sv; cbn in *; try feed_solve;
    destruct socket as [[]|]; cbn in *; feed_solve.
Qed.

Lemma feed_step_ok a s s' : FeedInv s -> feed_step a s s' -> FeedInv s'.
Proof.
  intros HI H. destruct H as [s Hc|s Hc|s Hc|s Hc Hx|ok s s' H|e s s' H|turn sent s s' H].
  - destruct HI as [Hs Hct]. unfold feed_start. destruct enabled; cbn; [|done].
    destruct (fs_running s) eqn:Hr; cbn; [done|]. feed_cases s. subst. feed_solve.
  - destruct HI as [Hs Hct]. unfold feed_stop. feed_cases s. subst. destruct sv, running; cbn in *; feed_solve.
  - destruct HI as [Hs Hct]. unfold feed_close. feed_cases s. subst. destruct registered; cbn;
      (split; [|feed_solve]); destruct sv; cbn in *; try feed_solve;
      destruct socket as [[]|]; cbn in *; feed_solve.
  - destruct HI as [Hs Hct]. unfold feed_joined. feed_cases s. subst. cbn in *. feed_solve.
  - by eapply supervisor_own_ok.
  - by eapply supervisor_wakes_ok.
  - by eapply pinger_wakes_ok.
Qed.

Lemma feed_run_ok s l s' : FeedInv s -> feed_run s l s' -> FeedInv s'.
Proof. apply runs_inv. intros a s1 s2. apply feed_step_ok. Qed.

Lemma reachable_ok l s : feed_run initial_feed l s -> FeedInv s.
Proof. apply feed_run_ok, initial_feed_ok. Qed.

(** C28: The OKX feed's threads only touch a live connection: in every reachable state the
    registered closure has a client to close, a pinger that may still send has a connected one,
    the client is destroyed only after the closure is cleared and the pinger joined, and a feed
    that does not run has no supervisor, client, closure or pinger. *)
Theorem feed_threads_use_live_clients l s :
  feed_run initial_feed l s ->
  (fs_registered s = true -> is_Some (fs_socket s))
  /\ (fs_pinger s = PgSleep \/ fs_pinger s = PgTurn -> connected (fs_socket s))
  /\ (fs_supervisor s = SvDestroy -> fs_registered s = false /\ fs_pinger s = PgNone)
  /\ (fs_control s = CtIdle -> fs_running s = false ->
        fs_supervisor s = SvNone /\ fs_socket s = None /\ fs_registered s = false /\ fs_pinger s = PgNone).
Proof.
  intros [Hs Hc]%reachable_ok. split_and!.
  - clear Hc. feed_cases s. intros ->. destruct sv; cbn in Hs; feed_solve.
  - clear Hc. feed_cases s. intros Hp. destruct sv; cbn in Hs; feed_solve.
  - clear Hc. feed_cases s. intros ->. feed_solve.
  - intros Hi Hr. unfold control_ok in Hc. rewrite Hi, Hr in Hc. destruct Hc as [[_ Hn] _].
    specialize (Hn eq_refl). unfold session_ok in Hs. by rewrite Hn in Hs.
Qed.

(** *** After a stop request *)

(** How far the supervisor is from its end once a stop is requested. *)
Definition rank (sv : Supervisor) : nat :=
  match sv with
  | SvRegister => 20 | SvConnect => 19 | SvLoginSend => 18 | SvLoginRead => 17 | SvLoginWait => 16
  | SvSubscribeSend => 15 | SvSubscribeRead => 14 | SvSubscribeWait => 13 | SvRead => 12 | SvWait => 11
  | SvLoop => 10 | SvFinish => 9 | SvClose => 8 | SvJoin => 7 | SvClear => 6 | SvDestroy => 5
  | SvAfter => 4 | SvSleep => 3 | SvTop => 2 | SvStopped => 1 | SvExited | SvNone => 0
  end%nat.

(** The waits it may still have to sit through. *)
Definition waits (s : FeedSys) : nat :=
  match fs_socket s, fs_supervisor s with
  | _, (SvRegister | SvConnect) => 3
  | _, SvSleep => 1
  | Some Closed, (SvLoginWait | SvSubscribeWait | SvWait) => 1
  | Some Closed, _ => 0
  | _, (SvLoginSend | SvLoginRead | SvLoginWait) => 2
  | _, (SvSubscribeSend | SvSubscribeRead | SvSubscribeWait | SvRead | SvWait) => 1
  | _, _ => 0
  end%nat.

Definition own_count (a : Actor) : nat :=
  match a with BySupervisor | BySupervisorWait => 1 | _ => 0 end%nat.
Definition wait_count (a : Actor) : nat := match a with BySupervisorWait => 1 | _ => 0 end%nat.
(** What is left after a step of a feed that is being stopped. *)
Definition spends (a : Actor) (s s' : FeedSys) : Prop :=
  fs_stop s' = true
  /\ (own_count a + rank (fs_supervisor s') <= rank (fs_supervisor s))%nat
  /\ (wait_count a + waits s' <= waits s)%nat.

Lemma own_spends ok s s' :
  FeedInv s -> fs_stop s = true -> supervisor_own ok s = Some s' -> spends BySupervisor s s'.
Proof.
  intros [Hs _] Hstop. unfold spends, waits. feed_cases s. subst stop.
  destruct sv, socket as [[]|]; cbn in *; try done; try naive_solver; intros H;
    repeat match goal with
    | H : context [match pinger with _ => _ end] |- _ => destruct pinger; cbn in H
    | H : context [if ?b then _ else _] |- _ => destruct b; cbn in H
    end; simplify_eq; cbn; split_and!; try done; lia.
Qed.

Lemma wake_spends e s s' :
  FeedInv s -> fs_stop s = true -> supervisor_wakes e s = Some s' -> spends BySupervisorWait s s'.
Proof.
  intros [Hs _] Hstop. unfold spends, waits. feed_cases s. subst stop.
  destruct sv; cbn in *; try done; intros H; destruct e; cbn in H; simplify_eq; cbn;
    destruct socket as [[]|]; cbn; try feed_solve; split_and!; try done; lia.
Qed.

Lemma ping_spends turn sent s s' :
  fs_stop s = true -> pinger_wakes turn sent s = Some s' -> spends ByPinger s s'.
Proof.
  intros Hstop. unfold spends, waits. feed_cases s. subst stop.
  destruct pinger; cbn; try done; intros H; [simplify_eq|destruct turn; simplify_eq]; cbn;
    split_and!; try done; destruct sv, socket as [[]|]; cbn; lia.
Qed.

(** *** [stop] returns *)

Definition pinger_rank (p : Pinger) : nat := match p with PgTurn => 2 | PgSleep => 1 | _ => 0 end%nat.

Definition left_to_do (s : FeedSys) : nat :=
  (3 * rank (fs_supervisor s) + if fs_ping_stop s then pinger_rank (fs_pinger s) else 0)%nat.

Definition exited (s : FeedSys) : Prop := fs_supervisor s = SvExited.

(** [stop] waits to join the supervisor. *)
Definition stopping (s : FeedSys) : Prop := FeedInv s /\ fs_control s = CtJoin.
Definition not_control (a : Actor) : Prop := a <> ByControl.

Lemma stopping_stop s : stopping s -> fs_stop s = true /\ fs_supervisor s <> SvNone.
Proof. intros [[_ Hc] Hj]. unfold control_ok in Hc. rewrite Hj in Hc. naive_solver. Qed.

(** A step that brings the end nearer. *)
Definition advances (s : FeedSys) (o : option FeedSys) : Prop :=
  exists s2, o = Some s2 /\ (left_to_do s2 < left_to_do s)%nat.

Ltac advance := eexists; split; [reflexivity|unfold left_to_do; cbn; lia].

(** The supervisor can move, or the pinger it joins can. *)
Lemma stopping_moves s :
  FeedInv s -> fs_stop s = true -> fs_supervisor s <> SvNone -> ~ exited s ->
  advances s (supervisor_own true s) \/ advances s (supervisor_wakes Failed s)
  \/ advances s (pinger_wakes PingSend true s).
Proof.
  intros [Hs _] Hstop Hn Hx. unfold exited in Hx. unfold advances. feed_cases s. subst stop.
  destruct sv; cbn in Hs; try done.
  all: try (destruct Hs as (_ & _ & -> & ->)).
  all: try (destruct Hs as (_ & _ & ->)).
  all: try (left; destruct socket as [[]|], ping_stop; advance).
  all: try (right; left; destruct ping_stop; advance).
  - left. destruct ping_stop, pinger; advance.
  - destruct Hs as (-> & _ & Hp & ->).
    destruct pinger; [done|right; right; advance|right; right; advance|left; advance].
Qed.

Lemma other_keeps_control a s s' : not_control a -> feed_step a s s' -> fs_control s' = fs_control s.
Proof.
  intros Ha H. destruct H as [| | | |ok s s' H|e s s' H|turn sent s s' H]; [done..| | |];
    revert H; destruct s as [r c st sv k rg p ps wd].
  - destruct sv; cbn; intros H; repeat case_match; by simplify_eq.
  - destruct sv; cbn; intros H; repeat case_match; by simplify_eq.
  - destruct p; cbn; intros H; repeat case_match; by simplify_eq.
Qed.

#[export] Instance okx_drains :
  Draining feed_step stopping exited not_control own_count wait_count
    (fun s => rank (fs_supervisor s)) waits left_to_do.
Proof.
  split.
  - intros a s s' Hst Ha H. destruct (stopping_stop s Hst) as [Hstop _]. destruct Hst as [HI Hj].
    assert (Hst' : stopping s').
    { split; [by eapply feed_step_ok|]. by rewrite (other_keeps_control _ _ _ Ha H). }
    split; [done|].
    enough (spends a s s') as (_ & ? & ?) by done.
    destruct H as [| | | |ok s s' H|e s s' H|turn sent s s' H]; [done..| | |].
    + by eapply own_spends.
    + by eapply wake_spends.
    + by eapply ping_spends.
  - intros s Hst. destruct (stopping_stop s Hst) as [Hstop Hn]. destruct Hst as [HI _].
    assert (Hcase : exited s \/ ~ exited s) by (unfold exited; destruct (fs_supervisor s); auto).
    destruct Hcase as [Hx|Hx]; [by left|right].
    destruct (stopping_moves s HI Hstop Hn Hx) as [(s2 & H & ?)|[(s2 & H & ?)|(s2 & H & ?)]].
    + exists BySupervisor, s2. split_and!; [done|by eapply fd_own|done].
    + exists BySupervisorWait, s2. split_and!; [done|by eapply fd_wake|done].
    + exists ByPinger, s2. split_and!; [done|by eapply fd_ping|done].
Qed.

Lemma rank_bound sv : (rank sv <= 20)%nat.
Proof. destruct sv; cbn; lia. Qed.

Lemma waits_bound s : (waits s <= 3)%nat.
Proof. unfold waits. destruct (fs_socket s) as [[]|], (fs_supervisor s); lia. Qed.

(** A read of the supervisor that has begun; a close does not end it. *)
Definition read_begun (s : FeedSys) : nat :=
  match fs_supervisor s with SvLoginWait | SvSubscribeWait | SvWait => 1 | _ => 0 end%nat.

(** The close of [stop] spares an open session every wait that has not begun. *)
Lemma waits_closed s :
  FeedInv s -> fs_socket s = Some Open -> (waits (feed_close s) <= read_begun s)%nat.
Proof.
  intros [Hs _] Hk. unfold waits, read_begun, feed_close. feed_cases s. subst.
  destruct sv; cbn in *; try (destruct registered; cbn; lia); try feed_solve;
    try (destruct Hs as (_ & -> & _); cbn; lia); naive_solver.
Qed.

(** C24: Stopping the OKX feed returns: from any reachable state in which stop is about to close
    the client, once it has, every continuation takes at most twenty more supervisor steps of
    which at most three end a wait (connection, login answer, subscribe answer); if the socket
    was open when stop closed it, at most one, and none unless a read had already begun; and
    from every point the supervisor can still reach its end and be joined, with no client and no
    pinger left. *)
Theorem stop_returns l0 s l s' :
  feed_run initial_feed l0 s -> fs_control s = CtClose -> feed_run (feed_close s) l s' ->
  Forall not_control l ->
  (total own_count l <= 20)%nat /\ (total wait_count l <= 3)%nat
  /\ (fs_socket s = Some Open -> (total wait_count l <= read_begun s)%nat)
  /\ exists l2 s2, feed_run s' l2 s2 /\ Forall not_control l2 /\ exited s2
       /\ feed_step ByControl s2 (feed_joined s2)
       /\ fs_socket s2 = None /\ fs_pinger s2 = PgNone.
Proof.
  intros H0 Hc Hr Hl. pose proof (reachable_ok _ _ H0) as HI.
  assert (Hst : stopping (feed_close s)) by (split; [by eapply feed_step_ok, fd_close|done]).
  destruct (drain_bounds feed_step (feed_close s) l s' Hst Hr Hl) as (Hst' & Ho & Hw).
  pose proof (waits_bound (feed_close s)) as H3. split_and!.
  - pose proof (rank_bound (fs_supervisor (feed_close s))). lia.
  - lia.
  - intros Hk. pose proof (waits_closed s HI Hk). lia.
  - destruct (drain_ends feed_step s' Hst') as (l2 & s2 & Hr2 & Hl2 & [[Hs2 _] Hc2] & Hx).
    unfold exited in Hx. unfold session_ok in Hs2. rewrite Hx in Hs2. cbn in Hs2.
    destruct Hs2 as (Hk & _ & Hp). exists l2, s2. split_and!; try done. by apply fd_join.
Qed.

(** *** Scripts: runs that evaluate *)

Inductive Move :=
  | MStart | MStop | MClose | MJoin
  | MOwn (ok : bool) | MWake (e : WaitEnd) | MPing (turn : PingTurn) (sent : bool).

Definition actor (m : Move) : Actor :=
  match m with
  | MStart | MStop | MClose | MJoin => ByControl
  | MOwn _ => BySupervisor
  | MWake _ => BySupervisorWait
  | MPing _ _ => ByPinger
  end.

Definition move (m : Move) (s : FeedSys) : option FeedSys :=
  match m, fs_control s with
  | MStart, CtIdle => Some (feed_start enabled s)
  | MStop, CtIdle => Some (feed_stop s)
  | MClose, CtClose => Some (feed_close s)
  | MJoin, CtJoin => match fs_supervisor s with SvExited => Some (feed_joined s) | _ => None end
  | MOwn ok, _ => supervisor_own ok s
  | MWake e, _ => supervisor_wakes e s
  | MPing turn sent, _ => pinger_wakes turn sent s
  | _, _ => None
  end.

Lemma move_step m s s' : move m s = Some s' -> feed_step (actor m) s s'.
Proof.
  destruct m; cbn; try (destruct (fs_control s) eqn:Hc; try done); intros H.
  - simplify_eq. by apply fd_start.
  - simplify_eq. by apply fd_stop.
  - simplify_eq. by apply fd_close.
  - destruct (fs_supervisor s) eqn:Hx; simplify_eq. by apply fd_join.
  - by eapply fd_own.
  - by eapply fd_own.
  - by eapply fd_own.
  - by eapply fd_wake.
  - by eapply fd_wake.
  - by eapply fd_wake.
  - by eapply fd_ping.
  - by eapply fd_ping.
  - by eapply fd_ping.
Qed.

Lemma script_reachable ms s :
  script move ms initial_feed = Some s -> feed_run initial_feed (map actor ms) s.
Proof. apply script_run, move_step. Qed.
End FeedSystem.

(** ** Concrete runs *)

(** Start, connect, log in, subscribe, wait for the first frame. *)
Definition subscribed_script : list Move :=
  [MStart; MOwn true; MOwn true; MWake Came; MOwn true; MOwn true; MWake Came; MOwn true; MOwn true;
   MWake Came; MOwn true; MOwn true].

(** The state a script leads to. *)
Definition reached (ms : list Move) : FeedSys := default initial_feed (script (move true) ms initial_feed).

(** The watchdog does not wake the reader: after its close the supervisor still
    waits in the read that had begun, and only the end of that wait (bytes, or
    the read timeout of the socket) lets the feed go on. *)
Definition silent_script : list Move := subscribed_script ++ [MPing PingSend true; MPing PingWatchdog true].

Lemma watchdog_leaves_the_reader_waiting :
  let s := reached silent_script in
  runs (feed_step true) initial_feed (map actor silent_script) s
  /\ fs_watchdog s = true /\ fs_socket s = Some Closed /\ fs_supervisor s = SvWait
  /\ forall a s2, feed_step true a s s2 -> a = BySupervisorWait \/ a = ByControl.
Proof.
  split; [apply script_reachable; vm_compute; reflexivity|]. split_and!; [reflexivity..|].
  intros a s2 H. remember (reached silent_script) as s eqn:Es. vm_compute in Es. subst s.
  inversion H; subst; auto; discriminate.
Qed.

(** A stop that comes while the session connects is lost on its socket: the
    connection opens all the same, and the supervisor waits for the login
    answer while [stop] waits to join it. *)
Definition early_stop_script : list Move :=
  [MStart; MOwn true; MOwn true; MStop; MClose; MWake Came; MOwn true; MOwn true].

Lemma early_stop_waits_for_the_venue :
  let s := reached early_stop_script in
  runs (feed_step true) initial_feed (map actor early_stop_script) s
  /\ fs_control s = CtJoin /\ fs_socket s = Some Open /\ fs_supervisor s = SvLoginWait
  /\ forall a s2, feed_step true a s s2 -> a = BySupervisorWait.
Proof.
  split; [apply script_reachable; vm_compute; reflexivity|]. split_and!; [reflexivity..|].
  intros a s2 H. remember (reached early_stop_script) as s eqn:Es. vm_compute in Es. subst s.
  inversion H; subst; auto; discriminate.
Qed.

Definition stopping_script : list Move := subscribed_script ++ [MStop].

Lemma subscribed_reached : script (move true) subscribed_script initial_feed = Some (reached subscribed_script).
Proof. vm_compute. reflexivity. Defined.
Lemma stopping_reached : script (move true) stopping_script initial_feed = Some (reached stopping_script).
Proof. vm_compute. reflexivity. Defined.
Lemma subscribed_facts :
  fs_registered (reached subscribed_script) = true /\ fs_pinger (reached subscribed_script) = PgSleep.
Proof. vm_compute. split; reflexivity. Defined.
Lemma stopping_facts : fs_control (reached stopping_script) = CtClose /\ fs_socket (reached stopping_script) = Some Open.
Proof. vm_compute. split; reflexivity. Defined.

Lemma feed_threads_use_live_clients_witness :
  fs_registered (reached subscribed_script) = true /\ is_Some (fs_socket (reached subscribed_script))
  /\ connected (fs_socket (reached subscribed_script)).
Proof.
  destruct (feed_threads_use_live_clients true _ _ (script_reachable true subscribed_script
              (reached subscribed_script) subscribed_reached)) as (H1 & H2 & _ & _).
  destruct subscribed_facts as [Hr Hp]. split; [exact Hr|].
  split; [exact (H1 Hr)|exact (H2 (or_introl Hp))].
Defined.

Lemma stop_returns_witness :
  exists l2 s2, runs (feed_step true) (feed_close (reached stopping_script)) l2 s2 /\ Forall not_control l2 /\ exited s2
    /\ fs_socket s2 = None.
Proof.
  destruct (stop_returns true _ _ [] (feed_close (reached stopping_script))
              (script_reachable true stopping_script (reached stopping_script) stopping_reached)
              (proj1 stopping_facts) (runs_nil _ _) (Forall_nil_2 _))
    as (_ & _ & _ & l2 & s2 & H1 & H2 & H3 & _ & H4 & _).
  exists l2, s2. split_and!; assumption.
Defined.

(** ** When the watchdog fires *)

(** The turns of [run_pinger] on a link that stays silent: the times at which
    it wakes; how many pings it sends, and when it fires. *)
Fixpoint silent_turns (config : OkxWsConfig) (last_inbound_ms : Z) (wakes : list Z) : nat * option Z :=
  match wakes with
  | [] => (0%nat, None)
  | now :: wakes =>
      match pinger_turn config false now last_inbound_ms with
      | PingWatchdog => (0%nat, Some now)
      | _ => let '(pings, fired) := silent_turns config last_inbound_ms wakes in (S pings, fired)
      end
  end.

(** The wakes follow the last frame, and each other, by the interval and what
    the scheduler adds to it. *)
Fixpoint spaced (gap since : Z) (wakes : list Z) : Prop :=
  match wakes with
  | [] => True
  | now :: wakes => since <= now <= since + gap /\ spaced gap now wakes
  end.

Lemma silent_turns_fires config l gap since wakes :
  spaced gap since wakes -> since <= l + patience_ms config ->
  match (silent_turns config l wakes).2 with
  | Some now => l + patience_ms config < now <= l + patience_ms config + gap
  | None => Forall (fun now => now <= l + patience_ms config) wakes
  end.
Proof.
  revert since. induction wakes as [|now wakes IH]; intros since Hs Hl; simpl; [constructor|].
  destruct Hs as [Hnow Hs]. unfold pinger_turn.
  destruct (Z.ltb_spec (patience_ms config) (now - l)); simpl; [lia|].
  specialize (IH now Hs ltac:(lia)).
  destruct (silent_turns config l wakes) as [pings fired]. simpl in *.
  destruct fired; [done|]. constructor; [lia|done].
Qed.

(** The watchdog fires in time: on a link that stays silent, with wakes that come at most the
    ping interval and a delay apart, it fires after the patience has passed and at most one
    interval and one delay later. *)
Theorem watchdog_fires_in_time config l late wakes now :
  0 <= patience_ms config -> spaced (ping_interval config + late) l wakes ->
  list.last wakes = Some now -> l + patience_ms config < now ->
  exists fired, (silent_turns config l wakes).2 = Some fired
    /\ l + patience_ms config < fired <= l + patience_ms config + ping_interval config + late.
Proof.
  intros Hp Hs Hlast Hnow. pose proof (silent_turns_fires config l _ l wakes Hs ltac:(lia)) as H.
  destruct (silent_turns config l wakes) as [pings [fired|]]; simpl in *.
  - exists fired. split; [done|]. lia.
  - apply last_Some_elem_of in Hlast. rewrite Forall_forall in H. specialize (H _ Hlast). lia.
Qed.

(** The default keepalive: pings every 20 s, two may be missed. *)
Definition silent_wakes : list Z := [20001; 40002; 60003; 80004].

Lemma watchdog_fires_in_time_witness :
  exists fired, (silent_turns default_ws 0 silent_wakes).2 = Some fired
    /\ 0 + patience_ms default_ws < fired <= 0 + patience_ms default_ws + ping_interval default_ws + 1.
Proof.
  apply (watchdog_fires_in_time default_ws 0 1 silent_wakes 80004).
  - vm_compute. discriminate.
  - unfold silent_wakes. simpl. lia.
  - reflexivity.
  - vm_compute. reflexivity.
Defined.
