(* ===== verification/BinanceWire.v ===== *)
(** * Binance wire codec: src/exchange/binance/binance_wire.hpp and binance_wire.cpp

    Method parameters, the parsing of results, the venue's enumerations, and
    the translation between gateway symbols (BTC-USDT) and wire symbols
    (BTCUSDT) with its two memo tables. *)

From S2P Require Import Prelude Types Json.

Record BinancePlaceRequest := mkBinancePlaceRequest {
  bp_client_order_id : string;
  bp_symbol : string;
  bp_side : Side;
  bp_type : OrderType;
  bp_price : string;
  bp_quantity : string;
  bp_time_in_force : string }.

Record BinanceCancelRequest := mkBinanceCancelRequest {
  bc_client_order_id : string;
  bc_symbol : string }.

Record BinanceAmendRequest := mkBinanceAmendRequest {
  bm_client_order_id : string;
  bm_symbol : string;
  bm_side : Side;
  bm_type : OrderType;
  bm_price : string;
  bm_quantity : string;
  bm_time_in_force : string }.

Record BinanceOrderQuery := mkBinanceOrderQuery {
  bq_client_order_id : string;
  bq_symbol : string }.

Record BinanceOrderAck := mkBinanceOrderAck {
  ba_order_id : string;
  ba_client_order_id : string;
  ba_status : string;
  ba_executed_qty : string }.

Record BinanceOrderInfo := mkBinanceOrderInfo {
  bi_order_id : string;
  bi_client_order_id : string;
  bi_symbol : string;
  bi_status : string;
  bi_side : string;
  bi_type : string;
  bi_price : string;
  bi_orig_qty : string;
  bi_executed_qty : string;
  bi_cummulative_quote_qty : string }.

Definition empty_binance_info : BinanceOrderInfo :=
  mkBinanceOrderInfo "" "" "" "" "" "" "" "" "" "".

Record BinanceReplaceResult := mkBinanceReplaceResult {
  br_cancel_result : string;
  br_new_order_result : string;
  br_canceled : BinanceOrderInfo;
  br_replacement : BinanceOrderAck }.

Definition protocol_error (text : string) : Error := mkError "protocol" text.

(** ** Requests *)

Definition side_text (a_side : Side) : string :=
  match a_side with Buy => "BUY" | Sell => "SELL" end.

Definition type_text (a_type : OrderType) : string :=
  match a_type with Limit => "LIMIT" | Market => "MARKET" end.

Definition require_decimal (a_what a_value : string) : option Error :=
  if str_empty a_value then Some (protocol_error (a_what +:+ " is required")) else None.

(** The checks a place and a replacement share. *)
Definition limit_fields (a_type : OrderType) (a_price a_time_in_force : string) : option Error :=
  match a_type with
  | Market => None
  | Limit =>
      match require_decimal "price" a_price with
      | Some error => Some error
      | None => if str_empty a_time_in_force
                then Some (protocol_error "LIMIT orders require timeInForce") else None
      end
  end.

Definition with_limit_fields (params : json) (a_type : OrderType) (a_price a_time_in_force : string)
    : json :=
  match a_type with
  | Market => params
  | Limit => jset (jset params "price" (JString a_price)) "timeInForce" (JString a_time_in_force)
  end.

Definition build_place_params (a_request : BinancePlaceRequest) : Result json :=
  if str_empty (bp_client_order_id a_request) || str_empty (bp_symbol a_request)
  then Err (protocol_error "place requires clientOrderId and symbol")
  else match require_decimal "quantity" (bp_quantity a_request) with
  | Some error => Err error
  | None =>
  match limit_fields (bp_type a_request) (bp_price a_request) (bp_time_in_force a_request) with
  | Some error => Err error
  | None =>
      let params := jobj [("symbol", JString (bp_symbol a_request));
                          ("side", JString (side_text (bp_side a_request)));
                          ("type", JString (type_text (bp_type a_request)));
                          ("quantity", JString (bp_quantity a_request));
                          ("newClientOrderId", JString (bp_client_order_id a_request));
                          ("newOrderRespType", JString "RESULT")] in
      Ok (with_limit_fields params (bp_type a_request) (bp_price a_request)
            (bp_time_in_force a_request))
  end end.

Definition build_cancel_params (a_request : BinanceCancelRequest) : Result json :=
  if str_empty (bc_client_order_id a_request) || str_empty (bc_symbol a_request)
  then Err (protocol_error "cancel requires clientOrderId and symbol")
  else Ok (jobj [("symbol", JString (bc_symbol a_request));
                 ("origClientOrderId", JString (bc_client_order_id a_request))]).

Definition build_cancel_replace_params (a_request : BinanceAmendRequest) : Result json :=
  if str_empty (bm_client_order_id a_request) || str_empty (bm_symbol a_request)
  then Err (protocol_error "amend requires clientOrderId and symbol")
  else match require_decimal "quantity" (bm_quantity a_request) with
  | Some error => Err error
  | None =>
  match limit_fields (bm_type a_request) (bm_price a_request) (bm_time_in_force a_request) with
  | Some error => Err error
  | None =>
      let params := jobj [("symbol", JString (bm_symbol a_request));
                          ("cancelReplaceMode", JString "STOP_ON_FAILURE");
                          ("cancelOrigClientOrderId", JString (bm_client_order_id a_request));
                          ("side", JString (side_text (bm_side a_request)));
                          ("type", JString (type_text (bm_type a_request)));
                          ("quantity", JString (bm_quantity a_request));
                          ("newClientOrderId", JString (bm_client_order_id a_request));
                          ("newOrderRespType", JString "RESULT")] in
      Ok (with_limit_fields params (bm_type a_request) (bm_price a_request)
            (bm_time_in_force a_request))
  end end.

Definition build_order_status_params (a_query : BinanceOrderQuery) : json :=
  jobj [("symbol", JString (bq_symbol a_query));
        ("origClientOrderId", JString (bq_client_order_id a_query))].

Definition build_open_orders_params : json := jobj [].

Definition build_ticker_price_params (a_wire_symbol : string) : json :=
  jobj [("symbol", JString a_wire_symbol)].

(** ** Results *)

Definition string_field (a_node : json) (a_name : string) : string :=
  default "" (jstring a_node a_name).

(** [get<long long>] of an integer converts an unsigned value: [to_ll]. *)
Definition number_field (a_node : json) (a_name : string) : string :=
  match jfind a_node a_name with
  | Some (JInt z) | Some (JUint z) => std_to_string (to_ll z)
  | Some (JString s) => s
  | _ => ""
  end.

Definition parse_ticker_price (a_result : json) : Result string :=
  if negb (is_object a_result) then Err (protocol_error "ticker.price result is not an object")
  else
    let price := string_field a_result "price" in
    if str_empty price
    then Err (protocol_error ("ticker.price result missing string field " +:+ dquote +:+ "price"
                              +:+ dquote))
    else Ok price.

Definition parse_order_ack (a_result : json) : BinanceOrderAck :=
  mkBinanceOrderAck (number_field a_result "orderId") (string_field a_result "clientOrderId")
    (string_field a_result "status") (string_field a_result "executedQty").

Definition parse_order_info (a_result : json) : Result BinanceOrderInfo :=
  if negb (is_object a_result) then Err (protocol_error "order result is not a JSON object")
  else Ok (mkBinanceOrderInfo (number_field a_result "orderId")
             (string_field a_result "clientOrderId") (string_field a_result "symbol")
             (string_field a_result "status") (string_field a_result "side")
             (string_field a_result "type") (string_field a_result "price")
             (string_field a_result "origQty") (string_field a_result "executedQty")
             (string_field a_result "cummulativeQuoteQty")).

Definition parse_replace_result (a_result : json) : Result BinanceReplaceResult :=
  if negb (is_object a_result)
  then Err (protocol_error "cancelReplace result is not a JSON object")
  else match jfind a_result "cancelResponse", jfind a_result "newOrderResponse" with
  | Some (JObject cancel), Some (JObject placed) =>
      let! canceled := parse_order_info (JObject cancel) in
      Ok (mkBinanceReplaceResult (string_field a_result "cancelResult")
            (string_field a_result "newOrderResult") canceled (parse_order_ack (JObject placed)))
  | _, _ => Err (protocol_error "cancelReplace result lacks cancel/new order legs")
  end.

(** ** Enumerations *)

Definition map_binance_state (a_status : string) : option OrderState :=
  if (a_status ==s "NEW") || (a_status ==s "PENDING_NEW") then Some Live
  else if a_status ==s "PARTIALLY_FILLED" then Some PartiallyFilled
  else if a_status ==s "FILLED" then Some Filled
  else if (a_status ==s "CANCELED") || (a_status ==s "PENDING_CANCEL") || (a_status ==s "EXPIRED")
          || (a_status ==s "EXPIRED_IN_MATCH") then Some Canceled
  else if a_status ==s "REJECTED" then Some Rejected
  else None.

Definition map_binance_side (a_side : string) : option Side :=
  if a_side ==s "BUY" then Some Buy else if a_side ==s "SELL" then Some Sell else None.

Definition map_binance_type (a_type : string) : option OrderType :=
  if a_type ==s "LIMIT" then Some Limit else if a_type ==s "MARKET" then Some Market else None.

(** ** Symbols *)

Definition kQuoteAssets : list string :=
  ["USDT"; "FDUSD"; "USDC"; "TUSD"; "BUSD"; "DAI"; "BTC"; "ETH"; "BNB"; "EUR"; "TRY"; "GBP"].

Record SymbolTranslator := mkSymbols {
  gateway_to_wire : gmap string string;
  wire_to_gateway : gmap string string }.

Definition no_symbols : SymbolTranslator := mkSymbols ∅ ∅.

Definition register_symbol (gateway wire : string) (t : SymbolTranslator) : SymbolTranslator :=
  mkSymbols (<[gateway := wire]> (gateway_to_wire t)) (<[wire := gateway]> (wire_to_gateway t)).

Fixpoint without_dash (s : string) : string :=
  match s with
  | EmptyString => EmptyString
  | String c rest => if Ascii.eqb c "-" then without_dash rest else String c (without_dash rest)
  end.

Definition to_wire (a_gateway_symbol : string) (t : SymbolTranslator) : string * SymbolTranslator :=
  let wire := without_dash a_gateway_symbol in
  (wire, register_symbol a_gateway_symbol wire t).

(** The gateway symbol of the first quote asset that ends the wire symbol. *)
Fixpoint split_quote (quotes : list string) (wire : string) : option string :=
  match quotes with
  | [] => None
  | quote :: rest =>
      let base := (String.length wire - String.length quote)%nat in
      if (String.length quote + 1 <? String.length wire)%nat && (str_drop base wire ==s quote)
      then Some (str_take base wire +:+ "-" +:+ quote)
      else split_quote rest wire
  end.

Definition to_gateway (a_wire_symbol : string) (t : SymbolTranslator) : string * SymbolTranslator :=
  match wire_to_gateway t !! a_wire_symbol with
  | Some gateway => (gateway, t)
  | None =>
      let gateway := default a_wire_symbol (split_quote kQuoteAssets a_wire_symbol) in
      (gateway, register_symbol gateway a_wire_symbol t)
  end.

(** ** What the codec guarantees *)

Lemma without_dash_app a b : without_dash (a +:+ b) = without_dash a +:+ without_dash b.
Proof.
  induction a as [|c a IH]; [done|]. rewrite str_app_cons. simpl. rewrite IH.
  by destruct (Ascii.eqb c "-").
Qed.

Lemma without_dash_idem s : without_dash (without_dash s) = without_dash s.
Proof.
  induction s as [|c s IH]; [done|]. simpl. destruct (Ascii.eqb c "-") eqn:Hc; [done|].
  simpl. by rewrite Hc, IH.
Qed.

Lemma split_quote_strips quotes wire gateway :
  split_quote quotes wire = Some gateway -> without_dash gateway = without_dash wire.
Proof.
  induction quotes as [|q quotes IH]; simpl; [done|].
  set (base := (String.length wire - String.length q)%nat).
  destruct (_ && (str_drop base wire ==s q)) eqn:H; [|done]. intros [= <-].
  apply andb_prop in H as [_ H]. apply streqb_true in H. rewrite <- (str_take_drop base wire) at 2.
  rewrite H, !without_dash_app. done.
Qed.

Lemma split_default_strips wire :
  without_dash (default wire (split_quote kQuoteAssets wire)) = without_dash wire.
Proof. destruct (split_quote _ wire) eqn:Hq; [by apply split_quote_strips in Hq|done]. Qed.

(** One call of the translator, from any thread: the mutex makes it a step. *)
Inductive SymbolCall := ToWire (gateway : string) | ToGateway (wire : string).

Definition symbol_call (t : SymbolTranslator) (c : SymbolCall) : SymbolTranslator :=
  match c with ToWire g => (to_wire g t).2 | ToGateway w => (to_gateway w t).2 end.

Definition symbol_calls (t : SymbolTranslator) (calls : list SymbolCall) : SymbolTranslator :=
  fold_left symbol_call calls t.

(** The memo never relates symbols that differ in more than dashes. *)
Definition memo_ok (t : SymbolTranslator) : Prop :=
  map_Forall (fun wire gateway => without_dash gateway = without_dash wire) (wire_to_gateway t).

Lemma memo_ok_call t c : memo_ok t -> memo_ok (symbol_call t c).
Proof.
  intros Ht. destruct c as [g|w]; simpl.
  - apply map_Forall_insert_2; [by rewrite without_dash_idem|done].
  - unfold to_gateway. destruct (_ !! w) as [g|]; [done|].
    apply map_Forall_insert_2; [apply split_default_strips|done].
Qed.

Lemma memo_ok_calls t calls : memo_ok t -> memo_ok (symbol_calls t calls).
Proof. revert t. induction calls as [|c calls IH]; intros t Ht; [done|]. by apply IH, memo_ok_call. Qed.

Lemma to_gateway_answer t w :
  memo_ok t -> let '(g, t') := to_gateway w t in
  without_dash g = without_dash w /\ wire_to_gateway t' !! w = Some g.
Proof.
  intros Ht. unfold to_gateway. destruct (_ !! w) as [g|] eqn:Hw; [by split; [apply (Ht w g)|]|].
  split; [apply split_default_strips|]. apply lookup_insert_eq.
Qed.

(** No other gateway symbol with the letters of [w] is sent to the venue. *)
Definition only_symbol (g w : string) (calls : list SymbolCall) : Prop :=
  forall g', In (ToWire g') calls -> without_dash g' = w -> g' = g.

(** A memo entry lasts until then. *)
Lemma memo_lasts g w t calls :
  wire_to_gateway t !! w = Some g ->
  only_symbol g w calls -> wire_to_gateway (symbol_calls t calls) !! w = Some g.
Proof.
  revert t. induction calls as [|c calls IH]; intros t Hw Hc; [done|]. apply IH.
  - destruct c as [g'|w']; simpl.
    + destruct (decide (without_dash g' = w)) as [He|Hne].
      * rewrite He, lookup_insert_eq. f_equal. apply Hc; [by left|done].
      * by rewrite lookup_insert_ne.
    + unfold to_gateway. destruct (_ !! w') eqn:Hw'; [done|]. simpl.
      rewrite lookup_insert_ne; [done|]. intros ->. congruence.
  - intros g' Hin. apply Hc. by right.
Qed.

(** Symbol translation is stable in both directions: a registered instrument comes back from its
    wire symbol whatever other instruments were translated since, and the instrument given for a
    wire symbol without a dash translates back to that symbol and stays the same afterwards. *)
Theorem symbol_translation_stable before g w :
  without_dash w = w ->
  let t := symbol_calls no_symbols before in
  (forall after, only_symbol g (without_dash g) after ->
     (to_gateway (to_wire g t).1 (symbol_calls (to_wire g t).2 after)).1 = g)
  /\ let '(g', t') := to_gateway w t in
     (to_wire g' t').1 = w
     /\ forall after, only_symbol g' w after -> (to_gateway w (symbol_calls t' after)).1 = g'.
Proof.
  intros Hw t. split.
  - intros after Hafter.
    assert (H : wire_to_gateway (symbol_calls (to_wire g t).2 after) !! without_dash g = Some g)
      by (apply memo_lasts; [apply lookup_insert_eq|done]).
    change (to_wire g t).1 with (without_dash g). unfold to_gateway. by rewrite H.
  - assert (Ht : memo_ok t) by apply memo_ok_calls, map_Forall_empty.
    pose proof (to_gateway_answer t w Ht) as H. destruct (to_gateway w t) as [g' t'].
    destruct H as [Hs Hm]. split; [simpl; congruence|]. intros after Hafter.
    pose proof (memo_lasts g' w t' after Hm Hafter) as H. unfold to_gateway. by rewrite H.
Qed.

Lemma symbol_translation_stable_witness :
  let t := symbol_calls no_symbols [ToWire "ETH-BTC"; ToGateway "SOLUSDT"] in
  (forall after, only_symbol "BTC-USDT" (without_dash "BTC-USDT") after ->
     (to_gateway (to_wire "BTC-USDT" t).1 (symbol_calls (to_wire "BTC-USDT" t).2 after)).1 = "BTC-USDT")
  /\ let '(g', t') := to_gateway "SOLUSDT" t in
     (to_wire g' t').1 = "SOLUSDT"
     /\ forall after, only_symbol g' "SOLUSDT" after -> (to_gateway "SOLUSDT" (symbol_calls t' after)).1 = g'.
Proof. apply (symbol_translation_stable [ToWire "ETH-BTC"; ToGateway "SOLUSDT"]). reflexivity. Defined.

(** No quote asset ends another one, so that the order of the list is
    irrelevant: at most one entry can end a wire symbol. *)
Definition ends_with (quote wire : string) : bool :=
  str_drop (String.length wire - String.length quote) wire ==s quote.

Example quote_assets_exclusive :
  forallb (fun q => forallb (fun r => (q ==s r) || negb (ends_with q r)) kQuoteAssets) kQuoteAssets
  = true.
Proof. vm_compute. reflexivity. Qed.
