(* ===== verification/BinanceConfig.v ===== *)
(** * Binance configuration and request signing

    src/exchange/binance/binance_config.hpp, binance_config.cpp and
    binance_signer.cpp.  The configuration reader collects its problems in
    order; the keyed hash is a parameter that may fail. *)

From S2P Require Import Prelude Json Retry BinanceWire.

(** ** Configuration *)

Record BinanceConfig := mkBinanceConfig {
  bn_api_key : string;
  bn_secret_key : string;
  bn_host : string;
  bn_port : Z;
  bn_use_tls : bool;
  bn_path : string;
  bn_recv_window_ms : Z;
  bn_request_timeout : Z;
  bn_ws_ping_interval_s : Z;
  bn_ws_max_missed_pongs : Z;
  bn_retry : RetryPolicy }.

Definition default_binance_config : BinanceConfig :=
  mkBinanceConfig "" "" "ws-api.testnet.binance.vision" 443 true "/ws-api/v3" 5000 12000 20 2
    default_retry_policy.

(** The field of a section; [null] counts as missing. *)
Definition present (a_section : json) (a_name : string) : option json :=
  match jfind a_section a_name with Some JNull => None | field => field end.

(** Each reader answers the problems it adds and the value of its target. *)
Definition read_string (a_section : json) (a_name a_target : string) (a_required : bool)
    : list string * string :=
  match present a_section a_name with
  | None => (if a_required then ["missing " +:+ a_name] else [], a_target)
  | Some (JString s) => ([], s)
  | Some _ => ([a_name +:+ " must be a string"], a_target)
  end.

(** An integer within [ok]; [get<long long>] converts an unsigned value. *)
Definition read_integer (a_section : json) (a_name : string) (ok : Z -> bool)
    (problem : string) (a_target : Z) : list string * Z :=
  match present a_section a_name with
  | None => ([], a_target)
  | Some (JInt z) | Some (JUint z) =>
      if ok (to_ll z) then ([], to_ll z) else ([problem], a_target)
  | Some _ => ([problem], a_target)
  end.

Definition read_boolean (a_section : json) (a_name : string) (a_target : bool)
    : list string * bool :=
  match present a_section a_name with
  | None => ([], a_target)
  | Some (JBool b) => ([], b)
  | Some _ => ([a_name +:+ " must be a boolean"], a_target)
  end.

Definition in_range (lo hi z : Z) : bool := (lo <=? z) && (z <=? hi).

Definition problems_message (problems : list string) : string :=
  fold_left (fun text problem => text +:+ " " +:+ problem +:+ ";") problems
    "invalid binance config:".

Definition binance_config_from_json (a_section : json) : Result BinanceConfig :=
  if negb (is_object a_section) then Err (protocol_error "binance section must be a JSON object")
  else
    let d := default_binance_config in
    let '(p1, api_key) := read_string a_section "apiKey" (bn_api_key d) true in
    let '(p2, secret_key) := read_string a_section "secretKey" (bn_secret_key d) true in
    let '(p3, host) := read_string a_section "host" (bn_host d) false in
    let '(p4, path) := read_string a_section "path" (bn_path d) false in
    let '(p5, port) := read_integer a_section "port" (in_range 1 65535)
                         "port must be an integer in [1, 65535]" (bn_port d) in
    let '(p6, use_tls) := read_boolean a_section "useTls" (bn_use_tls d) in
    let '(p7, window) := read_integer a_section "recvWindowMs" (in_range 0 60000)
                           "recvWindowMs must be an integer in [0, 60000]" (bn_recv_window_ms d) in
    let '(p8, timeout) := read_integer a_section "requestTimeoutMs" (fun z => 0 <? z)
                            "requestTimeoutMs must be a positive integer" (bn_request_timeout d) in
    let '(p9, interval) := read_integer a_section "wsPingIntervalSec" (in_range 1 300)
                             "wsPingIntervalSec must be an integer in [1, 300]"
                             (bn_ws_ping_interval_s d) in
    let '(p10, missed) := read_integer a_section "wsMaxMissedPongs" (in_range 1 100)
                            "wsMaxMissedPongs must be an integer in [1, 100]"
                            (bn_ws_max_missed_pongs d) in
    let! policy := match present a_section "retry" with
                   | None => Ok (bn_retry d)
                   | Some node => retry_policy_from_json node (bn_retry d)
                   end in
    let problems := p1 ++ p2 ++ p3 ++ p4 ++ p5 ++ p6 ++ p7 ++ p8 ++ p9 ++ p10 in
    if negb (is_nil problems) then Err (protocol_error (problems_message problems))
    else Ok (mkBinanceConfig api_key secret_key host port use_tls path window timeout interval
               missed policy).

(** ** Signing *)

(** [kDigits], lower case. *)
Definition lower_hex (n : N) : ascii :=
  if (n <? 10)%N then ascii_of_N (48 + n) else ascii_of_N (87 + n).

Fixpoint hex_encode (a_data : string) : string :=
  match a_data with
  | EmptyString => EmptyString
  | String c rest =>
      String (lower_hex (N.shiftr (byte_of c) 4))
        (String (lower_hex (N.land (byte_of c) 15)) (hex_encode rest))
  end.

Definition value_text (a_value : json) : string :=
  match a_value with
  | JString s => s
  | JInt z | JUint z => std_to_string (to_ll z)
  | JBool b => if b then "true" else "false"
  | _ => ""
  end.

Definition object_fields (j : json) : list (string * json) :=
  match j with JObject fields => fields | _ => [] end.

(** The parameters are an object; [std::map] sorts by key. *)
Definition sorted_params (a_params : json) : list (string * string) :=
  fold_left (fun sorted field =>
      if field.1 ==s "signature" then sorted else obj_set field.1 (value_text field.2) sorted)
    (object_fields a_params) [].

Definition signature_payload (a_params : json) : string :=
  fold_left (fun payload field =>
      (if str_empty payload then payload else payload +:+ "&") +:+ field.1 +:+ "=" +:+ field.2)
    (sorted_params a_params) "".

Section Signer.
Context (hmac_sha256 : string -> string -> option string).

Definition sign_params (a_params : json) (a_secret : string) : string :=
  match hmac_sha256 a_secret (signature_payload a_params) with
  | Some mac => if (String.length mac =? 32)%nat then hex_encode mac else ""
  | None => ""
  end.
End Signer.

(** ** What a parsed configuration guarantees *)

Lemma read_integer_ok section name ok problem target v :
  ok target = true -> read_integer section name ok problem target = ([], v) -> ok v = true.
Proof.
  unfold read_integer. intros Ht. destruct (present section name) as [[]|]; intros H; simplify_eq; try done.
  all: destruct (ok (to_ll z)) eqn:E; by simplify_eq.
Qed.

Lemma read_required section name target v :
  read_string section name target true = ([], v) -> jstring section name = Some v.
Proof.
  unfold read_string, present, jstring. destruct (jfind section name) as [[]|]; intros H; by simplify_eq.
Qed.

(** The fields of an accepted section are the values that were read without
    a problem. *)
Lemma binance_config_reads section c :
  binance_config_from_json section = Ok c ->
  read_string section "apiKey" "" true = ([], bn_api_key c)
  /\ read_string section "secretKey" "" true = ([], bn_secret_key c)
  /\ (exists text, read_integer section "port" (in_range 1 65535) text 443 = ([], bn_port c))
  /\ (exists text, read_integer section "recvWindowMs" (in_range 0 60000) text 5000
                   = ([], bn_recv_window_ms c))
  /\ (exists text, read_integer section "requestTimeoutMs" (fun z => 0 <? z) text 12000
                   = ([], bn_request_timeout c))
  /\ (exists text, read_integer section "wsPingIntervalSec" (in_range 1 300) text 20
                   = ([], bn_ws_ping_interval_s c))
  /\ (exists text, read_integer section "wsMaxMissedPongs" (in_range 1 100) text 2
                   = ([], bn_ws_max_missed_pongs c))
  /\ match present section "retry" with
     | None => Ok default_retry_policy
     | Some node => retry_policy_from_json node default_retry_policy
     end = Ok (bn_retry c).
Proof.
  unfold binance_config_from_json, default_binance_config. cbv zeta. cbn [bn_api_key bn_secret_key
    bn_host bn_port bn_use_tls bn_path bn_recv_window_ms bn_request_timeout bn_ws_ping_interval_s
    bn_ws_max_missed_pongs bn_retry].
  destruct (is_object section); [|done]. cbn [negb].
  repeat match goal with
  | |- context [let '(_, _) := ?r in _] => let E := fresh "E" in destruct r eqn:E
  end.
  destruct (match present section "retry" with Some _ => _ | None => _ end) as [policy|] eqn:Er; [|done].
  destruct (is_nil _) eqn:En; [|done]. cbn [negb]. intros [= <-].
  apply is_nil_true in En. repeat apply app_eq_nil in En as [-> En]; subst.
  cbn [bn_api_key bn_secret_key bn_host bn_port bn_use_tls bn_path bn_recv_window_ms
    bn_request_timeout bn_ws_ping_interval_s bn_ws_max_missed_pongs bn_retry].
  split_and!; try (eexists; eassumption); done.
Qed.

Lemma binance_config_attempts section c :
  binance_config_from_json section = Ok c -> 1 <= max_attempts (bn_retry c).
Proof.
  intros H. apply binance_config_reads in H as (_ & _ & _ & _ & _ & _ & _ & Hr).
  destruct (present section "retry") as [node|]; [by revert Hr; apply retry_policy_attempts|].
  by injection Hr as <-.
Qed.

(** A Binance configuration that is read carries the keys of the section and values in range:
    port, receive window, timeout, ping interval, missed pongs and a valid retry policy. *)
Theorem binance_config_valid section c :
  unsigned_fields (default JNull (jfind section "retry")) ->
  binance_config_from_json section = Ok c ->
  jstring section "apiKey" = Some (bn_api_key c) /\ jstring section "secretKey" = Some (bn_secret_key c)
  /\ 1 <= bn_port c <= 65535 /\ 0 <= bn_recv_window_ms c <= 60000 /\ 0 < bn_request_timeout c
  /\ 1 <= bn_ws_ping_interval_s c <= 300 /\ 1 <= bn_ws_max_missed_pongs c <= 100
  /\ policy_valid (bn_retry c).
Proof.
  intros Hu H. apply binance_config_reads in H as (Ha & Hs & [? Hp] & [? Hw] & [? Ht] & [? Hi] & [? Hm] & Hr).
  apply read_required in Ha, Hs. unfold in_range in *.
  apply read_integer_ok in Hp, Hw, Ht, Hi, Hm; try done. boolify. split_and!; try done.
  unfold present in Hr. destruct (jfind section "retry") as [[]|];
    try (injection Hr as <-; apply default_policy_valid).
  all: eapply retry_policy_from_json_valid, Hr; done || apply default_policy_valid.
Qed.

Definition sample_binance_section : json :=
  jobj [("apiKey", JString "k"); ("secretKey", JString "s"); ("port", JUint 9443);
        ("recvWindowMs", JNull); ("retry", sample_retry_node)].

Lemma binance_config_valid_witness :
  exists c, jstring sample_binance_section "apiKey" = Some (bn_api_key c)
  /\ jstring sample_binance_section "secretKey" = Some (bn_secret_key c)
  /\ 1 <= bn_port c <= 65535 /\ 0 <= bn_recv_window_ms c <= 60000 /\ 0 < bn_request_timeout c
  /\ 1 <= bn_ws_ping_interval_s c <= 300 /\ 1 <= bn_ws_max_missed_pongs c <= 100
  /\ policy_valid (bn_retry c).
Proof.
  eexists. apply (binance_config_valid sample_binance_section).
  - intros name v. simpl. repeat case_match; intros; simplify_eq; lia.
  - vm_compute. reflexivity.
Defined.
