(* ===== verification/BinanceResilient.v ===== *)
(** * Binance operations: src/exchange/binance/binance_api.cpp and binance_resilient.hpp

    [BinanceApi] builds, calls and parses; its raw calls are parameters
    (BinanceWs provides them).  The resilient functions run over an abstract
    API, the source's [ApiT]; the theorems run them against an API that writes
    every request down. *)

From S2P Require Import Prelude Types Decimal Json Retry Resolve BinanceWire.

(** ** The interface, and [BinanceApi] *)

Class BinanceTradeApi (W : Type) := {
  ap_place : BinancePlaceRequest -> W -> Result BinanceOrderAck * W;
  ap_cancel : BinanceCancelRequest -> W -> Result BinanceOrderInfo * W;
  ap_cancel_replace : BinanceAmendRequest -> W -> Result BinanceReplaceResult * W;
  ap_get_order : BinanceOrderQuery -> W -> Result (option BinanceOrderInfo) * W
}.

Definition RawCall (W : Type) : Type := string -> json -> W -> Result json * W.

Section Api.
Context {W : Type} (call : RawCall W) (public_call : option (RawCall W)).

(** Build, call, parse, with the early return of each step. *)
Definition invoke {T : Type} (a_method : string) (a_params : Result json)
    (parse : json -> Result T) (w : W) : Result T * W :=
  match a_params with
  | Err error => (Err error, w)
  | Ok params =>
      let '(result, w) := call a_method params w in
      (let! value := result in parse value, w)
  end.

Definition api_place (a_request : BinancePlaceRequest) : W -> Result BinanceOrderAck * W :=
  invoke "order.place" (build_place_params a_request) (fun result => Ok (parse_order_ack result)).

Definition with_client_id (a_id : string) (info : BinanceOrderInfo) : BinanceOrderInfo :=
  mkBinanceOrderInfo (bi_order_id info) a_id (bi_symbol info) (bi_status info) (bi_side info)
    (bi_type info) (bi_price info) (bi_orig_qty info) (bi_executed_qty info)
    (bi_cummulative_quote_qty info).

Definition api_cancel (a_request : BinanceCancelRequest) : W -> Result BinanceOrderInfo * W :=
  invoke "order.cancel" (build_cancel_params a_request) (fun result =>
    let! info := parse_order_info result in
    Ok (with_client_id (bc_client_order_id a_request) info)).

Definition api_cancel_replace (a_request : BinanceAmendRequest) : W -> Result BinanceReplaceResult * W :=
  invoke "order.cancelReplace" (build_cancel_replace_params a_request) (fun result =>
    let! replace := parse_replace_result result in
    Ok (mkBinanceReplaceResult (br_cancel_result replace) (br_new_order_result replace)
          (with_client_id (bm_client_order_id a_request) (br_canceled replace))
          (br_replacement replace))).

Definition api_get_order (a_query : BinanceOrderQuery) (w : W) : Result (option BinanceOrderInfo) * W :=
  let '(result, w) := call "order.status" (build_order_status_params a_query) w in
  (match result with
   | Err error => if code error ==s "venue:-2013" then Ok None else Err error
   | Ok value => let! info := parse_order_info value in Ok (Some info)
   end, w).

(** Items that are no objects are skipped. *)
Fixpoint parsed_infos (items : list json) : list BinanceOrderInfo :=
  match items with
  | [] => []
  | item :: rest =>
      match parse_order_info item with
      | Ok info => info :: parsed_infos rest
      | Err _ => parsed_infos rest
      end
  end.

Definition api_get_open_orders (w : W) : Result (list BinanceOrderInfo) * W :=
  let '(result, w) := call "openOrders.status" build_open_orders_params w in
  (let! value := result in
   match value with
   | JArray items => Ok (parsed_infos items)
   | _ => Err (protocol_error "openOrders.status result is not an array")
   end, w).

Definition api_get_price (a_wire_symbol : string) (w : W) : Result string * W :=
  match public_call with
  | None => (Err (protocol_error "no public call transport configured for ticker.price"), w)
  | Some call =>
      let '(result, w) := call "ticker.price" (build_ticker_price_params a_wire_symbol) w in
      (let! value := result in parse_ticker_price value, w)
  end.
End Api.

#[global] Instance binance_api {W : Type} (call : RawCall W) : BinanceTradeApi W | 10 := {
  ap_place := api_place call;
  ap_cancel := api_cancel call;
  ap_cancel_replace := api_cancel_replace call;
  ap_get_order := api_get_order call
}.

(** ** Helpers of the resilient calls *)

(** Numeric equality of a requested value and a reported one. *)
Definition value_matches (a_requested a_reported : string) : bool :=
  if str_empty a_requested then true
  else if a_requested ==s a_reported then true
  else match parse_decimal a_requested, parse_decimal a_reported with
       | Ok lhs, Ok rhs => compare lhs rhs =? 0
       | _, _ => false
       end.

(** [find(needle) != npos]. *)
Fixpoint str_contains (needle s : string) : bool :=
  String.prefix needle s || match s with String _ rest => str_contains needle rest | EmptyString => false end.

Definition is_duplicate_reject (a_error : Error) : bool :=
  if (code a_error ==s "venue:-4116") || (code a_error ==s "venue:-2010") then true
  else
    let lower := str_map to_lower_char (message a_error) in
    str_contains "duplicat" lower || str_contains "already exist" lower.

Inductive BinanceLookupOutcome := Found | Absent | Inconclusive.

Record BinanceLookup := mkBinanceLookup {
  bl_outcome : BinanceLookupOutcome;
  bl_info : BinanceOrderInfo;
  bl_error : option Error }.

(** What one answer of a lookup settles; a transport failure is retried. *)
Definition conclude (result : Result (option BinanceOrderInfo)) : Result BinanceLookup :=
  match result with
  | Ok (Some info) => Ok (mkBinanceLookup Found info None)
  | Ok None => Ok (mkBinanceLookup Absent empty_binance_info None)
  | Err error =>
      if code error ==s "transport" then Err error
      else Ok (mkBinanceLookup Inconclusive empty_binance_info (Some error))
  end.

Definition info_ack (info : BinanceOrderInfo) : BinanceOrderAck :=
  mkBinanceOrderAck (bi_order_id info) (bi_client_order_id info) (bi_status info) (bi_executed_qty info).

Definition unresolved (what client_order_id : string) (l : BinanceLookup) (e : Error) : Error :=
  mkError "transport" (what +:+ " outcome unresolved for clientOrderId " +:+ client_order_id +:+ ": "
                       +:+ message (default e (bl_error l))).

Definition matches_request (a_info : BinanceOrderInfo) (a_request : BinanceAmendRequest) : bool :=
  value_matches (bm_price a_request) (bi_price a_info)
  && value_matches (bm_quantity a_request) (bi_orig_qty a_info).

(** The statuses of an order that still works. *)
Definition working_status (status : string) : bool :=
  (status ==s "NEW") || (status ==s "PARTIALLY_FILLED") || (status ==s "PENDING_CANCEL").

(** ** Resolve, then retry *)

Section Resilient.
Context {W : Type} `{!BinanceTradeApi W} (a_policy : RetryPolicy) (a_clock : RetryClock W).

Definition binance_lookup (a_query : BinanceOrderQuery) (w : W) : BinanceLookup * W :=
  let '(resolved, w) :=
    with_retries a_policy a_clock
      (fun w => let '(result, w) := ap_get_order a_query w in (conclude result, w))
      transport_error w in
  (match resolved with
   | Ok l => l
   | Err e => mkBinanceLookup Inconclusive empty_binance_info (Some e)
   end, w).

Definition binance_place_attempt (a_request : BinancePlaceRequest) (s : W * bool)
    : Result BinanceOrderAck * (W * bool) :=
  let query := mkBinanceOrderQuery (bp_client_order_id a_request) (bp_symbol a_request) in
  let '(result, w) := ap_place a_request s.1 in
  match result with
  | Ok _ => (result, (w, false))
  | Err error =>
      let duplicate := is_duplicate_reject error in
      if (code error ==s "transport") || duplicate then
        let '(lookup, w) := binance_lookup query w in
        match bl_outcome lookup with
        | Found => (Ok (info_ack (bl_info lookup)), (w, false))
        | outcome =>
            if duplicate then (result, (w, false))
            else match outcome with
                 | Absent => (result, (w, true))
                 | _ => (Err (unresolved "place" (bp_client_order_id a_request) lookup error),
                         (w, false))
                 end
        end
      else (result, (w, false))
  end.

Definition binance_cancel_attempt (a_request : BinanceCancelRequest) (s : W * bool)
    : Result BinanceOrderInfo * (W * bool) :=
  let query := mkBinanceOrderQuery (bc_client_order_id a_request) (bc_symbol a_request) in
  let '(result, w) := ap_cancel a_request s.1 in
  match result with
  | Ok _ => (result, (w, false))
  | Err error =>
      if code error ==s "transport" then
        let '(lookup, w) := binance_lookup query w in
        let status := bi_status (bl_info lookup) in
        match bl_outcome lookup with
        | Found =>
            if status ==s "CANCELED" then (Ok (bl_info lookup), (w, false))
            else if working_status status then (result, (w, true))
            else (Err (mkError "venue:-2011" ("order " +:+ bc_client_order_id a_request
                         +:+ " is already " +:+ status)), (w, false))
        | Absent => (Err (mkError "venue:-2013" "cancel target not found on the venue"), (w, false))
        | Inconclusive =>
            (Err (unresolved "cancel" (bc_client_order_id a_request) lookup error), (w, false))
        end
      else if code error ==s "venue:-2011" then
        let '(lookup, w) := binance_lookup query w in
        match bl_outcome lookup with
        | Found =>
            if bi_status (bl_info lookup) ==s "CANCELED" then (Ok (bl_info lookup), (w, false))
            else (result, (w, false))
        | _ => (result, (w, false))
        end
      else (result, (w, false))
  end.

Definition binance_amend_attempt (a_request : BinanceAmendRequest) (s : W * bool)
    : Result BinanceOrderAck * (W * bool) :=
  let query := mkBinanceOrderQuery (bm_client_order_id a_request) (bm_symbol a_request) in
  let '(result, w) := ap_cancel_replace a_request s.1 in
  match result with
  | Ok replace => (Ok (br_replacement replace), (w, false))
  | Err error =>
      if code error <>s "transport" then (Err error, (w, false))
      else
        let '(lookup, w) := binance_lookup query w in
        let status := bi_status (bl_info lookup) in
        match bl_outcome lookup with
        | Found =>
            if matches_request (bl_info lookup) a_request
            then (Ok (info_ack (bl_info lookup)), (w, false))
            else if working_status status then (Err error, (w, true))
            else (Err (mkError "venue:-2011" ("amend outcome partially unknown for clientOrderId "
                         +:+ bm_client_order_id a_request +:+ ": original order is " +:+ status
                         +:+ " and no replacement is live; "
                         +:+ "re-issue as a new order if needed")), (w, false))
        | Absent => (Err (mkError "venue:-2013" "amend target not found on the venue"), (w, false))
        | Inconclusive =>
            (Err (unresolved "amend" (bm_client_order_id a_request) lookup error), (w, false))
        end
  end.

Definition binance_resilient_place (a_request : BinancePlaceRequest) : W -> Result BinanceOrderAck * W :=
  retry_while_safe a_policy a_clock (binance_place_attempt a_request).
Definition binance_resilient_cancel (a_request : BinanceCancelRequest) : W -> Result BinanceOrderInfo * W :=
  retry_while_safe a_policy a_clock (binance_cancel_attempt a_request).
Definition binance_resilient_amend (a_request : BinanceAmendRequest) : W -> Result BinanceOrderAck * W :=
  retry_while_safe a_policy a_clock (binance_amend_attempt a_request).
End Resilient.

(** ** The requests written down *)

(** The three state-changing requests, and what they answer. *)
Inductive BinanceRequest :=
  | RqPlace (request : BinancePlaceRequest)
  | RqCancel (request : BinanceCancelRequest)
  | RqAmend (request : BinanceAmendRequest).

Inductive BinanceSent :=
  | SentPlace (ack : BinanceOrderAck)
  | SentCancel (info : BinanceOrderInfo)
  | SentReplace (replace : BinanceReplaceResult).

Notation BinanceCall := (Call BinanceRequest BinanceOrderQuery BinanceSent BinanceOrderInfo).

Definition traced_api {W : Type} (c : BinanceTradeApi W) : BinanceTradeApi (W * list BinanceCall) := {|
  ap_place := logging (fun rq r => CSend (RqPlace rq) (map_ok SentPlace r)) ap_place;
  ap_cancel := logging (fun rq r => CSend (RqCancel rq) (map_ok SentCancel r)) ap_cancel;
  ap_cancel_replace := logging (fun rq r => CSend (RqAmend rq) (map_ok SentReplace r)) ap_cancel_replace;
  ap_get_order := logging CGet ap_get_order |}.

(** The venue does not know the order ([BinanceApi] reads -2013 so). *)
Definition says_absent (a : Result (option BinanceOrderInfo)) : bool :=
  match a with Ok None => true | _ => false end.

Definition still_working (info : BinanceOrderInfo) : bool := working_status (bi_status info).

(** A lookup's result after its last answer. *)
Definition settle (a : Result (option BinanceOrderInfo)) : BinanceLookup :=
  match conclude a with Ok l => l | Err e => mkBinanceLookup Inconclusive empty_binance_info (Some e) end.

Lemma settle_spec a :
  match bl_outcome (settle a) with
  | Found => a = Ok (Some (bl_info (settle a)))
  | Absent => a = Ok None
  | Inconclusive => exists e, a = Err e
  end.
Proof. destruct a as [[info|]|e]; unfold settle, conclude; [done|done|]. destruct (code e ==s _); simpl; eauto. Qed.

Section Traces.
Context {W : Type} (c : BinanceTradeApi W) (a_policy : RetryPolicy) (a_clock : RetryClock W).
Context (Hattempts : 1 <= max_attempts a_policy).
#[local] Existing Instance traced_api.
Local Notation clock := (lift_clock (X:=list BinanceCall) a_clock).

Lemma binance_gets_log {T : Type} (conc : Result (option BinanceOrderInfo) -> Result T) q w l :
  (forall a e, conc a = Err e -> code e = "transport" -> transport_failure a) ->
  let '(r, (_, l')) := with_retries a_policy clock
    (fun s => let '(result, s) := ap_get_order q s in (conc result, s)) transport_error (w, l) in
  exists fs a, l' = l ++ map (CGet q) (fs ++ [a]) /\ Forall transport_failure fs /\ r = conc a.
Proof. exact (gets_log a_policy a_clock Hattempts (@ap_get_order W c) conc q w l). Qed.

Lemma binance_lookup_log q w l :
  let '(res, (_, l')) := binance_lookup a_policy clock q (w, l) in
  exists fs a, l' = l ++ map (CGet q) (fs ++ [a]) /\ Forall transport_failure fs /\ res = settle a.
Proof.
  unfold binance_lookup. pose proof (binance_gets_log conclude q w l) as H.
  destruct (with_retries _ _ _ _ _) as [r [w' l']].
  destruct H as (fs & a & Hl & Hfs & ->); [|by exists fs, a].
  intros [[?|]|e'] e He Ht; simpl in He; try done. exists e'. by case_match; simplify_eq.
Qed.

(** Names the calls of the lookup an attempt makes. *)
Ltac run_lookup q w1 l1 fs a :=
  let H := fresh in
  pose proof (binance_lookup_log q w1 l1) as H;
  destruct (binance_lookup _ _ q (w1, l1)) as [? [? ?]]; destruct H as (fs & a & -> & _ & ->);
  let Ho := fresh "Ho" in pose proof (settle_spec a) as Ho;
  destruct (bl_outcome (settle a));
  [let info := fresh "info" in generalize dependent (bl_info (settle a)); intros info ->
  |subst a|destruct Ho as [? ->]].

(** A branch after the lookup: no retry, or a permitted one, and a success
    that is the order found. *)
Ltac ends_with_lookup rq r q fs a :=
  looked_up rq (r : Result BinanceSent) q fs a;
  try (intros ? [= <-]; apply confirmed_get; by auto).

Definition place_sent (s : BinanceSent) (ack : BinanceOrderAck) : Prop := s = SentPlace ack.
Definition cancel_sent (s : BinanceSent) (info : BinanceOrderInfo) : Prop := s = SentCancel info.
Definition amend_sent (s : BinanceSent) (ack : BinanceOrderAck) : Prop :=
  exists replace, s = SentReplace replace /\ br_replacement replace = ack.

Definition place_found (info : BinanceOrderInfo) (ack : BinanceOrderAck) : Prop := ack = info_ack info.
Definition cancel_found (info result : BinanceOrderInfo) : Prop :=
  result = info /\ bi_status info = "CANCELED".
Definition amend_found (rq : BinanceAmendRequest) (info : BinanceOrderInfo) (ack : BinanceOrderAck) : Prop :=
  ack = info_ack info /\ matches_request info rq = true.

Lemma binance_place_attempt_ok rq :
  attempt_ok (RqPlace rq) (mkBinanceOrderQuery (bp_client_order_id rq) (bp_symbol rq))
    says_absent place_sent place_found (binance_place_attempt a_policy clock rq).
Proof.
  intros w l b. unfold binance_place_attempt. simpl. destruct (ap_place rq w) as [r w1]. simpl.
  destruct r as [ack|e]; [sent_only (RqPlace rq) (map_ok SentPlace (Ok ack))|].
  destruct ((code e ==s "transport") || is_duplicate_reject e) eqn:Ht;
    [|sent_only (RqPlace rq) (map_ok SentPlace (Err e))].
  run_lookup (mkBinanceOrderQuery (bp_client_order_id rq) (bp_symbol rq)) w1
    (l ++ [CSend (RqPlace rq) (map_ok SentPlace (Err e))]) fs a.
  - by ends_with_lookup (RqPlace rq) (map_ok SentPlace (Err e)) (mkBinanceOrderQuery (bp_client_order_id rq) (bp_symbol rq)) fs (Ok (Some info)).
  - by destruct (is_duplicate_reject e); ends_with_lookup (RqPlace rq) (map_ok SentPlace (Err e)) (mkBinanceOrderQuery (bp_client_order_id rq) (bp_symbol rq)) fs (Ok (None : option BinanceOrderInfo)).
  - by destruct (is_duplicate_reject e); ends_with_lookup (RqPlace rq) (map_ok SentPlace (Err e)) (mkBinanceOrderQuery (bp_client_order_id rq) (bp_symbol rq)) fs (Err x : Result (option BinanceOrderInfo)).
Qed.

Lemma binance_cancel_attempt_ok rq :
  attempt_ok (RqCancel rq) (mkBinanceOrderQuery (bc_client_order_id rq) (bc_symbol rq))
    (says_found still_working) cancel_sent cancel_found (binance_cancel_attempt a_policy clock rq).
Proof.
  intros w l b. unfold binance_cancel_attempt. simpl. destruct (ap_cancel rq w) as [r w1]. simpl.
  destruct r as [ack|e]; [sent_only (RqCancel rq) (map_ok SentCancel (Ok ack))|].
  set (q := mkBinanceOrderQuery (bc_client_order_id rq) (bc_symbol rq)).
  destruct (code e ==s "transport") eqn:Ht; [|destruct (code e ==s "venue:-2011")];
    [| |sent_only (RqCancel rq) (map_ok SentCancel (Err e))];
    run_lookup q w1 (l ++ [CSend (RqCancel rq) (map_ok SentCancel (Err e))]) fs a;
    try (destruct (streqb_spec (bi_status info) "CANCELED"));
    try (destruct (working_status (bi_status info)) eqn:Hw).
  all: try (ends_with_lookup (RqCancel rq) (map_ok SentCancel (Err e)) (mkBinanceOrderQuery (bc_client_order_id rq) (bc_symbol rq)) fs (Ok (Some info))).
  all: try (by ends_with_lookup (RqCancel rq) (map_ok SentCancel (Err e)) (mkBinanceOrderQuery (bc_client_order_id rq) (bc_symbol rq)) fs (Ok (None : option BinanceOrderInfo))).
  all: try (by ends_with_lookup (RqCancel rq) (map_ok SentCancel (Err e)) (mkBinanceOrderQuery (bc_client_order_id rq) (bc_symbol rq)) fs (Err x : Result (option BinanceOrderInfo))).
  intros _. simpl. unfold still_working. by rewrite Ht, Hw.
Qed.

Lemma binance_amend_attempt_ok rq :
  attempt_ok (RqAmend rq) (mkBinanceOrderQuery (bm_client_order_id rq) (bm_symbol rq))
    (says_found (fun i => still_working i && negb (matches_request i rq))) amend_sent
    (amend_found rq) (binance_amend_attempt a_policy clock rq).
Proof.
  intros w l b. unfold binance_amend_attempt. simpl. destruct (ap_cancel_replace rq w) as [r w1]. simpl.
  destruct r as [replace|e].
  { exists [CSend (RqAmend rq) (Ok (SentReplace replace))].
    split_and!; [done|exact (only_about_send_gets _ _ _ [])|intros x; by eexists|].
    intros ? [= <-]. apply confirmed_sent. by exists replace. }
  destruct (code e ==s "transport") eqn:Ht; cbn [negb]; [|sent_only (RqAmend rq) (map_ok SentReplace (Err e))].
  run_lookup (mkBinanceOrderQuery (bm_client_order_id rq) (bm_symbol rq)) w1
    (l ++ [CSend (RqAmend rq) (map_ok SentReplace (Err e))]) fs a.
  - destruct (matches_request info rq) eqn:Hm; [|destruct (working_status (bi_status info)) eqn:Hw];
      ends_with_lookup (RqAmend rq) (map_ok SentReplace (Err e)) (mkBinanceOrderQuery (bm_client_order_id rq) (bm_symbol rq)) fs (Ok (Some info)).
    intros _. simpl. unfold still_working. by rewrite Ht, Hw, Hm.
  - by ends_with_lookup (RqAmend rq) (map_ok SentReplace (Err e)) (mkBinanceOrderQuery (bm_client_order_id rq) (bm_symbol rq)) fs (Ok (None : option BinanceOrderInfo)).
  - by ends_with_lookup (RqAmend rq) (map_ok SentReplace (Err e)) (mkBinanceOrderQuery (bm_client_order_id rq) (bm_symbol rq)) fs (Err x : Result (option BinanceOrderInfo)).
Qed.

(** C13: No blind re-send on Binance: with every request and lookup written down together with
    what it asked, every place sent is the caller's request and every lookup asks for its client
    id at its symbol; a place is sent again only after the previous one was lost to a transport
    failure and the lookup right before the re-send answered that the venue does not know that
    order; a success rests on the last request, its acknowledgement or an order found by the
    lookup. *)
Theorem binance_place_resent_only_when_absent rq w :
  let '(r, (_, l)) := binance_resilient_place a_policy clock rq (w, []) in
  only_about (RqPlace rq) (mkBinanceOrderQuery (bp_client_order_id rq) (bp_symbol rq)) l
  /\ resends_ok says_absent l = true
  /\ forall ack, r = Ok ack -> confirmed place_sent place_found ack l.
Proof. apply (retry_while_safe_ok _ _ Hattempts), binance_place_attempt_ok. Qed.

(** A Binance cancel succeeds only on the venue's word: the last request was acknowledged or the
    lookup found the order canceled; a cancel is sent again only after a lost one whose lookup
    found the order still working. Every request and every lookup is for this order. *)
Theorem binance_cancel_confirmed rq w :
  let '(r, (_, l)) := binance_resilient_cancel a_policy clock rq (w, []) in
  only_about (RqCancel rq) (mkBinanceOrderQuery (bc_client_order_id rq) (bc_symbol rq)) l
  /\ resends_ok (says_found still_working) l = true
  /\ forall info, r = Ok info -> confirmed cancel_sent cancel_found info l.
Proof. apply (retry_while_safe_ok _ _ Hattempts), binance_cancel_attempt_ok. Qed.

(** A Binance amend (cancel-replace) succeeds only on the venue's word: the last request was
    acknowledged or the lookup found every requested value; it is sent again only after a lost
    one whose lookup found the order still working with other values. Every request and every
    lookup is for this order. *)
Theorem binance_amend_confirmed rq w :
  let '(r, (_, l)) := binance_resilient_amend a_policy clock rq (w, []) in
  only_about (RqAmend rq) (mkBinanceOrderQuery (bm_client_order_id rq) (bm_symbol rq)) l
  /\ resends_ok (says_found (fun i => still_working i && negb (matches_request i rq))) l = true
  /\ forall ack, r = Ok ack -> confirmed amend_sent (amend_found rq) ack l.
Proof. apply (retry_while_safe_ok _ _ Hattempts), binance_amend_attempt_ok. Qed.
End Traces.

(** ** A venue that loses the first request; the world counts the answers *)

Definition sample_info (status price : string) : BinanceOrderInfo :=
  mkBinanceOrderInfo "77" "a1" "BTCUSDT" status "BUY" "LIMIT" price "0.10000000" "0.00000000" "0".

Definition lossy_api (found : Z -> option BinanceOrderInfo) : BinanceTradeApi Z :=
  let lossy {A B} (b : B) (_ : A) (w : Z) : Result B * Z :=
    (if w =? 0 then Err (mkError "transport" "lost") else Ok b, w + 1) in
  let ack := mkBinanceOrderAck "78" "a1" "NEW" "0" in
  {| ap_place := lossy ack; ap_cancel := lossy (sample_info "CANCELED" "50000");
     ap_cancel_replace := lossy (mkBinanceReplaceResult "SUCCESS" "SUCCESS" (sample_info "CANCELED" "50000") ack);
     ap_get_order _ w := (Ok (found w), w + 1) |}.

Definition sample_binance_place : BinancePlaceRequest :=
  mkBinancePlaceRequest "a1" "BTCUSDT" Buy Limit "50000" "0.1" "GTC".
Definition sample_binance_amend (price : string) : BinanceAmendRequest :=
  mkBinanceAmendRequest "a1" "BTCUSDT" Buy Limit price "0.1" "GTC".
Definition finds_nothing : BinanceTradeApi Z := lossy_api (fun _ => None).
Definition finds_working : BinanceTradeApi Z := lossy_api (fun _ => Some (sample_info "NEW" "50000")).

Lemma binance_place_resent_only_when_absent_witness :
  let '(r, (_, l)) := binance_resilient_place (BinanceTradeApi0:=traced_api finds_nothing)
                        default_retry_policy (lift_clock still_clock) sample_binance_place (0, []) in
  only_about (RqPlace sample_binance_place) (mkBinanceOrderQuery "a1" "BTCUSDT") l
  /\ resends_ok says_absent l = true /\ forall ack, r = Ok ack -> confirmed place_sent place_found ack l.
Proof. apply (binance_place_resent_only_when_absent finds_nothing default_retry_policy still_clock). discriminate. Defined.

Lemma binance_cancel_confirmed_witness :
  let '(r, (_, l)) := binance_resilient_cancel (BinanceTradeApi0:=traced_api finds_working)
                        default_retry_policy (lift_clock still_clock)
                        (mkBinanceCancelRequest "a1" "BTCUSDT") (0, []) in
  only_about (RqCancel (mkBinanceCancelRequest "a1" "BTCUSDT")) (mkBinanceOrderQuery "a1" "BTCUSDT") l
  /\ resends_ok (says_found still_working) l = true
  /\ forall info, r = Ok info -> confirmed cancel_sent cancel_found info l.
Proof. apply (binance_cancel_confirmed finds_working default_retry_policy still_clock). discriminate. Defined.

Lemma binance_amend_confirmed_witness :
  let rq := sample_binance_amend "51000" in
  let '(r, (_, l)) := binance_resilient_amend (BinanceTradeApi0:=traced_api finds_working)
                        default_retry_policy (lift_clock still_clock) rq (0, []) in
  only_about (RqAmend rq) (mkBinanceOrderQuery "a1" "BTCUSDT") l
  /\ resends_ok (says_found (fun i => still_working i && negb (matches_request i rq))) l = true
  /\ forall ack, r = Ok ack -> confirmed amend_sent (amend_found rq) ack l.
Proof. apply (binance_amend_confirmed finds_working default_retry_policy still_clock). discriminate. Defined.

(** The lost cancel, the order found working, the one re-send. *)
Example lossy_cancel :
  binance_resilient_cancel (BinanceTradeApi0:=traced_api finds_working) default_retry_policy
    (lift_clock still_clock) (mkBinanceCancelRequest "a1" "BTCUSDT") (0, [])
  = (Ok (sample_info "CANCELED" "50000"),
     (3, [CSend (RqCancel (mkBinanceCancelRequest "a1" "BTCUSDT")) (Err (mkError "transport" "lost"));
          CGet (mkBinanceOrderQuery "a1" "BTCUSDT") (Ok (Some (sample_info "NEW" "50000")));
          CSend (RqCancel (mkBinanceCancelRequest "a1" "BTCUSDT")) (Ok (SentCancel (sample_info "CANCELED" "50000")))])).
Proof. vm_compute. reflexivity. Qed.

(** An order that the lookup shows canceled counts as a landed amend when it
    carries the requested values: the status is not looked at. *)
Example canceled_order_counts_as_amended :
  let api := lossy_api (fun _ => Some (sample_info "CANCELED" "50000.0")) in
  (binance_resilient_amend (BinanceTradeApi0:=api) default_retry_policy still_clock
     (sample_binance_amend "50000") 0).1
  = Ok (mkBinanceOrderAck "77" "a1" "CANCELED" "0.00000000").
Proof. vm_compute. reflexivity. Qed.
