(* ===== verification/BinanceConnector.v ===== *)
(** * Binance connector: src/exchange/binance/binance_connector.cpp

    The venue's [ExchangeConnector].  Its state is the environment and the
    symbol translator; snapshots are normalised fail-closed and their symbol is
    translated back.  [BinanceMarketApi] names the API calls outside
    [BinanceTradeApi]. *)

From S2P Require Import Prelude Types Json Retry Resolve BinanceWire BinanceConfig BinanceResilient.

Definition to_snapshot (a_info : BinanceOrderInfo) (a_symbols : SymbolTranslator)
    : Result OrderSnapshot * SymbolTranslator :=
  match map_binance_state (bi_status a_info), map_binance_side (bi_side a_info),
        map_binance_type (bi_type a_info) with
  | None, _, _ =>
      (Err (protocol_error ("unknown Binance order status: " +:+ bi_status a_info)), a_symbols)
  | _, None, _ =>
      (Err (protocol_error ("unknown Binance order side: " +:+ bi_side a_info)), a_symbols)
  | _, _, None =>
      (Err (protocol_error ("unknown Binance order type: " +:+ bi_type a_info)), a_symbols)
  | Some state, Some side, Some type =>
      let '(symbol, a_symbols) := to_gateway (bi_symbol a_info) a_symbols in
      (Ok (mkOrderSnapshot (bi_client_order_id a_info) (bi_order_id a_info) symbol state side type
             (bi_price a_info) (bi_orig_qty a_info) (bi_executed_qty a_info) ""), a_symbols)
  end.

Definition placement_from (a_ack : BinanceOrderAck) : Result OrderPlacement :=
  if str_empty (ba_order_id a_ack) then Err (protocol_error "venue ack without orderId")
  else Ok (mkOrderPlacement (ba_client_order_id a_ack) (ba_order_id a_ack)).

Definition or_gtc (a_time_in_force : string) : string :=
  if str_empty a_time_in_force then "GTC" else a_time_in_force.

(** The wire form of a place, given the translated symbol. *)
Definition place_wire (a_request : OrderRequest) (symbol : string) : BinancePlaceRequest :=
  mkBinancePlaceRequest (rq_client_order_id a_request) symbol (rq_side a_request)
    (rq_type a_request) (rq_price a_request) (rq_quantity a_request)
    (or_gtc (rq_time_in_force a_request)).

(** What one answer of [get_order] means to the core. *)
Definition conclude_snapshot (result : Result (option BinanceOrderInfo)) (t : SymbolTranslator)
    : Result (option OrderSnapshot) * SymbolTranslator :=
  match result with
  | Err error => (Err error, t)
  | Ok None => (Ok None, t)
  | Ok (Some info) => let '(snapshot, t) := to_snapshot info t in (map_ok Some snapshot, t)
  end.

(** Listed orders the gateway cannot represent are skipped. *)
Fixpoint representable (infos : list BinanceOrderInfo) (t : SymbolTranslator)
    : list OrderSnapshot * SymbolTranslator :=
  match infos with
  | [] => ([], t)
  | info :: rest =>
      let '(snapshot, t) := to_snapshot info t in
      let '(snapshots, t) := representable rest t in
      (match snapshot with Ok s => s :: snapshots | Err _ => snapshots end, t)
  end.

Class BinanceMarketApi (W : Type) := {
  ap_open_orders : W -> Result (list BinanceOrderInfo) * W;
  ap_price : string -> W -> Result string * W
}.

#[global] Instance binance_market_api {W : Type} (call : RawCall W) (public_call : option (RawCall W))
    : BinanceMarketApi W | 10 := {
  ap_open_orders := api_get_open_orders call;
  ap_price := api_get_price public_call
}.

Section Connector.
Context {W : Type} `{!BinanceTradeApi W} `{!BinanceMarketApi W}
  (config : BinanceConfig) (retry_clock : RetryClock W).

Definition State : Type := W * SymbolTranslator.

Definition binance_connector_place (a_request : OrderRequest) (s : State)
    : Result OrderPlacement * State :=
  let '(w, t) := s in
  let '(symbol, t) := to_wire (rq_instrument_id a_request) t in
  let '(ack, w) := binance_resilient_place (bn_retry config) retry_clock
                     (place_wire a_request symbol) w in
  (let! a := ack in placement_from a, (w, t)).

Definition binance_connector_cancel (a_request : CancelRequest) (s : State)
    : Result OrderPlacement * State :=
  let '(w, t) := s in
  let '(symbol, t) := to_wire (cx_instrument_id a_request) t in
  let '(info, w) := binance_resilient_cancel (bn_retry config) retry_clock
                      (mkBinanceCancelRequest (cx_client_order_id a_request) symbol) w in
  (let! i := info in placement_from (info_ack i), (w, t)).

Definition incomplete_amend : Error :=
  protocol_error ("Binance amend (cancelReplace) needs the full replacement: price, "
                  +:+ "quantity, side and type of the resulting order").

Definition binance_connector_amend (a_request : AmendRequest) (s : State)
    : Result OrderPlacement * State :=
  match am_new_price a_request, am_new_quantity a_request, am_side a_request, am_type a_request with
  | Some price, Some quantity, Some side, Some type =>
      let '(w, t) := s in
      let '(symbol, t) := to_wire (am_instrument_id a_request) t in
      let wire := mkBinanceAmendRequest (am_client_order_id a_request) symbol side type price
                    quantity (or_gtc (am_time_in_force a_request)) in
      let '(ack, w) := binance_resilient_amend (bn_retry config) retry_clock wire w in
      (let! a := ack in placement_from a, (w, t))
  | _, _, _, _ => (Err incomplete_amend, s)
  end.

Definition get_order_attempt (wire : BinanceOrderQuery) (s : State)
    : Result (option OrderSnapshot) * State :=
  let '(w, t) := s in
  let '(result, w) := ap_get_order wire w in
  let '(snapshot, t) := conclude_snapshot result t in
  (snapshot, (w, t)).

Definition binance_connector_get_order (a_query : OrderQuery) (s : State)
    : Result (option OrderSnapshot) * State :=
  let '(w, t) := s in
  let '(symbol, t) := to_wire (oq_instrument_id a_query) t in
  with_retries (bn_retry config) (lift_clock retry_clock)
    (get_order_attempt (mkBinanceOrderQuery (oq_client_order_id a_query) symbol))
    transport_error (w, t).

Definition binance_connector_open_orders (s : State) : Result (list OrderSnapshot) * State :=
  let '(w, t) := s in
  let '(orders, w) := with_retries (bn_retry config) retry_clock ap_open_orders transport_error w in
  match orders with
  | Err error => (Err error, (w, t))
  | Ok infos => let '(snapshots, t) := representable infos t in (Ok snapshots, (w, t))
  end.

Definition binance_connector_price (a_instrument_id : string) (s : State) : Result string * State :=
  let '(w, t) := s in
  let '(symbol, t) := to_wire a_instrument_id t in
  let '(price, w) := with_retries (bn_retry config) retry_clock (ap_price symbol)
                       transport_error w in
  (price, (w, t)).
End Connector.

#[global] Instance binance_exchange_connector {W : Type} (c : BinanceTradeApi W)
    (m : BinanceMarketApi W) (config : BinanceConfig) (retry_clock : RetryClock W)
    : ExchangeConnector (W * SymbolTranslator) | 10 := {
  place_order := binance_connector_place config retry_clock;
  cancel_order := binance_connector_cancel config retry_clock;
  amend_order := binance_connector_amend config retry_clock;
  get_order := binance_connector_get_order config retry_clock;
  get_open_orders := binance_connector_open_orders config retry_clock;
  get_price := binance_connector_price config retry_clock
}.

(** ** What the core may rely on *)

(** The method parameters of a place read back. *)
Definition read_place (params : json) : option OrderRequest :=
  match jstring params "newClientOrderId", jstring params "symbol", jstring params "quantity" with
  | Some id, Some symbol, Some quantity =>
      match default None (map_binance_side <$> jstring params "side"),
            default None (map_binance_type <$> jstring params "type") with
      | Some side, Some type =>
          Some (mkOrderRequest id symbol side type (default "" (jstring params "price")) quantity
                  (default "" (jstring params "timeInForce")))
      | _, _ => None
      end
  | _, _, _ => None
  end.

(** What reaches the venue of a request: the symbol without dashes; price and
    time in force (GTC by default) for limit orders only. *)
Definition sent_request (rq : OrderRequest) : OrderRequest :=
  let limit text := match rq_type rq with Limit => text | Market => "" end in
  mkOrderRequest (rq_client_order_id rq) (without_dash (rq_instrument_id rq)) (rq_side rq)
    (rq_type rq) (limit (rq_price rq)) (rq_quantity rq) (limit (or_gtc (rq_time_in_force rq))).

(** The parameters of a Binance place carry the whole request: reading them back gives it. *)
Theorem binance_place_carries_request rq :
  rq_client_order_id rq <> "" -> without_dash (rq_instrument_id rq) <> "" -> rq_quantity rq <> "" ->
  (rq_type rq = Limit -> rq_price rq <> "") ->
  exists params,
    build_place_params (place_wire rq (without_dash (rq_instrument_id rq))) = Ok params
    /\ read_place params = Some (sent_request rq).
Proof.
  destruct rq as [id inst side type price qty tif]. simpl. intros Hid Hinst Hqty Hprice.
  unfold build_place_params, place_wire, require_decimal, sent_request. simpl.
  apply str_empty_false in Hid, Hinst, Hqty. rewrite Hid, Hinst, Hqty. simpl.
  destruct type; simpl.
  - unfold require_decimal. specialize (Hprice eq_refl). apply str_empty_false in Hprice.
    rewrite Hprice. assert (Ht : str_empty (or_gtc tif) = false) by (by destruct tif).
    rewrite Ht. eexists. split; [done|]. by destruct side.
  - eexists. split; [done|]. by destruct side.
Qed.

Lemma binance_place_carries_request_witness :
  let rq := mkOrderRequest "a1" "BTC-USDT" Buy Limit "50000" "0.1" "" in
  exists params,
    build_place_params (place_wire rq (without_dash (rq_instrument_id rq))) = Ok params
    /\ read_place params = Some (sent_request rq).
Proof. apply binance_place_carries_request; discriminate. Defined.

(** The normalised form of an order the venue reports. *)
Definition normalised (info : BinanceOrderInfo) (s : OrderSnapshot) : Prop :=
  os_client_order_id s = bi_client_order_id info /\ os_exchange_order_id s = bi_order_id info
  /\ map_binance_state (bi_status info) = Some (os_state s)
  /\ map_binance_side (bi_side info) = Some (os_side s)
  /\ map_binance_type (bi_type info) = Some (os_type s)
  /\ os_price s = bi_price info /\ os_quantity s = bi_orig_qty info
  /\ os_filled_quantity s = bi_executed_qty info
  /\ without_dash (os_instrument_id s) = without_dash (bi_symbol info).

Lemma to_snapshot_spec info t :
  memo_ok t ->
  let '(r, t') := to_snapshot info t in
  match r with
  | Ok s => normalised info s /\ (os_instrument_id s, t') = to_gateway (bi_symbol info) t
  | Err e => code e = "protocol" /\ t' = t
  end.
Proof.
  intros Ht. unfold to_snapshot, normalised.
  destruct (map_binance_state (bi_status info)), (map_binance_side (bi_side info)),
    (map_binance_type (bi_type info)); try done.
  pose proof (to_gateway_answer t (bi_symbol info) Ht) as H.
  destruct (to_gateway (bi_symbol info) t) as [g t']. destruct H as [Hg _]. simpl. by split_and!.
Qed.

(** The answer the core gets for a query, and the venue's last word; a
    snapshot of the queried symbol names the queried instrument. *)
Definition snapshot_evidence (instrument : string) (a : Result (option BinanceOrderInfo))
    (r : Result (option OrderSnapshot)) : Prop :=
  match r with
  | Ok None => a = Ok None
  | Ok (Some s) => exists info, a = Ok (Some info) /\ normalised info s
      /\ (bi_symbol info = without_dash instrument -> os_instrument_id s = instrument)
  | Err e => a = Err e \/ exists info, a = Ok (Some info) /\ code e = "protocol"
  end.

(** The memo while a query runs. *)
Definition memo_names (instrument : string) (t : SymbolTranslator) : Prop :=
  memo_ok t /\ wire_to_gateway t !! without_dash instrument = Some instrument.

Lemma conclude_snapshot_spec instrument a t :
  memo_names instrument t ->
  let '(r, t') := conclude_snapshot a t in
  memo_names instrument t' /\ snapshot_evidence instrument a r
  /\ forall e, r = Err e -> code e = "transport" -> transport_failure a.
Proof.
  intros [Ht Hn]. destruct a as [[info|]|e]; simpl; [| |].
  - pose proof (to_snapshot_spec info t Ht) as H. destruct (to_snapshot info t) as [[s|e] t']; simpl.
    + destruct H as [Hs Hg]. pose proof (memo_ok_call t (ToGateway (bi_symbol info)) Ht) as Hok.
      pose proof (memo_lasts instrument _ t [ToGateway (bi_symbol info)] Hn) as Hm.
      simpl in Hok, Hm. rewrite <- Hg in Hok, Hm. simpl in Hok, Hm.
      split_and!; [split; [done|apply Hm; by intros ? [|[]]]| |done].
      exists info. split_and!; [done|done|]. intros He. unfold to_gateway in Hg. rewrite He, Hn in Hg.
      by injection Hg.
    + destruct H as [He ->]. split_and!; [done|right; by exists info|].
      intros ? [= <-]. by rewrite He.
  - by split_and!.
  - split_and!; [done|by left|]. intros ? [= <-]. by exists e.
Qed.

(** What the core learns about a Binance order rests on the venue's last answer: lookups lost to
    transport failures are followed by one answer that decides. *)
Theorem binance_get_order_rests_on_last_answer {W} (c : BinanceTradeApi W) config clock before query w :
  1 <= max_attempts (bn_retry config) ->
  let '(r, ((_, l), _)) := binance_connector_get_order (BinanceTradeApi0:=traced_api c) config
                             (lift_clock clock) query ((w, []), symbol_calls no_symbols before) in
  exists lost_answers last, l = map (CGet (mkBinanceOrderQuery (oq_client_order_id query) (without_dash (oq_instrument_id query))))
             (lost_answers ++ [last])
    /\ Forall transport_failure lost_answers /\ snapshot_evidence (oq_instrument_id query) last r.
Proof.
  intros Hmax. unfold binance_connector_get_order. cbn [to_wire].
  set (inst := oq_instrument_id query).
  set (t := register_symbol inst (without_dash inst) (symbol_calls no_symbols before)).
  set (attempt := get_order_attempt _).
  assert (Ht : memo_names inst t).
  { split; [|apply lookup_insert_eq].
    apply (memo_ok_call _ (ToWire inst)), memo_ok_calls, map_Forall_empty. }
  unshelve epose proof (gets_log_rule (bn_retry config) (lift_clock (lift_clock clock))
    (mkBinanceOrderQuery (oq_client_order_id query) (without_dash inst)) attempt
    (fun s => s.1.2) (fun s => memo_names inst s.2) (snapshot_evidence inst) Hmax _ _ _ _
    ((w, []), t) Ht) as H.
  - intros [[w1 l1] t1] Hn. simpl in Hn. unfold attempt, get_order_attempt. simpl.
    destruct (ap_get_order _ w1) as [a w2].
    pose proof (conclude_snapshot_spec inst a t1 Hn) as Hc.
    destruct (conclude_snapshot a t1) as [r t2]. destruct Hc as (Hn2 & He & Htr).
    split; [done|]. by exists a.
  - intros [[w1 l1] t1]. simpl. by destruct (rc_now clock w1).
  - intros [[w1 l1] t1]. simpl. by destruct (rc_random01 clock w1).
  - by intros d [[w1 l1] t1].
  - destruct (with_retries _ _ _ _ _) as [r [[w' l] t']]. done.
Qed.

Definition sample_binance_config : BinanceConfig := default_binance_config.

Lemma binance_get_order_rests_on_last_answer_witness :
  let '(r, ((_, l), _)) := binance_connector_get_order (BinanceTradeApi0:=traced_api finds_working)
                             sample_binance_config (lift_clock still_clock)
                             (mkOrderQuery "a1" "BTC-USDT") ((0, []), symbol_calls no_symbols []) in
  exists lost_answers last, l = map (CGet (mkBinanceOrderQuery "a1" "BTCUSDT")) (lost_answers ++ [last])
    /\ Forall transport_failure lost_answers /\ snapshot_evidence "BTC-USDT" last r.
Proof.
  apply (binance_get_order_rests_on_last_answer finds_working sample_binance_config still_clock []
           (mkOrderQuery "a1" "BTC-USDT")). discriminate.
Defined.
