(* ===== verification/BinanceAccount.v ===== *)
(** * The Binance connector places an order at most once

    [BinanceAccount] states what the calls of the Binance API do to the account
    of accepted places; a cancel-replace keeps the client order id and is not a
    place.  [binance_places_once] is the promise of the connector, whose state
    carries the symbol translator next to the world. *)

From S2P Require Import Prelude Types Retry Resolve VenueAccount BinanceWire BinanceConfig BinanceResilient BinanceConnector.

(** The calls that place nothing. *)
Class BinanceQuiet {W : Type} (accepted : string -> W -> nat) (c : BinanceTradeApi W)
    (m : BinanceMarketApi W) : Prop := {
  bq_cancel request : quiet accepted (ap_cancel request);
  bq_replace request : quiet accepted (ap_cancel_replace request);
  bq_get query : quiet accepted (ap_get_order query);
  bq_open : quiet accepted ap_open_orders;
  bq_price symbol : quiet accepted (ap_price symbol) }.

(** A venue that answers lookups for the orders it has accepted. *)
Class BinanceAccount {W : Type} (accepted : string -> W -> nat) (c : BinanceTradeApi W)
    (m : BinanceMarketApi W) : Prop := {
  ba_quiet :: BinanceQuiet accepted c m;
  ba_place request : places_one accepted (bp_client_order_id request) (ap_place request);
  ba_absent query w :
    (ap_get_order query w).1 = Ok None -> accepted (bq_client_order_id query) w = 0%nat;
  ba_found query w info :
    (ap_get_order query w).1 = Ok (Some info) -> accepted (bq_client_order_id query) w <> 0%nat }.

Section Requests.
Context {W : Type} (accepted : string -> W -> nat) {c : BinanceTradeApi W} {m : BinanceMarketApi W}.
Context `{!BinanceQuiet accepted c m}.
Context (policy : RetryPolicy) (clock : RetryClock W) `{!QuietClock accepted clock}.
Context (Hattempts : 1 <= max_attempts policy).

Lemma binance_lookup_quiet query : quiet accepted (binance_lookup policy clock query).
Proof.
  intros w. unfold binance_lookup.
  pose proof (retries_quiet accepted policy clock Hattempts
    (fun w => let '(result, w) := ap_get_order query w in (conclude result, w)) transport_error
    (quiet_answer accepted _ conclude (bq_get query)) w) as H.
  by destruct (with_retries _ _ _ _ _).
Qed.

(** An attempt: its request, and a lookup unless its answer settles it. *)
Ltac request_then_lookup sends query w id :=
  let H := fresh in let w1 := fresh "w" in
  pose proof (sends w id) as H;
  match type of H with context [?f w] => destruct (f w) as [? w1] end;
  pose proof (binance_lookup_quiet query w1 id);
  destruct (binance_lookup _ _ query w1) as [? ?];
  repeat case_match; simplify_eq/=; congruence.

Lemma binance_cancel_attempt_quiet request :
  quiet (first_account accepted) (binance_cancel_attempt policy clock request).
Proof.
  intros [w b] id. unfold binance_cancel_attempt, first_account. simpl.
  request_then_lookup (bq_cancel (accepted:=accepted) request)
    (mkBinanceOrderQuery (bc_client_order_id request) (bc_symbol request)) w id.
Qed.

Lemma binance_amend_attempt_quiet request :
  quiet (first_account accepted) (binance_amend_attempt policy clock request).
Proof.
  intros [w b] id. unfold binance_amend_attempt, first_account. simpl.
  request_then_lookup (bq_replace (accepted:=accepted) request)
    (mkBinanceOrderQuery (bm_client_order_id request) (bm_symbol request)) w id.
Qed.

Lemma binance_place_attempt_quiet request :
  quiet accepted (ap_place request) ->
  quiet (first_account accepted) (binance_place_attempt policy clock request).
Proof.
  intros Hp [w b] id. unfold binance_place_attempt, first_account. simpl.
  request_then_lookup Hp (mkBinanceOrderQuery (bp_client_order_id request) (bp_symbol request)) w id.
Qed.
End Requests.

Section Account.
Context {W : Type} (accepted : string -> W -> nat) {c : BinanceTradeApi W} {m : BinanceMarketApi W}.
Context `{!BinanceAccount accepted c m}.
Context (policy : RetryPolicy) (clock : RetryClock W) `{!QuietClock accepted clock}.
Context (Hattempts : 1 <= max_attempts policy).

Definition binance_sight (l : BinanceLookup) : option bool :=
  match bl_outcome l with Found => Some true | Absent => Some false | Inconclusive => None end.

Lemma binance_lookup_tells query w :
  let '(l, w') := binance_lookup policy clock query w in
  keeps accepted w w' /\ tells accepted (bq_client_order_id query) binance_sight l w'.
Proof.
  unfold binance_lookup.
  pose proof (retried_tells accepted policy clock Hattempts (bq_client_order_id query) binance_sight
    (fun w => let '(result, w) := ap_get_order query w in (conclude result, w)) transport_error w) as H.
  destruct (with_retries _ _ _ _ _) as [r w']. destruct H as [Hk Ht].
  - intros w1. pose proof (bq_get query w1) as Hk. pose proof (ba_absent query w1) as Ha.
    pose proof (ba_found query w1) as Hf. destruct (ap_get_order query w1) as [a w2]. simpl in *.
    split; [done|]. intros l Hl. unfold tells, binance_sight, conclude in *. rewrite (Hk _).
    repeat case_match; simplify_eq/=; eauto.
  - split; [done|]. destruct r as [l|e]; [by apply Ht|done].
Qed.

Lemma binance_place_attempt_once request :
  attempts_once accepted (bp_client_order_id request) (binance_place_attempt policy clock request).
Proof.
  intros [w b]. unfold binance_place_attempt. set (id := bp_client_order_id request). simpl.
  pose proof (place_settled accepted id _ w (ba_place request)) as Hp.
  destruct (ap_place request w) as [r w1]. destruct Hp as [Ho H1].
  destruct r as [ack|e]; [simpl; naive_solver|].
  destruct ((code e ==s "transport") || is_duplicate_reject e); [|simpl; naive_solver].
  pose proof (binance_lookup_tells (mkBinanceOrderQuery id (bp_symbol request)) w1) as Hl.
  destruct (binance_lookup _ _ _ w1) as [l w2]. destruct Hl as [Hk Ht].
  assert (Ho2 : keeps_others accepted id w w2) by (by rewrite <- Hk).
  assert (H2 : accepted id w = 0%nat -> (accepted id w2 <= 1)%nat) by (rewrite (Hk id); naive_solver).
  unfold tells, binance_sight in Ht. simpl in Ht.
  destruct (bl_outcome l); [|destruct (is_duplicate_reject e)..]; simpl;
    (split; [done|]); intros H0; specialize (H2 H0); (split_and!; [lia|..]); intros; try done; lia.
Qed.

End Account.

Local Notation lifted accepted := (first_account (X:=SymbolTranslator) accepted).

#[global] Instance binance_quiet_requests {W : Type} accepted (c : BinanceTradeApi W)
    (m : BinanceMarketApi W) (config : BinanceConfig) (clock : RetryClock W) :
  BinanceQuiet accepted c m -> QuietClock accepted clock -> 1 <= max_attempts (bn_retry config) ->
  QuietRequests (lifted accepted) (binance_exchange_connector c m config clock).
Proof.
  intros Ha Hc Hattempts. split.
  - intros request [w t] id. cbn [cancel_order binance_exchange_connector]. unfold binance_connector_cancel.
    destruct (to_wire (cx_instrument_id request) t) as [symbol t'].
    pose proof (retry_while_safe_quiet accepted _ clock Hattempts _
      (binance_cancel_attempt_quiet accepted (m:=m) (bn_retry config) clock Hattempts
         (mkBinanceCancelRequest (cx_client_order_id request) symbol)) w id) as H.
    unfold binance_resilient_cancel. by destruct (retry_while_safe _ _ _ w) as [r w'].
  - intros request [w t] id. cbn [amend_order binance_exchange_connector]. unfold binance_connector_amend.
    destruct (am_new_price request), (am_new_quantity request), (am_side request), (am_type request); try done.
    destruct (to_wire (am_instrument_id request) t) as [symbol t'].
    match goal with |- context [binance_resilient_amend _ _ ?wire w] =>
      pose proof (retry_while_safe_quiet accepted _ clock Hattempts _
        (binance_amend_attempt_quiet accepted (m:=m) (bn_retry config) clock Hattempts wire) w id) as H end.
    unfold binance_resilient_amend. by destruct (retry_while_safe _ _ _ w) as [r w'].
  - intros query [w t]. cbn [get_order binance_exchange_connector]. unfold binance_connector_get_order.
    destruct (to_wire (oq_instrument_id query) t) as [symbol t'].
    change (keeps (first_account accepted) (w, t)) with (keeps (first_account accepted) (w, t')).
    apply (retries_quiet (first_account accepted) _ _ Hattempts).
    intros [w1 t1] id. unfold get_order_attempt.
    pose proof (bq_get (mkBinanceOrderQuery (oq_client_order_id query) symbol) w1 id) as H.
    destruct (ap_get_order _ w1) as [a w2]. by destruct (conclude_snapshot a t1).
  - intros [w t] id. cbn [get_open_orders binance_exchange_connector]. unfold binance_connector_open_orders.
    pose proof (retries_quiet accepted _ clock Hattempts _ transport_error bq_open w id) as H.
    destruct (with_retries _ _ _ _ w) as [[infos|e] w']; [|done]. by destruct (representable infos t).
  - intros symbol [w t] id. cbn [get_price binance_exchange_connector]. unfold binance_connector_price.
    destruct (to_wire symbol t) as [wire t'].
    pose proof (retries_quiet accepted _ clock Hattempts _ transport_error (bq_price wire) w id) as H.
    by destruct (with_retries _ _ _ _ w) as [r w'].
Qed.

#[global] Instance binance_places_once {W : Type} accepted (c : BinanceTradeApi W) (m : BinanceMarketApi W)
    (config : BinanceConfig) (clock : RetryClock W) :
  BinanceAccount accepted c m -> QuietClock accepted clock -> 1 <= max_attempts (bn_retry config) ->
  PlacesOnce (lifted accepted) (binance_exchange_connector c m config clock).
Proof.
  intros Ha Hc Hattempts. split; [|apply binance_quiet_requests; [apply _|done..]].
  intros request [w t]. cbn [place_order binance_exchange_connector]. unfold binance_connector_place.
  destruct (to_wire (rq_instrument_id request) t) as [symbol t'].
  pose proof (retry_while_safe_once accepted _ clock Hattempts _ _
    (binance_place_attempt_once accepted (m:=m) (bn_retry config) clock Hattempts
       (place_wire request symbol)) w) as H.
  unfold binance_resilient_place. destruct (retry_while_safe _ _ _ w) as [r w']. destruct H as [Ho H].
  split; [exact Ho|]. intros H0. destruct (H H0) as [Hle Hok]. split; [done|].
  destruct r as [ack|e]; [|done]. intros p _. by apply (Hok ack).
Qed.

#[global] Instance binance_places_elsewhere {W : Type} accepted (c : BinanceTradeApi W)
    (m : BinanceMarketApi W) (config : BinanceConfig) (clock : RetryClock W) :
  BinanceQuiet accepted c m -> (forall request, quiet accepted (ap_place request)) ->
  QuietClock accepted clock -> 1 <= max_attempts (bn_retry config) ->
  PlacesElsewhere (lifted accepted) (binance_exchange_connector c m config clock).
Proof.
  intros Ha Hp Hc Hattempts. split; [|by apply binance_quiet_requests].
  intros request [w t] id. cbn [place_order binance_exchange_connector]. unfold binance_connector_place.
  destruct (to_wire (rq_instrument_id request) t) as [symbol t'].
  pose proof (retry_while_safe_quiet accepted _ clock Hattempts _
    (binance_place_attempt_quiet accepted (m:=m) (bn_retry config) clock Hattempts
       (place_wire request symbol) (Hp _)) w id) as H.
  unfold binance_resilient_place. by destruct (retry_while_safe _ _ _ w) as [r w'].
Qed.
