(* ===== verification/BinanceCalls.v ===== *)
(** * Calls of the Binance WebSocket API: src/exchange/binance/binance_ws_client.cpp

    The table of pending requests, one definition per critical section of
    [call] and of the session thread; what a response frame means; signing and
    the recovery from clock skew.  A member of nlohmann::json that throws is a
    [None] here: the exception leaves the function.

    A request id is drawn once, so that the slot of a request is named by its
    id; 2^63 requests would be needed to draw one twice. *)

From S2P Require Import Prelude Json DecimalText Retry BinanceWire BinanceConfig BinanceResilient.

(** ** nlohmann's [value(name, default)] *)

Definition value_string (a_node : json) (a_name a_default : string) : option string :=
  match jfind a_node a_name with
  | None => Some a_default
  | Some (JString s) => Some s
  | Some _ => None
  end.

(** [get] of an arithmetic type other than the library's own integers: numbers
    and booleans convert, the rest throws. *)
Definition arithmetic (a_node : json) : option Z :=
  match a_node with
  | JInt z | JUint z => Some z
  | JFloat f => Some (f64_trunc f)
  | JBool b => Some (if b then 1 else 0)
  | _ => None
  end.

Definition value_ll (a_node : json) (a_name : string) (a_default : Z) : option Z :=
  match jfind a_node a_name with
  | None => Some a_default
  | Some v => to_ll <$> arithmetic v
  end.

Definition value_int (a_node : json) (a_name : string) (a_default : Z) : option Z :=
  match jfind a_node a_name with
  | None => Some a_default
  | Some v => to_int <$> arithmetic v
  end.

Definition value_object (a_node : json) (a_name : string) : json :=
  default (jobj []) (jfind a_node a_name).

(** ** The table of pending requests *)

Record Pending := mkPendingSlot {
  pd_response : option json;
  pd_failed : bool }.

Definition new_slot : Pending := mkPendingSlot None false.

Record WsClient := mkWsClient {
  ws_next_id : Z;
  ws_pending : gset Z;
  ws_slots : gmap Z Pending;
  ws_offset_ms : Z }.

Definition initial_client : WsClient := mkWsClient 1 ∅ ∅ 0.

(** [next_id_++] under the lock. *)
Definition draw_id (st : WsClient) : Z * WsClient :=
  (ws_next_id st, mkWsClient (ws_next_id st + 1) (ws_pending st) (ws_slots st) (ws_offset_ms st)).

(** [pending_[id] = make_shared<Pending>()]. *)
Definition register_call (id : Z) (st : WsClient) : WsClient :=
  mkWsClient (ws_next_id st) ({[id]} ∪ ws_pending st) (<[id := new_slot]> (ws_slots st))
    (ws_offset_ms st).

(** [pending_.erase(id)]. *)
Definition erase_call (id : Z) (st : WsClient) : WsClient :=
  mkWsClient (ws_next_id st) (ws_pending st ∖ {[id]}) (ws_slots st) (ws_offset_ms st).

Definition with_slot (id : Z) (f : Pending -> Pending) (st : WsClient) : WsClient :=
  mkWsClient (ws_next_id st) (ws_pending st) (alter f id (ws_slots st)) (ws_offset_ms st).

(** [pending->response = parsed] and [pending->failed = true]. *)
Definition answer_slot (response : json) (slot : Pending) : Pending :=
  mkPendingSlot (Some response) (pd_failed slot).
Definition fail_slot (slot : Pending) : Pending := mkPendingSlot (pd_response slot) true.

Definition slot_of (id : Z) (st : WsClient) : Pending := default new_slot (ws_slots st !! id).

(** The locked half of [fail_all_pending]: the waiters and the emptied table. *)
Definition take_all_pending (st : WsClient) : list Z * WsClient :=
  (elements (ws_pending st), mkWsClient (ws_next_id st) ∅ (ws_slots st) (ws_offset_ms st)).

Definition fail_all_pending (st : WsClient) : WsClient :=
  let '(waiters, st) := take_all_pending st in
  fold_left (fun st id => with_slot id fail_slot st) waiters st.

(** ** What a response means *)

Definition integer_of (j : json) : option Z :=
  match j with JInt z | JUint z => Some (to_ll z) | _ => None end.

Section Response.
Context (dump : json -> string).

Definition transport (text : string) : Error := mkError "transport" text.

(** The rejection of a response that is neither 200 nor 5xx. *)
Definition venue_rejection (response : json) : option Error :=
  let fallback := "venue rejected the request" in
  let fields :=
    match jfind response "error" with
    | Some (JObject f) =>
        match value_int (JObject f) "code" 0, value_string (JObject f) "msg" fallback with
        | Some code, Some message => Some (std_to_string code, message)
        | _, _ => None
        end
    | _ => Some ("0", fallback)
    end in
  match fields with
  | None => None
  | Some (code, message) =>
      Some (if (code ==s "-1006") || (code ==s "-1007")
            then transport ("venue error " +:+ code +:+ " (" +:+ message
                            +:+ ", outcome unknown, resolve before retry)")
            else mkError ("venue:" +:+ code) message)
  end.

Definition response_result (response : json) : option (Result json) :=
  match jfind response "status" with
  | Some ((JInt z | JUint z)) =>
      let http_status := to_int z in
      if http_status =? 200 then
        Some (match jfind response "result" with
              | Some result => Ok result
              | None => Err (protocol_error ("successful response without result: " +:+ dump response))
              end)
      else if 500 <=? http_status then
        Some (Err (transport ("venue " +:+ std_to_string http_status
                              +:+ " (outcome unknown, resolve before retry)")))
      else Err <$> venue_rejection response
  | _ => Some (Err (protocol_error ("response without integer status: " +:+ dump response)))
  end.

Definition not_sent (a_method : string) : Error :=
  transport ("cannot send " +:+ a_method +:+ ": no connection").
Definition timed_out_error (a_method : string) : Error :=
  transport (a_method +:+ " response timed out (outcome unknown, resolve before retry)").
Definition lost_error (a_method : string) : Error :=
  transport (a_method +:+ " failed: connection lost (outcome unknown, resolve before retry)").

(** The end of [call]: what the caller reads from its slot. *)
Definition call_result (a_method : string) (timed_out : bool) (slot : Pending)
    : option (Result json) :=
  if timed_out then Some (Err (timed_out_error a_method))
  else if pd_failed slot then Some (Err (lost_error a_method))
  else match pd_response slot with
       | Some response => response_result response
       | None => None
       end.
End Response.

(** [wait_until]: it returns without a timeout once the slot is filled. *)
Definition slot_filled (slot : Pending) : bool :=
  negb (is_none (pd_response slot)) || pd_failed slot.

Definition call_frame (id : Z) (a_method : string) (a_params : json) : json :=
  jobj [("id", JInt id); ("method", JString a_method); ("params", a_params)].

(** ** Signing and clock skew *)

Definition is_clock_skew_reject (a_result : Result json) : bool :=
  match a_result with Err e => code e ==s "venue:-1021" | Ok _ => false end.

Definition server_time_of (a_result : json) : option Z :=
  match jfind a_result "serverTime" with Some v => integer_of v | None => None end.

Section Signed.
Context (hmac_sha256 : string -> string -> option string) (dump : json -> string)
  {W : Type} (call : RawCall W) (timestamp : W -> Z * W) (config : BinanceConfig).

(** The environment and the learned offset [server_time_offset_ms_].  (The
    sums are exact: the source adds 64-bit milliseconds.) *)
Definition Clocked : Type := W * Z.

Definition sign_with (a_params : json) (stamp : Z) : json :=
  let params := jset a_params "apiKey" (JString (bn_api_key config)) in
  let params := jset params "recvWindow" (JInt (bn_recv_window_ms config)) in
  let params := jset params "timestamp" (JInt stamp) in
  let params := jerase params "signature" in
  jset params "signature" (JString (sign_params hmac_sha256 params (bn_secret_key config))).

Definition apply_signature (a_params : json) (s : Clocked) : json * Clocked :=
  let '(w, offset) := s in
  let '(now, w) := timestamp w in
  (sign_with a_params (now + offset), (w, offset)).

Definition call_with (a_method : string) (a_params : json) (s : Clocked) : Result json * Clocked :=
  let '(w, offset) := s in
  let '(result, w) := call a_method a_params w in (result, (w, offset)).

Definition sync_server_time (s : Clocked) : Result Z * Clocked :=
  let '(result, (w, offset)) := call_with "time" (jobj []) s in
  match result with
  | Err error => (Err error, (w, offset))
  | Ok value =>
      match server_time_of value with
      | None => (Err (protocol_error ("time response without integer serverTime: " +:+ dump value)),
                 (w, offset))
      | Some server_time =>
          let '(now, w) := timestamp w in
          (Ok (server_time - now), (w, server_time - now))
      end
  end.

Definition skew_unrecoverable : Error :=
  protocol_error "clock skew unrecoverable: -1021 persists after time sync and one re-sign".

Definition call_signed (a_method : string) (a_params : json) (s : Clocked) : Result json * Clocked :=
  let '(signed_params, s) := apply_signature a_params s in
  let '(result, s) := call_with a_method signed_params s in
  if negb (is_clock_skew_reject result) then (result, s)
  else
    let '(synced, s) := sync_server_time s in
    match synced with
    | Err _ => (result, s)
    | Ok _ =>
        let '(signed_params, s) := apply_signature signed_params s in
        let '(result, s) := call_with a_method signed_params s in
        if is_clock_skew_reject result then (Err skew_unrecoverable, s) else (result, s)
    end.
End Signed.

(** ** Unknown outcomes *)

Lemma std_to_string_inj a b : std_to_string a = std_to_string b -> a = b.
Proof.
  unfold std_to_string.
  destruct (Z.ltb_spec a 0), (Z.ltb_spec b 0); intros H'.
  - injection H' as H'. pose proof (show_nonneg_spec (- a) ltac:(lia)) as (_ & Ha & _).
    pose proof (show_nonneg_spec (- b) ltac:(lia)) as (_ & Hb & _). rewrite H' in Ha. lia.
  - exfalso. pose proof (show_nonneg_spec b ltac:(lia)) as (Hb & _). by rewrite <- H' in Hb.
  - exfalso. pose proof (show_nonneg_spec a ltac:(lia)) as (Ha & _). by rewrite H' in Ha.
  - pose proof (show_nonneg_spec a ltac:(lia)) as (_ & Ha & _).
    pose proof (show_nonneg_spec b ltac:(lia)) as (_ & Hb & _). rewrite H' in Ha. lia.
Qed.

(** The status of a response as [get<int>] reads it. *)
Definition http_status_of (response : json) : option Z :=
  match jfind response "status" with Some (JInt z | JUint z) => Some (to_int z) | _ => None end.

(** The venue's error code, 0 when the response names none. *)
Definition venue_code (response : json) : Z :=
  match jfind response "error" with
  | Some (JObject f) => default 0 (value_int (JObject f) "code" 0)
  | _ => 0
  end.

(** The answers after which the venue may or may not have executed. *)
Definition outcome_unknown (response : json) : Prop :=
  exists status, http_status_of response = Some status /\ status <> 200
    /\ (500 <= status \/ venue_code response = -1006 \/ venue_code response = -1007).

#[export] Instance outcome_unknown_dec response : Decision (outcome_unknown response).
Proof.
  destruct (http_status_of response) as [status|] eqn:Hs.
  - destruct (decide (status <> 200 /\ (500 <= status \/ venue_code response = -1006
                                       \/ venue_code response = -1007))) as [Hu|Hu].
    + left. exists status. done.
    + right. intros (status' & Hs' & Hu'). unfold http_status_of in *. naive_solver.
  - right. intros (status & Hs' & _). congruence.
Defined.

Definition is_transport {T : Type} (r : Result T) : Prop :=
  exists e, r = Err e /\ code e = "transport".

Lemma venue_rejection_code response e :
  venue_rejection response = Some e ->
  code e = "transport" <-> venue_code response = -1006 \/ venue_code response = -1007.
Proof.
  assert (Hcode : forall c m, let e := if (std_to_string c ==s "-1006") || (std_to_string c ==s "-1007")
      then transport m else mkError ("venue:" +:+ std_to_string c) m in
      code e = "transport" <-> c = -1006 \/ c = -1007).
  { intros c m. simpl.
    destruct (streqb_spec (std_to_string c) "-1006") as [H|H]; simpl.
    { apply (std_to_string_inj c (-1006)) in H. naive_solver. }
    destruct (streqb_spec (std_to_string c) "-1007") as [H'|H']; simpl.
    { apply (std_to_string_inj c (-1007)) in H'. naive_solver. }
    split; [done|]. intros [->| ->]; done. }
  unfold venue_rejection, venue_code.
  destruct (jfind response "error") as [[]|]; intros H; simplify_eq; try (split; naive_solver).
  destruct (value_int (JObject fields) "code" 0) as [c|]; [|done].
  destruct (value_string _ _ _) as [m|]; [|done]. simplify_eq. simpl. specialize (Hcode c m).
  simpl in Hcode. rewrite <- Hcode. by destruct (_ || _).
Qed.

(** A response is passed on as transport exactly when it leaves the outcome open. *)
Lemma response_transport dump response r :
  response_result dump response = Some r -> is_transport r <-> outcome_unknown response.
Proof.
  intros H. unfold response_result in H. unfold is_transport, outcome_unknown, http_status_of.
  destruct (jfind response "status") as [[]|]; simplify_eq; try (split; naive_solver).
  all: destruct (Z.eqb_spec (to_int z) 200) as [Hs|Hs];
    [destruct (jfind response "result"); simplify_eq; split; naive_solver|].
  all: destruct (Z.leb_spec 500 (to_int z)); [simplify_eq; split; naive_solver|].
  all: apply fmap_Some in H as (e & He & ->); apply venue_rejection_code in He.
  all: split; [intros (? & [= <-] & Ht); naive_solver|
               intros (? & [= <-] & _ & Hc); exists e; split; [done|apply He; naive_solver lia]].
Qed.

(** ** Signed requests *)

Section SignedFacts.
Context (hmac : string -> string -> option string) (dump : json -> string).











Section Trace.
Context {W : Type} (call : RawCall W) (timestamp : W -> Z * W) (config : BinanceConfig).

(** Every request written down, with its answer. *)
Definition RawLog : Type := list (string * json * Result json).

Definition traced_call : RawCall (W * RawLog) := fun method params s =>
  let '(w, log) := s in
  let '(result, w) := call method params w in (result, (w, log ++ [(method, params, result)])).

Definition traced_timestamp (s : W * RawLog) : Z * (W * RawLog) :=
  let '(w, log) := s in let '(now, w) := timestamp w in (now, (w, log)).






End Trace.
End SignedFacts.

(** A venue whose clock is 5 s ahead: the world counts its answers. *)
Definition skewed_venue : RawCall Z := fun method _ w =>
  (if method ==s "time" then Ok (jobj [("serverTime", JInt 1700000005000)])
   else if w =? 0 then Err (mkError "venue:-1021" "Timestamp for this request is outside of the recvWindow.")
   else Ok (jobj [("orderId", JInt 77)]), w + 1).

Definition sample_hmac : string -> string -> option string :=
  fun secret payload => Some (str_take 32 (secret +:+ payload +:+ "................................")).


(** The second time stamp is the venue's. *)
Example resigned_stamps :
  let '(r, ((_, log), offset)) :=
    call_signed sample_hmac (fun _ => "") (traced_call skewed_venue)
      (traced_timestamp (fun w => (1700000000000, w))) default_binance_config "order.place"
      (jobj [("symbol", JString "BTCUSDT")]) ((0, []), 0) in
  r = Ok (jobj [("orderId", JInt 77)]) /\ offset = 5000
  /\ map (fun c => (c.1.1, jfind c.1.2 "timestamp")) log
     = [("order.place", Some (JInt 1700000000000)); ("time", None);
        ("order.place", Some (JInt 1700000005000))].
Proof. vm_compute. done. Qed.
