(* ===== verification/BinanceFeed.v ===== *)
(** * Binance session: src/exchange/binance/binance_ws_client.cpp

    User events, the dispatch of a frame, and one session from the connection
    to its end, as a function of what the socket answers.  Calls that other
    threads make meanwhile are turns of the session's input: they draw ids and
    register or forget requests in the table.  An exception of the JSON library
    ends the process (the session thread has no handler): [None]. *)

From S2P Require Import Prelude Types Decimal Json Retry FeedSupport BinanceWire BinanceConfig.
From S2P Require Import BinanceResilient BinanceCalls.

Inductive FeedEventType := Connecting | Connected | Disconnected | Stopped | ProtocolWarning.

(** What the session thread does: events for the notifier thread, in the order
    of its queue, reports, and frames it sends. *)
Inductive FeedAction :=
  | Emit (a_type : FeedEventType) (a_detail : string)
  | Report (a_report : ExecutionReport)
  | Send (a_text : string).

Definition quoted (text : string) : string := dquote +:+ text +:+ dquote.

(** ** User events *)

Definition average_price (a_quote_qty a_filled : string) : string :=
  if str_empty a_quote_qty || str_empty a_filled then ""
  else match parse_decimal a_quote_qty, parse_decimal a_filled with
  | Ok quote, Ok filled =>
      if is_zero filled then ""
      else match div quote filled kMaxDecimalScale with
           | Ok price => decimal_to_string price
           | Err _ => ""
           end
  | _, _ => ""
  end.

Notation "'try!' x := e 'in' k" :=
  (match e with Some x => k | None => None end)
  (at level 200, x pattern, e at level 150, k at level 200, right associativity)
  : gateway_scope.

Definition warning (text : string) : option (list FeedAction) := Some [Emit ProtocolWarning text].

(** The report of a known state and side; [i], [z] and [Z] are read last. *)
Definition execution_report (a_event : json) (client_order_id : string) (state : OrderState)
    (side : Side) : option (list FeedAction) :=
  try! order_id := value_ll a_event "i" 0 in
  try! filled := value_string a_event "z" "" in
  try! quote := value_string a_event "Z" "" in
  Some [Report (mkExecutionReport client_order_id (std_to_string order_id) state side filled
                  (average_price quote filled))].

Definition handle_user_event (a_event : json) : option (list FeedAction) :=
  if negb (is_object a_event) then warning "user event is not an object"
  else
    try! type := value_string a_event "e" "" in
    if type <>s "executionReport" then Some []
    else
      try! original := value_string a_event "C" "" in
      try! client_order_id := (if str_empty original then value_string a_event "c" ""
                               else Some original) in
      if str_empty client_order_id then warning "executionReport without clientOrderId"
      else
        try! status := value_string a_event "X" "" in
        match map_binance_state status with
        | None => warning ("unknown Binance order status " +:+ quoted status +:+ "; report skipped")
        | Some state =>
            try! side := value_string a_event "S" "" in
            match map_binance_side side with
            | None => warning ("unknown Binance order side " +:+ quoted side +:+ "; report skipped")
            | Some side => execution_report a_event client_order_id state side
            end
        end.

(** ** Frames *)

(** The event a frame carries, and the request it answers. *)
Definition frame_event (parsed : json) : option json :=
  match jfind parsed "event" with Some (JObject f) => Some (JObject f) | _ => None end.

Definition frame_id (parsed : json) : option Z :=
  match jfind parsed "id" with Some v => integer_of v | None => None end.

(** The locked lookup of a response's waiter. *)
Definition take_waiter (id : Z) (st : WsClient) : bool * WsClient :=
  if decide (id ∈ ws_pending st) then (true, erase_call id st) else (false, st).

(** What a dispatched frame leads to: whether a request was answered, the
    reason to end the session (empty: none), the table, the actions. *)
Record Dispatch := mkDispatch {
  ds_served : bool;
  ds_terminate : string;
  ds_client : WsClient;
  ds_actions : list FeedAction }.

Section Feed.
Context (parse : string -> option json) (dump : json -> string)
  (hmac_sha256 : string -> string -> option string).

Definition dispatch_event (event : json) (st : WsClient) : option Dispatch :=
  try! type := value_string event "e" "" in
  if type ==s "serverShutdown" then Some (mkDispatch false "venue announced serverShutdown" st [])
  else if type ==s "eventStreamTerminated"
  then Some (mkDispatch false "venue terminated the user data stream" st [])
  else
    try! actions := handle_user_event event in
    Some (mkDispatch false "" st actions).

Definition dispatch_message (a_message : string) (st : WsClient) : option Dispatch :=
  match parse a_message with
  | Some (JObject fields) =>
      let parsed := JObject fields in
      match frame_event parsed, frame_id parsed with
      | Some event, _ => dispatch_event event st
      | None, Some id =>
          let '(waiting, st) := take_waiter id st in
          Some (if waiting then mkDispatch true "" (with_slot id (answer_slot parsed) st) []
                else mkDispatch false "" st [])
      | None, None =>
          Some (mkDispatch false "" st
                  [Emit ProtocolWarning ("unrecognized venue frame skipped: " +:+ a_message)])
      end
  | _ => Some (mkDispatch false "" st [Emit ProtocolWarning "non-JSON text frame skipped"])
  end.

(** ** One session *)

Context (config : BinanceConfig).

Definition session_url : string :=
  (if bn_use_tls config then "wss://" else "ws://") +:+ bn_host config +:+ ":"
  +:+ std_to_string (bn_port config) +:+ bn_path config.

(** Other threads between two actions of the session thread. *)
Inductive TableOp := OtherCall | OtherDone (id : Z) | OtherSync (offset : Z).

Definition table_op (op : TableOp) (st : WsClient) : WsClient :=
  match op with
  | OtherCall => let '(id, st) := draw_id st in register_call id st
  | OtherDone id => erase_call id st
  | OtherSync offset => mkWsClient (ws_next_id st) (ws_pending st) (ws_slots st) offset
  end.

(** A turn of the read loop. *)
Inductive Turn :=
  | TurnText (message : string)
  | TurnEnd (stop_requested : bool)
  | TurnStop
  | TurnOther (op : TableOp).

(** The variables of the read loop. *)
Record LoopState := mkLoop {
  ls_client : WsClient;
  ls_subscribed : bool;
  ls_served : bool }.

(** After a dispatched frame: the outcome of the subscription, or liveness. *)
Inductive AfterFrame := Proceed (ls : LoopState) (actions : list FeedAction) | Leave (reason : string).

Definition after_frame (subscribe_id : Z) (ls : LoopState) (d : Dispatch) : option AfterFrame :=
  let st := ds_client d in
  if ls_subscribed ls then
    Some (Proceed (mkLoop st true (ls_served ls || ds_served d)) [])
  else
    let slot := slot_of subscribe_id st in
    match pd_response slot with
    | Some response =>
        try! status := value_int response "status" 0 in
        if status =? 200 then
          match value_object response "result" with
          | JObject result =>
              try! subscription := value_ll (JObject result) "subscriptionId" 0 in
              Some (Proceed (mkLoop st true (ls_served ls))
                      [Emit Connected ("user data stream subscribed (subscriptionId "
                                       +:+ std_to_string subscription +:+ ")")])
          | _ => None
          end
        else Some (Leave ("user data stream subscription rejected: " +:+ dump response))
    | None =>
        Some (if pd_failed slot
              then Leave "connection lost during user data stream subscription"
              else Proceed (mkLoop st false (ls_served ls)) [])
    end.

(** The read loop over the turns: its actions, and its end (reason and loop
    state); [LoopRuns]: these turns do not end it, [LoopThrows]: an exception. *)
Inductive LoopEnd := LoopEnds (reason : string) (ls : LoopState) | LoopRuns | LoopThrows.

Fixpoint read_loop (subscribe_id : Z) (turns : list Turn) (ls : LoopState)
    : list FeedAction * LoopEnd :=
  match turns with
  | [] => ([], LoopRuns)
  | TurnStop :: _ => ([], LoopEnds "" ls)
  | TurnEnd stop_requested :: _ =>
      ([], LoopEnds (if stop_requested then "" else "connection lost") ls)
  | TurnOther op :: rest =>
      read_loop subscribe_id rest
        (mkLoop (table_op op (ls_client ls)) (ls_subscribed ls) (ls_served ls))
  | TurnText message :: rest =>
      match dispatch_message message (ls_client ls) with
      | None => ([], LoopThrows)
      | Some d =>
          if negb (str_empty (ds_terminate d))
          then (ds_actions d, LoopEnds (ds_terminate d)
                  (mkLoop (ds_client d) (ls_subscribed ls) (ls_served ls)))
          else
            match after_frame subscribe_id ls d with
            | None => (ds_actions d, LoopThrows)
            | Some (Leave reason) =>
                (ds_actions d, LoopEnds reason
                   (mkLoop (ds_client d) (ls_subscribed ls) (ls_served ls)))
            | Some (Proceed ls actions) =>
                let '(more, result) := read_loop subscribe_id rest ls in
                (ds_actions d ++ actions ++ more, result)
            end
      end
  end.

(** The reply to the inline time request, read before the read loop runs. *)
Definition inline_offset (id : Z) (reply : string) (now : Z) : option Z :=
  match parse reply with
  | Some parsed =>
      match frame_id parsed, jfind parsed "result" with
      | Some response_id, Some (JObject result) =>
          if negb (response_id =? id) then None
          else match server_time_of (JObject result) with
               | Some server_time => Some (server_time - now)
               | None => None
               end
      | _, _ => None
      end
  | None => None
  end.

(** What the socket and the clock answer during a session. *)
Record SessionInput := mkInput {
  in_connect_error : option Z;
  in_time_sent : bool;
  in_time_reply : option string;
  in_time_now : Z;
  in_subscribe_now : Z;
  in_before_subscribe : list TableOp;
  in_subscribe_sent : bool;
  in_turns : list Turn;
  in_uptime_ns : Z }.

Definition inline_time_sync (i : SessionInput) (st : WsClient) : list FeedAction * WsClient :=
  let '(id, st) := draw_id st in
  let frame := Send (dump (call_frame id "time" (jobj []))) in
  if negb (in_time_sent i) then ([], st)
  else match in_time_reply i with
       | None => ([frame], st)
       | Some reply =>
           match inline_offset id reply (in_time_now i) with
           | None => ([frame], st)
           | Some offset =>
               ([frame], mkWsClient (ws_next_id st) (ws_pending st) (ws_slots st) offset)
           end
       end.

Definition subscribe_method : string := "userDataStream.subscribe.signature".
Definition healthy_ns : Z := 30 * 1000000000.

Inductive SessionEnd :=
  | SessionEnds (outcome : FeedSessionOutcome) (st : WsClient)
  | SessionRuns
  | SessionThrows.

Definition run_session (i : SessionInput) (st : WsClient) : list FeedAction * SessionEnd :=
  let connecting := Emit Connecting session_url in
  let closed outcome st := SessionEnds outcome (fail_all_pending st) in
  match in_connect_error i with
  | Some e =>
      ([connecting], closed (mkOutcome ("connect failed to " +:+ session_url +:+ ": error "
                                        +:+ std_to_string e) false) st)
  | None =>
      let '(sync, st) := inline_time_sync i st in
      let st := fold_left (fun st op => table_op op st) (in_before_subscribe i) st in
      let params := sign_with hmac_sha256 config (jobj []) (in_subscribe_now i + ws_offset_ms st) in
      let '(subscribe_id, st) := draw_id st in
      let st := register_call subscribe_id st in
      if negb (in_subscribe_sent i) then
        (connecting :: sync,
         closed (mkOutcome "failed to send user data stream subscription" false)
           (erase_call subscribe_id st))
      else
        let done := connecting :: sync
                    ++ [Send (dump (call_frame subscribe_id subscribe_method params))] in
        let '(actions, result) := read_loop subscribe_id (in_turns i) (mkLoop st false false) in
        (done ++ actions,
         match result with
         | LoopRuns => SessionRuns
         | LoopThrows => SessionThrows
         | LoopEnds reason ls =>
             let healthy := ls_subscribed ls && (ls_served ls || (healthy_ns <=? in_uptime_ns i)) in
             closed (mkOutcome reason healthy) (erase_call subscribe_id (ls_client ls))
         end)
  end.
End Feed.

(** [BinanceConnector::start]: what an event tells the core about connectivity. *)
Definition connectivity_of (a_type : FeedEventType) : option bool :=
  match a_type with
  | Connected => Some true
  | Disconnected | Stopped => Some false
  | Connecting | ProtocolWarning => None
  end.

(** ** Where reports come from *)

Section FeedFacts.
Context (parse : string -> option json) (dump : json -> string)
  (hmac : string -> string -> option string) (config : BinanceConfig).

(** The report an executionReport event calls for: keyed by the original
    client id where the venue names one. *)
Definition execution_event (event : json) (r : ExecutionReport) : Prop :=
  value_string event "e" "" = Some "executionReport"
  /\ er_client_order_id r <> ""
  /\ (exists original, value_string event "C" "" = Some original
      /\ if str_empty original then value_string event "c" "" = Some (er_client_order_id r)
         else er_client_order_id r = original)
  /\ (exists status, value_string event "X" "" = Some status /\ map_binance_state status = Some (er_state r))
  /\ (exists side, value_string event "S" "" = Some side /\ map_binance_side side = Some (er_side r))
  /\ (exists i, value_ll event "i" 0 = Some i /\ er_exchange_order_id r = std_to_string i)
  /\ value_string event "z" "" = Some (er_filled_quantity r)
  /\ exists quote, value_string event "Z" "" = Some quote
      /\ er_average_fill_price r = average_price quote (er_filled_quantity r).

Definition reported (message : string) (r : ExecutionReport) : Prop :=
  exists parsed event, parse message = Some parsed /\ frame_event parsed = Some event
    /\ execution_event event r.

Definition benign (a : FeedAction) : Prop :=
  match a with Emit ProtocolWarning _ | Report _ => True | _ => False end.

(** An option-valued step of the goal's hypothesis. *)
Ltac opt_step H :=
  match type of H with
  | (match ?e with Some _ => _ | None => None end) = Some _ =>
      let E := fresh "E" in destruct e eqn:E; [|discriminate H]
  end.

Lemma handle_user_event_actions event actions :
  handle_user_event event = Some actions ->
  Forall benign actions /\ forall r, In (Report r) actions -> execution_event event r.
Proof.
  unfold handle_user_event, warning, execution_report. intros H.
  assert (Hwarn : forall text, [Emit ProtocolWarning text] = actions ->
    Forall benign actions /\ forall r, In (Report r) actions -> execution_event event r).
  { intros text <-. split; [by repeat constructor|]. by intros r [|[]]. }
  destruct (is_object event); simpl in H; [|injection H as H; by eapply Hwarn].
  opt_step H. destruct (streqb_spec s "executionReport") as [->|]; simpl in H;
    [|injection H as <-; split; [constructor|by intros r []]].
  opt_step H. rename s into original. opt_step H. rename s into id.
  destruct (str_empty id) eqn:Hid; [injection H as H; by eapply Hwarn|].
  opt_step H. destruct (map_binance_state s) as [state|] eqn:Hstate; [|injection H as H; by eapply Hwarn].
  opt_step H. destruct (map_binance_side s0) as [side|] eqn:Hside; [|injection H as H; by eapply Hwarn].
  opt_step H. opt_step H. opt_step H. injection H as <-. split; [by repeat constructor|].
  intros r [[= <-]|[]]. unfold execution_event. simpl. apply str_empty_false in Hid.
  split_and!; try done; try (by eexists).
  exists original. split; [done|]. destruct (str_empty original); [done|by injection E1].
Qed.

Lemma dispatch_actions message st d :
  dispatch_message parse message st = Some d ->
  Forall benign (ds_actions d) /\ forall r, In (Report r) (ds_actions d) -> reported message r.
Proof.
  unfold dispatch_message. intros H.
  assert (Hwarn : forall text, ds_actions d = [Emit ProtocolWarning text] ->
    Forall benign (ds_actions d) /\ forall r, In (Report r) (ds_actions d) -> reported message r).
  { intros text ->. split; [by repeat constructor|]. by intros r [|[]]. }
  assert (Hnone : ds_actions d = [] ->
    Forall benign (ds_actions d) /\ forall r, In (Report r) (ds_actions d) -> reported message r)
    by (intros ->; split; [constructor|by intros r []]).
  destruct (parse message) as [[]|] eqn:Hp; try (injection H as <-; by eapply Hwarn).
  destruct (frame_event (JObject fields)) as [event|] eqn:He.
  - unfold dispatch_event in H. opt_step H.
    destruct (s ==s "serverShutdown"); [injection H as <-; by apply Hnone|].
    destruct (s ==s "eventStreamTerminated"); [injection H as <-; by apply Hnone|].
    opt_step H. injection H as <-. simpl in *.
    destruct (handle_user_event_actions _ _ E0) as [Hb Hr]. split; [done|].
    intros r Hin. exists (JObject fields), event. auto.
  - destruct (frame_id (JObject fields)); [|injection H as <-; by eapply Hwarn].
    destruct (take_waiter z st) as [[] st']; injection H as <-; by apply Hnone.
Qed.

(** The subscription was acknowledged by a frame the session read. *)
Definition acknowledged (turns : list Turn) (subscribe_id : Z) : Prop :=
  exists message response, In (TurnText message) turns /\ parse message = Some response
    /\ frame_event response = None /\ frame_id response = Some subscribe_id
    /\ value_int response "status" 0 = Some 200.

(** The slot of the subscription: empty, or filled by a frame that was read. *)
Definition slot_ok (turns : list Turn) (id : Z) (st : WsClient) : Prop :=
  id < ws_next_id st
  /\ forall response, pd_response (slot_of id st) = Some response ->
     exists message, In (TurnText message) turns /\ parse message = Some response
       /\ frame_event response = None /\ frame_id response = Some id.

Lemma slot_ok_op turns id op st : slot_ok turns id st -> slot_ok turns id (table_op op st).
Proof.
  intros [Hid Hs]. destruct op; [|done|done]. split; [simpl; lia|].
  unfold slot_of, table_op, register_call. simpl. rewrite lookup_insert_ne by lia. exact Hs.
Qed.

Lemma slot_ok_dispatch turns id message st d :
  In (TurnText message) turns -> slot_ok turns id st ->
  dispatch_message parse message st = Some d -> slot_ok turns id (ds_client d).
Proof.
  intros Hin Hok. unfold dispatch_message.
  destruct (parse message) as [[]|] eqn:Hp; try by intros [= <-].
  destruct (frame_event (JObject fields)) as [event|] eqn:He.
  - unfold dispatch_event. intros H. opt_step H.
    destruct (s ==s "serverShutdown"); [by injection H as <-|].
    destruct (s ==s "eventStreamTerminated"); [by injection H as <-|].
    opt_step H. by injection H as <-.
  - destruct (frame_id (JObject fields)) as [answered|] eqn:Hid; [|by intros [= <-]].
    unfold take_waiter. destruct (decide _); intros [= <-]; [|done].
    destruct Hok as [Hlt Hs]. split; [done|]. intros response. unfold slot_of, with_slot. simpl.
    destruct (decide (answered = id)) as [->|Hne].
    + rewrite lookup_alter_eq. unfold slot_of in Hs.
      destruct (ws_slots st !! id); simpl; [|done]. intros [= <-]. by exists message.
    + rewrite lookup_alter_ne by done. apply Hs.
Qed.

(** After a frame: one way to be connected, through the acknowledgement. *)
Lemma after_frame_facts turns id ls d ls' actions :
  slot_ok turns id (ds_client d) -> after_frame dump id ls d = Some (Proceed ls' actions) ->
  ls_client ls' = ds_client d
  /\ (forall r, ~ In (Report r) actions)
  /\ (forall text, In (Emit Connected text) actions -> acknowledged turns id)
  /\ (ls_subscribed ls' = true -> ls_subscribed ls = true \/ exists text, In (Emit Connected text) actions).
Proof.
  intros [_ Hs]. unfold after_frame.
  destruct (ls_subscribed ls) eqn:Hsub;
    [intros [= <- <-]; split_and!; [done|by intros ? []|by intros ? []|by left]|].
  destruct (pd_response (slot_of id (ds_client d))) as [response|] eqn:Hr.
  - intros H. opt_step H. destruct (Z.eqb_spec z 200) as [->|]; [|done].
    destruct (value_object response "result"); try done. opt_step H. injection H as <- <-.
    destruct (Hs response eq_refl) as (message & ?). split_and!; [done|by intros ? [|[]]| |].
    + intros _ _. exists message, response. by destruct_and!.
    + intros _. right. eexists. by left.
  - destruct (pd_failed _); intros H; simplify_eq. split_and!; [done|by intros ? []|by intros ? []|done].
Qed.

(** What a run of the session may have done. *)
Record loop_facts (all : list Turn) (id : Z) (actions : list FeedAction) : Prop := {
  lf_reports : forall r, In (Report r) actions ->
    exists message, In (TurnText message) all /\ reported message r;
  lf_connected : forall text, In (Emit Connected text) actions -> acknowledged all id }.

Lemma loop_facts_nil all id : loop_facts all id [].
Proof. split; by intros ? []. Qed.

Lemma loop_facts_app all id a b : loop_facts all id a -> loop_facts all id b -> loop_facts all id (a ++ b).
Proof. intros [? ?] [? ?]. split; intros ? [|]%in_app_iff; eauto. Qed.

Lemma loop_facts_dispatch all id message st d :
  In (TurnText message) all -> dispatch_message parse message st = Some d ->
  loop_facts all id (ds_actions d).
Proof.
  intros Hin Hd. destruct (dispatch_actions _ _ _ Hd) as [Hb Hr]. split.
  - intros r H. exists message. auto.
  - intros text H. by rewrite Forall_forall in Hb; apply list_elem_of_In, Hb in H.
Qed.

Lemma read_loop_facts all id turns ls :
  (forall message, In (TurnText message) turns -> In (TurnText message) all) ->
  slot_ok all id (ls_client ls) ->
  let '(actions, result) := read_loop parse dump id turns ls in
  loop_facts all id actions
  /\ forall reason ls', result = LoopEnds reason ls' -> ls_subscribed ls' = true ->
     ls_subscribed ls = true \/ exists text, In (Emit Connected text) actions.
Proof.
  revert ls. induction turns as [|turn turns IH]; intros ls Hall Hok; [by split; [apply loop_facts_nil|]|].
  assert (Hall' : forall m, In (TurnText m) turns -> In (TurnText m) all) by (intros; apply Hall; by right).
  destruct turn as [message|stop| |op]; cbn [read_loop].
  - destruct (dispatch_message parse message (ls_client ls)) as [d|] eqn:Hd;
      [|by split; [apply loop_facts_nil|]].
    assert (Hin : In (TurnText message) all) by (apply Hall; by left).
    pose proof (slot_ok_dispatch _ _ _ _ _ Hin Hok Hd) as Hok2.
    pose proof (loop_facts_dispatch all id message _ _ Hin Hd) as Hacts.
    destruct (str_empty (ds_terminate d)); cbn [negb];
      [|split; [done|by intros ? ? [= <- <-] Hs; left]].
    destruct (after_frame dump id ls d) as [[ls2 actions|reason]|] eqn:Ha;
      [|by split; [|intros ? ? [= <- <-]; left]|by split].
    destruct (after_frame_facts all _ _ _ _ _ Hok2 Ha) as (Hc & Hrep & Hcon & Hsub).
    rewrite <- Hc in Hok2. specialize (IH ls2 Hall' Hok2).
    destruct (read_loop parse dump id turns ls2) as [more result]. destruct IH as [Hmore Hend]. split.
    + apply loop_facts_app; [done|]. apply loop_facts_app; [|done].
      split; [intros r Hr; by apply Hrep in Hr|exact Hcon].
    + intros reason ls' Hr Hs. destruct (Hend reason ls' Hr Hs) as [H2|[text Ht]].
      * apply Hsub in H2 as [|[text Ht]]; [by left|]. right. exists text. rewrite !in_app_iff. auto.
      * right. exists text. rewrite !in_app_iff. auto.
  - split; [apply loop_facts_nil|]. intros ? ? [= <- <-]. by left.
  - split; [apply loop_facts_nil|]. intros ? ? [= <- <-]. by left.
  - apply (IH (mkLoop (table_op op (ls_client ls)) (ls_subscribed ls) (ls_served ls)));
      [done|]. by apply slot_ok_op.
Qed.

Lemma inline_time_sync_actions i st action :
  In action (inline_time_sync parse dump i st).1 -> exists text, action = Send text.
Proof.
  unfold inline_time_sync. destruct (draw_id st) as [id st'].
  destruct (in_time_sent i); [|by intros []]. destruct (in_time_reply i) as [reply|]; simpl.
  - destruct (inline_offset _ _ _); simpl; intros [<-|[]]; eauto.
  - intros [<-|[]]; eauto.
Qed.

(** Binance reports come from executionReport events the session read, keyed by the original
    client id where the venue names one; Connected is emitted only after the subscription was
    sent and acknowledged with status 200, and a session counts as healthy only after that. *)
Theorem binance_reports_from_events i st :
  let '(actions, result) := run_session parse dump hmac config i st in
  (forall r, In (Report r) actions ->
     exists message, In (TurnText message) (in_turns i) /\ reported message r)
  /\ (forall text, In (Emit Connected text) actions -> exists id, acknowledged (in_turns i) id
        /\ exists params, In (Send (dump (call_frame id subscribe_method params))) actions)
  /\ (forall outcome st', result = SessionEnds outcome st' -> so_healthy outcome = true ->
        exists text, In (Emit Connected text) actions).
Proof.
  unfold run_session. destruct (in_connect_error i) as [e|].
  { split_and!; [by intros r [|[]]|by intros t [|[]]|by intros ? ? [= <- _]]. }
  pose proof (inline_time_sync_actions i st) as Hsync.
  destruct (inline_time_sync parse dump i st) as [sync st1]. simpl in Hsync.
  set (st2 := fold_left _ _ st1). unfold draw_id. cbv zeta.
  set (id := ws_next_id st2). set (st3 := register_call id _).
  set (params := sign_with _ _ _ _).
  assert (Hpre : forall a, In a (Emit Connecting (session_url config) :: sync) ->
    match a with Report _ | Emit Connected _ => False | _ => True end).
  { intros a [<-|Ha]; [done|]. by apply Hsync in Ha as [text ->]. }
  destruct (in_subscribe_sent i); cbn [negb].
  2: { split_and!; [intros r Hr; by apply Hpre in Hr|intros t Ht; by apply Hpre in Ht|by intros ? ? [= <- _]]. }
  assert (Hok : slot_ok (in_turns i) id st3).
  { split; [simpl; lia|]. unfold slot_of. simpl. by rewrite lookup_insert_eq. }
  pose proof (read_loop_facts (in_turns i) id (in_turns i) (mkLoop st3 false false)
    (fun _ H => H) Hok) as Hloop.
  destruct (read_loop parse dump id (in_turns i) _) as [actions result].
  destruct Hloop as [[Hrep Hcon] Hend].
  set (pre := Emit Connecting (session_url config) :: sync
              ++ [Send (dump (call_frame id subscribe_method params))]).
  assert (Hpre2 : forall a, In a pre ->
    match a with Report _ | Emit Connected _ => False | _ => True end).
  { subst pre. rewrite app_comm_cons. intros a [Ha|[<-|[]]]%in_app_iff; [by apply Hpre|done]. }
  split_and!.
  - intros r [H|H]%in_app_iff; [by apply Hpre2 in H|by apply Hrep].
  - intros t [H|H]%in_app_iff; [by apply Hpre2 in H|]. exists id. split; [by eapply Hcon|].
    exists params. subst pre. rewrite app_comm_cons, !in_app_iff. left. right. by left.
  - intros outcome st' H Hh. destruct result as [reason ls| |]; simplify_eq. simpl in Hh.
    apply andb_prop in Hh as [Hs _]. destruct (Hend reason ls eq_refl Hs) as [|[text Ht]]; [done|].
    exists text. apply in_app_iff. by right.
Qed.
End FeedFacts.

(** ** A session: clock 5 s behind, subscription, one fill of a canceled leg *)

Definition demo_event (status : json) : json :=
  jobj [("subscriptionId", JInt 0);
        ("event", jobj [("e", JString "executionReport"); ("c", JString "venue-generated");
                        ("C", JString "a1"); ("X", status); ("S", JString "BUY"); ("i", JInt 77);
                        ("z", JString "0.30000000"); ("Z", JString "15000.00000000")])].

Definition demo_parse (text : string) : option json :=
  if text ==s "T" then
    Some (jobj [("id", JInt 1); ("status", JInt 200);
                ("result", jobj [("serverTime", JInt 1700000005000)])])
  else if text ==s "S" then
    Some (jobj [("id", JInt 2); ("status", JInt 200); ("result", jobj [("subscriptionId", JInt 0)])])
  else if text ==s "E" then Some (demo_event (JString "CANCELED"))
  else if text ==s "X" then Some (demo_event (JInt 5))
  else None.

Definition demo_input (frames : list string) : SessionInput :=
  mkInput None true (Some "T") 1700000000000 1700000000001 [] true
    (map TurnText frames ++ [TurnOther OtherCall; TurnEnd false]) 40000000000.

Definition demo_run (frames : list string) : list FeedAction * SessionEnd :=
  run_session demo_parse (fun _ => "") sample_hmac default_binance_config (demo_input frames)
    initial_client.

Definition demo_report : ExecutionReport := mkExecutionReport "a1" "77" Canceled Buy "0.30000000" "50000".

Definition demo_url : string := "wss://ws-api.testnet.binance.vision:443/ws-api/v3".

(** The request of another thread, id 3, fails with the session. *)
Example session_reports :
  demo_run ["S"; "E"]
  = ([Emit Connecting demo_url; Send ""; Send "";
      Emit Connected "user data stream subscribed (subscriptionId 0)"; Report demo_report],
     SessionEnds (mkOutcome "connection lost" true)
       (mkWsClient 4 ∅ {[ 2 := mkPendingSlot (demo_parse "S") false;
                          3 := mkPendingSlot None true ]} 5000)).
Proof. vm_compute. reflexivity. Qed.

(** An event field of an unexpected type throws on the session thread, which
    has no handler: the process ends. *)
Example type_confused_event_throws :
  (demo_run ["S"; "X"]).2 = SessionThrows /\ handle_user_event (jobj [("e", JInt 1)]) = None.
Proof. vm_compute. done. Qed.

Lemma binance_reports_from_events_witness :
  let '(actions, result) := demo_run ["S"; "E"] in
  (forall r, In (Report r) actions ->
     exists message, In (TurnText message) (in_turns (demo_input ["S"; "E"])) /\ reported demo_parse message r)
  /\ (forall text, In (Emit Connected text) actions -> exists id,
        acknowledged demo_parse (in_turns (demo_input ["S"; "E"])) id
        /\ exists params, In (Send ((fun _ => "") (call_frame id subscribe_method params))) actions)
  /\ (forall outcome st', result = SessionEnds outcome st' -> so_healthy outcome = true ->
        exists text, In (Emit Connected text) actions).
Proof.
  apply (binance_reports_from_events demo_parse (fun _ => "") sample_hmac default_binance_config
           (demo_input ["S"; "E"]) initial_client).
Defined.
