(* ===== verification/BinanceWait.v ===== *)
(** * The wait of one Binance call: src/exchange/binance/binance_ws_client.cpp

    [call] waits on the condition variable of its slot, with a deadline;
    [dispatch_message] and [fail_all_pending] fill the slot and notify, each in
    one critical section of the slot's mutex.  Here the mutex, the condition
    variable and the clock are explicit, where BinanceCallSystem lets a wait
    end at any moment: a waiter that sleeps is not woken unless it is notified,
    its deadline passes, or the wait wakes spuriously. *)

From S2P Require Import Prelude Json BinanceCalls.

(** Where the waiting thread is: about to evaluate the predicate of
    [wait_until], asleep (has it been notified?), about to evaluate it a last
    time after [cv_status::timeout], or past the wait. *)
Inductive WaitPhase :=
  | Looking
  | Asleep (notified : bool)
  | LastLook
  | Returned (timed_out : bool) (at_ms : Z).

(** [wt_late]: how long the thread has been runnable without running. *)
Record Wait := mkWait {
  wt_slot : Pending;
  wt_phase : WaitPhase;
  wt_now : Z;
  wt_deadline : Z;
  wt_late : Z }.

(** The thread holds the slot's mutex and has computed its deadline. *)
Definition start_wait (slot : Pending) (now timeout : Z) : Wait :=
  mkWait slot Looking now (now + timeout) 0.

Definition to_phase (phase : WaitPhase) (w : Wait) : Wait :=
  mkWait (wt_slot w) phase (wt_now w) (wt_deadline w) 0.

(** Waking up: [wait_until] of the condition variable reports a timeout when
    the deadline has passed, whatever the cause of the wake. *)
Definition wake_up (w : Wait) : Wait :=
  to_phase (if wt_deadline w <=? wt_now w then LastLook else Looking) w.

(** One turn of the waiting thread, when it can run: [while (!pred()) if
    (wait_until(lock, deadline) == timeout) return pred();], and [timed_out]
    read from the slot after it. *)
Definition wait_turn (w : Wait) : option Wait :=
  let filled := slot_filled (wt_slot w) in
  match wt_phase w with
  | Looking => Some (to_phase (if filled then Returned false (wt_now w) else Asleep false) w)
  | Asleep notified =>
      if notified || (wt_deadline w <=? wt_now w) then Some (wake_up w) else None
  | LastLook => Some (to_phase (Returned (negb filled) (wt_now w)) w)
  | Returned _ _ => None
  end.

(** [cv.notify_all()]. *)
Definition notify_slot (phase : WaitPhase) : WaitPhase :=
  match phase with Asleep _ => Asleep true | _ => phase end.

(** The critical section of the session thread: it fills the slot by [f] and
    notifies. *)
Definition fill_and_notify (f : Pending -> Pending) (w : Wait) : Wait :=
  mkWait (f (wt_slot w)) (notify_slot (wt_phase w)) (wt_now w) (wt_deadline w) (wt_late w).

Definition fills (f : Pending -> Pending) : Prop :=
  f = fail_slot \/ exists response, f = answer_slot response.

Definition runnable (w : Wait) : bool := match wait_turn w with Some _ => true | None => false end.

Definition pass_time (d : Z) (w : Wait) : Wait :=
  mkWait (wt_slot w) (wt_phase w) (wt_now w + d) (wt_deadline w)
    (if runnable w then wt_late w + d else 0).

(** The wait of a thread that runs at most [late] after it could; the trace
    holds the times at which its slot was filled.  Time stops at the deadline
    of a sleeping thread, which becomes runnable there. *)
Inductive wait_run (late : Z) (w0 : Wait) : list Z -> Wait -> Prop :=
  | wr_start : wait_run late w0 [] w0
  | wr_turn tr w w' : wait_run late w0 tr w -> wait_turn w = Some w' -> wait_run late w0 tr w'
  | wr_spurious tr w notified :
      wait_run late w0 tr w -> wt_phase w = Asleep notified -> wait_run late w0 tr (wake_up w)
  | wr_fill tr w f :
      wait_run late w0 tr w -> fills f ->
      wait_run late w0 (tr ++ [wt_now w]) (fill_and_notify f w)
  | wr_time tr w d :
      wait_run late w0 tr w -> 0 < d ->
      (runnable w = true -> wt_late w + d <= late) ->
      (forall notified, wt_phase w = Asleep notified -> runnable w = false ->
         wt_now w + d <= wt_deadline w) ->
      wait_run late w0 tr (pass_time d w).

(** ** Bounds *)

Definition returned (w : Wait) : Prop :=
  match wt_phase w with Returned _ _ => True | _ => False end.

Lemma fills_slot f slot : fills f -> slot_filled (f slot) = true.
Proof. intros [->|[r ->]]; unfold slot_filled; simpl; [apply orb_true_r|done]. Qed.

(** How far each phase can be past the deadline, and past a fill. *)
Definition phase_bound (late : Z) (w : Wait) : Prop :=
  match wt_phase w with
  | Looking => wt_now w <= wt_deadline w + wt_late w
  | Asleep _ => wt_now w <= wt_deadline w + late + wt_late w
  | LastLook => wt_now w <= wt_deadline w + 2 * late + wt_late w /\ wt_deadline w <= wt_now w
  | Returned true at_ms => wt_deadline w <= at_ms
  | Returned false _ => True
  end.

Definition fill_bound (late filled_at : Z) (w : Wait) : Prop :=
  match wt_phase w with
  | Looking | LastLook => wt_now w <= filled_at + late + wt_late w
  | Asleep notified => notified = true /\ wt_now w <= filled_at + wt_late w
  | Returned true at_ms => at_ms <= filled_at
  | Returned false _ => True
  end.

(** A slot that was filled before the wait is seen by the first look. *)
Definition prefilled_bound (w0 w : Wait) : Prop :=
  match wt_phase w with
  | Looking => wt_now w <= wt_now w0 + wt_late w
  | Returned false _ => True
  | _ => False
  end.

Record wait_ok (late : Z) (w0 : Wait) (tr : list Z) (w : Wait) : Prop := {
  wo_late : 0 <= wt_late w <= late;
  wo_deadline : wt_deadline w = wt_deadline w0;
  wo_times : Forall (fun t => wt_now w0 <= t <= wt_now w) tr;
  wo_slot : slot_filled (wt_slot w) = true <-> slot_filled (wt_slot w0) = true \/ tr <> [];
  wo_phase : phase_bound late w;
  wo_fills : Forall (fun t => fill_bound late t w) tr;
  wo_prefilled : slot_filled (wt_slot w0) = true -> prefilled_bound w0 w;
  wo_filled : forall at_ms, wt_phase w = Returned false at_ms ->
    slot_filled (wt_slot w0) = true \/ Exists (fun t => t <= at_ms) tr }.

Lemma wait_ok_start late slot now timeout :
  0 <= late -> 0 <= timeout ->
  wait_ok late (start_wait slot now timeout) [] (start_wait slot now timeout).
Proof.
  split; simpl; try done; try constructor; try naive_solver; try lia.
  - unfold phase_bound. simpl. lia.
  - unfold prefilled_bound. simpl. lia.
Qed.

(** A step of the thread itself: time, slot and deadline stay. *)
Lemma wait_ok_phase late w0 tr w phase :
  0 <= late -> wait_ok late w0 tr w ->
  phase_bound late (to_phase phase w) ->
  (forall t, In t tr -> fill_bound late t w -> fill_bound late t (to_phase phase w)) ->
  (prefilled_bound w0 w -> slot_filled (wt_slot w) = true -> prefilled_bound w0 (to_phase phase w)) ->
  (forall at_ms, phase = Returned false at_ms ->
     at_ms = wt_now w /\ slot_filled (wt_slot w) = true) ->
  wait_ok late w0 tr (to_phase phase w).
Proof.
  intros Hl Hok Hp Hf Hpre Hr. split; simpl; try apply Hok; try done.
  - apply Forall_forall. intros t Hin. apply Hf; [by apply list_elem_of_In|].
    by apply (proj1 (Forall_forall _ _) (wo_fills _ _ _ _ Hok)).
  - intros H0. apply Hpre; [by apply (wo_prefilled _ _ _ _ Hok)|].
    apply (wo_slot _ _ _ _ Hok). by left.
  - intros at_ms Heq. destruct (Hr at_ms Heq) as [-> Hs].
    apply (wo_slot _ _ _ _ Hok) in Hs as [Hs|Hs]; [by left|right].
    destruct tr as [|t tr]; [done|]. apply Exists_cons. left.
    pose proof (wo_times _ _ _ _ Hok) as Ht. inversion Ht; subst; lia.
Qed.

Lemma wait_ok_wake late w0 tr w notified :
  0 <= late -> wait_ok late w0 tr w -> wt_phase w = Asleep notified ->
  wait_ok late w0 tr (wake_up w).
Proof.
  intros Hl Hok Hph. pose proof (wo_phase _ _ _ _ Hok) as Hp. pose proof (wo_late _ _ _ _ Hok) as Hlate.
  unfold wake_up. unfold phase_bound in Hp. rewrite Hph in Hp.
  destruct (Z.leb_spec (wt_deadline w) (wt_now w)); apply wait_ok_phase; try done;
    unfold phase_bound, fill_bound, prefilled_bound; simpl; rewrite ?Hph; try lia; naive_solver lia.
Qed.

Lemma wait_ok_turn late w0 tr w w' :
  0 <= late -> wait_ok late w0 tr w -> wait_turn w = Some w' -> wait_ok late w0 tr w'.
Proof.
  intros Hl Hok. pose proof (wo_phase _ _ _ _ Hok) as Hp. pose proof (wo_late _ _ _ _ Hok) as Hlate.
  unfold wait_turn. unfold phase_bound in Hp.
  destruct (wt_phase w) as [|notified| |] eqn:Hph; [| | |done].
  - destruct (slot_filled (wt_slot w)) eqn:Hs; intros [= <-]; apply wait_ok_phase; try done;
      unfold phase_bound, fill_bound, prefilled_bound; simpl; rewrite ?Hph, ?Hs; try lia; try done.
    + intros at_ms [= <-]. done.
    + intros t Hin _. exfalso. apply not_true_iff_false in Hs. apply Hs, Hok. right. by intros ->.
  - destruct (_ || _); [intros [= <-]|done]. by eapply wait_ok_wake.
  - intros [= <-]. apply wait_ok_phase; try done; unfold phase_bound, fill_bound, prefilled_bound; simpl.
    + destruct (negb _); lia || done.
    + intros t Hin _. destruct (slot_filled (wt_slot w)) eqn:Hs; [done|]. exfalso.
      apply not_true_iff_false in Hs. apply Hs, Hok. right. by intros ->.
    + by rewrite Hph.
    + intros at_ms [= Hs <-]. apply negb_false_iff in Hs. done.
Qed.

Lemma wait_ok_fill late w0 tr w f :
  0 <= late -> wait_ok late w0 tr w -> fills f ->
  wt_now w0 <= wt_now w ->
  (forall b at_ms, wt_phase w = Returned b at_ms -> at_ms <= wt_now w) ->
  wait_ok late w0 (tr ++ [wt_now w]) (fill_and_notify f w).
Proof.
  intros Hl Hok Hf Hnow Hret. pose proof (wo_late _ _ _ _ Hok) as Hlate. split; simpl; try apply Hok.
  - apply Forall_app. split; [apply Hok|]. by repeat constructor; try lia.
  - split; [intros _; right|intros _; by apply fills_slot]. by destruct tr.
  - pose proof (wo_phase _ _ _ _ Hok) as Hp. unfold phase_bound in *. simpl.
    by destruct (wt_phase w).
  - apply Forall_app. split.
    + eapply Forall_impl; [exact (wo_fills _ _ _ _ Hok)|]. intros t. unfold fill_bound. simpl.
      destruct (wt_phase w) as [| | |[]]; naive_solver.
    + constructor; [|done]. unfold fill_bound. simpl.
      destruct (wt_phase w) as [| | |[] at_ms] eqn:Hph; simpl; try lia. by eapply Hret.
  - intros H0. pose proof (wo_prefilled _ _ _ _ Hok H0) as Hp. unfold prefilled_bound in *. simpl.
    by destruct (wt_phase w).
  - intros at_ms Heq. rewrite Exists_app.
    assert (Hw : wt_phase w = Returned false at_ms) by by destruct (wt_phase w).
    destruct (wo_filled _ _ _ _ Hok at_ms Hw); auto.
Qed.

Lemma wait_ok_time late w0 tr w d :
  wait_ok late w0 tr w -> 0 < d -> 0 <= late ->
  (runnable w = true -> wt_late w + d <= late) ->
  (forall notified, wt_phase w = Asleep notified -> runnable w = false ->
     wt_now w + d <= wt_deadline w) ->
  wait_ok late w0 tr (pass_time d w).
Proof.
  intros Hok Hd Hl Hrun Hsleep. pose proof (wo_late _ _ _ _ Hok) as Hlate.
  pose proof (wo_phase _ _ _ _ Hok) as Hp. split; simpl; try apply Hok.
  - destruct (runnable w) eqn:Hr; [specialize (Hrun eq_refl)|]; lia.
  - eapply Forall_impl; [exact (wo_times _ _ _ _ Hok)|]. simpl. lia.
  - unfold phase_bound in *. simpl. destruct (wt_phase w) as [|notified| |] eqn:Hph; try done;
      try (unfold runnable, wait_turn in *; rewrite Hph in *; lia).
    destruct (runnable w) eqn:Hr; [lia|]. specialize (Hsleep notified eq_refl eq_refl). lia.
  - eapply Forall_impl; [exact (wo_fills _ _ _ _ Hok)|]. intros t. unfold fill_bound. simpl.
    destruct (wt_phase w) as [|notified| |] eqn:Hph; try done;
      try (unfold runnable, wait_turn; rewrite Hph; lia).
    intros [-> Ht]. unfold runnable, wait_turn. rewrite Hph. simpl. lia.
  - intros H0. pose proof (wo_prefilled _ _ _ _ Hok H0) as Hpre. unfold prefilled_bound in *. simpl.
    destruct (wt_phase w) eqn:Hph; try done. unfold runnable, wait_turn. rewrite Hph. lia.
Qed.

(** The clock does not go back, and a wait does not end in the future. *)
Lemma wait_run_clock late w0 tr w :
  wait_run late w0 tr w -> wt_phase w0 = Looking ->
  wt_now w0 <= wt_now w /\ forall b at_ms, wt_phase w = Returned b at_ms -> at_ms <= wt_now w.
Proof.
  intros Hrun H0. induction Hrun as [|tr w w' _ IH Hturn|tr w n _ IH _|tr w f _ IH _|tr w d _ IH Hd _ _].
  - rewrite H0. split; [lia|done].
  - unfold wait_turn, wake_up in Hturn. destruct (wt_phase w); repeat case_match; simplify_eq; simpl;
      split; try apply IH; intros b at_ms; repeat case_match; naive_solver lia.
  - unfold wake_up. split; [apply IH|]. simpl. by destruct (_ <=? _).
  - split; [apply IH|]. intros b at_ms Hb. eapply IH. simpl in Hb. by destruct (wt_phase w).
  - destruct IH as [? IH]. simpl. split; [lia|]. intros b at_ms Hb. specialize (IH b at_ms Hb). lia.
Qed.

Lemma wait_run_ok late w0 tr w :
  0 <= late -> wait_ok late w0 [] w0 -> wt_phase w0 = Looking ->
  wait_run late w0 tr w -> wait_ok late w0 tr w.
Proof.
  intros Hl H0 Hph Hrun. induction Hrun; eauto using wait_ok_turn, wait_ok_wake, wait_ok_time.
  destruct (wait_run_clock _ _ _ _ Hrun Hph). by apply wait_ok_fill.
Qed.

(** The thread's own turns to the end of a wait. *)
Fixpoint own_turns (n : nat) (w : Wait) : option Wait :=
  match n with O => Some w | S n => w ← wait_turn w; own_turns n w end.

Lemma wait_ends w :
  ~ returned w -> slot_filled (wt_slot w) = true \/ wt_deadline w <= wt_now w ->
  (forall notified, wt_phase w = Asleep notified -> slot_filled (wt_slot w) = true -> notified = true) ->
  exists n w', (n <= 3)%nat /\ own_turns n w = Some w' /\ returned w' /\ wt_now w' = wt_now w.
Proof.
  intros Hret Hready Hawake. unfold returned in *.
  destruct w as [slot phase now deadline lt]; simpl in *.
  assert (Hend : forall l, (deadline <= now) ->
    exists n w', (n <= 2)%nat /\ own_turns n (mkWait slot (Asleep false) now deadline l) = Some w'
      /\ match wt_phase w' with Returned _ _ => True | _ => False end /\ wt_now w' = now).
  { intros l Hle. exists 2%nat. apply Z.leb_le in Hle.
    unfold own_turns, wait_turn, wake_up; simpl. rewrite Hle. eexists. split_and!; [lia|done|done|done]. }
  destruct phase as [|notified| |].
  - destruct (slot_filled slot) eqn:Hs.
    + exists 1%nat. unfold own_turns, wait_turn. simpl. rewrite Hs. eexists. split_and!; [lia|done..].
    + destruct Hready as [|Hle]; [done|]. destruct (Hend 0 Hle) as (n & w' & Hn & Hw & ?).
      exists (S n), w'. split; [lia|]. simpl. unfold wait_turn. simpl. by rewrite Hs.
  - destruct (Z.leb_spec deadline now) as [Hle|Hgt].
    + exists 2%nat. unfold own_turns, wait_turn, wake_up. simpl. rewrite (proj2 (Z.leb_le _ _) Hle), orb_true_r.
      eexists. split_and!; [lia|done..].
    + destruct Hready as [Hs|]; [|lia]. rewrite (Hawake notified eq_refl Hs).
      exists 2%nat. unfold own_turns, wait_turn, wake_up. simpl.
      rewrite (proj2 (Z.leb_gt _ _) Hgt), Hs. eexists. split_and!; [lia|done..].
  - exists 1%nat. unfold own_turns, wait_turn. simpl. eexists. split_and!; [lia|done..].
  - done.
Qed.

(** C30: A Binance call waits for its answer or its deadline and no longer: with the slot's
    mutex, condition variable and clock explicit, and a thread that runs at most a bound after
    it could, the wait is over at most twice the bound after its slot was answered or failed
    (once, if that was before the wait), and at most three times the bound after the deadline,
    and then the thread's own next turns, at most three, end it; it reports a timeout only at or
    after the deadline and with nothing in the slot, and no timeout only when the slot had been
    filled. *)
Theorem call_waits_for_answer_or_deadline late slot now timeout tr w :
  0 <= late -> 0 <= timeout ->
  wait_run late (start_wait slot now timeout) tr w ->
  (~ returned w ->
     wt_now w <= now + timeout + 3 * late
     /\ (slot_filled slot = true -> wt_now w <= now + late)
     /\ Forall (fun filled_at => wt_now w <= filled_at + 2 * late) tr
     /\ (slot_filled (wt_slot w) = true \/ now + timeout <= wt_now w ->
         exists n w', (n <= 3)%nat /\ own_turns n w = Some w' /\ returned w' /\ wt_now w' = wt_now w))
  /\ (forall at_ms, wt_phase w = Returned true at_ms ->
        now + timeout <= at_ms /\ slot_filled slot = false /\ Forall (fun t => at_ms <= t) tr)
  /\ (forall at_ms, wt_phase w = Returned false at_ms ->
        slot_filled slot = true \/ Exists (fun t => t <= at_ms) tr).
Proof.
  intros Hl Ht Hrun. pose proof (wait_ok_start late slot now timeout Hl Ht) as H0.
  pose proof (wait_run_ok _ _ _ _ Hl H0 eq_refl Hrun) as Hok.
  pose proof (wo_late _ _ _ _ Hok) as Hlate. pose proof (wo_phase _ _ _ _ Hok) as Hp.
  pose proof (wo_deadline _ _ _ _ Hok) as Hd. simpl in Hd.
  split_and!.
  - intros Hret. split_and!.
    + unfold phase_bound, returned in *. destruct (wt_phase w); try done; lia.
    + intros Hs. pose proof (wo_prefilled _ _ _ _ Hok Hs) as Hpre.
      unfold prefilled_bound, returned in *. simpl in *. destruct (wt_phase w); try done. lia.
    + eapply Forall_impl; [exact (wo_fills _ _ _ _ Hok)|]. intros t. unfold fill_bound, returned in *.
      destruct (wt_phase w); try done; lia.
    + intros Hready. apply wait_ends; [done|by rewrite Hd|].
      intros notified Hph Hs. apply (wo_slot _ _ _ _ Hok) in Hs as [Hs|Hs].
      * pose proof (wo_prefilled _ _ _ _ Hok Hs) as Hpre. unfold prefilled_bound in Hpre.
        by rewrite Hph in Hpre.
      * pose proof (wo_fills _ _ _ _ Hok) as Hf. destruct tr as [|t tr]; [done|].
        inversion Hf as [|? ? Hb]; subst. unfold fill_bound in Hb. rewrite Hph in Hb. apply Hb.
  - intros at_ms Hph. unfold phase_bound in Hp. rewrite Hph in Hp. split_and!; [lia| |].
    + apply not_true_iff_false. intros Hs. pose proof (wo_prefilled _ _ _ _ Hok Hs) as Hpre.
      unfold prefilled_bound in Hpre. by rewrite Hph in Hpre.
    + eapply Forall_impl; [exact (wo_fills _ _ _ _ Hok)|]. intros t. unfold fill_bound. by rewrite Hph.
  - apply (wo_filled _ _ _ _ Hok).
Qed.


(** ** A wait that is answered after 10 ms *)

Definition sample_answer : Pending -> Pending := answer_slot (jobj [("id", JInt 1); ("status", JInt 200)]).

Definition sample_wait : Wait :=
  pass_time 3 (fill_and_notify sample_answer
    (pass_time 10 (to_phase (Asleep false) (start_wait new_slot 0 100)))).

Lemma sample_wait_run : wait_run 5 (start_wait new_slot 0 100) [10] sample_wait.
Proof.
  set (asleep := to_phase (Asleep false) (start_wait new_slot 0 100)).
  assert (H1 : wait_run 5 (start_wait new_slot 0 100) [] asleep)
    by (eapply wr_turn; [apply wr_start|reflexivity]).
  assert (H2 : wait_run 5 (start_wait new_slot 0 100) [] (pass_time 10 asleep))
    by (apply wr_time; [exact H1|lia|vm_compute; congruence|vm_compute; congruence]).
  assert (H3 := wr_fill 5 _ _ _ sample_answer H2 (or_intror (ex_intro _ _ eq_refl))).
  apply (wr_time 5 _ _ _ 3 H3); vm_compute; congruence.
Qed.

(** It is awake, and its next two turns end it without a timeout. *)
Example sample_wait_ends :
  wt_phase <$> own_turns 2 sample_wait = Some (Returned false 13).
Proof. reflexivity. Qed.

Lemma call_waits_for_answer_or_deadline_witness :
  wt_now sample_wait <= 0 + 100 + 3 * 5
  /\ Forall (fun filled_at => wt_now sample_wait <= filled_at + 2 * 5) [10].
Proof.
  destruct (call_waits_for_answer_or_deadline 5 new_slot 0 100 [10] sample_wait ltac:(lia) ltac:(lia)
    sample_wait_run) as (H & _).
  destruct (H (fun no => no)) as (Hd & _ & Hf & _). split; [exact Hd|exact Hf].
Defined.
