(* ===== verification/BinanceCallSystem.v ===== *)
(** * Concurrent calls on one Binance session

    Any number of threads run [call] while the session thread dispatches
    responses and ends sessions.  [step] runs one critical section of
    BinanceCalls or BinanceFeed; what a thread holds between two sections is its
    phase, what the session thread holds is the response it took from the table
    or the waiters it is about to fail.  The trace keeps the frames that were
    read, the requests that were sent and the calls that returned.  A wait may
    end at any moment here, with or without an answer; BinanceWait bounds it. *)

From S2P Require Import Prelude Json BinanceWire BinanceCalls BinanceFeed.

(** Between the sections of [call]. *)
Inductive Phase := Drawn | Registered | Waiting | Woken (timed_out : bool).

Record CallSys := mkCallSys {
  cs_client : WsClient;
  cs_threads : gmap Z (Phase * string);
  cs_carried : option (Z * json);
  cs_failing : list Z }.

Definition initial_calls : CallSys := mkCallSys initial_client ∅ None [].

Inductive Event :=
  | EvSent (id : Z)
  | EvRead (message : string)
  | EvDone (id : Z) (method : string) (result : option (Result json)).

(** Who runs a section. *)
Inductive Actor := Caller (id : Z) | SessionThread.

Section System.
Context (parse : string -> option json) (dump : json -> string).

(** The request a frame answers: events come first in the dispatch. *)
Definition answered_id (response : json) : option Z :=
  match frame_event response with Some _ => None | None => frame_id response end.

Definition set_phase (id : Z) (phase : Phase) (method : string) (c : WsClient) (s : CallSys) : CallSys :=
  mkCallSys c (<[id := (phase, method)]> (cs_threads s)) (cs_carried s) (cs_failing s).

Definition returns (id : Z) (c : WsClient) (s : CallSys) : CallSys :=
  mkCallSys c (delete id (cs_threads s)) (cs_carried s) (cs_failing s).

Inductive step : Actor -> CallSys -> list Event -> CallSys -> Prop :=
  | st_call s method :
      let drawn := draw_id (cs_client s) in
      step (Caller drawn.1) s [] (set_phase drawn.1 Drawn method drawn.2 s)
  | st_register s id method :
      cs_threads s !! id = Some (Drawn, method) ->
      step (Caller id) s [] (set_phase id Registered method (register_call id (cs_client s)) s)
  | st_sent s id method :
      cs_threads s !! id = Some (Registered, method) ->
      step (Caller id) s [EvSent id] (set_phase id Waiting method (cs_client s) s)
  | st_not_sent s id method :
      cs_threads s !! id = Some (Registered, method) ->
      step (Caller id) s [EvDone id method (Some (Err (not_sent method)))]
        (returns id (erase_call id (cs_client s)) s)
  | st_wake s id method :
      cs_threads s !! id = Some (Waiting, method) ->
      let timed_out := negb (slot_filled (slot_of id (cs_client s))) in
      step (Caller id) s [] (set_phase id (Woken timed_out) method (cs_client s) s)
  | st_return s id method timed_out :
      cs_threads s !! id = Some (Woken timed_out, method) ->
      let c := erase_call id (cs_client s) in
      step (Caller id) s [EvDone id method (call_result dump method timed_out (slot_of id c))]
        (returns id c s)
  | st_take s message response id :
      cs_carried s = None -> parse message = Some response -> answered_id response = Some id ->
      let taken := take_waiter id (cs_client s) in
      step SessionThread s [EvRead message]
        (mkCallSys taken.2 (cs_threads s) (if taken.1 then Some (id, response) else None) (cs_failing s))
  | st_answer s id response :
      cs_carried s = Some (id, response) ->
      step SessionThread s []
        (mkCallSys (with_slot id (answer_slot response) (cs_client s)) (cs_threads s) None (cs_failing s))
  | st_fail_all s :
      let taken := take_all_pending (cs_client s) in
      step SessionThread s [] (mkCallSys taken.2 (cs_threads s) (cs_carried s) (cs_failing s ++ taken.1))
  | st_fail s id rest :
      cs_failing s = id :: rest ->
      step SessionThread s []
        (mkCallSys (with_slot id fail_slot (cs_client s)) (cs_threads s) (cs_carried s) rest)
  (** The inline clock sync draws an id and waits for the answer itself. *)
  | st_draw s :
      step SessionThread s []
        (mkCallSys (draw_id (cs_client s)).2 (cs_threads s) (cs_carried s) (cs_failing s)).

Inductive run : CallSys -> list Event -> CallSys -> Prop :=
  | run_nil s : run s [] s
  | run_step s1 tr s2 actor events s3 :
      run s1 tr s2 -> step actor s2 events s3 -> run s1 (tr ++ events) s3.

(** ** Whose answer a call returns *)

Definition done_id (e : Event) : option Z := match e with EvDone id _ _ => Some id | _ => None end.
Definition done_ids (tr : list Event) : list Z := omap done_id tr.

(** A frame of the session that answers the request [id]. *)
Definition answers (tr : list Event) (id : Z) (response : json) : Prop :=
  exists message, In (EvRead message) tr /\ parse message = Some response
    /\ answered_id response = Some id.

(** What may come out of a call: an unknown outcome, or what a frame with its
    own id says. *)
Definition result_ok (tr : list Event) (id : Z) (method : string) (r : option (Result json)) : Prop :=
  r = Some (Err (not_sent method)) \/ r = Some (Err (timed_out_error method))
  \/ r = Some (Err (lost_error method))
  \/ exists response, answers tr id response /\ r = response_result dump response.

Record sys_ok (s : CallSys) (tr : list Event) : Prop := {
  so_fresh : forall id p, cs_threads s !! id = Some p -> id < ws_next_id (cs_client s);
  so_slots : forall id slot response, ws_slots (cs_client s) !! id = Some slot ->
    pd_response slot = Some response -> answers tr id response;
  so_carried : forall id response, cs_carried s = Some (id, response) -> answers tr id response;
  so_woken : forall id method, cs_threads s !! id = Some (Woken false, method) ->
    slot_filled (slot_of id (cs_client s)) = true;
  so_done_fresh : forall id, In id (done_ids tr) ->
    id < ws_next_id (cs_client s) /\ cs_threads s !! id = None;
  so_done_once : NoDup (done_ids tr);
  so_done : forall id method r, In (EvDone id method r) tr -> result_ok tr id method r }.

Lemma answers_mono tr events id response : answers tr id response -> answers (tr ++ events) id response.
Proof. intros (m & Hin & ?). exists m. rewrite in_app_iff. auto. Qed.

Lemma result_ok_mono tr events id method r :
  result_ok tr id method r -> result_ok (tr ++ events) id method r.
Proof.
  unfold result_ok. intros [?|[?|[?|(response & ? & ?)]]]; auto.
  right. right. right. exists response. auto using answers_mono.
Qed.

Lemma done_ids_app tr events : done_ids (tr ++ events) = done_ids tr ++ done_ids events.
Proof. unfold done_ids. apply omap_app. Qed.

Lemma slots_alter c id f id' slot' :
  ws_slots (with_slot id f c) !! id' = Some slot' ->
  exists slot, ws_slots c !! id' = Some slot /\ slot' = if decide (id = id') then f slot else slot.
Proof.
  simpl. destruct (decide (id = id')) as [->|Hne].
  - rewrite lookup_alter_eq. destruct (_ !! id') as [slot|]; [|done]. intros [= <-]. by exists slot.
  - rewrite lookup_alter_ne by done. intros H. by exists slot'.
Qed.

Lemma filled_alter c id f id' :
  (forall slot, slot_filled slot = true -> slot_filled (f slot) = true) ->
  slot_filled (slot_of id' c) = true -> slot_filled (slot_of id' (with_slot id f c)) = true.
Proof.
  intros Hf. unfold slot_of, with_slot. simpl. destruct (decide (id = id')) as [->|Hne].
  - rewrite lookup_alter_eq. destruct (_ !! id'); simpl; auto.
  - by rewrite lookup_alter_ne.
Qed.

Lemma fail_slot_filled slot : slot_filled slot = true -> slot_filled (fail_slot slot) = true.
Proof. unfold slot_filled. simpl. intros _. apply orb_true_r. Qed.

(** A step that ends no call keeps the facts about the calls that ended. *)
Lemma sys_ok_quiet s tr s' events :
  sys_ok s tr -> done_ids events = [] ->
  (forall id p, cs_threads s' !! id = Some p -> id < ws_next_id (cs_client s')) ->
  (forall id slot response, ws_slots (cs_client s') !! id = Some slot ->
     pd_response slot = Some response -> answers (tr ++ events) id response) ->
  (forall id response, cs_carried s' = Some (id, response) -> answers (tr ++ events) id response) ->
  (forall id method, cs_threads s' !! id = Some (Woken false, method) ->
     slot_filled (slot_of id (cs_client s')) = true) ->
  (forall id, In id (done_ids tr) -> id < ws_next_id (cs_client s') /\ cs_threads s' !! id = None) ->
  sys_ok s' (tr ++ events).
Proof.
  intros Hok Hd Hfresh Hslots Hcarried Hwoken Hdone.
  split; [done|done|done|done| | |].
  - intros id. rewrite done_ids_app, Hd, app_nil_r. apply Hdone.
  - rewrite done_ids_app, Hd, app_nil_r. apply Hok.
  - intros id method r [H|H]%in_app_iff; [by eapply result_ok_mono, (so_done _ _ Hok)|].
    exfalso. assert (Hin : In id (done_ids events)); [|by rewrite Hd in Hin].
    apply list_elem_of_In, list_elem_of_omap. eexists. split; [by apply list_elem_of_In|done].
Qed.

(** A step that only moves one thread's phase. *)
Lemma sys_ok_phase s tr events id old phase method :
  sys_ok s tr -> done_ids events = [] -> cs_threads s !! id = Some (old, method) ->
  (phase = Woken false -> slot_filled (slot_of id (cs_client s)) = true) ->
  sys_ok (set_phase id phase method (cs_client s) s) (tr ++ events).
Proof.
  intros Hok Hd Ht Hw. pose proof (so_fresh _ _ Hok id _ Ht) as Hid.
  apply (sys_ok_quiet s); [done|done| | | | |]; simpl.
  - intros id' p H. destruct (decide (id = id')) as [->|Hne]; [done|].
    rewrite lookup_insert_ne in H by done. by eapply so_fresh.
  - intros. by eapply answers_mono, so_slots.
  - intros. by eapply answers_mono, so_carried.
  - intros id' m H. destruct (decide (id = id')) as [->|Hne].
    + rewrite lookup_insert_eq in H. injection H as -> ->. auto.
    + rewrite lookup_insert_ne in H by done. by eapply so_woken.
  - intros id' Hin. destruct (so_done_fresh _ _ Hok id' Hin) as [? Hn]. split; [done|].
    rewrite lookup_insert_ne; [done|]. intros ->. congruence.
Qed.

(** A call that returns a permitted result. *)
Lemma sys_ok_return s tr id p method r :
  sys_ok s tr -> cs_threads s !! id = Some p -> result_ok tr id method r ->
  sys_ok (returns id (erase_call id (cs_client s)) s) (tr ++ [EvDone id method r]).
Proof.
  intros Hok Ht Hr. pose proof (so_fresh _ _ Hok id _ Ht) as Hid. split; simpl.
  - intros id' q H. apply lookup_delete_Some in H as [_ H]. by eapply so_fresh.
  - intros. by eapply answers_mono, so_slots.
  - intros. by eapply answers_mono, so_carried.
  - intros id' m H. apply lookup_delete_Some in H as [_ H]. exact (so_woken _ _ Hok id' m H).
  - intros id'. rewrite done_ids_app, in_app_iff. intros [Hin|[<-|[]]].
    + destruct (so_done_fresh _ _ Hok id' Hin) as [? Hn]. split; [done|].
      apply lookup_delete_None. by right.
    + split; [done|]. apply lookup_delete_None. by left.
  - rewrite done_ids_app. apply NoDup_app. split_and!; [apply Hok| |apply NoDup_singleton].
    intros id' Hin Hd. apply list_elem_of_singleton in Hd as ->. apply list_elem_of_In in Hin.
    destruct (so_done_fresh _ _ Hok id Hin). congruence.
  - intros id' m r' [H|[H|[]]]%in_app_iff; [by eapply result_ok_mono, (so_done _ _ Hok)|].
    injection H as <- <- <-. by apply result_ok_mono.
Qed.

Lemma woken_outcome s tr id method timed_out :
  sys_ok s tr -> cs_threads s !! id = Some (Woken timed_out, method) ->
  let r := call_result dump method timed_out (slot_of id (erase_call id (cs_client s))) in
  r = Some (Err (timed_out_error method)) \/ r = Some (Err (lost_error method))
  \/ exists response, answers tr id response /\ r = response_result dump response.
Proof.
  intros Hok Ht. change (slot_of id (erase_call id (cs_client s))) with (slot_of id (cs_client s)).
  unfold call_result. simpl. destruct timed_out; [auto|].
  pose proof (so_woken _ _ Hok id method Ht) as Hf. unfold slot_filled in Hf.
  destruct (pd_failed (slot_of id (cs_client s))) eqn:Hfail; [auto|].
  destruct (pd_response (slot_of id (cs_client s))) as [response|] eqn:Hr; [|done].
  right. right. exists response. split; [|done]. unfold slot_of in Hr.
  destruct (ws_slots (cs_client s) !! id) as [slot|] eqn:Hs; [|done]. by eapply so_slots.
Qed.

Lemma woken_result s tr id method timed_out :
  sys_ok s tr -> cs_threads s !! id = Some (Woken timed_out, method) ->
  result_ok tr id method (call_result dump method timed_out (slot_of id (erase_call id (cs_client s)))).
Proof. intros Hok Ht. right. by apply woken_outcome. Qed.

(** The sections of the session thread change the table and the slots only. *)
Lemma sys_ok_session s tr c carried failing events :
  sys_ok s tr -> done_ids events = [] ->
  ws_next_id c = ws_next_id (cs_client s) ->
  (forall id slot response, ws_slots c !! id = Some slot ->
     pd_response slot = Some response -> answers (tr ++ events) id response) ->
  (forall id response, carried = Some (id, response) -> answers (tr ++ events) id response) ->
  (forall id, slot_filled (slot_of id (cs_client s)) = true -> slot_filled (slot_of id c) = true) ->
  sys_ok (mkCallSys c (cs_threads s) carried failing) (tr ++ events).
Proof.
  intros Hok Hd Hn Hs Hc Hf. apply (sys_ok_quiet s); simpl; try done; rewrite ?Hn.
  - apply Hok.
  - intros id m H. by eapply Hf, so_woken.
  - apply Hok.
Qed.

(** An id is drawn; nothing else changes. *)
Lemma sys_ok_draw s tr :
  sys_ok s tr -> sys_ok (mkCallSys (draw_id (cs_client s)).2 (cs_threads s) (cs_carried s) (cs_failing s)) tr.
Proof.
  intros Hok. rewrite <- (app_nil_r tr). apply (sys_ok_quiet s); simpl; try done; rewrite ?app_nil_r.
  - intros id p H. pose proof (so_fresh _ _ Hok id p H). lia.
  - apply Hok.
  - apply Hok.
  - apply Hok.
  - intros id Hin. destruct (so_done_fresh _ _ Hok id Hin). split; [lia|done].
Qed.

Lemma sys_ok_step actor s tr events s' :
  sys_ok s tr -> step actor s events s' -> sys_ok s' (tr ++ events).
Proof.
  intros Hok Hstep. destruct Hstep.
  - apply (sys_ok_quiet s); simpl; try done.
    + intros id p Hx. destruct (decide (ws_next_id (cs_client s) = id)) as [<-|Hne]; [lia|].
      rewrite lookup_insert_ne in Hx by done. pose proof (so_fresh _ _ Hok id p Hx). lia.
    + intros. by eapply answers_mono, so_slots.
    + intros. by eapply answers_mono, so_carried.
    + intros id m Hx. destruct (decide (ws_next_id (cs_client s) = id)) as [<-|Hne];
        [by rewrite lookup_insert_eq in Hx|].
      rewrite lookup_insert_ne in Hx by done. exact (so_woken _ _ Hok id m Hx).
    + intros id Hin. destruct (so_done_fresh _ _ Hok id Hin) as [? ?]. split; [lia|].
      by rewrite lookup_insert_ne by lia.
  - apply (sys_ok_quiet (set_phase id Registered method (cs_client s) s)); simpl; try done.
    + rewrite <- (app_nil_r tr). by eapply sys_ok_phase.
    + intros id' p Hx. destruct (decide (id = id')) as [<-|Hne]; [by eapply (so_fresh _ _ Hok)|].
      rewrite lookup_insert_ne in Hx by done. by eapply (so_fresh _ _ Hok).
    + intros id' slot response Hx Hr. rewrite app_nil_r.
      destruct (decide (id = id')) as [<-|Hne]; [rewrite lookup_insert_eq in Hx; by injection Hx as <-|].
      rewrite lookup_insert_ne in Hx by done. by eapply (so_slots _ _ Hok).
    + intros. rewrite app_nil_r. by eapply (so_carried _ _ Hok).
    + intros id' m Hx'. destruct (decide (id = id')) as [<-|Hne];
        [by rewrite lookup_insert_eq in Hx'|].
      rewrite lookup_insert_ne in Hx' by done. unfold slot_of. simpl. rewrite lookup_insert_ne by done.
      exact (so_woken _ _ Hok id' m Hx').
    + intros id' Hin. destruct (so_done_fresh _ _ Hok id' Hin) as [? ?]. split; [done|].
      rewrite lookup_insert_ne; [done|]. intros ->. congruence.
  - by eapply sys_ok_phase.
  - eapply sys_ok_return; [done|done|by left].
  - eapply sys_ok_phase; [done|done|done|]. intros [= Hf]. by apply negb_false_iff in Hf.
  - eapply sys_ok_return; [done|done|]. by apply woken_result.
  - subst taken. assert (Hans : answers (tr ++ [EvRead message]) id response)
      by (exists message; rewrite in_app_iff; simpl; auto).
    unfold take_waiter. destruct (decide _); simpl; apply sys_ok_session; simpl; try done.
    all: try (intros; by eapply answers_mono, (so_slots _ _ Hok)).
    by intros ? ? [= <- <-].
  - apply sys_ok_session; try done; rewrite ?app_nil_r.
    + intros id' slot response' Hx' Hr. apply slots_alter in Hx' as (slot0 & H0 & ->).
      destruct (decide (id = id')) as [<-|]; [|by eapply (so_slots _ _ Hok)].
      injection Hr as <-. by eapply (so_carried _ _ Hok).
    + intros id'. by apply filled_alter.
  - apply sys_ok_session; try done; rewrite ?app_nil_r; [apply Hok|apply Hok].
  - apply sys_ok_session; try done; rewrite ?app_nil_r.
    + intros id' slot response' Hx' Hr. apply slots_alter in Hx' as (slot0 & H0 & ->).
      destruct (decide (id = id')); by eapply (so_slots _ _ Hok).
    + apply Hok.
    + intros id'. apply filled_alter, fail_slot_filled.
  - rewrite app_nil_r. by apply sys_ok_draw.
Qed.

Lemma sys_ok_run s0 tr s : run s0 tr s -> sys_ok s0 [] -> sys_ok s tr.
Proof. induction 1; [done|]. intros. eapply sys_ok_step; eauto. Qed.

Lemma sys_ok_initial : sys_ok initial_calls [].
Proof.
  assert (He : forall id (p : Phase * string), (∅ : gmap Z (Phase * string)) !! id = Some p -> False)
    by (intros id p; by rewrite lookup_empty).
  split; simpl; try done; intros *; try (by rewrite lookup_empty). constructor.
Qed.

(** C15: Concurrent calls over the one WebSocket get their own answers: in any interleaving of
    callers and the session thread every call returns at most once, and its result comes from a
    frame that carried its own id, from a failed send, from a lost session or from its timeout.
    *)
Theorem calls_get_their_own_answer tr s :
  run initial_calls tr s ->
  NoDup (done_ids tr)
  /\ forall id method r, In (EvDone id method r) tr -> result_ok tr id method r.
Proof.
  intros Hrun. pose proof (sys_ok_run _ _ _ Hrun sys_ok_initial) as Hok.
  split; [apply Hok|]. apply (so_done _ _ Hok).
Qed.

(** ** What the code transport means *)

(** The request was handed to the connection. *)
Definition was_sent (p : Phase) : bool :=
  match p with Drawn | Registered => false | Waiting | Woken _ => true end.

(** What a call that returned did: it could not be sent, or it was sent and
    its outcome is unknown, or it was sent and a frame with its id says. *)
Definition outcome_ok (tr : list Event) (id : Z) (method : string) (r : option (Result json)) : Prop :=
  (~ In (EvSent id) tr /\ r = Some (Err (not_sent method)))
  \/ (In (EvSent id) tr
      /\ (r = Some (Err (timed_out_error method)) \/ r = Some (Err (lost_error method))
          \/ exists response, answers tr id response /\ r = response_result dump response)).

Record sends_ok (s : CallSys) (tr : list Event) : Prop := {
  sq_phase : forall id p method, cs_threads s !! id = Some (p, method) ->
    In (EvSent id) tr <-> was_sent p = true;
  sq_fresh : forall id, In (EvSent id) tr -> id < ws_next_id (cs_client s);
  sq_done : forall id method r, In (EvDone id method r) tr -> outcome_ok tr id method r }.

Lemma outcome_ok_mono tr events id method r :
  (In (EvSent id) tr \/ ~ In (EvSent id) events) ->
  outcome_ok tr id method r -> outcome_ok (tr ++ events) id method r.
Proof.
  unfold outcome_ok. rewrite !in_app_iff.
  intros Hs [[Hn ->]|[Hin [?|[?|(response & ? & ?)]]]].
  - left. naive_solver.
  - right. auto.
  - right. auto.
  - right. split; [auto|]. right. right. exists response. auto using answers_mono.
Qed.

(** Only the caller of a request sends it. *)
Lemma step_sent actor s events s' id :
  step actor s events s' -> In (EvSent id) events ->
  exists method, cs_threads s !! id = Some (Registered, method) /\ events = [EvSent id].
Proof.
  intros Hstep. destruct Hstep; simpl; intros Hin; try done; try (by destruct Hin).
  all: destruct Hin as [[= <-]|[]]; eauto.
Qed.

(** How a step moves the phases, and what a call returns. *)
Lemma step_phase actor s events s' id p method :
  step actor s events s' -> cs_threads s' !! id = Some (p, method) ->
  (id < ws_next_id (cs_client s) /\ exists q method', cs_threads s !! id = Some (q, method')
     /\ ((~ In (EvSent id) events /\ was_sent p = was_sent q)
         \/ (In (EvSent id) events /\ was_sent p = true)))
  \/ (ws_next_id (cs_client s) <= id /\ was_sent p = false /\ events = [])
  \/ ws_next_id (cs_client s) <= id /\ is_Some (cs_threads s !! id).
Proof.
  intros Hstep. destruct (Z.lt_ge_cases id (ws_next_id (cs_client s))) as [Hlt|Hge].
  - intros H. left. split; [done|].
    destruct Hstep; simpl in H; rewrite ?lookup_insert_Some, ?lookup_delete_Some in H;
      destruct_and?; destruct_or?; destruct_and?; simplify_eq; try (subst drawn; simpl in *; lia);
      try (do 2 eexists; split; [eassumption|]; simpl; naive_solver).
  - intros H. destruct Hstep; simpl in H; rewrite ?lookup_insert_Some, ?lookup_delete_Some in H;
      destruct_and?; destruct_or?; destruct_and?; simplify_eq; eauto 10.
Qed.

Lemma sends_ok_step actor s tr events s' :
  sys_ok s tr -> sends_ok s tr -> step actor s events s' -> sends_ok s' (tr ++ events).
Proof.
  intros Hok Hsn Hstep. split.
  - intros id p method H. rewrite in_app_iff.
    destruct (step_phase _ _ _ _ id p method Hstep H)
      as [(_ & q & m' & Hq & Hcase)|[(Hge & -> & ->)|(Hge & [q Hq])]].
    + pose proof (sq_phase _ _ Hsn id q m' Hq). naive_solver.
    + split; [|done]. intros [Hin|[]]. pose proof (sq_fresh _ _ Hsn id Hin). lia.
    + pose proof (so_fresh _ _ Hok id _ Hq). lia.
  - intros id. rewrite in_app_iff. intros [Hin|Hin].
    + pose proof (sq_fresh _ _ Hsn id Hin) as Hlt.
      enough (ws_next_id (cs_client s) <= ws_next_id (cs_client s')) by lia.
      destruct Hstep; simpl; try lia; subst; try (unfold draw_id; simpl; lia).
      subst taken. unfold take_waiter. destruct (decide _); simpl; lia.
    + destruct (step_sent _ _ _ _ id Hstep Hin) as (method & Ht & ->).
      pose proof (so_fresh _ _ Hok id _ Ht). inversion Hstep; subst; simpl; lia.
  - intros id method r. rewrite in_app_iff. intros [Hin|Hin].
    + apply outcome_ok_mono; [|by apply Hsn]. right. intros Hs.
      destruct (step_sent _ _ _ _ id Hstep Hs) as (m & Ht & _).
      assert (Hd : In id (done_ids tr))
        by (apply list_elem_of_In, list_elem_of_omap; eexists; split; [by apply list_elem_of_In|done]).
      destruct (so_done_fresh _ _ Hok id Hd). congruence.
    + destruct Hstep; simpl in Hin; try done; destruct Hin as [Hin|[]]; simplify_eq.
      * left. split; [|done]. rewrite in_app_iff. intros [Hs|[Hs|[]]]; [|done].
        apply (sq_phase _ _ Hsn id _ _ H) in Hs. done.
      * assert (Hs : In (EvSent id) tr) by by apply (sq_phase _ _ Hsn id _ _ H).
        apply outcome_ok_mono; [by left|]. right. split; [done|]. by apply woken_outcome.
Qed.

Lemma sends_ok_run s0 tr s : run s0 tr s -> sys_ok s0 [] -> sends_ok s0 [] -> sends_ok s tr.
Proof. induction 1; [done|]. intros. eapply sends_ok_step; eauto. by eapply sys_ok_run. Qed.

Lemma sends_ok_initial : sends_ok initial_calls [].
Proof. split; [|done|done]. intros id p method H. simpl in H; by rewrite lookup_empty in H. Qed.

(** C36: What the code transport means on Binance: in any interleaving of calls and the session
    thread, a call that returned either was never sent, and reports that with the code
    transport, or was sent, and then it reports transport exactly when it timed out, its session
    was lost, or a frame with its id leaves the outcome open (a status other than 200 that is at
    least 500 or comes with the error code -1006 or -1007); every other result of a call comes
    from a frame with its id that settles the outcome. *)
Theorem transport_iff_outcome_unknown tr s id method r :
  run initial_calls tr s -> In (EvDone id method (Some r)) tr ->
  (~ In (EvSent id) tr /\ r = Err (not_sent method))
  \/ (In (EvSent id) tr
      /\ (is_transport r <->
           r = Err (timed_out_error method) \/ r = Err (lost_error method)
           \/ exists response, answers tr id response /\ response_result dump response = Some r
                /\ outcome_unknown response)
      /\ (is_transport r \/
           exists response, answers tr id response /\ response_result dump response = Some r
             /\ ~ outcome_unknown response)).
Proof.
  intros Hrun Hin. pose proof (sends_ok_run _ _ _ Hrun sys_ok_initial sends_ok_initial) as Hsn.
  destruct (sq_done _ _ Hsn _ _ _ Hin) as [[Hn [= ->]]|[Hs Hr]]; [by left|]. right. split; [done|].
  assert (Htr : forall e, code e = "transport" -> is_transport (Err (T:=json) e)) by (intros e; by exists e).
  destruct Hr as [[= ->]|[[= ->]|(response & Ha & Hr)]].
  - split; [|left]; eauto. split; [auto|]. intros _. by apply Htr.
  - split; [|left]; eauto. split; [auto|]. intros _. by apply Htr.
  - symmetry in Hr. pose proof (response_transport _ _ _ Hr) as Hiff. split.
    + split; [naive_solver|]. intros [->|[->|(response' & _ & Hr' & Hu)]]; [by apply Htr..|].
      by apply (response_transport _ _ _ Hr').
    + destruct (decide (outcome_unknown response)) as [Hu|Hu]; [left; by apply Hiff|right; eauto].
Qed.
End System.

(** ** One call, answered; another one, waiting *)

Definition one_answer (text : string) : option json :=
  if text ==s "R" then Some (jobj [("id", JInt 1); ("status", JInt 200); ("result", jobj [])]) else None.

Definition no_dump (_ : json) : string := "".

Definition sample_trace : list Event :=
  [EvSent 1; EvRead "R"; EvDone 1 "time" (Some (Ok (jobj [])))].

Definition one_waiting : CallSys :=
  mkCallSys (mkWsClient 3 ∅ {[ 1 := mkPendingSlot (one_answer "R") false ]} 0)
    {[ 2 := (Drawn, "order.place") ]} None [].

(** Append a section to a run. *)
Ltac section_of R c :=
  let R' := fresh "R" in
  pose proof (run_step one_answer no_dump _ _ _ _ _ _ R c) as R'; clear R;
  vm_compute in R'; rename R' into R.

Lemma sample_run : run one_answer no_dump initial_calls sample_trace one_waiting.
Proof.
  pose proof (run_nil one_answer no_dump initial_calls) as R.
  section_of R (st_call one_answer no_dump initial_calls "time").
  match type of R with run _ _ _ _ ?s => section_of R (st_register one_answer no_dump s 1 "time" eq_refl) end.
  match type of R with run _ _ _ _ ?s => section_of R (st_sent one_answer no_dump s 1 "time" eq_refl) end.
  match type of R with run _ _ _ _ ?s =>
    section_of R (st_take one_answer no_dump s "R" _ 1 eq_refl eq_refl eq_refl) end.
  match type of R with run _ _ _ _ ?s => section_of R (st_answer one_answer no_dump s 1 _ eq_refl) end.
  match type of R with run _ _ _ _ ?s => section_of R (st_wake one_answer no_dump s 1 "time" eq_refl) end.
  match type of R with run _ _ _ _ ?s => section_of R (st_call one_answer no_dump s "order.place") end.
  match type of R with run _ _ _ _ ?s =>
    section_of R (st_return one_answer no_dump s 1 "time" false eq_refl) end.
  exact R.
Qed.

Lemma calls_get_their_own_answer_witness :
  NoDup (done_ids sample_trace)
  /\ forall id method r, In (EvDone id method r) sample_trace ->
     result_ok one_answer no_dump sample_trace id method r.
Proof. apply (calls_get_their_own_answer one_answer no_dump sample_trace one_waiting sample_run). Defined.

Lemma transport_iff_outcome_unknown_witness :
  (~ In (EvSent 1) sample_trace /\ Ok (jobj []) = Err (not_sent "time"))
  \/ (In (EvSent 1) sample_trace
      /\ (is_transport (Ok (jobj [])) <->
           Ok (jobj []) = Err (timed_out_error "time") \/ Ok (jobj []) = Err (lost_error "time")
           \/ exists response, answers one_answer sample_trace 1 response
                /\ response_result no_dump response = Some (Ok (jobj [])) /\ outcome_unknown response)
      /\ (is_transport (Ok (jobj [])) \/
           exists response, answers one_answer sample_trace 1 response
             /\ response_result no_dump response = Some (Ok (jobj [])) /\ ~ outcome_unknown response)).
Proof.
  apply (transport_iff_outcome_unknown one_answer no_dump sample_trace one_waiting 1 "time");
    [exact sample_run|simpl; auto].
Defined.
