(* ===== verification/BinanceFeedSystem.v ===== *)
(** * The threads of the Binance session: binance_ws_client.cpp, ws_feed_support.hpp

    The supervisor ([run], [run_session]), the notifier ([pump_events]) and the
    thread that calls [start] and [stop] share the stop tokens, the event queue
    and [client_], the connection, which the supervisor publishes and takes back
    under [client_mutex_] and through which [call] sends.  Steps and waits are
    those of OkxFeedSystem; the table of pending calls is BinanceCallSystem's,
    the order of the events FeedLifecycle's. *)

From S2P Require Import Prelude FeedShutdown.

Inductive Supervisor :=
  | SvNone | SvTop | SvPublish | SvConnect
  | SvSyncSend | SvSyncRead | SvSyncWait | SvSubscribeSend
  | SvLoop | SvRead | SvWait
  | SvReset | SvFail
  | SvAfter | SvSleep | SvStopped | SvExited.

Inductive Notifier := NtNone | NtRuns | NtExited.
Inductive Control := CtIdle | CtClose | CtJoin | CtNotify.

Record SessionSys := mkSession {
  ss_running : bool;
  ss_control : Control;
  ss_stop : bool;
  ss_supervisor : Supervisor;
  ss_client : option Socket;
  ss_queue : nat;
  ss_notifier : Notifier;
  ss_notifier_stop : bool }.

Definition initial_session : SessionSys := mkSession false CtIdle false SvNone None 0 NtNone false.

Definition goto (sv : Supervisor) (s : SessionSys) : SessionSys :=
  mkSession (ss_running s) (ss_control s) (ss_stop s) sv (ss_client s) (ss_queue s) (ss_notifier s)
    (ss_notifier_stop s).
Definition set_client (k : option Socket) (s : SessionSys) : SessionSys :=
  mkSession (ss_running s) (ss_control s) (ss_stop s) (ss_supervisor s) k (ss_queue s) (ss_notifier s)
    (ss_notifier_stop s).
Definition emits (n : nat) (s : SessionSys) : SessionSys :=
  mkSession (ss_running s) (ss_control s) (ss_stop s) (ss_supervisor s) (ss_client s) (n + ss_queue s)
    (ss_notifier s) (ss_notifier_stop s).

(** [send_frame]: nothing is sent without a client; [sent]: what a send on an
    open one returned. *)
Definition send_frame (client : option Socket) (sent : bool) : bool :=
  match client with
  | None => false
  | Some k => socket_open (Some k) && sent
  end.

(** ** The caller of [start] and [stop] *)

Definition session_start (s : SessionSys) : SessionSys :=
  if ss_running s then s
  else mkSession true (ss_control s) false SvTop (ss_client s) (ss_queue s) NtRuns false.

(** [stop], up to the first lock. *)
Definition session_stop (s : SessionSys) : SessionSys :=
  match ss_supervisor s with
  | SvNone => mkSession false CtIdle (ss_stop s) SvNone (ss_client s) (ss_queue s) (ss_notifier s) (ss_notifier_stop s)
  | sv => mkSession (ss_running s) CtClose true sv (ss_client s) (ss_queue s) (ss_notifier s) (ss_notifier_stop s)
  end.

Definition session_close (s : SessionSys) : SessionSys :=
  mkSession (ss_running s) CtJoin (ss_stop s) (ss_supervisor s) (socket_close (ss_client s)) (ss_queue s)
    (ss_notifier s) (ss_notifier_stop s).

(** The supervisor is joined and the notifier asked to stop. *)
Definition session_joined (s : SessionSys) : SessionSys :=
  mkSession (ss_running s) CtNotify (ss_stop s) SvNone (ss_client s) (ss_queue s) (ss_notifier s) true.

Definition session_stopped (s : SessionSys) : SessionSys :=
  mkSession false CtIdle (ss_stop s) SvNone (ss_client s) (ss_queue s) NtNone (ss_notifier_stop s).

(** ** The supervisor *)

(** A step that waits for nothing; [ok]: what a send returned. *)
Definition session_own (ok : bool) (s : SessionSys) : option SessionSys :=
  let closed := negb (socket_open (ss_client s)) in
  match ss_supervisor s with
  | SvTop => Some (if ss_stop s then goto SvStopped s else goto SvPublish (emits 1 s))
  | SvPublish => Some (goto SvConnect (set_client (Some Fresh) s))
  | SvSyncSend => Some (goto (if send_frame (ss_client s) ok then SvSyncRead else SvSubscribeSend) s)
  | SvSyncRead => Some (goto (if closed then SvSubscribeSend else SvSyncWait) s)
  | SvSubscribeSend => Some (goto (if send_frame (ss_client s) ok then SvLoop else SvReset) s)
  | SvLoop => Some (goto (if ss_stop s then SvReset else SvRead) s)
  | SvRead => Some (goto (if closed then SvReset else SvWait) s)
  | SvReset => Some (goto SvFail (set_client None s))
  | SvFail => Some (goto SvAfter s)
  | SvAfter => Some (if ss_stop s then goto SvStopped s else goto SvSleep (emits 1 s))
  | SvSleep => if ss_stop s then Some (goto SvTop s) else None
  | SvStopped => Some (goto SvExited (emits 1 s))
  | SvConnect | SvSyncWait | SvWait | SvNone | SvExited => None
  end.

(** The end of a wait; [events]: how many the dispatch of the frame emitted;
    [Other]: the frame, or its kind, ends the session. *)
Definition session_wakes (e : WaitEnd) (events : nat) (s : SessionSys) : option SessionSys :=
  match ss_supervisor s with
  | SvConnect =>
      Some (match e with Came => goto SvSyncSend (set_client (Some Open) s) | _ => goto SvReset s end)
  | SvSyncWait => Some (goto SvSubscribeSend (set_client (read_socket e (ss_client s)) s))
  | SvWait =>
      Some (match e with
            | Came => goto SvLoop (emits events s)
            | Other => goto SvReset (emits events s)
            | Failed => goto SvReset (set_client (Some Closed) s)
            end)
  | SvSleep => Some (goto SvTop s)
  | _ => None
  end.

(** ** The notifier *)

(** It delivers an event, or returns once asked to and the queue is empty. *)
Definition notifier_turn (s : SessionSys) : option SessionSys :=
  match ss_notifier s, ss_queue s with
  | NtRuns, S n =>
      Some (mkSession (ss_running s) (ss_control s) (ss_stop s) (ss_supervisor s) (ss_client s) n NtRuns
              (ss_notifier_stop s))
  | NtRuns, O =>
      if ss_notifier_stop s
      then Some (mkSession (ss_running s) (ss_control s) (ss_stop s) (ss_supervisor s) (ss_client s) 0 NtExited
                   true)
      else None
  | _, _ => None
  end.

Inductive Actor := ByControl | BySupervisor | BySupervisorWait | ByNotifier.

Inductive session_step : Actor -> SessionSys -> SessionSys -> Prop :=
  | sn_start s : ss_control s = CtIdle -> session_step ByControl s (session_start s)
  | sn_stop s : ss_control s = CtIdle -> session_step ByControl s (session_stop s)
  | sn_close s : ss_control s = CtClose -> session_step ByControl s (session_close s)
  | sn_join s : ss_control s = CtJoin -> ss_supervisor s = SvExited ->
      session_step ByControl s (session_joined s)
  | sn_done s : ss_control s = CtNotify -> ss_notifier s = NtExited ->
      session_step ByControl s (session_stopped s)
  | sn_own ok s s' : session_own ok s = Some s' -> session_step BySupervisor s s'
  | sn_wake e n s s' : session_wakes e n s = Some s' -> session_step BySupervisorWait s s'
  | sn_notify s s' : notifier_turn s = Some s' -> session_step ByNotifier s s'.

Notation session_run := (runs session_step).

(** *** What every reachable state satisfies *)

Definition client_ok (s : SessionSys) : Prop :=
  match ss_supervisor s with
  | SvConnect => ss_client s = Some Fresh
  | SvSyncSend | SvSyncRead | SvSyncWait | SvSubscribeSend | SvLoop | SvRead | SvWait =>
      connected (ss_client s)
  | SvReset => is_Some (ss_client s)
  | _ => ss_client s = None
  end.

Definition control_ok (s : SessionSys) : Prop :=
  match ss_control s with
  | CtIdle =>
      if ss_running s
      then ss_supervisor s <> SvNone /\ ss_stop s = false /\ ss_notifier s = NtRuns /\ ss_notifier_stop s = false
      else ss_supervisor s = SvNone /\ ss_notifier s = NtNone /\ ss_queue s = 0%nat
  | CtClose | CtJoin =>
      ss_running s = true /\ ss_stop s = true /\ ss_supervisor s <> SvNone /\ ss_notifier s = NtRuns
      /\ ss_notifier_stop s = false
  | CtNotify =>
      ss_supervisor s = SvNone /\ ss_notifier_stop s = true /\ ss_notifier s <> NtNone
      /\ (ss_notifier s = NtExited -> ss_queue s = 0%nat)
  end.

Definition SessionInv (s : SessionSys) : Prop := client_ok s /\ control_ok s.

Lemma initial_session_ok : SessionInv initial_session.
Proof. done. Qed.

Ltac session_solve := first [done | solve [intuition (subst; cbn in *; try done; try congruence; eauto)]
                             | naive_solver].

Ltac session_cases s :=
  destruct s as [running control stop sv client queue notifier nstop];
  unfold SessionInv, client_ok, control_ok, connected in *; cbn in *.

Lemma session_own_ok ok s s' : SessionInv s -> session_own ok s = Some s' -> SessionInv s'.
Proof.
  intros [Hk Hc]. session_cases s.
  destruct sv; cbn in *; try done; intros H;
    try (destruct client as [[]|]; cbn in *; try session_solve);
    try (destruct stop; cbn in *); try (destruct ok; cbn in *); simplify_eq; cbn;
    (split; [session_solve|]); destruct control; try destruct running; session_solve.
Qed.

Lemma session_wakes_ok e n s s' : SessionInv s -> session_wakes e n s = Some s' -> SessionInv s'.
Proof.
  intros [Hk Hc]. session_cases s.
  destruct sv; cbn in *; try done; intros H; destruct e; cbn in *; simplify_eq; cbn;
    (split; [session_solve|]); destruct control; try destruct running; session_solve.
Qed.

Lemma notifier_turn_ok s s' : SessionInv s -> notifier_turn s = Some s' -> SessionInv s'.
Proof.
  intros [Hk Hc]. session_cases s. destruct notifier; cbn; try done.
  destruct queue as [|n]; [destruct nstop; [|done]|]; intros H; simplify_eq; cbn;
    (split; [exact Hk|]); destruct control; try destruct running; session_solve.
Qed.

Lemma session_step_ok a s s' : SessionInv s -> session_step a s s' -> SessionInv s'.
Proof.
  intros HI H. destruct H as [s Hc|s Hc|s Hc|s Hc Hx|s Hc Hx|ok s s' H|e n s s' H|s s' H].
  - destruct HI as [Hk Hct]. unfold session_start. destruct (ss_running s) eqn:Hr; [done|].
    session_cases s. subst. cbn in *. session_solve.
  - destruct HI as [Hk Hct]. unfold session_stop. session_cases s. subst.
    destruct sv, running; cbn in *; session_solve.
  - destruct HI as [Hk Hct]. unfold session_close. session_cases s. subst.
    split; [|session_solve]. destruct sv, client as [[]|]; cbn in *; session_solve.
  - destruct HI as [Hk Hct]. unfold session_joined. session_cases s. subst. cbn in *. session_solve.
  - destruct HI as [Hk Hct]. unfold session_stopped. session_cases s. subst. cbn in *. session_solve.
  - by eapply session_own_ok.
  - by eapply session_wakes_ok.
  - by eapply notifier_turn_ok.
Qed.

Lemma session_reachable_ok l s : session_run initial_session l s -> SessionInv s.
Proof.
  apply (runs_inv session_step SessionInv); [|apply initial_session_ok].
  intros a s1 s2. apply session_step_ok.
Qed.

(** The Binance session shares a live client or none: in every reachable state client_ is
    present exactly while the supervisor is inside a session, a frame is sent only over an open
    connection, the notifier runs and is not asked to stop as long as there is a supervisor, and
    a session that does not run has no client, no threads and no undelivered event. *)
Theorem session_client_is_the_supervisors l s :
  session_run initial_session l s ->
  (is_Some (ss_client s) <->
     match ss_supervisor s with
     | SvConnect | SvSyncSend | SvSyncRead | SvSyncWait | SvSubscribeSend | SvLoop | SvRead | SvWait | SvReset => True
     | _ => False
     end)
  /\ (forall sent, send_frame (ss_client s) sent = true -> ss_client s = Some Open)
  /\ (ss_supervisor s <> SvNone -> ss_notifier s = NtRuns /\ ss_notifier_stop s = false)
  /\ (ss_control s = CtIdle -> ss_running s = false ->
        ss_client s = None /\ ss_supervisor s = SvNone /\ ss_notifier s = NtNone /\ ss_queue s = 0%nat).
Proof.
  intros [Hk Hc]%session_reachable_ok. split_and!.
  - clear Hc. session_cases s.
    destruct sv; split; intros H; try done; try (by rewrite Hk in H; destruct H); try (by rewrite Hk);
      destruct Hk as [-> | ->]; done.
  - intros sent. destruct (ss_client s) as [[]|]; cbn; done.
  - clear Hk. intros Hn. session_cases s. destruct control, running; cbn in *; tauto.
  - intros Hi Hr. unfold control_ok in Hc. rewrite Hi, Hr in Hc. destruct Hc as (Hsv & Hnt & Hq).
    unfold client_ok in Hk. by rewrite Hsv in Hk.
Qed.

(** *** After a stop request *)

Definition rank (sv : Supervisor) : nat :=
  match sv with
  | SvPublish => 15 | SvConnect => 14 | SvSyncSend => 13 | SvSyncRead => 12 | SvSyncWait => 11
  | SvSubscribeSend => 10 | SvRead => 9 | SvWait => 8 | SvLoop => 7 | SvReset => 6 | SvFail => 5
  | SvAfter => 4 | SvSleep => 3 | SvTop => 2 | SvStopped => 1 | SvExited | SvNone => 0
  end%nat.

Definition waits (s : SessionSys) : nat :=
  match ss_client s, ss_supervisor s with
  | _, (SvPublish | SvConnect) => 2
  | _, (SvSleep | SvSyncWait | SvWait) => 1
  | Some Closed, _ => 0
  | _, (SvSyncSend | SvSyncRead | SvRead) => 1
  | _, _ => 0
  end%nat.

Definition own_count (a : Actor) : nat :=
  match a with BySupervisor | BySupervisorWait => 1 | _ => 0 end%nat.
Definition wait_count (a : Actor) : nat := match a with BySupervisorWait => 1 | _ => 0 end%nat.
Definition move_count (a : Actor) : nat := 1%nat.
Definition not_control (a : Actor) : Prop := a <> ByControl.

Definition spends (a : Actor) (s s' : SessionSys) : Prop :=
  (own_count a + rank (ss_supervisor s') <= rank (ss_supervisor s))%nat
  /\ (wait_count a + waits s' <= waits s)%nat.

Lemma session_own_spends ok s s' :
  SessionInv s -> ss_stop s = true -> session_own ok s = Some s' -> spends BySupervisor s s'.
Proof.
  intros [Hk _] Hstop. unfold spends, waits. session_cases s. subst stop.
  destruct sv, client as [[]|]; cbn in *; try done; try naive_solver; intros H;
    repeat match goal with H : context [if ?b then _ else _] |- _ => destruct b; cbn in H end;
    simplify_eq; cbn; lia.
Qed.

Lemma session_wakes_spends e n s s' :
  SessionInv s -> session_wakes e n s = Some s' -> spends BySupervisorWait s s'.
Proof.
  intros [Hk _]. unfold spends, waits. session_cases s.
  destruct sv, client as [[]|]; cbn in *; try done; try naive_solver; intros H;
    destruct e; cbn in H; simplify_eq; cbn; lia.
Qed.

(** What a step of the other threads leaves alone. *)
Lemma session_other_keeps a s s' :
  not_control a -> session_step a s s' -> ss_control s' = ss_control s /\ ss_running s' = ss_running s.
Proof.
  intros Ha H. destruct H as [| | | | |ok s s' H|e n s s' H|s s' H]; [done..| | |];
    revert H; destruct s as [r c st sv k q nt ns].
  - destruct sv; cbn; intros H; repeat case_match; by simplify_eq.
  - destruct sv; cbn; intros H; repeat case_match; by simplify_eq.
  - destruct nt, q; cbn; intros H; repeat case_match; by simplify_eq.
Qed.

Lemma session_other_keeps_control a s s' : not_control a -> session_step a s s' -> ss_control s' = ss_control s.
Proof. intros Ha H. by destruct (session_other_keeps a s s' Ha H). Qed.

Lemma notifier_spends s s' : notifier_turn s = Some s' -> spends ByNotifier s s'.
Proof.
  unfold notifier_turn. destruct (ss_notifier s), (ss_queue s); try done; [|by intros ?; simplify_eq].
  destruct (ss_notifier_stop s); intros ?; by simplify_eq.
Qed.

(** *** The supervisor is joined *)

(** [stop] waits to join the supervisor. *)
Definition stopping (s : SessionSys) : Prop := SessionInv s /\ ss_control s = CtJoin.
Definition exited (s : SessionSys) : Prop := ss_supervisor s = SvExited.

Lemma session_stopping_stop s : stopping s -> ss_stop s = true /\ ss_supervisor s <> SvNone.
Proof. intros [[_ Hc] Hj]. unfold control_ok in Hc. rewrite Hj in Hc. naive_solver. Qed.

Lemma session_stopping_moves s :
  SessionInv s -> ss_stop s = true -> ss_supervisor s <> SvNone -> ~ exited s ->
  exists s2, (session_own true s = Some s2 \/ session_wakes Failed 0 s = Some s2)
    /\ (rank (ss_supervisor s2) < rank (ss_supervisor s))%nat.
Proof.
  intros [Hk _] Hstop Hn Hx. unfold exited in Hx. session_cases s. subst stop.
  destruct sv; try done; destruct client as [[]|]; eexists;
    (split; [first [left; reflexivity|right; reflexivity]|cbn; lia]).
Qed.

#[export] Instance supervisor_drains :
  Draining session_step stopping exited not_control own_count wait_count
    (fun s => rank (ss_supervisor s)) waits (fun s => rank (ss_supervisor s)).
Proof.
  split.
  - intros a s s' Hst Ha H. destruct (session_stopping_stop s Hst) as [Hstop _]. destruct Hst as [HI Hj].
    split; [split; [by eapply session_step_ok|by rewrite (session_other_keeps_control _ _ _ Ha H)]|].
    change (spends a s s').
    destruct H as [| | | | |ok s s' H|e n s s' H|s s' H]; [done..| | |].
    + by eapply session_own_spends.
    + by eapply session_wakes_spends.
    + by eapply notifier_spends.
  - intros s Hst. destruct (session_stopping_stop s Hst) as [Hstop Hn]. destruct Hst as [HI _].
    assert (Hcase : exited s \/ ~ exited s) by (unfold exited; destruct (ss_supervisor s); auto).
    destruct Hcase as [Hx|Hx]; [by left|right].
    destruct (session_stopping_moves s HI Hstop Hn Hx) as (s2 & [H|H] & Hlt).
    + exists BySupervisor, s2. split_and!; [done|by eapply sn_own|done].
    + exists BySupervisorWait, s2. split_and!; [done|by eapply sn_wake|done].
Qed.

(** *** Then the notifier *)

Definition draining (s : SessionSys) : Prop := SessionInv s /\ ss_control s = CtNotify.
Definition drained (s : SessionSys) : Prop := ss_notifier s = NtExited.
Definition deliveries (s : SessionSys) : nat :=
  (ss_queue s + match ss_notifier s with NtExited => 0 | _ => 1 end)%nat.

#[export] Instance notifier_drains :
  Draining session_step draining drained not_control move_count (fun _ => 0%nat)
    deliveries (fun _ => 0%nat) deliveries.
Proof.
  split.
  - intros a s s' [HI Hc] Ha H.
    split; [split; [by eapply session_step_ok|by rewrite (session_other_keeps_control _ _ _ Ha H)]|].
    destruct HI as [_ Hct]. unfold control_ok in Hct. rewrite Hc in Hct. destruct Hct as (Hsv & _).
    destruct H as [| | | | |ok s s' H|e n s s' H|s s' H]; [done..| | |].
    + unfold session_own in H. by rewrite Hsv in H.
    + unfold session_wakes in H. by rewrite Hsv in H.
    + unfold notifier_turn in H. unfold deliveries, move_count.
      destruct (ss_notifier s), (ss_queue s); try done; [destruct (ss_notifier_stop s); [|done]|];
        simplify_eq; cbn; lia.
  - intros s [[_ Hct] Hc]. unfold control_ok in Hct. rewrite Hc in Hct.
    destruct Hct as (_ & Hstop & Hn & _). unfold drained.
    destruct (ss_notifier s) eqn:Hnt; [done| |by left]. right. exists ByNotifier. unfold deliveries.
    destruct (ss_queue s) eqn:Hq; eexists; (split_and!;
      [done|apply sn_notify; unfold notifier_turn; rewrite Hnt, Hq, ?Hstop; reflexivity|]);
      rewrite Hnt; cbn; lia.
Qed.

(** *** [stop] returns, with every event delivered *)

Lemma session_waits_bound s : (waits s <= 2)%nat.
Proof. unfold waits. destruct (ss_client s) as [[]|], (ss_supervisor s); lia. Qed.

(** A read of the supervisor that has begun; a close does not end it. *)
Definition read_begun (s : SessionSys) : nat :=
  match ss_supervisor s with SvSyncWait | SvWait => 1 | _ => 0 end%nat.

(** The close of [stop] spares an open session every wait that has not begun. *)
Lemma session_waits_closed s :
  SessionInv s -> ss_client s = Some Open -> (waits (session_close s) <= read_begun s)%nat.
Proof.
  intros [Hk _] Hc. unfold waits, read_begun, session_close. session_cases s. subst.
  destruct sv; cbn in *; try lia; naive_solver.
Qed.

Lemma session_close_stopping s : SessionInv s -> ss_control s = CtClose -> stopping (session_close s).
Proof. intros HI Hc. split; [by eapply session_step_ok, sn_close|done]. Qed.

Lemma session_bounds s l s' :
  SessionInv s -> ss_control s = CtClose -> session_run (session_close s) l s' -> Forall not_control l ->
  stopping s' /\ (total own_count l <= 15)%nat /\ (total wait_count l <= 2)%nat
  /\ (ss_client s = Some Open -> (total wait_count l <= read_begun s)%nat).
Proof.
  intros HI Hc Hr Hl.
  destruct (drain_bounds session_step _ l s' (session_close_stopping s HI Hc) Hr Hl) as (Hst' & Ho & Hw).
  assert (Hrank : forall sv, (rank sv <= 15)%nat) by (intros []; cbn; lia).
  specialize (Hrank (ss_supervisor (session_close s))).
  pose proof (session_waits_bound (session_close s)). split_and!; [done|lia|lia|].
  intros Hk. pose proof (session_waits_closed s HI Hk). lia.
Qed.

(** From the end of the supervisor on: joined, drained, stopped. *)
Lemma session_winds_up s :
  stopping s -> exited s ->
  exists l s2, session_run (session_joined s) l s2 /\ Forall not_control l
    /\ session_step ByControl s (session_joined s) /\ session_step ByControl s2 (session_stopped s2)
    /\ ss_queue s2 = 0%nat /\ ss_client s2 = None.
Proof.
  intros [HI Hc] Hx. pose proof (sn_join s Hc Hx) as Hj.
  destruct (drain_ends session_step (session_joined s)) as (l & s2 & Hr & Hl & [[Hk2 Hct2] Hc2] & Hd).
  { split; [by eapply session_step_ok|done]. }
  unfold control_ok in Hct2. rewrite Hc2 in Hct2. destruct Hct2 as (Hsv & _ & _ & Hq).
  unfold client_ok in Hk2. rewrite Hsv in Hk2.
  exists l, s2. split_and!; [done|done|done|by apply sn_done|by apply Hq|done].
Qed.

(** C26: Stopping the Binance session returns and loses no event: from any reachable state in
    which stop is about to close the client, once it has, every continuation takes at most
    fifteen more supervisor steps of which at most two end a wait; if the socket was open when
    stop closed it, at most one, and none unless a read had already begun; and from every point
    the supervisor can be joined, then the notifier, which leaves a session that does not run,
    without client, threads or undelivered events. *)
Theorem session_stop_returns l0 s l s' :
  session_run initial_session l0 s -> ss_control s = CtClose -> session_run (session_close s) l s' ->
  Forall not_control l ->
  (total own_count l <= 15)%nat /\ (total wait_count l <= 2)%nat
  /\ (ss_client s = Some Open -> (total wait_count l <= read_begun s)%nat)
  /\ exists l1 l2 s2,
       session_run s' (l1 ++ ByControl :: l2 ++ [ByControl]) s2
       /\ Forall not_control l1 /\ Forall not_control l2
       /\ ss_control s2 = CtIdle /\ ss_running s2 = false /\ ss_supervisor s2 = SvNone
       /\ ss_client s2 = None /\ ss_notifier s2 = NtNone /\ ss_queue s2 = 0%nat.
Proof.
  intros H0 Hc Hr Hl. pose proof (session_reachable_ok _ _ H0) as HI.
  destruct (session_bounds s l s' HI Hc Hr Hl) as (Hst' & Ho & Hw & Hk). split_and!; [done..|].
  destruct (drain_ends session_step s' Hst') as (l1 & s1 & Hr1 & Hl1 & Hst1 & Hx).
  destruct (session_winds_up s1 Hst1 Hx) as (l2 & s2 & Hr2 & Hl2 & Hj & Hd & Hq & Hn).
  exists l1, l2, (session_stopped s2). split_and!; try done.
  eapply runs_app; [done|]. eapply runs_cons; [done|]. by eapply runs_step.
Qed.

Lemma total_moves l : total move_count l = length l.
Proof. induction l as [|a l IH]; [done|]. cbn. by rewrite <- IH. Qed.

(** Once asked to stop, the notifier makes one move per event that is queued
    and one to return. *)
Theorem queued_events_are_delivered l0 s l s' :
  session_run initial_session l0 s -> ss_control s = CtNotify -> session_run s l s' -> Forall not_control l ->
  (length l + deliveries s' <= ss_queue s + 1)%nat /\ (drained s' -> ss_queue s' = 0%nat).
Proof.
  intros H0 Hc Hr Hl. pose proof (session_reachable_ok _ _ H0) as HI.
  destruct (drain_bounds session_step s l s' (conj HI Hc : draining s) Hr Hl) as ([[_ Hct] Hc'] & Hm & _).
  rewrite total_moves in Hm. split.
  - assert (deliveries s <= ss_queue s + 1)%nat by (unfold deliveries; destruct (ss_notifier s); lia). lia.
  - unfold control_ok in Hct. rewrite Hc' in Hct. by destruct Hct as (_ & _ & _ & Hq).
Qed.

(** *** Scripts: runs that evaluate *)

Inductive Move :=
  | MStart | MStop | MClose | MJoin | MDone
  | MOwn (ok : bool) | MWake (e : WaitEnd) (events : nat) | MNotify.

Definition actor (m : Move) : Actor :=
  match m with
  | MStart | MStop | MClose | MJoin | MDone => ByControl
  | MOwn _ => BySupervisor
  | MWake _ _ => BySupervisorWait
  | MNotify => ByNotifier
  end.

Definition move (m : Move) (s : SessionSys) : option SessionSys :=
  match m, ss_control s with
  | MStart, CtIdle => Some (session_start s)
  | MStop, CtIdle => Some (session_stop s)
  | MClose, CtClose => Some (session_close s)
  | MJoin, CtJoin => match ss_supervisor s with SvExited => Some (session_joined s) | _ => None end
  | MDone, CtNotify => match ss_notifier s with NtExited => Some (session_stopped s) | _ => None end
  | MOwn ok, _ => session_own ok s
  | MWake e n, _ => session_wakes e n s
  | MNotify, _ => notifier_turn s
  | _, _ => None
  end.

Lemma session_move_step m s s' : move m s = Some s' -> session_step (actor m) s s'.
Proof.
  unfold move. intros H.
  destruct m, (ss_control s) eqn:Hc; try done; cbn;
    try (destruct (ss_supervisor s) eqn:Hx; try done; simplify_eq; by apply sn_join);
    try (destruct (ss_notifier s) eqn:Hx; try done; simplify_eq; by apply sn_done);
    try (simplify_eq; by constructor); by econstructor.
Qed.

Lemma session_script ms s s' : script move ms s = Some s' -> session_run s (map actor ms) s'.
Proof. apply script_run, session_move_step. Qed.

(** Start, connect, sync the clock, subscribe, hear of it, and wait. *)
Definition subscribed_script : list Move :=
  [MStart; MOwn true; MOwn true; MNotify; MWake Came 0; MOwn true; MOwn true; MWake Came 0; MOwn true;
   MOwn true; MOwn true; MWake Came 1; MOwn true; MOwn true].

(** [stop]; the read fails; the supervisor leaves, the notifier delivers and returns. *)
Definition stop_script : list Move := subscribed_script ++ [MStop].
Definition winding_up : list Move :=
  [MClose; MWake Failed 0; MOwn true; MOwn true; MOwn true; MOwn true; MJoin; MNotify; MNotify; MNotify; MDone].

Definition reached (ms : list Move) : SessionSys := default initial_session (script move ms initial_session).

Lemma session_subscribed_reached : script move subscribed_script initial_session = Some (reached subscribed_script).
Proof. vm_compute. reflexivity. Defined.
Lemma stop_reached : script move stop_script initial_session = Some (reached stop_script).
Proof. vm_compute. reflexivity. Defined.
Lemma stop_facts :
  ss_control (reached stop_script) = CtClose /\ ss_client (reached stop_script) = Some Open.
Proof. vm_compute. split; reflexivity. Defined.
Lemma session_subscribed_facts :
  ss_supervisor (reached subscribed_script) = SvWait /\ ss_supervisor (reached subscribed_script) <> SvNone.
Proof. vm_compute. split; [reflexivity|discriminate]. Defined.

Example winding_up_ends :
  script move winding_up (reached stop_script) = Some (mkSession false CtIdle true SvNone None 0 NtNone true).
Proof. vm_compute. reflexivity. Qed.

Lemma session_client_is_the_supervisors_witness :
  is_Some (ss_client (reached subscribed_script)) /\ ss_notifier (reached subscribed_script) = NtRuns.
Proof.
  destruct (session_client_is_the_supervisors _ _ (session_script subscribed_script _ _ session_subscribed_reached))
    as (H1 & _ & H3 & _).
  destruct session_subscribed_facts as [Hw Hn]. split; [apply H1; rewrite Hw; exact I|exact (proj1 (H3 Hn))].
Defined.

Lemma session_stop_returns_witness :
  exists l1 l2 s2,
    session_run (session_close (reached stop_script)) (l1 ++ ByControl :: l2 ++ [ByControl]) s2
    /\ Forall not_control l1 /\ Forall not_control l2 /\ ss_control s2 = CtIdle /\ ss_queue s2 = 0%nat.
Proof.
  destruct (session_stop_returns _ _ [] (session_close (reached stop_script))
              (session_script stop_script _ _ stop_reached) (proj1 stop_facts) (runs_nil _ _) (Forall_nil_2 _))
    as (_ & _ & _ & l1 & l2 & s2 & H1 & H2 & H3 & H4 & _ & _ & _ & _ & H5).
  exists l1, l2, s2. split_and!; assumption.
Defined.

(** A stop that comes while the session connects has no effect on its socket:
    the connection opens all the same, and the session waits for the answer of
    its clock sync while [stop] waits to join it. *)
Definition early_stop_script : list Move :=
  [MStart; MOwn true; MOwn true; MStop; MClose; MWake Came 0; MOwn true; MOwn true].

Lemma early_stop_waits_for_the_sync :
  let s := reached early_stop_script in
  session_run initial_session (map actor early_stop_script) s
  /\ ss_control s = CtJoin /\ ss_client s = Some Open /\ ss_supervisor s = SvSyncWait
  /\ forall a s2, session_step a s s2 -> a = BySupervisorWait \/ a = ByNotifier.
Proof.
  split; [apply session_script; vm_compute; reflexivity|]. split_and!; [reflexivity..|].
  intros a s2 H. remember (reached early_stop_script) as s eqn:Es. vm_compute in Es. subst s.
  inversion H; subst; auto; discriminate.
Qed.
