(* ===== verification/BinanceSession.v ===== *)
(** * Calls and the life of their session: binance_ws_client.cpp

    BinanceCallSystem has the table of pending calls, BinanceFeedSystem the
    connection and the threads that open and close it.  Here both run together:
    a request goes out only over the connection that is open, the session thread
    dispatches only what it read, fails what is pending where the code does, and
    makes its own subscription a call of the table.  Each component moves by its
    own step relation; a rule of the composite ties the labels. *)

From S2P Require Import Prelude Json BinanceWire BinanceCalls BinanceFeed FeedShutdown BinanceFeedSystem BinanceCallSystem.

(** [jt_subscribe]: the id of the session's own request while it is in the
    table; [jt_failing]: [fail_all_pending] has emptied the table and its
    waiters are being failed. *)
Record Joint := mkJoint {
  jt_calls : CallSys;
  jt_session : SessionSys;
  jt_subscribe : option Z;
  jt_failing : bool }.

Definition initial_joint : Joint := mkJoint initial_calls initial_session None false.

Definition with_calls (c : CallSys) (j : Joint) : Joint :=
  mkJoint c (jt_session j) (jt_subscribe j) (jt_failing j).
Definition with_session (s : SessionSys) (j : Joint) : Joint :=
  mkJoint (jt_calls j) s (jt_subscribe j) (jt_failing j).
Definition subscribing (id : option Z) (j : Joint) : Joint :=
  mkJoint (jt_calls j) (jt_session j) id (jt_failing j).
Definition failing (b : bool) (j : Joint) : Joint :=
  mkJoint (jt_calls j) (jt_session j) (jt_subscribe j) b.

Definition connection_open (j : Joint) : bool := socket_open (ss_client (jt_session j)).
Definition at_place (j : Joint) (sv : Supervisor) : Prop := ss_supervisor (jt_session j) = sv.

(** [fail_all_pending]: the locked half, and one waiter. *)
Definition take_all (c : CallSys) : CallSys :=
  let taken := take_all_pending (cs_client c) in
  mkCallSys taken.2 (cs_threads c) (cs_carried c) (cs_failing c ++ taken.1).
Definition fail_one (id : Z) (rest : list Z) (c : CallSys) : CallSys :=
  mkCallSys (with_slot id fail_slot (cs_client c)) (cs_threads c) (cs_carried c) rest.
Definition answer_one (id : Z) (response : json) (c : CallSys) : CallSys :=
  mkCallSys (with_slot id (answer_slot response) (cs_client c)) (cs_threads c) None (cs_failing c).
Definition draw_only (c : CallSys) : CallSys :=
  mkCallSys (draw_id (cs_client c)).2 (cs_threads c) (cs_carried c) (cs_failing c).

(** The caller of [start] and [stop] is in neither, nor failing waiters. *)
Definition control_free (j : Joint) : Prop :=
  ss_control (jt_session j) = CtIdle /\ (at_place j SvNone -> jt_failing j = false).

(** The places at which the session thread moves by [session_own] alone. *)
Definition plain_place (sv : Supervisor) : bool :=
  match sv with SvSyncSend | SvSubscribeSend | SvReset | SvFail => false | _ => true end.

Section Composite.
Context (parse : string -> option json) (dump : json -> string).

Notation call_step := (BinanceCallSystem.step parse dump).

(** A send succeeds only over an open connection. *)
Definition sends_over (open : bool) (events : list Event) : Prop :=
  forall id, In (EvSent id) events -> open = true.

Inductive joint_step : Joint -> list Event -> Joint -> Prop :=
  (** a thread inside [call] *)
  | jn_caller j id events c :
      call_step (Caller id) (jt_calls j) events c -> jt_subscribe j <> Some id ->
      sends_over (connection_open j) events -> joint_step j events (with_calls c j)
  (** the session thread *)
  | jn_own j ok s :
      plain_place (ss_supervisor (jt_session j)) = true -> session_own ok (jt_session j) = Some s ->
      joint_step j [] (with_session s j)
  | jn_sync_send j ok s :
      at_place j SvSyncSend -> session_own ok (jt_session j) = Some s ->
      joint_step j [] (with_calls (draw_only (jt_calls j)) (with_session s j))
  | jn_subscribe_draw j c :
      at_place j SvSubscribeSend -> jt_subscribe j = None ->
      c = set_phase (ws_next_id (cs_client (jt_calls j))) Drawn subscribe_method
            (draw_id (cs_client (jt_calls j))).2 (jt_calls j) ->
      joint_step j [] (subscribing (Some (ws_next_id (cs_client (jt_calls j)))) (with_calls c j))
  | jn_subscribe_register j id :
      at_place j SvSubscribeSend -> jt_subscribe j = Some id ->
      cs_threads (jt_calls j) !! id = Some (Drawn, subscribe_method) ->
      joint_step j [] (with_calls (set_phase id Registered subscribe_method
                                     (register_call id (cs_client (jt_calls j))) (jt_calls j)) j)
  | jn_subscribe_sent j id s :
      at_place j SvSubscribeSend -> jt_subscribe j = Some id -> connection_open j = true ->
      cs_threads (jt_calls j) !! id = Some (Registered, subscribe_method) ->
      session_own true (jt_session j) = Some s ->
      joint_step j [EvSent id]
        (with_calls (set_phase id Waiting subscribe_method (cs_client (jt_calls j)) (jt_calls j))
           (with_session s j))
  | jn_subscribe_not_sent j id s :
      at_place j SvSubscribeSend -> jt_subscribe j = Some id ->
      cs_threads (jt_calls j) !! id = Some (Registered, subscribe_method) ->
      session_own false (jt_session j) = Some s ->
      joint_step j [EvDone id subscribe_method (Some (Err (not_sent subscribe_method)))]
        (subscribing None (with_calls (returns id (erase_call id (cs_client (jt_calls j))) (jt_calls j))
                             (with_session s j)))
  | jn_take j message response id :
      at_place j SvWait -> cs_carried (jt_calls j) = None ->
      parse message = Some response -> answered_id response = Some id ->
      let taken := take_waiter id (cs_client (jt_calls j)) in
      joint_step j [EvRead message]
        (with_calls (mkCallSys taken.2 (cs_threads (jt_calls j))
                       (if taken.1 then Some (id, response) else None) (cs_failing (jt_calls j))) j)
  | jn_answer j id response :
      at_place j SvWait -> cs_carried (jt_calls j) = Some (id, response) ->
      joint_step j [] (with_calls (answer_one id response (jt_calls j)) j)
  | jn_wake j e n s :
      cs_carried (jt_calls j) = None -> session_wakes e n (jt_session j) = Some s ->
      joint_step j [] (with_session s j)
  | jn_erase j id method :
      (** the request leaves the table; what its slot holds is not looked at *)
      at_place j SvReset -> jt_subscribe j = Some id ->
      cs_threads (jt_calls j) !! id = Some (Waiting, method) ->
      let timed_out := negb (slot_filled (slot_of id (cs_client (jt_calls j)))) in
      joint_step j [] (with_calls (set_phase id (Woken timed_out) method (cs_client (jt_calls j)) (jt_calls j)) j)
  | jn_erased j id method timed_out :
      at_place j SvReset -> jt_subscribe j = Some id ->
      cs_threads (jt_calls j) !! id = Some (Woken timed_out, method) ->
      let c := erase_call id (cs_client (jt_calls j)) in
      joint_step j [EvDone id method (call_result dump method timed_out (slot_of id c))]
        (subscribing None (with_calls (returns id c (jt_calls j)) j))
  | jn_reset j ok s :
      at_place j SvReset -> jt_subscribe j = None -> session_own ok (jt_session j) = Some s ->
      joint_step j [] (with_session s j)
  | jn_take_all j :
      at_place j SvFail -> jt_failing j = false ->
      joint_step j [] (failing true (with_calls (take_all (jt_calls j)) j))
  | jn_fail_one j id rest :
      jt_failing j = true -> cs_failing (jt_calls j) = id :: rest ->
      joint_step j [] (with_calls (fail_one id rest (jt_calls j)) j)
  | jn_failed j ok s :
      at_place j SvFail -> jt_failing j = true -> cs_failing (jt_calls j) = [] ->
      session_own ok (jt_session j) = Some s ->
      joint_step j [] (failing false (with_session s j))
  (** the notifier *)
  | jn_notify j s :
      session_step ByNotifier (jt_session j) s -> joint_step j [] (with_session s j)
  (** the caller of [start] and [stop], which fails what is pending at the end *)
  | jn_start j :
      control_free j -> joint_step j [] (with_session (session_start (jt_session j)) j)
  | jn_stop j :
      control_free j -> ~ at_place j SvNone ->
      joint_step j [] (with_session (session_stop (jt_session j)) j)
  | jn_close j :
      ss_control (jt_session j) = CtClose -> joint_step j [] (with_session (session_close (jt_session j)) j)
  | jn_join j :
      ss_control (jt_session j) = CtJoin -> at_place j SvExited ->
      joint_step j [] (with_session (session_joined (jt_session j)) j)
  | jn_stopped j :
      ss_control (jt_session j) = CtNotify -> ss_notifier (jt_session j) = NtExited ->
      joint_step j [] (failing true (with_calls (take_all (jt_calls j))
                                       (with_session (session_stopped (jt_session j)) j)))
  | jn_stop_stopped j :
      control_free j -> at_place j SvNone ->
      joint_step j [] (failing true (with_calls (take_all (jt_calls j))
                                       (with_session (session_stop (jt_session j)) j)))
  | jn_stop_returns j :
      at_place j SvNone -> jt_failing j = true -> cs_failing (jt_calls j) = [] ->
      joint_step j [] (failing false j).

Inductive joint_run : Joint -> list Event -> Joint -> Prop :=
  | joint_nil j : joint_run j [] j
  | joint_more j1 tr j2 events j3 :
      joint_run j1 tr j2 -> joint_step j2 events j3 -> joint_run j1 (tr ++ events) j3.

(** ** The composite refines its components *)

Lemma joint_calls j events j' :
  joint_step j events j' ->
  jt_calls j' = jt_calls j /\ events = [] \/ exists actor, call_step actor (jt_calls j) events (jt_calls j').
Proof.
  intros H. destruct H; simpl; try (by left); right.
  - by eexists.
  - exists SessionThread. apply st_draw.
  - subst c. exists (Caller (ws_next_id (cs_client (jt_calls j)))). apply (st_call parse dump (jt_calls j)).
  - exists (Caller id). by apply st_register.
  - exists (Caller id). by apply st_sent.
  - exists (Caller id). by apply st_not_sent.
  - exists SessionThread. by apply (st_take parse dump (jt_calls j) message response id).
  - exists SessionThread. by apply st_answer.
  - exists (Caller id). by apply (st_wake parse dump (jt_calls j)).
  - exists (Caller id). by apply (st_return parse dump (jt_calls j)).
  - exists SessionThread. apply (st_fail_all parse dump (jt_calls j)).
  - exists SessionThread. by apply st_fail.
  - exists SessionThread. apply (st_fail_all parse dump (jt_calls j)).
  - exists SessionThread. apply (st_fail_all parse dump (jt_calls j)).
Qed.

Lemma joint_session j events j' :
  joint_step j events j' ->
  jt_session j' = jt_session j \/ exists actor, session_step actor (jt_session j) (jt_session j').
Proof.
  intros H. destruct H; simpl; try (by left); right.
  - exists BySupervisor. by eapply sn_own.
  - exists BySupervisor. by eapply sn_own.
  - exists BySupervisor. by eapply sn_own.
  - exists BySupervisor. by eapply sn_own.
  - exists BySupervisorWait. by eapply sn_wake.
  - exists BySupervisor. by eapply sn_own.
  - exists BySupervisor. by eapply sn_own.
  - by exists ByNotifier.
  - exists ByControl. apply sn_start. by destruct H.
  - exists ByControl. apply sn_stop. by destruct H.
  - exists ByControl. by apply sn_close.
  - exists ByControl. by apply sn_join.
  - exists ByControl. by apply sn_done.
  - exists ByControl. apply sn_stop. by destruct H.
Qed.

Lemma joint_projects tr j :
  joint_run initial_joint tr j ->
  BinanceCallSystem.run parse dump initial_calls tr (jt_calls j)
  /\ exists l, runs session_step initial_session l (jt_session j).
Proof.
  intros H. remember initial_joint as j0 eqn:E. induction H as [j|j1 tr j2 events j3 H IH Hs]; subst.
  { split; [constructor|]. exists []. constructor. }
  destruct (IH eq_refl) as [Hc (l & Hl)]. split.
  - destruct (joint_calls _ _ _ Hs) as [[-> ->]|[a Ha]]; [by rewrite app_nil_r|by eapply run_step].
  - destruct (joint_session _ _ _ Hs) as [->|[a Ha]]; [by exists l|]. exists (l ++ [a]). by eapply runs_step.
Qed.
(** ** No call is forgotten *)

(** A call in the table, or taken from it and about to be answered or failed,
    or answered or failed. *)
Definition filled (c : CallSys) (id : Z) : Prop := slot_filled (slot_of id (cs_client c)) = true.

Definition tracked (c : CallSys) (id : Z) : Prop :=
  filled c id \/ id ∈ ws_pending (cs_client c) \/ (exists response, cs_carried c = Some (id, response))
  \/ id ∈ cs_failing c.

Definition in_flight (p : Phase) : bool := match p with Registered | Waiting => true | _ => false end.

Record calls_ok (c : CallSys) : Prop := {
  co_fresh : forall id p, cs_threads c !! id = Some p -> id < ws_next_id (cs_client c);
  co_slot : forall id p m, cs_threads c !! id = Some (p, m) -> in_flight p = true ->
    is_Some (ws_slots (cs_client c) !! id) /\ tracked c id }.

Lemma calls_ok_initial : calls_ok initial_calls.
Proof. split; simpl; intros *; by rewrite lookup_empty. Qed.

Lemma filled_with_slot c threads carried rest id f :
  (forall slot, slot_filled slot = true -> slot_filled (f slot) = true) ->
  forall id', filled c id' -> filled (mkCallSys (with_slot id f (cs_client c)) threads carried rest) id'.
Proof. intros Hf id' H. unfold filled in *. simpl. by apply filled_alter. Qed.

(** The call whose slot is written is then filled. *)
Lemma slot_written c id f :
  is_Some (ws_slots (cs_client c) !! id) -> (forall slot, slot_filled (f slot) = true) ->
  slot_filled (slot_of id (with_slot id f (cs_client c))) = true.
Proof. intros [slot Hs] Hf. unfold slot_of, with_slot. simpl. rewrite lookup_alter_eq, Hs. apply Hf. Qed.

Lemma answer_fills response slot : slot_filled (answer_slot response slot) = true.
Proof. done. Qed.
Lemma fail_fills slot : slot_filled (fail_slot slot) = true.
Proof. unfold slot_filled. simpl. apply orb_true_r. Qed.

(** A step that leaves the threads, and tracks what was tracked. *)
Lemma calls_ok_quiet c c' :
  calls_ok c -> cs_threads c' = cs_threads c -> ws_next_id (cs_client c) <= ws_next_id (cs_client c') ->
  (forall id, is_Some (ws_slots (cs_client c) !! id) -> is_Some (ws_slots (cs_client c') !! id)) ->
  (forall id, is_Some (ws_slots (cs_client c) !! id) -> tracked c id -> tracked c' id) ->
  calls_ok c'.
Proof.
  intros Hok Ht Hn Hs Htr. split; rewrite Ht.
  - intros id p H. pose proof (co_fresh _ Hok id p H). lia.
  - intros id p m H Hp. destruct (co_slot _ Hok id p m H Hp). auto.
Qed.

(** A step of one thread that leaves what the others rely on. *)
Lemma calls_ok_thread c c' id :
  calls_ok c -> ws_next_id (cs_client c) <= ws_next_id (cs_client c') ->
  (forall id', id' <> id -> cs_threads c' !! id' = cs_threads c !! id') ->
  (forall p, cs_threads c' !! id = Some p -> id < ws_next_id (cs_client c')) ->
  (forall id', id' <> id -> ws_slots (cs_client c') !! id' = ws_slots (cs_client c) !! id') ->
  (forall id', id' <> id -> id' ∈ ws_pending (cs_client c) -> id' ∈ ws_pending (cs_client c')) ->
  cs_carried c' = cs_carried c -> cs_failing c' = cs_failing c ->
  (forall p m, cs_threads c' !! id = Some (p, m) -> in_flight p = true ->
     is_Some (ws_slots (cs_client c') !! id) /\ tracked c' id) ->
  calls_ok c'.
Proof.
  intros Hok Hn Ht Hf Hs Hp Hc Hfl Hid. split.
  - intros id' p H. destruct (decide (id' = id)) as [->|Hne]; [by eapply Hf|].
    rewrite Ht in H by done. pose proof (co_fresh _ Hok id' p H). lia.
  - intros id' p m H Hph. destruct (decide (id' = id)) as [->|Hne]; [by eapply Hid|].
    rewrite Ht in H by done. destruct (co_slot _ Hok id' p m H Hph) as [Hsl Htr].
    rewrite (Hs id' Hne). split; [done|]. unfold tracked, filled, slot_of in *.
    rewrite (Hs id' Hne), Hc, Hfl. naive_solver.
Qed.

Lemma calls_ok_take c id response :
  calls_ok c -> cs_carried c = None ->
  let taken := take_waiter id (cs_client c) in
  calls_ok (mkCallSys taken.2 (cs_threads c) (if taken.1 then Some (id, response) else None) (cs_failing c)).
Proof.
  intros Hok H taken. subst taken. apply (calls_ok_quiet c); [done|done| | |]; unfold take_waiter;
    destruct (decide (id ∈ ws_pending (cs_client c))) as [Hin|Hin]; simpl; try done.
  - intros id' _ Htr. destruct (decide (id' = id)) as [->|Hne]; [right; right; left; by eexists|].
    unfold tracked, filled in *. simpl. rewrite H in Htr. destruct Htr as [?|[?|[[? [=]]|?]]]; set_solver.
  - intros id' _ Htr. unfold tracked, filled in *. simpl. rewrite H in Htr. exact Htr.
Qed.

Lemma calls_ok_answer c id response :
  calls_ok c -> cs_carried c = Some (id, response) -> calls_ok (answer_one id response c).
Proof.
  intros Hok H. apply (calls_ok_quiet c); simpl; try done.
  - intros id' Hs. rewrite lookup_alter_is_Some. exact Hs.
  - intros id' Hs Htr. destruct (decide (id' = id)) as [->|Hne].
    { left. apply slot_written; [done|apply answer_fills]. }
    destruct Htr as [Hf|[Hf|[[r Hf]|Hf]]]; [left; by apply filled_with_slot|by right; left| |by right; right; right].
    rewrite H in Hf. congruence.
Qed.

Lemma calls_ok_take_all c : calls_ok c -> calls_ok (take_all c).
Proof.
  intros Hok. apply (calls_ok_quiet c); simpl; try done.
  intros id' _ [Hf|[Hf|[Hf|Hf]]]; [by left| |by right; right; left|];
    right; right; right; apply elem_of_app; [right; by apply elem_of_elements|by left].
Qed.

Lemma calls_ok_fail c id rest : calls_ok c -> cs_failing c = id :: rest -> calls_ok (fail_one id rest c).
Proof.
  intros Hok H. apply (calls_ok_quiet c); simpl; try done.
  - intros id' Hs. rewrite lookup_alter_is_Some. exact Hs.
  - intros id' Hs Htr. destruct (decide (id' = id)) as [->|Hne].
    { left. apply slot_written; [done|apply fail_fills]. }
    destruct Htr as [Hf|[Hf|[Hf|Hf]]];
      [left; apply filled_with_slot; [apply fail_slot_filled|done]|by right; left|by right; right; left|].
    rewrite H in Hf. apply elem_of_cons in Hf as [->|Hf]; [done|]. by right; right; right.
Qed.

(** A call that ends. *)
Lemma calls_ok_returns c id : calls_ok c -> calls_ok (returns id (erase_call id (cs_client c)) c).
Proof.
  intros Hok. apply (calls_ok_thread c _ id); simpl; try done; try lia.
  - intros. by rewrite lookup_delete_ne.
  - intros p. by rewrite lookup_delete_eq.
  - set_solver.
  - intros p m. by rewrite lookup_delete_eq.
Qed.

(** A thread that moves on without touching the table. *)
Lemma calls_ok_phase c id old phase method :
  calls_ok c -> cs_threads c !! id = Some (old, method) -> (in_flight phase = true -> in_flight old = true) ->
  calls_ok (set_phase id phase method (cs_client c) c).
Proof.
  intros Hok H Hp. apply (calls_ok_thread c _ id); simpl; try done; try lia.
  - intros. by rewrite lookup_insert_ne.
  - intros. by eapply (co_fresh _ Hok).
  - intros p m. rewrite lookup_insert_eq. intros [= <- <-] Hf. apply (co_slot _ Hok id old method); auto.
Qed.

Lemma calls_ok_step actor c events c' : calls_ok c -> call_step actor c events c' -> calls_ok c'.
Proof.
  intros Hok H. destruct H as [c method drawn|c id method H|c id method H|c id method H|c id method H t
    |c id method t H e|c m response id H Hp Ha taken|c id response H|c taken|c id rest H|c].
  - apply (calls_ok_thread c _ (ws_next_id (cs_client c))); simpl; try done; try lia.
    + intros. by rewrite lookup_insert_ne.
    + intros p m0. rewrite lookup_insert_eq. by intros [= <- <-].
  - apply (calls_ok_thread c _ id); simpl; try done; try lia.
    + intros. by rewrite lookup_insert_ne.
    + intros. by eapply (co_fresh _ Hok).
    + intros. by rewrite lookup_insert_ne.
    + set_solver.
    + intros p m _ _. rewrite lookup_insert_eq. split; [done|]. right. left. simpl. set_solver.
  - by eapply calls_ok_phase.
  - by apply calls_ok_returns.
  - by eapply calls_ok_phase.
  - by apply calls_ok_returns.
  - by apply calls_ok_take.
  - by apply calls_ok_answer.
  - by apply calls_ok_take_all.
  - by apply calls_ok_fail.
  - apply (calls_ok_quiet c); simpl; try done. lia.
Qed.

(** ** What a lost session leaves *)

(** Every waiting call can wake up, or is about to be able to. *)
Definition settled (c : CallSys) : Prop :=
  forall id m, cs_threads c !! id = Some (Waiting, m) -> filled c id.
Definition settling (c : CallSys) : Prop :=
  forall id m, cs_threads c !! id = Some (Waiting, m) -> filled c id \/ id ∈ cs_failing c.

(** Without a send nobody begins to wait, and who waits keeps what it has. *)
Lemma step_waits actor c events c' :
  calls_ok c -> call_step actor c events c' -> (forall id, ~ In (EvSent id) events) ->
  forall id m, cs_threads c' !! id = Some (Waiting, m) ->
    cs_threads c !! id = Some (Waiting, m) /\ (filled c id -> filled c' id)
    /\ (id ∈ cs_failing c -> id ∈ cs_failing c' \/ filled c' id).
Proof.
  intros Hok H Hns. destruct H as [c method drawn|c id0 method H|c id0 method H|c id0 method H|c id0 method H t
    |c id0 method t H e|c m0 response id0 H Hp Ha taken|c id0 response H|c taken|c id0 rest H|c];
    intros id m; simpl.
  - intros [[_ [=]]|[Hne Ht]]%lookup_insert_Some. auto.
  - intros [[_ [=]]|[Hne Ht]]%lookup_insert_Some. split; [done|]. split; [|auto].
    unfold filled, slot_of. simpl. by rewrite lookup_insert_ne.
  - exfalso. apply (Hns id0). by left.
  - intros [_ Ht]%lookup_delete_Some. auto.
  - intros [[_ [=]]|[Hne Ht]]%lookup_insert_Some. auto.
  - intros [_ Ht]%lookup_delete_Some. auto.
  - subst taken. unfold take_waiter. destruct (decide _); auto.
  - intros Ht. split; [done|]. split; [|auto]. by apply filled_with_slot.
  - intros Ht. split; [done|]. split; [done|]. intros Hf. left. apply elem_of_app. by left.
  - intros Ht. split; [done|].
    split; [apply filled_with_slot, fail_slot_filled|]. rewrite H. intros [->|Hf]%elem_of_cons; [right|by left].
    apply slot_written; [|apply fail_fills]. by destruct (co_slot _ Hok id0 Waiting m Ht).
  - auto.
Qed.

Lemma settled_step actor c events c' :
  calls_ok c -> settled c -> call_step actor c events c' -> (forall id, ~ In (EvSent id) events) -> settled c'.
Proof.
  intros Hok Hs H Hns id m Ht. destruct (step_waits _ _ _ _ Hok H Hns id m Ht) as (Ht0 & Hf & _).
  by apply Hf, (Hs id m).
Qed.

Lemma settling_step actor c events c' :
  calls_ok c -> settling c -> call_step actor c events c' -> (forall id, ~ In (EvSent id) events) -> settling c'.
Proof.
  intros Hok Hs H Hns id m Ht. destruct (step_waits _ _ _ _ Hok H Hns id m Ht) as (Ht0 & Hf & Hl).
  destruct (Hs id m Ht0) as [?|?%Hl]; [left; auto|tauto].
Qed.

Lemma take_all_settles c : calls_ok c -> cs_carried c = None -> settling (take_all c).
Proof.
  intros Hok Hc id m Ht. destruct (co_slot _ Hok id Waiting m Ht eq_refl) as [_ [Hf|[Hf|[[r Hf]|Hf]]]].
  - by left.
  - right. simpl. apply elem_of_app. right. by apply elem_of_elements.
  - congruence.
  - right. simpl. apply elem_of_app. by left.
Qed.

(** ** The invariant *)

Definition between_sessions (sv : Supervisor) : bool :=
  match sv with
  | SvNone | SvTop | SvPublish | SvConnect | SvAfter | SvSleep | SvStopped | SvExited => true
  | _ => false
  end.

Record JointInv (j : Joint) : Prop := {
  ji_session : SessionInv (jt_session j);
  ji_calls : calls_ok (jt_calls j);
  ji_carried : ss_supervisor (jt_session j) <> SvWait -> cs_carried (jt_calls j) = None;
  ji_idle : jt_failing j = false -> cs_failing (jt_calls j) = [];
  ji_where : jt_failing j = true ->
    ss_supervisor (jt_session j) = SvFail
    \/ ss_supervisor (jt_session j) = SvNone /\ ss_control (jt_session j) = CtIdle;
  ji_settling : jt_failing j = true -> settling (jt_calls j);
  ji_settled : between_sessions (ss_supervisor (jt_session j)) = true -> settled (jt_calls j) }.

Lemma initial_joint_ok : JointInv initial_joint.
Proof.
  by split.
Qed.

(** Where no session is, no connection is open. *)
Lemma closed_between s :
  SessionInv s -> between_sessions (ss_supervisor s) = true \/ ss_supervisor s = SvFail ->
  socket_open (ss_client s) = false.
Proof.
  intros [Hk _]. unfold client_ok in Hk.
  destruct (ss_supervisor s); intros [H|H]; try done; by rewrite Hk.
Qed.

(** A step of the session alone. *)
Lemma session_moves j s :
  JointInv j -> jt_failing j = false -> SessionInv s ->
  (ss_supervisor s <> SvWait -> cs_carried (jt_calls j) = None) ->
  (between_sessions (ss_supervisor s) = true -> between_sessions (ss_supervisor (jt_session j)) = true) ->
  JointInv (with_session s j).
Proof.
  intros HI Hf Hs Hc Hb. split; simpl; try done; try (rewrite Hf; done).
  - apply HI.
  - apply HI.
  - intros H. apply (ji_settled _ HI). auto.
Qed.

(** A step of the table alone that sends nothing, or while a session is on. *)
Lemma table_moves actor j events c sub :
  JointInv j -> call_step actor (jt_calls j) events c ->
  (ss_supervisor (jt_session j) <> SvWait -> cs_carried c = None) ->
  (jt_failing j = false -> cs_failing c = []) ->
  sends_over (connection_open j) events ->
  JointInv (subscribing sub (with_calls c j)).
Proof.
  intros HI H Hc Hf Ho.
  assert (Hns : between_sessions (ss_supervisor (jt_session j)) = true \/ ss_supervisor (jt_session j) = SvFail ->
                forall id, ~ In (EvSent id) events).
  { intros Hb id Hin. specialize (Ho id Hin). unfold connection_open in Ho.
    rewrite (closed_between _ (ji_session _ HI) Hb) in Ho. done. }
  split; simpl; try done; try apply HI.
  - eapply calls_ok_step; [apply HI|done].
  - intros Hfl. eapply settling_step; [apply HI|by apply (ji_settling _ HI)|done|].
    apply Hns. destruct (ji_where _ HI Hfl) as [?|[Hn _]]; [by right|left; by rewrite Hn].
  - intros Hb. eapply settled_step; [apply HI|by apply (ji_settled _ HI)|done|]. apply Hns. by left.
Qed.
Lemma own_places ok s s' :
  session_own ok s = Some s' ->
  ss_supervisor s <> SvWait
  /\ (between_sessions (ss_supervisor s') = true ->
        between_sessions (ss_supervisor s) = true \/ ss_supervisor s = SvFail).
Proof.
  unfold session_own. destruct s as [r c st sv k q nt ns]. cbn.
  destruct sv; intros H; try done; repeat case_match; simplify_eq; cbn; auto.
Qed.

Lemma wake_places e n s s' :
  session_wakes e n s = Some s' ->
  between_sessions (ss_supervisor s') = true -> between_sessions (ss_supervisor s) = true.
Proof.
  unfold session_wakes. destruct s as [r c st sv k q nt ns]. cbn.
  destruct sv; intros H; try done; destruct e; simplify_eq; cbn; auto.
Qed.

Lemma own_moves j ok s :
  JointInv j -> jt_failing j = false -> session_own ok (jt_session j) = Some s ->
  ss_supervisor (jt_session j) <> SvFail -> JointInv (with_session s j).
Proof.
  intros HI Hf H Hn. destruct (own_places _ _ _ H) as [Hw Hb].
  apply session_moves; [done|done|by eapply session_own_ok, H; apply HI| |].
  - intros _. by apply (ji_carried _ HI).
  - intros Hs. by destruct (Hb Hs).
Qed.

(** While waiters are failed the session thread does nothing else. *)
Lemma failing_places j sv :
  JointInv j -> at_place j sv -> sv <> SvFail -> sv <> SvNone -> jt_failing j = false.
Proof.
  intros HI Hp H1 H2. destruct (jt_failing j) eqn:Hf; [|done]. unfold at_place in Hp.
  destruct (ji_where _ HI Hf) as [Hw|[Hw _]]; congruence.
Qed.

Lemma notify_moves j s :
  JointInv j -> session_step ByNotifier (jt_session j) s -> JointInv (with_session s j).
Proof.
  intros HI H. assert (Hs : ss_supervisor s = ss_supervisor (jt_session j) /\ ss_control s = ss_control (jt_session j)).
  { remember ByNotifier as a eqn:E. destruct H as [| | | | | | |s0 s' H]; try done. unfold notifier_turn in H.
    repeat case_match; by simplify_eq. }
  destruct Hs as [Hs Hc]. split; simpl; rewrite ?Hs, ?Hc; try apply HI.
  eapply session_step_ok; [apply HI|done].
Qed.

(** [fail_all_pending] begins. *)
Lemma take_all_moves j s :
  JointInv j -> SessionInv s -> jt_failing j = false -> ss_supervisor (jt_session j) <> SvWait ->
  ss_supervisor s = SvFail \/ ss_supervisor s = SvNone /\ ss_control s = CtIdle ->
  (between_sessions (ss_supervisor s) = true -> between_sessions (ss_supervisor (jt_session j)) = true) ->
  JointInv (failing true (with_calls (take_all (jt_calls j)) (with_session s j))).
Proof.
  intros HI Hs Hf Hw Hp Hb. split; simpl; try done.
  - apply calls_ok_take_all, HI.
  - intros _. by apply (ji_carried _ HI).
  - intros _. apply take_all_settles; [apply HI|by apply (ji_carried _ HI)].
  - intros H. eapply settled_step; [apply HI|apply (ji_settled _ HI); auto|by apply (st_fail_all parse dump)|].
    by intros id [].
Qed.

Lemma control_moves j s :
  JointInv j -> session_step ByControl (jt_session j) s ->
  ss_supervisor s = ss_supervisor (jt_session j) /\ (at_place j SvNone -> jt_failing j = false)
  \/ jt_failing j = false /\ between_sessions (ss_supervisor (jt_session j)) = true /\ ss_supervisor s <> SvWait ->
  JointInv (with_session s j).
Proof.
  intros HI H Hp. assert (Hs : SessionInv s) by (eapply session_step_ok; [apply HI|done]).
  destruct Hp as [[Hp Hn]|(Hf & Hp & Hw)].
  - split; simpl; rewrite ?Hp; try apply HI; [done|]. intros Hf. left.
    destruct (ji_where _ HI Hf) as [?|[Hnone _]]; [done|]. by rewrite (Hn Hnone) in Hf.
  - apply session_moves; [done|done|done| |done]. intros _. apply (ji_carried _ HI).
    by destruct (ss_supervisor (jt_session j)).
Qed.

(** A step of the table that the session thread makes at a place where it
    carries nothing and fails nobody. *)
Lemma place_moves actor j sv events c sub :
  JointInv j -> at_place j sv -> sv <> SvFail -> sv <> SvNone -> sv <> SvWait ->
  call_step actor (jt_calls j) events c -> cs_carried c = cs_carried (jt_calls j) ->
  cs_failing c = cs_failing (jt_calls j) -> sends_over (connection_open j) events ->
  JointInv (subscribing sub (with_calls c j)).
Proof.
  intros HI Hp H1 H2 H3 H Hc Hf Ho. eapply table_moves; [done|done| | |done].
  - intros _. rewrite Hc. apply (ji_carried _ HI). unfold at_place in Hp. congruence.
  - intros Hfl. rewrite Hf. by apply (ji_idle _ HI).
Qed.

Lemma caller_keeps id c events c' :
  call_step (Caller id) c events c' -> cs_carried c' = cs_carried c /\ cs_failing c' = cs_failing c.
Proof. intros H. remember (Caller id) as a eqn:E. by destruct H. Qed.

Lemma joint_caller_ok j id events c :
  JointInv j -> call_step (Caller id) (jt_calls j) events c -> sends_over (connection_open j) events ->
  JointInv (with_calls c j).
Proof.
  intros HI H Ho. destruct (caller_keeps _ _ _ _ H) as [Hc Hf].
  apply (table_moves (Caller id) j events c (jt_subscribe j)); [done|done| | |done].
  - intros Hw. rewrite Hc. by apply (ji_carried _ HI).
  - intros Hfl. rewrite Hf. by apply (ji_idle _ HI).
Qed.

Lemma quiet_sends open : sends_over open [].
Proof. by intros id []. Qed.

Lemma done_sends open id m r : sends_over open [EvDone id m r].
Proof. intros id' [[=]|[]]. Qed.

(** The session thread's sends: the table moves, then the place. *)
Lemma place_sends actor j sv ok s events c sub :
  JointInv j -> at_place j sv -> sv = SvSyncSend \/ sv = SvSubscribeSend ->
  call_step actor (jt_calls j) events c -> cs_carried c = cs_carried (jt_calls j) ->
  cs_failing c = cs_failing (jt_calls j) -> sends_over (connection_open j) events ->
  session_own ok (jt_session j) = Some s ->
  JointInv (subscribing sub (with_calls c (with_session s j))).
Proof.
  intros HI Hp Hsv H Hc Hf Ho Hs.
  assert (HI1 : JointInv (subscribing sub (with_calls c j)))
    by (apply (place_moves actor j sv events); destruct Hsv; subst; done).
  apply (own_moves _ ok s HI1); [|done|].
  - apply (failing_places j sv); destruct Hsv; subst; done.
  - simpl. unfold at_place in Hp. destruct Hsv; congruence.
Qed.

Lemma joint_start_ok j : JointInv j -> control_free j -> JointInv (with_session (session_start (jt_session j)) j).
Proof.
  intros HI [Hc Hf]. apply control_moves; [done|by apply sn_start|]. unfold session_start.
  destruct (ss_running (jt_session j)) eqn:Hr; [by left|right].
  destruct (ji_session _ HI) as [_ Hct]. unfold control_ok in Hct. rewrite Hc, Hr in Hct.
  destruct Hct as [Hn _]. rewrite Hn. by split; [apply Hf|].
Qed.

(** While the caller of [stop] is inside it, only the session thread fails waiters. *)
Lemma joining_fails_not j :
  JointInv j -> ss_control (jt_session j) <> CtIdle -> at_place j SvNone -> jt_failing j = false.
Proof.
  intros HI Hc Hp. destruct (jt_failing j) eqn:Hf; [|done]. unfold at_place in Hp.
  destruct (ji_where _ HI Hf) as [E|[_ E]]; congruence.
Qed.

Lemma joint_step_ok j events j' : JointInv j -> joint_step j events j' -> JointInv j'.
Proof.
  intros HI H. destruct H as [j id events c H Hid Ho|j ok s Hp H|j ok s Hp H|j c Hp Hn ->|j id Hp Hid H
    |j id s Hp Hid Ho H Hs|j id s Hp Hid H Hs|j message response id Hp Hc Hm Ha taken|j id response Hp Hc
    |j e n s Hc H|j id method Hp Hid H timed_out|j id method timed_out Hp Hid H c|j ok s Hp Hn H|j Hp Hf
    |j id rest Hf H|j ok s Hp Hf Hl H|j s H|j Hc|j Hc Hn|j Hc|j Hc Hp|j Hc Hn|j Hc Hp|j Hp Hf Hl].
  - by eapply joint_caller_ok.
  - apply own_moves with ok; [done| |done|by intros E; rewrite E in Hp].
    destruct (jt_failing j) eqn:Hf; [|done]. destruct (ji_where _ HI Hf) as [E|[E _]]; rewrite E in Hp; [done|].
    unfold session_own in H. by rewrite E in H.
  - apply (place_sends SessionThread j SvSyncSend ok s [] (draw_only (jt_calls j)) (jt_subscribe j));
      [done|done|auto|apply st_draw|done|done|apply quiet_sends|done].
  - apply (place_moves (Caller (ws_next_id (cs_client (jt_calls j)))) j SvSubscribeSend []); try done;
      [apply (st_call parse dump (jt_calls j))|apply quiet_sends].
  - apply (place_moves (Caller id) j SvSubscribeSend [] _ (jt_subscribe j)); try done;
      [by apply st_register|apply quiet_sends].
  - apply (place_sends (Caller id) j SvSubscribeSend true s [EvSent id]
             (set_phase id Waiting subscribe_method (cs_client (jt_calls j)) (jt_calls j)) (jt_subscribe j)); try done;
      [auto|by apply st_sent|by intros id' _].
  - apply (place_sends (Caller id) j SvSubscribeSend false s [EvDone id subscribe_method (Some (Err (not_sent subscribe_method)))]
             (returns id (erase_call id (cs_client (jt_calls j))) (jt_calls j)) None); try done; [auto|by apply st_not_sent|apply done_sends].
  - apply (table_moves SessionThread j [EvRead message] _ (jt_subscribe j)); try done.
    + by apply (st_take parse dump (jt_calls j) message response id).
    + intros Hf. by apply (ji_idle _ HI).
    + by intros id' [[=]|[]].
  - apply (table_moves SessionThread j [] _ (jt_subscribe j)); try done.
    + by apply st_answer.
    + intros Hf. by apply (ji_idle _ HI).
    + apply quiet_sends.
  - apply session_moves; [done| |by eapply session_wakes_ok, H; apply HI|done|by eapply wake_places].
    destruct (jt_failing j) eqn:Hf; [|done]. unfold session_wakes in H.
    destruct (ji_where _ HI Hf) as [E|[E _]]; by rewrite E in H.
  - apply (place_moves (Caller id) j SvReset [] _ (jt_subscribe j)); try done;
      [by apply (st_wake parse dump (jt_calls j))|apply quiet_sends].
  - apply (place_moves (Caller id) j SvReset [EvDone id method (call_result dump method timed_out (slot_of id c))]);
      try done; [by apply (st_return parse dump (jt_calls j))|apply done_sends].
  - apply own_moves with ok; [done|by apply (failing_places j SvReset)|done|].
    unfold at_place in Hp. congruence.
  - apply (take_all_moves j (jt_session j)); [done|apply HI|done| | |done]; unfold at_place in Hp; [congruence|by left].
  - apply (table_moves SessionThread j [] _ (jt_subscribe j)); try done.
    + by apply st_fail.
    + intros Hw. by apply (ji_carried _ HI).
    + by rewrite Hf.
    + apply quiet_sends.
  - destruct (own_places _ _ _ H) as [Hw Hb]. split; simpl; try done; try apply HI.
    + by eapply session_own_ok, H; apply HI.
    + intros _. by apply (ji_carried _ HI).
    + intros _ id m Ht. destruct (ji_settling _ HI Hf id m Ht) as [?|Hin]; [done|]. rewrite Hl in Hin.
      by apply not_elem_of_nil in Hin.
  - by apply notify_moves.
  - apply joint_start_ok; done.
  - apply control_moves; [done|apply sn_stop; by destruct Hc|left; split; [|apply Hc]]. unfold session_stop.
    by destruct (ss_supervisor (jt_session j)).
  - apply control_moves; [done|by apply sn_close|left; split; [done|]].
    apply joining_fails_not; [done|congruence].
  - apply control_moves; [done|by apply sn_join|right].
    split; [by apply (failing_places j SvExited)|]. unfold at_place in Hp. by rewrite Hp.
  - assert (Hsv : at_place j SvNone).
    { destruct (ji_session _ HI) as [_ Hct]. unfold control_ok in Hct. rewrite Hc in Hct. by destruct Hct. }
    apply take_all_moves; [done|eapply session_step_ok; [apply HI|by apply sn_done]| | |by right|];
      unfold at_place in Hsv; [apply joining_fails_not; [done|congruence|done]|congruence|by rewrite Hsv].
  - destruct Hc as [Hc Hf]. assert (Hst : session_step ByControl (jt_session j) (session_stop (jt_session j)))
      by (by apply sn_stop).
    unfold at_place in *. unfold session_stop in *. rewrite Hp in *.
    apply take_all_moves; [done|eapply session_step_ok; [apply HI|done]|by apply Hf|by rewrite Hp|by right|by rewrite Hp].
  - split; simpl; try done; apply HI.
Qed.
Lemma joint_run_ok tr j : joint_run initial_joint tr j -> JointInv j.
Proof.
  intros H. remember initial_joint as j0 eqn:E. induction H as [j|j1 tr j2 events j3 H IH Hs]; subst.
  - apply initial_joint_ok.
  - eapply joint_step_ok; [by apply IH|done].
Qed.

(** C25: No call waits for a lost session: the calls and the threads of the Binance session, run
    together, refine both systems of their own, a request is sent only over an open connection,
    and whenever no session is on (before the next one has connected, during the backoff, after
    stop) every call that still waits has its slot answered or failed, so that its next step
    returns it without a timeout. *)
Theorem no_call_waits_for_a_lost_session tr j :
  joint_run initial_joint tr j ->
  BinanceCallSystem.run parse dump initial_calls tr (jt_calls j)
  /\ (exists l, runs session_step initial_session l (jt_session j))
  /\ (forall events j' id, joint_step j events j' -> In (EvSent id) events -> ss_client (jt_session j) = Some Open)
  /\ (between_sessions (ss_supervisor (jt_session j)) = true ->
      forall id method, cs_threads (jt_calls j) !! id = Some (Waiting, method) ->
        slot_filled (slot_of id (cs_client (jt_calls j))) = true
        /\ call_step (Caller id) (jt_calls j) []
             (set_phase id (Woken false) method (cs_client (jt_calls j)) (jt_calls j))).
Proof.
  intros H. pose proof (joint_run_ok _ _ H) as HI. destruct (joint_projects _ _ H) as [Hc Hs].
  split_and!; [done|done| |].
  - intros events j' id Hstep Hin. assert (Ho : connection_open j = true).
    { destruct Hstep; simpl in Hin; try done; try (by destruct Hin as [[=]|[]]); eauto. }
    unfold connection_open in Ho. by destruct (ss_client (jt_session j)) as [[]|].
  - intros Hb id method Ht. pose proof (ji_settled _ HI Hb id method Ht) as Hf. split; [exact Hf|].
    pose proof (st_wake parse dump (jt_calls j) id method Ht) as Hw. unfold filled in Hf.
    cbv zeta in Hw. rewrite Hf in Hw. exact Hw.
Qed.
End Composite.

(** ** A call whose session is lost *)

Notation demo_run := (joint_run one_answer no_dump).

Lemma joint_app j1 tr1 j2 tr2 j3 : demo_run j1 tr1 j2 -> demo_run j2 tr2 j3 -> demo_run j1 (tr1 ++ tr2) j3.
Proof.
  intros H1 H2. induction H2 as [j|j tr2 j2' events j3 H2 IH Hs]; [by rewrite app_nil_r|].
  rewrite app_assoc. eapply joint_more; [by apply IH|done].
Qed.

Lemma joint_cons j1 events j2 tr j3 :
  joint_step one_answer no_dump j1 events j2 -> demo_run j2 tr j3 -> demo_run j1 (events ++ tr) j3.
Proof. intros H. apply joint_app. apply (joint_more _ _ j1 [] j1); [constructor|done]. Qed.

(** Take a step by a rule, and evaluate the state it leads to. *)
Ltac evaluate_start :=
  lazymatch goal with
  | |- demo_run ?j _ _ => let j' := eval vm_compute in j in change j with j'
  end.
Ltac rule_holds := solve [reflexivity | discriminate | (by split) | (intros ? []) | (by intros ? ?)].

Tactic Notation "joint_by" uconstr(rule) :=
  eapply joint_cons; [eapply rule; rule_holds|]; evaluate_start.
Tactic Notation "caller_by" uconstr(rule) :=
  eapply joint_cons; [eapply jn_caller; [eapply rule; rule_holds|rule_holds..]|]; evaluate_start.

Lemma lost_session_run :
  exists tr j, demo_run initial_joint tr j
    /\ ss_supervisor (jt_session j) = SvAfter
    /\ cs_threads (jt_calls j) !! 3 = Some (Waiting, "order.place") /\ In (EvSent 3) tr.
Proof.
  do 2 eexists. split.
  - joint_by jn_start.
    joint_by (jn_own _ _ _ true).
    joint_by (jn_own _ _ _ true).
    joint_by (jn_wake _ _ _ Came 0).
    joint_by (jn_sync_send _ _ _ false).
    joint_by jn_subscribe_draw.
    joint_by jn_subscribe_register.
    joint_by jn_subscribe_sent.
    joint_by (jn_own _ _ _ true).
    joint_by (jn_own _ _ _ true).
    joint_by (jn_caller _ _ _ _ _ _ (st_call _ _ _ "order.place")).
    caller_by (st_register _ _ _ 3 "order.place").
    caller_by (st_sent _ _ _ 3 "order.place").
    joint_by (jn_wake _ _ _ Failed 0).
    joint_by jn_erase.
    joint_by jn_erased.
    joint_by (jn_reset _ _ _ true).
    joint_by jn_take_all.
    joint_by jn_fail_one.
    joint_by (jn_failed _ _ _ true).
    constructor.
  - split_and!; [reflexivity|reflexivity|]. vm_compute. auto 10.
Qed.

Lemma no_call_waits_for_a_lost_session_witness :
  exists tr j, demo_run initial_joint tr j /\ In (EvSent 3) tr
    /\ cs_threads (jt_calls j) !! 3 = Some (Waiting, "order.place")
    /\ slot_filled (slot_of 3 (cs_client (jt_calls j))) = true.
Proof.
  destruct lost_session_run as (tr & j & Hrun & Hp & Ht & Hin). exists tr, j.
  destruct (no_call_waits_for_a_lost_session one_answer no_dump tr j Hrun) as (_ & _ & _ & Hw).
  split_and!; try assumption. refine (proj1 (Hw _ 3 _ Ht)). rewrite Hp. reflexivity.
Defined.
