(* ===== verification/FeedLifecycle.v ===== *)
(** * Life of the venue feeds: start, stop, supervisor and event delivery

    okx_ws_client.cpp and binance_ws_client.cpp ([start], [stop], [run],
    [emit], [pump_events]), okx_connector.cpp and binance_connector.cpp
    ([start], [stop], [forward_connectivity], [forward_report]).  What the core
    hears of a venue is a list of [Notice]s, the calls of the two handlers. *)

From S2P Require Import Prelude Types Json Retry FeedSupport OkxClient OkxFeed.
From S2P Require Import BinanceConfig BinanceCalls BinanceFeed.

Inductive Notice := Connectivity (up : bool) | Reporting (r : ExecutionReport).

(** [forward_connectivity] and [forward_report]: nothing without a handler. *)
Definition forward_connectivity (installed : bool) (a_connected : bool) : list Notice :=
  if installed then [Connectivity a_connected] else [].
Definition forward_report (installed : bool) (a_report : ExecutionReport) : list Notice :=
  if installed then [Reporting a_report] else [].

(** *** The handlers of a connector, as the core installs them *)

Section Handlers.
Context {S : Type}.

Record Handlers := mkHandlers {
  execution_report_handler : option (ExecutionReport -> S -> S);
  connectivity_handler : option (bool -> S -> S) }.

Definition no_handlers : Handlers := mkHandlers None None.

Definition set_execution_report_handler (a_handler : option (ExecutionReport -> S -> S)) (hs : Handlers)
    : Handlers := mkHandlers a_handler (connectivity_handler hs).
Definition set_connectivity_handler (a_handler : option (bool -> S -> S)) (hs : Handlers) : Handlers :=
  mkHandlers (execution_report_handler hs) a_handler.

(** What a notice does: the forwarding functions, their copy of the handler
    taken and called. *)
Definition notify (hs : Handlers) (n : Notice) (s : S) : S :=
  match n with
  | Connectivity up => match connectivity_handler hs with Some handler => handler up s | None => s end
  | Reporting r => match execution_report_handler hs with Some handler => handler r s | None => s end
  end.

Definition notify_all (hs : Handlers) (ns : list Notice) (s : S) : S := foldl (fun s n => notify hs n s) s ns.

Lemma notify_all_app hs ns1 ns2 s : notify_all hs (ns1 ++ ns2) s = notify_all hs ns2 (notify_all hs ns1 s).
Proof. apply foldl_app. Qed.
End Handlers.
Arguments Handlers : clear implicits.

(** The order the core relies on: from [connected], a connection is announced
    only while down, and reports arrive only while up.  The state after the
    notices, [None] when they break the order. *)
Fixpoint follow (connected : bool) (ns : list Notice) : option bool :=
  match ns with
  | [] => Some connected
  | Connectivity true :: ns => if connected then None else follow true ns
  | Connectivity false :: ns => follow false ns
  | Reporting _ :: ns => if connected then follow true ns else None
  end.

Lemma follow_app c ns1 ns2 : follow c (ns1 ++ ns2) = (follow c ns1 ≫= fun c' => follow c' ns2).
Proof.
  revert c. induction ns1 as [|[[]|r] ns1 IH]; intros c; simpl; [done| | |];
    try destruct c; simpl; auto.
Qed.

(** A report that keeps the order is preceded, since the last disconnection, by
    a connection and reports only. *)
Lemma follow_report c ns1 r ns2 :
  is_Some (follow c (ns1 ++ Reporting r :: ns2)) ->
  (exists ns0 rs, ns1 = ns0 ++ Connectivity true :: map Reporting rs)
  \/ c = true /\ exists rs, ns1 = map Reporting rs.
Proof.
  revert c. induction ns1 as [|n ns1 IH]; intros c H; simpl in H.
  { destruct c; [|by destruct H]. right. split; [done|]. by exists []. }
  assert (forall c', is_Some (follow c' (ns1 ++ Reporting r :: ns2)) ->
            (exists ns0 rs, n :: ns1 = ns0 ++ Connectivity true :: map Reporting rs)
            \/ c' = true /\ exists rs, ns1 = map Reporting rs) as Hnext.
  { intros c' [(ns0 & rs & ->)|Hc]%IH; [left; by exists (n :: ns0), rs|by right]. }
  destruct n as [[]|r0]; [destruct c; [by destruct H|]| |destruct c; [|by destruct H]];
    destruct (Hnext _ H) as [?|[Hc (rs & ->)]]; try (by left); try done.
  - left. by exists [], rs.
  - right. split; [done|]. by exists (r0 :: rs).
Qed.

(** ** The supervisor *)

(** [run] of both feeds: the sessions that ended before the stop, each
    followed by a Disconnected event, then the session the stop interrupted,
    if any, then Stopped.  [None]: an input that does not end its session. *)
Section Supervisor.
Context {I A : Type} (run_session : I -> option (FeedSessionOutcome * list A))
  (disconnected : string -> A) (stopped_event : A).

Definition ended_session (i : I) : option (list A) :=
  '(outcome, actions) ← run_session i; Some (actions ++ [disconnected (so_failure outcome)]).

Definition supervise (sessions : list I) (stopped : option I) : option (list A) :=
  ended ← mapM ended_session sessions;
  last ← match stopped with None => Some [] | Some i => snd <$> run_session i end;
  Some (concat ended ++ last ++ [stopped_event]).

(** The order holds for the whole run when it holds for every session. *)
Context (notices : A -> list Notice).

Definition all_notices (actions : list A) : list Notice := concat (map notices actions).

Lemma all_notices_app a b : all_notices (a ++ b) = all_notices a ++ all_notices b.
Proof. unfold all_notices. by rewrite map_app, concat_app. Qed.

Lemma all_notices_one a : all_notices [a] = notices a.
Proof. apply app_nil_r. Qed.

Context (session_order : forall i outcome actions,
  run_session i = Some (outcome, actions) -> is_Some (follow false (all_notices actions))).
Context (disconnected_notice : forall text, notices (disconnected text) = [Connectivity false]).
Context (stopped_notice : notices stopped_event = [Connectivity false]).

Lemma ended_order sessions ended :
  mapM ended_session sessions = Some ended -> follow false (all_notices (concat ended)) = Some false.
Proof.
  revert ended. induction sessions as [|i sessions IH]; intros ended Hm; simpl in Hm;
    [by injection Hm as <-|].
  destruct (ended_session i) as [acts|] eqn:Hi; [|done]. simpl in Hm.
  destruct (mapM _ sessions) as [ended'|]; [|done]. injection Hm as <-.
  unfold ended_session in Hi. destruct (run_session i) as [[o a]|] eqn:Hrun; [|done].
  injection Hi as <-. cbn [concat]. rewrite !all_notices_app, !follow_app.
  rewrite all_notices_one, disconnected_notice.
  destruct (session_order _ _ _ Hrun) as [c ->]. exact (IH _ eq_refl).
Qed.

Lemma supervise_order sessions stopped life :
  supervise sessions stopped = Some life -> follow false (all_notices life) = Some false.
Proof.
  unfold supervise. intros H. destruct (mapM _ sessions) as [ended|] eqn:Hm; [|done]. simpl in H.
  destruct (match stopped with Some _ => _ | None => _ end) as [last|] eqn:Hl; [|done]. simpl in H.
  injection H as <-. rewrite !all_notices_app, follow_app, (ended_order _ _ Hm). cbn [mbind option_bind].
  rewrite follow_app, all_notices_one, stopped_notice. assert (Hlast : is_Some (follow false (all_notices last))).
  { destruct stopped as [i|]; simpl in Hl; [|injection Hl as <-; by eexists].
    destruct (run_session i) as [[o acts]|] eqn:Hi; [|done]. injection Hl as <-. by eapply session_order. }
  by destruct Hlast as [c ->].
Qed.
End Supervisor.

(** Calls of a connector's [start] and [stop]; a start comes with what its
    feed will do until the next stop. *)
Inductive LifeCall {Life : Type} := CallStart (life : Life) | CallStop.
Arguments LifeCall : clear implicits.

(** ** OKX *)

Section Okx.
Context (parse : string -> option json) (dump : json -> string)
  (hmac_sha256_base64 : string -> string -> string) (config : OkxConfig).

(** The connector's event and report handlers; [installed]: the core has set
    its own. *)
Definition okx_notices (installed : bool) (a : OkxFeed.FeedAction) : list Notice :=
  match a with
  | OkxFeed.Emit type _ =>
      match OkxFeed.connectivity_of type with
      | Some up => forward_connectivity installed up
      | None => []
      end
  | OkxFeed.Report r => forward_report installed r
  | OkxFeed.Send _ => []
  end.

Definition okx_run : list OkxFeed.SessionInput -> option OkxFeed.SessionInput ->
    option (list OkxFeed.FeedAction) :=
  supervise (OkxFeed.run_session parse dump hmac_sha256_base64 config)
    (OkxFeed.Emit OkxFeed.Disconnected) (OkxFeed.Emit OkxFeed.Stopped "feed stopped").

(** [OkxConnector::start], [stop]: [feed_] holds what the feed does until it is stopped. *)
Definition okx_connector_step (installed : bool) (call : LifeCall (list OkxFeed.FeedAction))
    (feed : option (list OkxFeed.FeedAction)) : option (list OkxFeed.FeedAction) * list Notice :=
  match call with
  | CallStart life =>
      if negb (ws_enabled (ws config)) || negb (is_none feed) then (feed, []) else (Some life, [])
  | CallStop =>
      match feed with
      | None => (None, [])
      | Some life =>
          (None, concat (map (okx_notices installed) life) ++ forward_connectivity installed false)
      end
  end.

Fixpoint okx_connector_life (installed : bool) (calls : list (LifeCall (list OkxFeed.FeedAction)))
    (feed : option (list OkxFeed.FeedAction)) : list Notice :=
  match calls with
  | [] => []
  | call :: calls =>
      let '(feed, ns) := okx_connector_step installed call feed in
      ns ++ okx_connector_life installed calls feed
  end.
End Okx.

Section OkxFacts.
Context (parse : string -> option json) (dump : json -> string)
  (hmac : string -> string -> string) (config : OkxConfig).

Definition notices : list OkxFeed.FeedAction -> list Notice := all_notices (okx_notices true).

Definition only_reports (ns : list Notice) : Prop := Forall (fun n => exists r, n = Reporting r) ns.

Lemma follow_reports ns : only_reports ns -> follow true ns = Some true.
Proof. induction 1 as [|n ns [r ->] _ IH]; [done|exact IH]. Qed.

Lemma only_reports_concat {A} (f : A -> list Notice) l :
  (forall a, only_reports (f a)) -> only_reports (concat (map f l)).
Proof.
  intros Hf. induction l as [|a l IH]; simpl; [constructor|].
  unfold only_reports. apply Forall_app. split; [apply Hf|exact IH].
Qed.

Lemma handle_frame_reports message : only_reports (notices (OkxFeed.handle_frame parse dump message)).
Proof.
  unfold OkxFeed.handle_frame.
  assert (Hd : forall m, only_reports (notices (OkxFeed.dispatch_orders_message dump m))).
  { intros m. unfold OkxFeed.dispatch_orders_message, notices.
    destruct (jfind m "arg") as [[]|]; try by constructor.
    destruct (jfind m "data") as [[]|]; try by constructor.
    unfold all_notices. rewrite map_map. apply only_reports_concat. intros item. unfold OkxFeed.dispatch_item. cbv zeta.
    repeat case_match; simplify_eq; try by constructor.
    all: constructor; [by eexists|constructor]. }
  repeat case_match; try apply Hd; by constructor.
Qed.

Lemma okx_read_loop_reports steps actions reason inbound :
  OkxFeed.read_loop parse dump steps = Some (actions, reason, inbound) ->
  only_reports (notices actions).
Proof.
  revert actions reason inbound. induction steps as [|s steps IH]; intros actions reason inbound H;
    [done|]. destruct s as [message|a b|]; simpl in H; [|by simplify_eq; constructor..].
  destruct (OkxFeed.read_loop parse dump steps) as [[[rest why] b]|]; [|done]. simplify_eq.
  unfold notices. rewrite all_notices_app. apply Forall_app. split; [apply handle_frame_reports|by eapply IH].
Qed.

Lemma okx_session_order i outcome actions :
  OkxFeed.run_session parse dump hmac config i = Some (outcome, actions) ->
  is_Some (follow false (notices actions)).
Proof.
  unfold OkxFeed.run_session. intros H.
  repeat case_match; simplify_eq; try by eexists.
  match goal with H : OkxFeed.read_loop _ _ _ = _ |- _ => apply okx_read_loop_reports in H as Hr end.
  exists true. simpl. by apply follow_reports.
Qed.

Lemma okx_run_order sessions stopped life :
  okx_run parse dump hmac config sessions stopped = Some life ->
  follow false (notices life) = Some false.
Proof. apply supervise_order; [apply okx_session_order|done|done]. Qed.

(** What a feed can do between a start and a stop. *)
Definition okx_life (life : list OkxFeed.FeedAction) : Prop :=
  exists sessions stopped, okx_run parse dump hmac config sessions stopped = Some life.

Lemma okx_connector_order calls feed :
  Forall (fun call => match call with CallStart life => okx_life life | CallStop => True end) calls ->
  (forall life, feed = Some life -> okx_life life) ->
  follow false (okx_connector_life config true calls feed) = Some false.
Proof.
  intros Hcalls. revert feed. induction Hcalls as [|call calls Hcall _ IH]; intros feed Hfeed; [done|].
  simpl. destruct call as [life|]; simpl.
  - destruct (negb (ws_enabled (ws config)) || negb (is_none feed)); simpl; apply IH; [done|].
    intros l [= <-]. done.
  - destruct feed as [life|]; simpl; [|by apply IH].
    destruct (Hfeed life eq_refl) as (sessions & stopped & Hrun).
    apply okx_run_order in Hrun. rewrite !follow_app.
    change (concat (map (okx_notices true) life)) with (notices life). rewrite Hrun. simpl.
    by apply IH.
Qed.

(** What OKX tells the core is well bracketed over any sequence of starts and stops of the
    connector: a connection is announced only while the feed is down, reports arrive only
    between a connection and the next disconnection, every life ends disconnected, and a
    disabled feed tells nothing. *)
Theorem okx_notices_in_order calls :
  Forall (fun call => match call with CallStart life => okx_life life | CallStop => True end) calls ->
  follow false (okx_connector_life config true calls None) = Some false
  /\ (ws_enabled (ws config) = false -> okx_connector_life config true calls None = []).
Proof.
  intros Hcalls. split; [by apply okx_connector_order|]. intros Hoff. clear Hcalls.
  induction calls as [|[life|] calls IH]; simpl; [done| |by rewrite IH].
  rewrite Hoff. simpl. by rewrite IH.
Qed.
End OkxFacts.

(** ** Binance: the event queue *)

Definition FeedEvent : Type := BinanceFeed.FeedEventType * string.

(** [pump_events] between two critical sections: about to look at the queue
    with the lock held, delivering an event with the lock released (and the
    handler it copied), or returned. *)
Inductive PumpPhase := PumpHolds | PumpDelivers (e : FeedEvent) (handler : bool) | PumpReturned.

Record Pump := mkPump {
  pm_queue : list FeedEvent;
  pm_handler : bool;
  pm_stop : bool;
  pm_phase : PumpPhase;
  pm_delivered : list FeedEvent }.

Definition set_phase (q : list FeedEvent) (phase : PumpPhase) (p : Pump) : Pump :=
  mkPump q (pm_handler p) (pm_stop p) phase (pm_delivered p).

(** The notifier thread's next section; [None]: it waits, or has returned. *)
Definition pump_turn (p : Pump) : option Pump :=
  match pm_phase p with
  | PumpHolds =>
      match pm_queue p with
      | e :: q => Some (set_phase q (PumpDelivers e (pm_handler p)) p)
      | [] => if pm_stop p then Some (set_phase [] PumpReturned p) else None
      end
  | PumpDelivers e handler =>
      Some (mkPump (pm_queue p) (pm_handler p) (pm_stop p) PumpHolds
              (pm_delivered p ++ if handler then [e] else []))
  | PumpReturned => None
  end.

(** [emit], [set_event_handler], and the stop request of [stop]. *)
Inductive PumpMove := MoveEmit (e : FeedEvent) | MoveHandler (installed : bool) | MoveStop | MoveTurn.

Definition pump_move (m : PumpMove) (p : Pump) : Pump :=
  match m with
  | MoveEmit e => mkPump (pm_queue p ++ [e]) (pm_handler p) (pm_stop p) (pm_phase p) (pm_delivered p)
  | MoveHandler installed =>
      mkPump (pm_queue p) installed (pm_stop p) (pm_phase p) (pm_delivered p)
  | MoveStop => mkPump (pm_queue p) (pm_handler p) true (pm_phase p) (pm_delivered p)
  | MoveTurn => default p (pump_turn p)
  end.

Definition pump_moves (ms : list PumpMove) (p : Pump) : Pump :=
  fold_left (fun p m => pump_move m p) ms p.

(** [start] spawns the notifier on an empty queue. *)
Definition pump_start (handler : bool) : Pump := mkPump [] handler false PumpHolds [].

(** The turns that return after a stop request. *)
Definition pump_fuel (p : Pump) : nat :=
  2 * length (pm_queue p) + match pm_phase p with PumpHolds => 1 | PumpDelivers _ _ => 2 | PumpReturned => 0 end.

(** [stop], the second half: the stop request, then the join. *)
Definition pump_join (p : Pump) : Pump :=
  let p := pump_move MoveStop p in pump_moves (repeat MoveTurn (pump_fuel p)) p.

Definition emitted (ms : list PumpMove) : list FeedEvent :=
  omap (fun m => match m with MoveEmit e => Some e | _ => None end) ms.

(** Everything emitted so far: delivered, in the notifier's hand, or queued. *)
Definition pump_history (p : Pump) : list FeedEvent :=
  pm_delivered p
  ++ match pm_phase p with PumpDelivers e true => [e] | _ => [] end ++ pm_queue p.

(** With the handler installed, and nothing queued behind a notifier that has
    returned. *)
Definition handled (p : Pump) : Prop :=
  pm_handler p = true
  /\ match pm_phase p with
     | PumpHolds => True
     | PumpDelivers _ h => h = true
     | PumpReturned => pm_queue p = [] /\ pm_stop p = true
     end.

Lemma pump_turn_history p p' :
  handled p -> pump_turn p = Some p' ->
  handled p' /\ pump_history p' = pump_history p /\ pm_stop p' = pm_stop p
  /\ S (pump_fuel p') = pump_fuel p.
Proof.
  unfold handled, pump_turn, pump_history, pump_fuel. destruct p as [q h s phase dl]; simpl.
  intros [-> Hh]. destruct phase as [|e h|]; [destruct q as [|e q]; [destruct s; [|done]|]| |done];
    intros H; simplify_eq; simpl; (split; [done|]; split; [|split; [done|simpl; lia]]);
    rewrite <- ?app_assoc; done.
Qed.

(** The moves of the time before the stop request. *)
Definition before_stop (m : PumpMove) : Prop :=
  match m with MoveEmit _ | MoveTurn => True | MoveHandler _ | MoveStop => False end.

Lemma pump_move_history m p :
  handled p -> pm_stop p = false -> before_stop m ->
  let p' := pump_move m p in
  handled p' /\ pm_stop p' = false /\ pump_history p' = pump_history p ++ emitted [m].
Proof.
  intros Hh Hs Hm. destruct m as [e|b| |]; simpl; try done.
  - split_and!; [|done|unfold pump_history; simpl; by rewrite <- !app_assoc].
    destruct Hh as [Hh Hp]. split; [done|]. simpl. destruct (pm_phase p); [done..|].
    destruct Hp as [_ Hp]. congruence.
  - rewrite app_nil_r. destruct (pump_turn p) as [p'|] eqn:E; [|done]. simpl.
    destruct (pump_turn_history _ _ Hh E) as (? & ? & ? & _). split_and!; [done|congruence|done].
Qed.

Lemma pump_moves_history ms p :
  handled p -> pm_stop p = false -> Forall before_stop ms ->
  let p' := pump_moves ms p in
  handled p' /\ pm_stop p' = false /\ pump_history p' = pump_history p ++ emitted ms.
Proof.
  intros Hh Hs Hms. revert p Hh Hs. induction Hms as [|m ms Hm _ IH]; intros p Hh Hs.
  - split_and!; [exact Hh|exact Hs|]. by rewrite app_nil_r.
  - destruct (pump_move_history m p Hh Hs Hm) as (H1 & S1 & E1).
    destruct (IH _ H1 S1) as (H2 & S2 & E2). split_and!; [exact H2|exact S2|].
    simpl. rewrite E2, E1, <- app_assoc. f_equal. by destruct m.
Qed.

(** After a stop request the notifier is never blocked: it returns after
    [pump_fuel] turns with nothing left. *)
Lemma pump_turns_return n p :
  handled p -> pm_stop p = true -> pump_fuel p = n ->
  let p' := pump_moves (repeat MoveTurn n) p in
  pm_queue p' = [] /\ pm_phase p' = PumpReturned /\ pump_history p' = pump_history p.
Proof.
  revert p. induction n as [|n IH]; intros p Hh Hs Hn; simpl.
  - unfold pump_fuel in Hn. destruct p as [[|e q] h s [] dl]; simpl in *; (lia || done).
  - destruct (pump_turn p) as [p'|] eqn:E; simpl.
    + destruct (pump_turn_history _ _ Hh E) as (Hh' & Hist & Hs' & Hf).
      destruct (IH p') as (? & ? & Hp'); [done|congruence|lia|]. split_and!; [done..|congruence].
    + unfold handled, pump_turn, pump_fuel in *. destruct p as [[|e q] h s [] dl]; simpl in *;
        naive_solver.
Qed.

Lemma pump_join_delivers ms :
  Forall before_stop ms ->
  let p := pump_join (pump_moves ms (pump_start true)) in
  pm_phase p = PumpReturned /\ pm_queue p = [] /\ pm_delivered p = emitted ms.
Proof.
  intros Hms. destruct (pump_moves_history ms (pump_start true)) as (Hh & Hs & Hist); [done..|].
  set (p := pump_moves ms (pump_start true)) in *. unfold pump_join.
  destruct (pump_turns_return (pump_fuel (pump_move MoveStop p)) (pump_move MoveStop p))
    as (Hq & Hr & Hall); [|done|done|].
  { destruct Hh as [Hh Hp]. split; [done|]. simpl. destruct (pm_phase p); [done..|].
    destruct Hp. congruence. }
  split_and!; [exact Hr|exact Hq|]. revert Hall. unfold pump_history at 1. rewrite Hr, Hq.
  rewrite !app_nil_r. intros ->. exact Hist.
Qed.

(** C31: The notifier loses and reorders nothing: in any interleaving of emits and notifier
    turns the delivered events are a prefix of the emitted ones, all of them whenever the
    notifier waits, and after the stop request it returns within a bounded number of turns with
    every event delivered, Stopped included. *)
Theorem stop_delivers_every_event ms :
  Forall before_stop ms ->
  let p := pump_moves ms (pump_start true) in
  let joined := pump_join p in
  pm_delivered p `prefix_of` emitted ms
  /\ (pump_turn p = None -> pm_delivered p = emitted ms)
  /\ pm_phase joined = PumpReturned /\ pm_delivered joined = emitted ms.
Proof.
  intros Hms p joined. destruct (pump_join_delivers ms Hms) as (Hr & _ & Hd).
  destruct (pump_moves_history ms (pump_start true)) as (Hh & Hs & Hist); [done..|].
  fold p in Hh, Hs, Hist. simpl in Hist. split_and!; [| |exact Hr|exact Hd].
  - rewrite <- Hist. by eexists.
  - rewrite <- Hist. unfold pump_turn, pump_history.
    destruct Hh as [_ Hp]. destruct (pm_phase p); [|done|destruct Hp; congruence].
    destruct (pm_queue p); [|done]. by rewrite !app_nil_r.
Qed.

Lemma stop_delivers_every_event_witness :
  let ms := [MoveEmit (BinanceFeed.Connecting, "u"); MoveTurn; MoveEmit (BinanceFeed.Connected, "s");
             MoveTurn; MoveTurn; MoveEmit (BinanceFeed.Stopped, "feed stopped")] in
  pm_delivered (pump_join (pump_moves ms (pump_start true)))
  = [(BinanceFeed.Connecting, "u"); (BinanceFeed.Connected, "s"); (BinanceFeed.Stopped, "feed stopped")].
Proof.
  intros ms. destruct (stop_delivers_every_event ms) as (_ & _ & _ & H); [by repeat constructor|exact H].
Defined.

(** ** Binance: supervisor and connector *)

Section Binance.
Context (parse : string -> option json) (dump : json -> string)
  (hmac : string -> string -> option string) (config : BinanceConfig).

Definition events_of (actions : list BinanceFeed.FeedAction) : list FeedEvent :=
  omap (fun a => match a with BinanceFeed.Emit type detail => Some (type, detail) | _ => None end)
    actions.

(** The connector's event handler. *)
Definition binance_event_notices (installed : bool) (e : FeedEvent) : list Notice :=
  match BinanceFeed.connectivity_of e.1 with
  | Some up => forward_connectivity installed up
  | None => []
  end.

(** A session, with the call table it finds. *)
Definition binance_session (i : BinanceFeed.SessionInput * WsClient)
    : option (FeedSessionOutcome * list BinanceFeed.FeedAction) :=
  match BinanceFeed.run_session parse dump hmac config i.1 i.2 with
  | (actions, SessionEnds outcome _) => Some (outcome, actions)
  | _ => None
  end.

Definition binance_run : list (BinanceFeed.SessionInput * WsClient) ->
    option (BinanceFeed.SessionInput * WsClient) -> option (list BinanceFeed.FeedAction) :=
  supervise binance_session
    (BinanceFeed.Emit BinanceFeed.Disconnected) (BinanceFeed.Emit BinanceFeed.Stopped "feed stopped").

(** [BinanceConnector::start], [stop]: the moves of a life are the supervisor's
    emits, interleaved with the notifier's turns. *)
Definition binance_connector_step (installed : bool) (call : LifeCall (list PumpMove))
    (started : option (list PumpMove)) : option (list PumpMove) * list Notice :=
  match call with
  | CallStart moves => (Some (default moves started), [])
  | CallStop =>
      match started with
      | None => (None, [])
      | Some moves =>
          let p := pump_join (pump_moves moves (pump_start true)) in
          (None, concat (map (binance_event_notices installed) (pm_delivered p))
                 ++ forward_connectivity installed false)
      end
  end.

Fixpoint binance_connector_life (installed : bool) (calls : list (LifeCall (list PumpMove)))
    (started : option (list PumpMove)) : list Notice :=
  match calls with
  | [] => []
  | call :: calls =>
      let '(started, ns) := binance_connector_step installed call started in
      ns ++ binance_connector_life installed calls started
  end.

(** What the events among some actions tell the core once delivered. *)
Definition binance_action_notices (a : BinanceFeed.FeedAction) : list Notice :=
  match a with
  | BinanceFeed.Emit type detail => binance_event_notices true (type, detail)
  | _ => []
  end.
Definition binance_notices : list BinanceFeed.FeedAction -> list Notice :=
  all_notices binance_action_notices.

Lemma binance_notices_app a b : binance_notices (a ++ b) = binance_notices a ++ binance_notices b.
Proof. apply all_notices_app. Qed.

Lemma events_notices actions :
  concat (map (binance_event_notices true) (events_of actions)) = binance_notices actions.
Proof.
  induction actions as [|[t d|r|t] actions IH]; [done|..|exact IH|exact IH].
  change (binance_event_notices true (t, d) ++ concat (map (binance_event_notices true) (events_of actions))
          = binance_event_notices true (t, d) ++ binance_notices actions). by rewrite IH.
Qed.

Lemma benign_no_notices actions : Forall BinanceFeed.benign actions -> binance_notices actions = [].
Proof.
  induction 1 as [|a actions Ha _ IH]; [done|].
  destruct a as [[]|r|t]; simpl in Ha; try done; exact IH.
Qed.

Lemma binance_read_loop_order id turns ls actions result :
  BinanceFeed.read_loop parse dump id turns ls = (actions, result) ->
  binance_notices actions = []
  \/ ls_subscribed ls = false /\ binance_notices actions = [Connectivity true].
Proof.
  revert ls actions result. induction turns as [|t turns IH]; intros ls actions result H;
    simpl in H; [simplify_eq; by left|].
  destruct t as [message|stop| |op]; [|simplify_eq; by left..|by apply IH in H].
  destruct (dispatch_message parse message (ls_client ls)) as [d|] eqn:Hd; [|simplify_eq; by left].
  destruct (dispatch_actions _ _ _ _ Hd) as [Hb _]. apply benign_no_notices in Hb.
  destruct (negb (str_empty (ds_terminate d))); [simplify_eq; by left|].
  destruct (after_frame dump id ls d) as [[ls' more|reason]|] eqn:Ha; [|simplify_eq; by left..].
  destruct (BinanceFeed.read_loop _ _ id turns ls') as [acts res] eqn:Hl. simplify_eq.
  apply IH in Hl. rewrite !binance_notices_app, Hb. unfold after_frame in Ha.
  destruct (ls_subscribed ls) eqn:Hsub.
  - simplify_eq/=. destruct Hl as [->|[? _]]; [by left|done].
  - destruct (pd_response _) as [response|]; [|by destruct (pd_failed _); simplify_eq/=].
    destruct (value_int response "status" 0) as [status|]; [|done].
    destruct (status =? 200); [|done]. destruct (value_object response "result"); try done.
    destruct (value_ll _ _ _) as [sub|]; [|done]. simplify_eq/=.
    destruct Hl as [->|[? _]]; [by right|done].
Qed.

Lemma binance_session_order i st actions result :
  BinanceFeed.run_session parse dump hmac config i st = (actions, result) ->
  is_Some (follow false (binance_notices actions)).
Proof.
  unfold BinanceFeed.run_session, inline_time_sync. intros H.
  repeat case_match; simplify_eq; try by eexists.
  all: match goal with H : BinanceFeed.read_loop _ _ _ _ _ = _ |- _ =>
         apply binance_read_loop_order in H as Hr end.
  all: rewrite ?app_comm_cons, ?binance_notices_app, ?app_nil_l.
  all: destruct Hr as [->|[_ ->]]; by eexists.
Qed.

Lemma binance_run_order sessions stopped life :
  binance_run sessions stopped = Some life -> follow false (binance_notices life) = Some false.
Proof.
  apply supervise_order; [|done|done]. intros [i st] outcome actions. unfold binance_session. simpl.
  destruct (BinanceFeed.run_session _ _ _ _ i st) as [a []] eqn:Hrun; try done.
  intros H. simplify_eq. by eapply binance_session_order.
Qed.

(** The supervisor's emits between a start and a stop. *)
Definition binance_life (moves : list PumpMove) : Prop :=
  Forall before_stop moves
  /\ exists sessions stopped life, binance_run sessions stopped = Some life
      /\ emitted moves = events_of life.

(** What Binance tells the core about connectivity is well bracketed over any sequence of starts
    and stops, delivered through the event queue: a connection is announced only while the feed
    is down and every life ends disconnected. *)
Theorem binance_notices_in_order calls :
  Forall (fun call => match call with CallStart moves => binance_life moves | CallStop => True end)
    calls ->
  follow false (binance_connector_life true calls None) = Some false.
Proof.
  intros Hcalls.
  assert (Hgen : forall started, (forall moves, started = Some moves -> binance_life moves) ->
    follow false (binance_connector_life true calls started) = Some false).
  { induction Hcalls as [|call calls Hcall _ IH]; intros started Hst; [done|].
    cbn [binance_connector_life]. destruct call as [moves|]; cbn [binance_connector_step].
    - apply IH. intros m [= <-]. destruct started as [m0|]; [by apply Hst|done].
    - destruct started as [moves|]; [|by apply IH].
      destruct (Hst moves eq_refl) as (Hms & sessions & stopped & life & Hrun & Hem).
      destruct (pump_join_delivers _ Hms) as (_ & _ & Hdel). rewrite Hdel, Hem, events_notices.
      rewrite !follow_app, (binance_run_order _ _ _ Hrun). by apply IH. }
  by apply Hgen.
Qed.
End Binance.

(** ** Concrete lives *)

Definition demo_okx_life : list OkxFeed.FeedAction :=
  default [] (okx_run OkxFeed.demo_parse (fun _ => "") (fun _ _ => "") demo_ws_config
                [OkxFeed.demo_session] None).

Lemma okx_notices_in_order_witness :
  okx_connector_life demo_ws_config true [CallStart demo_okx_life; CallStop; CallStop] None
  = [Connectivity true; Reporting OkxFeed.demo_report; Connectivity false; Connectivity false;
     Connectivity false]
  /\ follow false [Connectivity true; Reporting OkxFeed.demo_report; Connectivity false;
                   Connectivity false; Connectivity false] = Some false.
Proof.
  split; [vm_compute; reflexivity|].
  apply (okx_notices_in_order OkxFeed.demo_parse (fun _ => "") (fun _ _ => "") demo_ws_config
           [CallStart demo_okx_life; CallStop; CallStop]).
  constructor; [|by repeat constructor].
  exists [OkxFeed.demo_session], None. vm_compute. reflexivity.
Defined.

Definition demo_binance_input : BinanceFeed.SessionInput := BinanceFeed.demo_input ["S"; "E"].
Definition demo_binance_life : list BinanceFeed.FeedAction :=
  default [] (binance_run BinanceFeed.demo_parse (fun _ => "") sample_hmac default_binance_config
                [(demo_binance_input, initial_client)] None).
Definition demo_moves : list PumpMove := map MoveEmit (events_of demo_binance_life) ++ [MoveTurn].

Lemma binance_notices_in_order_witness :
  binance_connector_life true [CallStart demo_moves; CallStop] None
  = [Connectivity true; Connectivity false; Connectivity false; Connectivity false]
  /\ follow false (binance_connector_life true [CallStart demo_moves; CallStop] None) = Some false.
Proof.
  split; [vm_compute; reflexivity|].
  apply (binance_notices_in_order BinanceFeed.demo_parse (fun _ => "") sample_hmac default_binance_config).
  constructor; [|by repeat constructor]. split.
  - vm_compute. by repeat constructor.
  - exists [(demo_binance_input, initial_client)], None, demo_binance_life.
    split; vm_compute; reflexivity.
Defined.
