(* ===== verification/FeedHandlers.v ===== *)
(** * The handlers of the feeds, and how the connectors wire them

    okx_ws_client.cpp and binance_ws_client.cpp ([set_report_handler],
    [set_event_handler], [emit]), okx_connector.cpp and binance_connector.cpp
    ([start]).  A connector installs in its feed closures that forward to its
    own handlers; the theorems say that what then happens is what FeedLifecycle
    calls the notices of the feed's actions. *)

From S2P Require Import Prelude Types FeedSupport OkxFeed BinanceFeed FeedLifecycle.

Section Handlers.
Context {E S : Type}.

Record FeedHandlers := mkFeedHandlers {
  report_handler : option (ExecutionReport -> S -> S);
  event_handler : option (E -> string -> S -> S) }.

Definition no_feed_handlers : FeedHandlers := mkFeedHandlers None None.

Definition set_report_handler (a_handler : option (ExecutionReport -> S -> S)) (hs : FeedHandlers)
    : FeedHandlers := mkFeedHandlers a_handler (event_handler hs).
Definition set_event_handler (a_handler : option (E -> string -> S -> S)) (hs : FeedHandlers)
    : FeedHandlers := mkFeedHandlers (report_handler hs) a_handler.

Definition emit (hs : FeedHandlers) (a_type : E) (a_detail : string) (s : S) : S :=
  match event_handler hs with Some handler => handler a_type a_detail s | None => s end.

Definition deliver_report (hs : FeedHandlers) (a_report : ExecutionReport) (s : S) : S :=
  match report_handler hs with Some handler => handler a_report s | None => s end.
End Handlers.
Arguments FeedHandlers : clear implicits.

Section Wiring.
Context {S : Type}.
(** The connector's own handlers. *)
Context (hs : Handlers S).

(** [OkxConnector::start]: the closures around [forward_report] and
    [forward_connectivity]. *)
Definition okx_event_closure (a_type : OkxFeed.FeedEventType) (_ : string) (s : S) : S :=
  match a_type with
  | OkxFeed.Connected => notify hs (Connectivity true) s
  | OkxFeed.Disconnected | OkxFeed.Stopped => notify hs (Connectivity false) s
  | OkxFeed.Connecting | OkxFeed.ProtocolWarning => s
  end.

Definition okx_wiring : FeedHandlers OkxFeed.FeedEventType S :=
  set_event_handler (Some okx_event_closure)
    (set_report_handler (Some (fun r s => notify hs (Reporting r) s)) no_feed_handlers).

Definition okx_act (fs : FeedHandlers OkxFeed.FeedEventType S) (s : S) (a : OkxFeed.FeedAction) : S :=
  match a with
  | OkxFeed.Emit type detail => emit fs type detail s
  | OkxFeed.Report r => deliver_report fs r s
  | OkxFeed.Send _ => s
  end.

(** [BinanceConnector::start]; a warning is printed. *)
Definition binance_event_closure (a_type : BinanceFeed.FeedEventType) (_ : string) (s : S) : S :=
  match a_type with
  | BinanceFeed.Connected => notify hs (Connectivity true) s
  | BinanceFeed.Disconnected | BinanceFeed.Stopped => notify hs (Connectivity false) s
  | BinanceFeed.Connecting | BinanceFeed.ProtocolWarning => s
  end.

Definition binance_wiring : FeedHandlers BinanceFeed.FeedEventType S :=
  set_event_handler (Some binance_event_closure)
    (set_report_handler (Some (fun r s => notify hs (Reporting r) s)) no_feed_handlers).

(** What the notifier delivers. *)
Definition binance_deliver (fs : FeedHandlers BinanceFeed.FeedEventType S) (s : S) (e : FeedEvent) : S :=
  emit fs e.1 e.2 s.

(** What an action or an event means to the core: its notices, in order. *)
Lemma okx_act_notices s a : okx_act okx_wiring s a = notify_all hs (okx_notices true a) s.
Proof. by destruct a as [[]| |]. Qed.

Lemma binance_deliver_notices s e :
  binance_deliver binance_wiring s e = notify_all hs (binance_event_notices true e) s.
Proof. by destruct e as [[] detail]. Qed.

Lemma foldl_notices {A} (act : S -> A -> S) (notices : A -> list Notice) :
  (forall s a, act s a = notify_all hs (notices a) s) ->
  forall l s, foldl act s l = notify_all hs (concat (map notices l)) s.
Proof.
  intros Hact l. induction l as [|a l IH]; intros s; [done|].
  cbn [foldl map concat]. rewrite Hact, IH. by rewrite notify_all_app.
Qed.

(** Through the closures that the connectors install, a feed's actions and events reach the
    core's handlers exactly as the notices of FeedLifecycle. *)
Theorem feeds_reach_the_core_as_notices :
  (forall actions s, foldl (okx_act okx_wiring) s actions
     = notify_all hs (concat (map (okx_notices true) actions)) s)
  /\ (forall events s, foldl (binance_deliver binance_wiring) s events
     = notify_all hs (concat (map (binance_event_notices true) events)) s).
Proof.
  split; intros l s; apply foldl_notices; [apply okx_act_notices|apply binance_deliver_notices].
Qed.

(** Without handlers of the core nothing happens. *)
Lemma no_handlers_no_effect actions s :
  hs = no_handlers -> foldl (okx_act okx_wiring) s actions = s.
Proof.
  intros E. rewrite (proj1 feeds_reach_the_core_as_notices). rewrite E. unfold notify_all.
  generalize (concat (map (okx_notices true) actions)). intros ns.
  induction ns as [|[up|r] ns IH]; [done|exact IH|exact IH].
Qed.
End Wiring.
