(* ===== verification/RestSupport.v ===== *)
(** * REST helpers: src/rest/route_support.hpp

    Responses, the structured error envelope, field allowlisting, decimal
    validation and the mapping of error codes to HTTP statuses. *)

From S2P Require Import Prelude Types Json Decimal DecimalFacts.

(** [crow::response]: the status handed to Crow and the JSON document that is
    printed as its body. *)
Record Response := mkResponse { res_status : Z; res_body : json }.

Definition json_response (a_status : Z) (a_body : json) : Response := mkResponse a_status a_body.

Definition error_response (a_status : Z) (a_code a_reason a_client_order_id : string) : Response :=
  json_response a_status
    (jobj [("error", jobj [("code", JString a_code); ("reason", JString a_reason);
                           ("clientOrderId", JString a_client_order_id)])]).

Definition internal_error_response (a_client_order_id : string) : Response :=
  error_response 500 "internal" "unexpected server error" a_client_order_id.

Fixpoint is_decimal_loop (dot_seen : bool) (a_text : string) : bool :=
  match a_text with
  | EmptyString => true
  | String c rest =>
      if Ascii.eqb c "." then negb dot_seen && is_decimal_loop true rest
      else is_digit c && is_decimal_loop dot_seen rest
  end.

Definition is_decimal (a_text : string) : bool :=
  negb (str_empty a_text || front_is "." a_text)
  && is_decimal_loop false a_text && negb (back_is "." a_text).

Definition unknown_fields (a_body : json) (a_allowed : list string) : string :=
  match a_body with
  | JObject fields =>
      comma_join (List.filter (fun key => negb (existsb (fun name => key ==s name) a_allowed))
                    (map fst fields))
  | _ => ""
  end.

Definition rest_string_field (a_body : json) (a_name : string) : string :=
  default "" (jstring a_body a_name).

Definition optional_string_field (a_body : json) (a_name : string) : option string :=
  jstring a_body a_name.

(** [std::string::rfind(prefix, 0) == 0]. *)
Definition starts_with (p s : string) : bool := String.prefix p s.

Definition map_error (a_error : Error) (a_client_order_id : string) : Response :=
  let c := code a_error in
  let respond status code := error_response status code (message a_error) a_client_order_id in
  if c ==s "invalid_request" then respond 400 "invalid_request"
  else if (c ==s "not_found") || (c ==s "venue:51016") || (c ==s "venue:-2013")
          || (c ==s "venue:51603") then respond 404 "not_found"
  else if c ==s "order_terminal" then respond 409 "order_terminal"
  else if c ==s "order_pending" then respond 409 "order_pending"
  else if starts_with "risk_" c then respond 400 c
  else if c ==s "venue_absent" then respond 409 "venue_rejected"
  else if c ==s "transport" then
    error_response 502 "venue_unavailable" "cannot reach the venue" a_client_order_id
  else if starts_with "venue:" c then respond 409 "venue_rejected"
  else if c ==s "persistence" then respond 500 "persistence"
  else respond 500 "internal".

Section Bodies.
Context (parse : string -> option json).

Definition parse_json_body (a_body : string) : json + Response :=
  match parse a_body with
  | Some (JObject fields) => inl (JObject fields)
  | _ => inr (error_response 400 "invalid_request" "request body must be a JSON object" "")
  end.
End Bodies.

(** ** The REST grammar is the core's grammar *)

(** The two ways [parse_decimal] refuses a well-formed decimal: too many
    fractional digits, or a mantissa that leaves [long long]. *)
Definition out_of_capacity (t : string) (e : Error) : Prop :=
  e = mkError "protocol" ("more than " +:+ std_to_string kMaxDecimalScale
                          +:+ " fractional digits: " +:+ t)
  \/ e = overflow_error "parse".

Lemma digit_value_nonneg c : is_digit c = true -> 0 <= digit_value c.
Proof.
  unfold is_digit, ch_between, digit_value. intros [H _]%andb_prop.
  apply N.leb_le in H. change (byte_of "0") with 48%N in H. lia.
Qed.

Lemma is_decimal_loop_parses t rest dot u s any :
  is_decimal_loop dot rest = true -> 0 <= u ->
  match parse_loop t rest u s dot any with
  | Ok (u', _, any') => 0 <= u' /\ (any = true -> any' = true)
  | Err e => out_of_capacity t e
  end.
Proof.
  revert dot u s any. induction rest as [|c rest IH]; intros dot u s any; simpl; [done|].
  destruct (Ascii.eqb c ".").
  { destruct dot; simpl; [done|]. intros H Hu. by apply IH. }
  intros [Hc Hrest]%andb_prop Hu. rewrite Hc. simpl.
  destruct (dot && (kMaxDecimalScale <=? s)); [by left|].
  destruct (fits_ll (u * 10)); simpl; [|by right].
  destruct (fits_ll (u * 10 + digit_value c)); simpl; [|by right].
  pose proof (digit_value_nonneg c Hc).
  specialize (IH dot (u * 10 + digit_value c) (if dot then s + 1 else s) true Hrest ltac:(lia)).
  destruct (parse_loop _ _ _ _ _ _) as [[[u' s'] any']|e]; [|done]. naive_solver.
Qed.

Lemma parse_loop_is_decimal t rest dot u s any r :
  parse_loop t rest u s dot any = Ok r -> is_decimal_loop dot rest = true.
Proof.
  revert dot u s any. induction rest as [|c rest IH]; intros dot u s any; simpl; [done|].
  destruct (Ascii.eqb c "."); [destruct dot; simpl; [done|apply IH]|].
  destruct (is_digit c); simpl; [|done].
  destruct (dot && (kMaxDecimalScale <=? s)); [done|].
  destruct (fits_ll (u * 10)); simpl; [|done].
  destruct (fits_ll (u * 10 + digit_value c)); simpl; [apply IH|done].
Qed.

Lemma normalized_loop_nonneg fuel d :
  0 <= unscaled d -> 0 <= unscaled (normalized_loop fuel d).
Proof.
  revert d. induction fuel as [|fuel IH]; intros d Hd; [done|]. simpl.
  destruct ((0 <? scale d) && (Z.rem (unscaled d) 10 =? 0)); [|done].
  apply IH. simpl. apply Z.quot_pos; lia.
Qed.

Lemma normalized_nonneg u s : 0 <= u -> 0 <= unscaled (normalized (mkDecimal u s)).
Proof.
  intros Hu. unfold normalized. pose proof (normalized_loop_nonneg (Z.to_nat s) (mkDecimal u s) Hu).
  simpl. by destruct (unscaled _ =? 0).
Qed.

(** The REST decimal grammar is the core's: what the core parses as a non-negative decimal
    passes the REST test, and what passes it is refused by the core only for more than eight
    fractional digits or a 64-bit overflow. *)
Theorem rest_decimals_are_core_decimals t :
  match parse_decimal t with
  | Ok d => is_decimal t = true /\ 0 <= unscaled d
  | Err e => is_decimal t = false \/ out_of_capacity t e
  end.
Proof.
  unfold parse_decimal, parse_signed_decimal, is_decimal.
  destruct t as [|c t]; [by left|]. set (text := String c t).
  change (str_empty text) with false. cbn [negb andb orb].
  destruct (front_is "-" text) eqn:Hneg.
  { left. unfold front_is in Hneg. simpl in Hneg. apply Ascii.eqb_eq in Hneg. subst c.
    reflexivity. }
  replace (match text with String _ rest => text | EmptyString => text end) with text by done.
  change (str_empty text) with false. cbn [orb].
  destruct (front_is "." text) eqn:Hdot; [by left|].
  destruct (back_is "." text) eqn:Hback; [left; by rewrite andb_false_r|]. cbn [negb orb andb].
  rewrite andb_true_r.
  destruct (is_decimal_loop false text) eqn:Hloop.
  - assert (Hany : exists u s,
      parse_loop text text 0 0 false false = Ok (u, s, true) /\ 0 <= u
      \/ exists e, parse_loop text text 0 0 false false = Err e /\ out_of_capacity text e).
    { subst text. unfold front_is in Hdot. simpl in Hdot, Hloop. rewrite Hdot in Hloop.
      apply andb_prop in Hloop as [Hc Hloop]. cbn [parse_loop]. rewrite Hdot, Hc. cbn [negb andb].
      pose proof (digit_value_nonneg c Hc).
      destruct (fits_ll (0 * 10)); cbn [negb];
        [|do 2 exists 0; right; eexists; split; [done|by right]].
      destruct (fits_ll (0 * 10 + digit_value c)); cbn [negb];
        [|do 2 exists 0; right; eexists; split; [done|by right]].
      change (0 * 10 + digit_value c) with (digit_value c).
      pose proof (is_decimal_loop_parses (String c t) t false (digit_value c) 0 true Hloop
                    ltac:(lia)) as Hp.
      destruct (parse_loop _ t _ _ _ _) as [[[u s] any]|e].
      - destruct Hp as [Hu Hany]. exists u, s. left. by rewrite Hany.
      - do 2 exists 0. right. by eexists. }
    destruct Hany as (u & s & [[-> Hu]|(e & -> & He)]); cbn [negb]; [|by right].
    split; [done|]. by apply normalized_nonneg.
  - destruct (parse_loop text text 0 0 false false) as [[[u s] any]|e] eqn:Hp; [|by left].
    apply parse_loop_is_decimal in Hp. congruence.
Qed.
