(* ===== verification/RestOrders.v ===== *)
(** * Order routes: src/rest/order_routes.cpp and risk_routes.cpp

    One function per handler, from the request to the response it hands to
    Crow.  Validation is a function of its own, [place_command] and
    [amend_command], so that what reaches the order manager can be stated. *)

From S2P Require Import Prelude Types Json Risk Latency OmsTypes Oms OkxWire RestSupport.

Definition kMaxClientOrderIdLength : Z := 32.

Definition rest_to_lower (a_text : string) : string := str_map to_lower_char a_text.
Definition rest_to_upper (a_text : string) : string := str_map to_upper_char a_text.

Definition alnum (c : ascii) : bool :=
  is_digit c || ch_between "a" "z" c || ch_between "A" "Z" c.

Definition is_valid_client_order_id (a_id : string) : bool :=
  if str_empty a_id || (kMaxClientOrderIdLength <? Z.of_nat (String.length a_id)) then false
  else str_forallb alnum a_id.

Definition parse_time_in_force (a_text : string) : option string :=
  let upper := rest_to_upper (rest_to_lower a_text) in
  if (upper ==s "GTC") || (upper ==s "IOC") || (upper ==s "FOK") then Some upper else None.

Definition record_json (a_record : OrderRecord) : json :=
  let body := jobj [("clientOrderId", JString (or_client_order_id a_record));
                    ("exchangeOrderId", JString (or_exchange_order_id a_record));
                    ("symbol", JString (or_symbol a_record));
                    ("venue", JString (or_venue a_record));
                    ("side", JString (side_to_string (or_side a_record)));
                    ("type", JString (type_to_string (or_type a_record)));
                    ("timeInForce", JString (or_time_in_force a_record));
                    ("state", JString (to_string (or_state a_record)));
                    ("price", JString (or_price a_record));
                    ("quantity", JString (or_quantity a_record));
                    ("filledQuantity", JString (or_filled_quantity a_record));
                    ("averageFillPrice", JString (or_average_fill_price a_record))] in
  match or_rejection a_record with
  | Some rejection =>
      jset body "rejection" (jobj [("code", JString (code rejection));
                                   ("reason", JString (message rejection))])
  | None => body
  end.

Definition invalid (reason id : string) : Response :=
  error_response 400 "invalid_request" reason id.

Definition quoted_venue (v : string) : string := dquote +:+ v +:+ dquote.

(** *** Validation of POST /orders; [supported] is the order manager's venues *)

Definition place_fields : list string :=
  ["clientOrderId"; "venue"; "symbol"; "side"; "type"; "price"; "quantity"; "timeInForce"].

Definition place_venue (supported : list string) (body : json) (id : string) : string + Response :=
  match optional_string_field body "venue" with
  | None => inl ""
  | Some venue_field =>
      let venue := rest_to_lower venue_field in
      if existsb (fun v => v ==s venue) supported then inl venue
      else inr (invalid ("unsupported venue " +:+ quoted_venue venue_field +:+ " (supported: "
                         +:+ comma_join (map rest_to_upper supported) +:+ ")") id)
  end.

Definition place_time_in_force (body : json) (type : OrderType) (id : string) : string + Response :=
  match optional_string_field body "timeInForce" with
  | None => inl ""
  | Some tif =>
      match parse_time_in_force tif with
      | None => inr (invalid "timeInForce must be GTC, IOC or FOK" id)
      | Some normalized =>
          match type with
          | Market => inr (invalid "timeInForce only applies to limit orders" id)
          | Limit => inl normalized
          end
      end
  end.

(** The tests on quantity and price, in the order of the source. *)
Definition place_amounts (type : OrderType) (price quantity id : string) : option Response :=
  if str_empty quantity || negb (is_decimal quantity)
  then Some (invalid "quantity must be a positive decimal" id)
  else if negb (str_empty price) && negb (is_decimal price)
  then Some (invalid "price must be a positive decimal" id)
  else match type, str_empty price with
       | Limit, true => Some (invalid "price is required for limit orders" id)
       | Market, false => Some (invalid "price is not allowed for market orders" id)
       | _, _ => None
       end.

Definition place_command (supported : list string) (body : json)
    : (OrderRequest * string) + Response :=
  let unknown := unknown_fields body place_fields in
  let id := rest_string_field body "clientOrderId" in
  if negb (str_empty unknown) then
    inr (invalid ("unsupported field(s): " +:+ unknown
           +:+ " (exchange-specific fields are rejected; use the common schema)") id)
  else if str_empty id then inr (invalid "clientOrderId is required" "")
  else if negb (is_valid_client_order_id id)
  then inr (invalid "clientOrderId must be 1-32 alphanumeric characters" id)
  else match place_venue supported body id with
  | inr response => inr response
  | inl venue =>
      let symbol := rest_string_field body "symbol" in
      if str_empty symbol then inr (invalid "symbol is required" id)
      else match parse_side (rest_string_field body "side") with
      | None => inr (invalid "side must be buy or sell" id)
      | Some side =>
          match parse_order_type (rest_string_field body "type") with
          | None => inr (invalid "type must be limit or market" id)
          | Some type =>
              match place_time_in_force body type id with
              | inr response => inr response
              | inl tif =>
                  let price := rest_string_field body "price" in
                  let quantity := rest_string_field body "quantity" in
                  match place_amounts type price quantity id with
                  | Some response => inr response
                  | None => inl (mkOrderRequest id symbol side type price quantity tif, venue)
                  end
              end
          end
      end
  end.

Definition amend_amount (field : string) (value : option string) (id : string) : option Response :=
  match value with
  | Some v => if str_empty v || negb (is_decimal v)
              then Some (invalid (field +:+ " must be a positive decimal") id) else None
  | None => None
  end.

Definition amend_command (a_client_order_id : string) (body : json) : AmendCommand + Response :=
  let id := a_client_order_id in
  let unknown := unknown_fields body ["price"; "quantity"] in
  if negb (str_empty unknown) then
    inr (invalid ("unsupported field(s): " +:+ unknown +:+ " (amend accepts price and/or quantity)") id)
  else
    let command := mkAmendCommand id (optional_string_field body "price")
                     (optional_string_field body "quantity") in
    if is_none (ac_new_price command) && is_none (ac_new_quantity command)
    then inr (invalid "amend requires price and/or quantity" id)
    else match amend_amount "price" (ac_new_price command) id with
         | Some response => inr response
         | None => match amend_amount "quantity" (ac_new_quantity command) id with
                   | Some response => inr response
                   | None => inl command
                   end
         end.

(** *** Handlers *)

Definition place_response (outcome : PlaceOutcome) : Response :=
  let record := po_record outcome in
  json_response (if OrderState_eqb (or_state record) Pending then 202 else 201)
    (jobj [("clientOrderId", JString (or_client_order_id record));
           ("exchangeOrderId", JString (or_exchange_order_id record));
           ("symbol", JString (or_symbol record));
           ("venue", JString (or_venue record));
           ("state", JString (to_string (or_state record)));
           ("replayed", JBool (po_replayed outcome))]).

Definition cancel_response (record : OrderRecord) : Response :=
  json_response 200
    (jobj [("clientOrderId", JString (or_client_order_id record));
           ("exchangeOrderId", JString (or_exchange_order_id record));
           ("symbol", JString (or_symbol record));
           ("venue", JString (or_venue record));
           ("state", JString (to_string (or_state record)))]).

Definition amend_response (record : OrderRecord) : Response :=
  json_response 200
    (jobj [("clientOrderId", JString (or_client_order_id record));
           ("exchangeOrderId", JString (or_exchange_order_id record));
           ("symbol", JString (or_symbol record));
           ("state", JString (to_string (or_state record)));
           ("price", JString (or_price record));
           ("quantity", JString (or_quantity record))]).

Section Routes.
Context {W : Type} (parse : string -> option json) (cfg : OmsConfig W).

Definition get_orders_route (st : Oms) : Response :=
  json_response 200 (jobj [("orders", JArray (map record_json (all_orders st)))]).

(** [None] of the operation is an exception, which the handler catches. *)
Definition post_orders_route (a_body : string) (st : Oms) (w : W) : Response * Oms * W :=
  let '(rest_hit_ns, l) := latency_now (latency st) in
  let st := with_latency l st in
  match parse_json_body parse a_body with
  | inr response => (response, st, w)
  | inl body =>
      match place_command (venues cfg) body with
      | inr response => (response, st, w)
      | inl (request, venue) =>
          let '(outcome, st, w) := place cfg request venue rest_hit_ns st w in
          (match outcome with
           | None => internal_error_response ""
           | Some (Err error) => map_error error (rq_client_order_id request)
           | Some (Ok outcome) => place_response outcome
           end, st, w)
      end
  end.

Definition get_order_route (a_client_order_id : string) (st : Oms) : Response :=
  match query a_client_order_id st with
  | Err error => map_error error a_client_order_id
  | Ok record => json_response 200 (record_json record)
  end.

Definition delete_order_route (a_client_order_id : string) (st : Oms) (w : W)
    : Response * Oms * W :=
  let '(record, st, w) := cancel cfg a_client_order_id st w in
  (match record with
   | Err error => map_error error a_client_order_id
   | Ok record => cancel_response record
   end, st, w).

Definition put_order_route (a_client_order_id a_body : string) (st : Oms) (w : W)
    : Response * Oms * W :=
  match parse_json_body parse a_body with
  | inr response => (response, st, w)
  | inl body =>
      match amend_command a_client_order_id body with
      | inr response => (response, st, w)
      | inl command =>
          let '(record, st, w) := amend cfg command st w in
          (match record with
           | None => internal_error_response a_client_order_id
           | Some (Err error) => map_error error a_client_order_id
           | Some (Ok record) => amend_response record
           end, st, w)
      end
  end.

Definition health_route (st : Oms) : Response :=
  let '(known_orders, s) := stats st in
  json_response 200
    (jobj [("status", JString "ok"); ("knownOrders", JUint known_orders);
           ("reportsApplied", JUint (reports_applied s));
           ("reportsStale", JUint (reports_stale s));
           ("reportsBuffered", JUint (reports_buffered s))]).

Definition price_route (a_symbol : string) (venue_param : option string) (w : W) : Response * W :=
  let venue := match venue_param with Some v => rest_to_lower v | None => "" end in
  let '(quote, w) := oms_get_price cfg a_symbol venue w in
  (match quote with
   | Err error => map_error error ""
   | Ok q => json_response 200 (jobj [("symbol", JString a_symbol); ("venue", JString (pq_venue q));
                                      ("price", JString (pq_price q))])
   end, w).

(** *** GET /risk *)

Definition limits_json (a_limits : InstrumentRiskLimits) : json :=
  jobj [("maxQty", JString (max_qty a_limits)); ("maxNotional", JString (max_notional a_limits));
        ("maxPosition", JString (max_position a_limits))].

Definition risk_route : Response :=
  let risk := OmsTypes.risk cfg in
  let blocks := JObject (foldr (fun kv acc => obj_set kv.1 (limits_json kv.2) acc) []
                           (map_to_list (instruments risk))) in
  json_response 200
    (jobj [("default", match defaults risk with Some l => limits_json l | None => JNull end);
           ("instruments", blocks)]).
End Routes.
