(* ===== verification/RestFacts.v ===== *)
(** * What the order routes guarantee

    Only validated commands reach the order manager; a success shows the
    registry's record; a request refused before the order manager has no
    effect. *)

From S2P Require Import Prelude Types OrderState Json Risk Latency EventLog OmsTypes Oms OmsFacts.
From S2P Require Import OmsSections OmsSystem OkxWire RestSupport RestOrders.

(** ** Validation *)

Record valid_request (supported : list string) (rq : OrderRequest) (venue : string) : Prop := {
  vr_id : 1 <= Z.of_nat (String.length (rq_client_order_id rq)) <= kMaxClientOrderIdLength
          /\ str_forallb alnum (rq_client_order_id rq) = true;
  vr_venue : venue = "" \/ In venue supported;
  vr_symbol : rq_instrument_id rq <> "";
  vr_quantity : is_decimal (rq_quantity rq) = true;
  vr_limit : rq_type rq = Limit -> is_decimal (rq_price rq) = true
             /\ In (rq_time_in_force rq) [""; "GTC"; "IOC"; "FOK"];
  vr_market : rq_type rq = Market -> rq_price rq = "" /\ rq_time_in_force rq = "" }.

(** No field of the body is outside the schema.  The allowlist reports the
    unknown names joined by commas, so that a field with the empty name goes
    unnoticed ([empty_field_accepted]). *)
Definition only_fields (allowed : list string) (body : json) : Prop :=
  forall key value, jfind body key = Some value -> key = "" \/ In key allowed.

Lemma comma_loop_nonempty names acc :
  acc <> "" ->
  fold_left (fun acc n => (if str_empty acc then acc else acc +:+ ", ") +:+ n) names acc <> "".
Proof.
  revert acc. induction names as [|n names IH]; intros acc Hacc; simpl; [done|]. apply IH.
  destruct acc as [|c acc]; [done|]. simpl. by rewrite !str_app_cons.
Qed.

Lemma comma_join_nil names : comma_join names = "" -> Forall (fun n => n = "") names.
Proof.
  unfold comma_join. induction names as [|n names IH]; simpl; [done|]. rewrite str_app_nil_l.
  intros H. destruct n as [|c n]; [constructor; [done|by apply IH]|].
  by apply comma_loop_nonempty in H.
Qed.

Lemma in_obj_find {V : Type} (fields : list (string * V)) key value : obj_find key fields = Some value -> In key (map fst fields).
Proof.
  induction fields as [|[k v] fields IH]; simpl; [done|].
  destruct (streqb_spec key k) as [->|]; [by left|]. intros H. right. by apply IH.
Qed.

Lemma existsb_streqb s l : existsb (fun n => s ==s n) l = true <-> In s l.
Proof.
  rewrite existsb_exists. split.
  - intros (x & Hin & Hx). apply streqb_true in Hx. by subst.
  - intros H. exists s. split; [done|apply streqb_refl].
Qed.

Lemma unknown_fields_none body allowed :
  is_object body = true -> unknown_fields body allowed = "" -> only_fields allowed body.
Proof.
  destruct body; try done. intros _ H key value Hk. simpl in H, Hk.
  apply comma_join_nil in H. rewrite List.Forall_forall in H.
  destruct (existsb (fun name => key ==s name) allowed) eqn:He.
  - right. by apply existsb_streqb.
  - left. apply H, filter_In. split; [by eapply in_obj_find|by rewrite He].
Qed.

Lemma parse_time_in_force_values text tif :
  parse_time_in_force text = Some tif -> In tif ["GTC"; "IOC"; "FOK"].
Proof.
  unfold parse_time_in_force. set (upper := rest_to_upper _).
  destruct (streqb_spec upper "GTC"); [intros [= <-]; simpl; auto|].
  destruct (streqb_spec upper "IOC"); [intros [= <-]; simpl; auto|].
  destruct (streqb_spec upper "FOK"); [intros [= <-]; simpl; auto|done].
Qed.

Lemma place_amounts_ok type price quantity id :
  place_amounts type price quantity id = None ->
  is_decimal quantity = true /\ (type = Limit -> is_decimal price = true)
  /\ (type = Market -> price = "").
Proof.
  unfold place_amounts. destruct (is_decimal quantity), (str_empty quantity); try done; cbn [orb negb].
  destruct (str_empty price) eqn:Hp, (is_decimal price) eqn:Hd; cbn [andb negb];
    destruct type; try done; intros _; repeat split; try done; intros _.
  all: by apply str_empty_true.
Qed.

(** C34: Only validated orders reach the order manager: an accepted body has an alphanumeric id
    of 1 to 32 characters, a known or default venue, a symbol, a decimal quantity, a decimal
    price exactly for limit orders, a time in force of the three, and no field outside the
    schema but one with an empty name. *)
Theorem place_command_validates supported body rq venue :
  is_object body = true -> place_command supported body = inl (rq, venue) ->
  valid_request supported rq venue /\ only_fields place_fields body.
Proof.
  intros Hobj. unfold place_command.
  destruct (str_empty (unknown_fields body place_fields)) eqn:Hunknown; cbn [negb]; [|done].
  apply str_empty_true in Hunknown. set (id := rest_string_field body "clientOrderId").
  destruct (str_empty id) eqn:Hid; [done|].
  destruct (is_valid_client_order_id id) eqn:Hvalid; cbn [negb]; [|done].
  destruct (place_venue supported body id) as [v|] eqn:Hvenue; [|done].
  destruct (str_empty (rest_string_field body "symbol")) eqn:Hsymbol; [done|].
  destruct (parse_side _) as [side|]; [|done].
  destruct (parse_order_type _) as [type|]; [|done].
  destruct (place_time_in_force body type id) as [tif|] eqn:Htif; [|done].
  destruct (place_amounts _ _ _ _) eqn:Hamounts; [done|]. intros H. simplify_eq.
  apply place_amounts_ok in Hamounts as (Hq & Hlimit & Hmarket).
  split; [|by apply unknown_fields_none]. constructor; simpl; try done.
  - unfold is_valid_client_order_id in Hvalid. rewrite Hid in Hvalid. cbn [orb] in Hvalid.
    destruct (Z.ltb_spec kMaxClientOrderIdLength (Z.of_nat (String.length id))); [done|].
    split; [|done]. split; [|done]. destruct id; [done|]. simpl. lia.
  - unfold place_venue in Hvenue. destruct (optional_string_field body "venue") as [f|];
      [|simplify_eq; by left].
    destruct (existsb _ supported) eqn:He; [|done]. simplify_eq. right.
    apply existsb_exists in He as (x & Hin & Hx). apply streqb_true in Hx. by subst.
  - by apply str_empty_false.
  - intros Ht. split; [auto|]. unfold place_time_in_force in Htif.
    destruct (optional_string_field body "timeInForce") as [f|]; [|simplify_eq; by left].
    destruct (parse_time_in_force f) as [n|] eqn:Hf; [|done].
    destruct type; [|done]. simplify_eq. right. by eapply parse_time_in_force_values.
  - intros Ht. split; [auto|]. unfold place_time_in_force in Htif.
    destruct (optional_string_field body "timeInForce") as [f|]; [|by simplify_eq].
    destruct (parse_time_in_force f) as [n|]; [|done]. by destruct type.
Qed.

Definition demo_order : json :=
  jobj [("clientOrderId", JString "a1"); ("symbol", JString "BTC-USDT"); ("side", JString "BUY");
        ("type", JString "limit"); ("price", JString "50000"); ("quantity", JString "0.1");
        ("timeInForce", JString "ioc")].

Definition demo_posted : OrderRequest :=
  mkOrderRequest "a1" "BTC-USDT" Buy Limit "50000" "0.1" "IOC".

Lemma place_command_validates_witness :
  valid_request ["okx"] demo_posted "" /\ only_fields place_fields demo_order.
Proof. by apply (place_command_validates ["okx"] demo_order). Defined.

(** A field whose name is empty passes the allowlist. *)
Example empty_field_accepted :
  place_command ["okx"] (jset demo_order "" (JString "venue-specific")) = inl (demo_posted, "").
Proof. vm_compute. reflexivity. Qed.

(** ** Successes show the registry's record *)

Section Success.
Context {W : Type} (parse : string -> option json) (cfg : OmsConfig W).

Lemma place_ok_recorded req venue hit st w o st' w' :
  place cfg req venue hit st w = (Some (Ok o), st', w') ->
  orders st' !! rq_client_order_id req = Some (po_record o).
Proof.
  intros Hp. unfold place in Hp. destruct (latency_now (latency st)) as [t l].
  pose proof (place_begin_spec cfg req venue (with_latency l st)) as Hv.
  destruct (place_begin cfg req venue (with_latency l st)) as [s st1].
  destruct Hv as [r Hr|Hn Hc|Hn|e x st1 Hn Ha|e st1 Hn Ha|conn st1 Hn Hc Ha]; simplify_eq.
  - destruct (or_rejection r); [done|]. injection H as <-. exact Hr.
  - destruct (place_order req w) as [pl w1]. set (st3 := place_send_stamps _ _ _ _) in Hp.
    unfold place_finish, lookup in Hp.
    destruct (drain_raced_reports _ st3) as [raced st4].
    destruct (orders st4 !! rq_client_order_id req) as [r|]; [|done]. destruct pl as [ack|e].
    + destruct (append_or_error _ st4) as [[e|] st5]; [done|].
      destruct (apply_raced _ _ _) as [r6 st6]. simplify_eq. simpl. apply lookup_insert_eq.
    + destruct (code e <>s "transport").
      * by destruct (apply_transition _ _) as [[] s].
      * by destruct (apply_raced _ _ _).
Qed.

Lemma cancel_ok_recorded id st w r st' w' :
  cancel cfg id st w = (Ok r, st', w') -> orders st' !! id = Some r.
Proof.
  unfold cancel. destruct (cancel_begin cfg id st) as [o|conn wire] eqn:Hb.
  - intros H. injection H as -> -> ->. unfold cancel_begin, lookup in Hb.
    repeat (case_match; simplify_eq; try done).
  - destruct (cancel_order wire w) as [placement w1]. unfold cancel_finish, lookup.
    destruct (orders st !! id) as [r0|]; [|done]. destruct placement as [ack|]; [|done].
    destruct (apply_transition _ _) as [[] s]; intros; simplify_eq; simpl; apply lookup_insert_eq.
Qed.

Lemma amend_begin_not_ok cmd st r st' : amend_begin cfg cmd st = (AmendDone (Ok r), st') -> False.
Proof. unfold amend_begin, stage_amend. repeat case_match; intros; simplify_eq. Qed.

Lemma amend_ok_recorded cmd st w r st' w' :
  amend cfg cmd st w = (Some (Ok r), st', w') -> orders st' !! ac_client_order_id cmd = Some r.
Proof.
  unfold amend. destruct (amend_begin cfg cmd st) as [s st1] eqn:Hb. destruct s as [o|conn wire|]; [|..|done].
  - intros H. injection H as -> -> ->. exfalso. by eapply amend_begin_not_ok.
  - destruct (amend_order wire w) as [placement w1]. unfold amend_finish, lookup.
    destruct (drain_raced_reports _ st1) as [raced st2].
    destruct (orders st2 !! _) as [r0|]; [|done]. destruct placement as [ack|e].
    + destruct (append_or_error _ st2) as [[e|] st3]; [done|].
      destruct (apply_raced _ _ _) as [r4 st4]. intros H. simplify_eq. simpl. apply lookup_insert_eq.
    + destruct (if negb _ then _ else _) as [r3 st3]. by destruct (apply_raced _ _ _).
Qed.
End Success.

Lemma map_error_status e id : 400 <= res_status (map_error e id).
Proof.
  unfold map_error, error_response, json_response. repeat (case_match; simpl; try lia).
Qed.

Lemma parse_json_body_refusal parse body resp :
  parse_json_body parse body = inr resp -> res_status resp = 400.
Proof. unfold parse_json_body. repeat case_match; intros; by simplify_eq. Qed.

Lemma place_command_refusal supported body resp :
  place_command supported body = inr resp -> res_status resp = 400.
Proof.
  unfold place_command, place_venue, place_time_in_force, place_amounts.
  repeat case_match; intros; by simplify_eq.
Qed.

Lemma amend_command_refusal id body resp :
  amend_command id body = inr resp -> res_status resp = 400.
Proof. unfold amend_command, amend_amount. repeat case_match; intros; by simplify_eq. Qed.

Lemma amend_command_id id body cmd : amend_command id body = inl cmd -> ac_client_order_id cmd = id.
Proof. unfold amend_command. repeat case_match; intros; by simplify_eq. Qed.

(** The requests that may change the registry. *)
Inductive MutatingRequest :=
  | PostOrders (body : string)
  | DeleteOrder (id : string)
  | PutOrder (id body : string).

Section Served.
Context {W : Type} (parse : string -> option json) (cfg : OmsConfig W).

Definition serve (r : MutatingRequest) (st : Oms) (w : W) : Response * Oms * W :=
  match r with
  | PostOrders body => post_orders_route parse cfg body st w
  | DeleteOrder id => delete_order_route cfg id st w
  | PutOrder id body => put_order_route parse cfg id body st w
  end.

(** The id a request names, once its body is accepted. *)
Definition named_id (r : MutatingRequest) : option string :=
  match r with
  | PostOrders body =>
      match parse_json_body parse body with
      | inl j => match place_command (venues cfg) j with
                 | inl (rq, _) => Some (rq_client_order_id rq) | inr _ => None end
      | inr _ => None
      end
  | DeleteOrder id => Some id
  | PutOrder id body =>
      match parse_json_body parse body with
      | inl j => match amend_command id j with inl _ => Some id | inr _ => None end
      | inr _ => None
      end
  end.

(** The fields every success carries. *)
Record shows (resp : Response) (r : OrderRecord) : Prop := {
  sh_id : jstring (res_body resp) "clientOrderId" = Some (or_client_order_id r);
  sh_exchange : jstring (res_body resp) "exchangeOrderId" = Some (or_exchange_order_id r);
  sh_symbol : jstring (res_body resp) "symbol" = Some (or_symbol r);
  sh_state : jstring (res_body resp) "state" = Some (to_string (or_state r)) }.

Lemma place_response_shows o : shows (place_response o) (po_record o).
Proof. split; reflexivity. Qed.
Lemma cancel_response_shows r : shows (cancel_response r) r.
Proof. split; reflexivity. Qed.
Lemma amend_response_shows r : shows (amend_response r) r.
Proof. split; reflexivity. Qed.

(** C29: A successful POST, PUT or DELETE shows the registry: the order it names is recorded,
    the response carries that record's id, exchange id, symbol and state, and the status is 202
    only for a Pending record and 201 only for another one. *)
Theorem success_shows_registry_record r st w resp st' w' :
  serve r st w = (resp, st', w') -> res_status resp < 300 ->
  exists id record, named_id r = Some id /\ orders st' !! id = Some record
    /\ shows resp record
    /\ (res_status resp = 202 -> or_state record = Pending)
    /\ (res_status resp = 201 -> or_state record <> Pending).
Proof.
  destruct r as [body|id|id body]; simpl.
  - unfold post_orders_route. destruct (latency_now (latency st)) as [t l].
    destruct (parse_json_body parse body) as [j|resp0] eqn:Hj.
    2: { intros H Hs. simplify_eq. apply parse_json_body_refusal in Hj. lia. }
    destruct (place_command (venues cfg) j) as [[rq venue]|resp0] eqn:Hc.
    2: { intros H Hs. simplify_eq. apply place_command_refusal in Hc. lia. }
    destruct (place cfg rq venue t _ w) as [[o st1] w1] eqn:Hp. intros H Hs. simplify_eq.
    destruct o as [[o|e]|]; [|pose proof (map_error_status e (rq_client_order_id rq)); lia
                             |simpl in Hs; lia].
    exists (rq_client_order_id rq), (po_record o).
    split_and!; [done|by eapply place_ok_recorded|apply place_response_shows|..];
      unfold place_response; simpl; by destruct (OrderState_eqb_spec (or_state (po_record o)) Pending).
  - unfold delete_order_route. destruct (cancel cfg id st w) as [[o st1] w1] eqn:Hp.
    intros H Hs. simplify_eq. destruct o as [r|e]; [|pose proof (map_error_status e id); lia].
    exists id, r. split_and!; [done|by eapply cancel_ok_recorded|apply cancel_response_shows|done|done].
  - unfold put_order_route. destruct (parse_json_body parse body) as [j|resp0] eqn:Hj.
    2: { intros H Hs. simplify_eq. apply parse_json_body_refusal in Hj. lia. }
    destruct (amend_command id j) as [cmd|resp0] eqn:Hc.
    2: { intros H Hs. simplify_eq. apply amend_command_refusal in Hc. lia. }
    destruct (amend cfg cmd st w) as [[o st1] w1] eqn:Hp. intros H Hs. simplify_eq.
    destruct o as [[r|e]|]; [|pose proof (map_error_status e id); lia|simpl in Hs; lia].
    exists id, r. pose proof (amend_command_id _ _ _ Hc) as Hid. apply amend_ok_recorded in Hp.
    rewrite Hid in Hp. split_and!; [done|done|apply amend_response_shows|done|done].
Qed.
(** What a refused request must leave alone; the latency clock may tick. *)
Definition untouched (st st' : Oms) : Prop :=
  orders st' = orders st /\ raced_reports st' = raced_reports st
  /\ discovered_leg_notes st' = discovered_leg_notes st
  /\ oms_stats st' = oms_stats st /\ log st' = log st.

(** A refused request has no effect: a body that is rejected before the order manager answers
    400 and leaves registry, buffers, notes, counters, log and venue alone. *)
Theorem refused_request_has_no_effect r st w resp st' w' :
  named_id r = None -> serve r st w = (resp, st', w') ->
  res_status resp = 400 /\ untouched st st' /\ w' = w.
Proof.
  destruct r as [body|id|id body]; simpl; [|done|].
  - unfold post_orders_route. destruct (latency_now (latency st)) as [t l].
    destruct (parse_json_body parse body) as [j|resp0] eqn:Hj.
    2: { intros _ H. simplify_eq. split; [by eapply parse_json_body_refusal|done]. }
    destruct (place_command (venues cfg) j) as [[rq venue]|resp0] eqn:Hc; [done|].
    intros _ H. simplify_eq. split; [by eapply place_command_refusal|done].
  - unfold put_order_route. destruct (parse_json_body parse body) as [j|resp0] eqn:Hj.
    2: { intros _ H. simplify_eq. split; [by eapply parse_json_body_refusal|done]. }
    destruct (amend_command id j) as [cmd|resp0] eqn:Hc; [done|].
    intros _ H. simplify_eq. split; [by eapply amend_command_refusal|done].
Qed.
End Served.

(** ** Concrete requests *)

Definition demo_body_parse (text : string) : option json :=
  if text ==s "order" then Some demo_order
  else if text ==s "amend" then Some (jobj [("price", JString "49000")])
  else None.

Definition demo_post : Response * Oms * unit :=
  serve demo_body_parse demo_cfg (PostOrders "order") demo_oms tt.

Lemma success_shows_registry_record_witness :
  exists id record, named_id demo_body_parse demo_cfg (PostOrders "order") = Some id
    /\ orders demo_post.1.2 !! id = Some record /\ shows demo_post.1.1 record
    /\ (res_status demo_post.1.1 = 202 -> or_state record = Pending)
    /\ (res_status demo_post.1.1 = 201 -> or_state record <> Pending).
Proof.
  apply (success_shows_registry_record demo_body_parse demo_cfg (PostOrders "order") demo_oms tt
           demo_post.1.1 demo_post.1.2 demo_post.2); vm_compute; reflexivity.
Defined.

Definition demo_bad_post : Response * Oms * unit :=
  serve demo_body_parse demo_cfg (PostOrders "not json") demo_oms tt.

Lemma refused_request_has_no_effect_witness :
  res_status demo_bad_post.1.1 = 400 /\ untouched demo_oms demo_bad_post.1.2 /\ demo_bad_post.2 = tt.
Proof.
  apply (refused_request_has_no_effect demo_body_parse demo_cfg (PostOrders "not json") demo_oms tt);
    vm_compute; reflexivity.
Defined.

(** The documented code "order_busy" has no HTTP mapping of its own: an amend
    that finds another one in flight is answered as an internal error. *)
Example busy_amend_answers_500 :
  let in_flight := (amend_begin demo_cfg (mkAmendCommand "c1" (Some "48000") None) demo_filled).2 in
  res_status (serve demo_body_parse demo_cfg (PutOrder "c1" "amend") in_flight tt).1.1 = 500.
Proof. vm_compute. reflexivity. Qed.
