(* ===== verification/RestVenue.v ===== *)
(** * Demo balance route: src/rest/okx_demo_routes.cpp

    The one venue-specific route: shape validation, then a single call of the
    connector. *)

From S2P Require Import Prelude Types Json Retry OkxWire OkxClient OkxResilient OkxConnector.
From S2P Require Import RestSupport.

Definition adjustment_index (i : Z) : string := "adjustments[" +:+ std_to_string i +:+ "]".

Definition bad_request (reason : string) : Response := error_response 400 "invalid_request" reason "".

(** One element of the array. *)
Definition parse_adjustment (i : Z) (item : json) : OkxDemoBalanceAdjustment + Response :=
  let index := adjustment_index i in
  if negb (is_object item) then inr (bad_request (index +:+ " must be an object"))
  else
    let unknown := unknown_fields item ["ccy"; "amt"] in
    if negb (str_empty unknown)
    then inr (bad_request (index +:+ ": unsupported field(s): " +:+ unknown))
    else
      let ccy := rest_string_field item "ccy" in
      if str_empty ccy then inr (bad_request (index +:+ ".ccy is required"))
      else
        let amt := rest_string_field item "amt" in
        if str_empty amt || negb (is_decimal amt)
        then inr (bad_request (index +:+ ".amt must be a positive decimal"))
        else inl (mkOkxAdjustment ccy amt).

Fixpoint parse_adjustments (i : Z) (items : list json) : list OkxDemoBalanceAdjustment + Response :=
  match items with
  | [] => inl []
  | item :: rest =>
      match parse_adjustment i item with
      | inr response => inr response
      | inl adjustment =>
          match parse_adjustments (i + 1) rest with
          | inr response => inr response
          | inl adjustments => inl (adjustment :: adjustments)
          end
      end
  end.

Definition parse_adjustment_body (a_body : json) : OkxDemoBalanceRequest + Response :=
  let unknown := unknown_fields a_body ["type"; "adjustments"] in
  if negb (str_empty unknown) then inr (bad_request ("unsupported field(s): " +:+ unknown))
  else
    let type := rest_string_field a_body "type" in
    if (type <>s "increase") && (type <>s "reduce")
    then inr (bad_request ("type must be " +:+ dquote +:+ "increase" +:+ dquote +:+ " or "
                           +:+ dquote +:+ "reduce" +:+ dquote))
    else match jfind a_body "adjustments" with
         | Some (JArray (item :: items)) =>
             match parse_adjustments 0 (item :: items) with
             | inr response => inr response
             | inl adjustments => inl (mkOkxDemoBalanceRequest type adjustments)
             end
         | _ => inr (bad_request "adjustments must be a non-empty array of {ccy, amt}")
         end.

Section Route.
Context {W : Type} `{!OkxMarketClient W} (parse : string -> option json) (config : OkxConfig).

Definition demo_adjust_route (a_body : string) (w : W) : Response * W :=
  match parse_json_body parse a_body with
  | inr response => (response, w)
  | inl body =>
      match parse_adjustment_body body with
      | inr response => (response, w)
      | inl request =>
          let '(data, w) := okx_connector_adjust_demo_balance config request w in
          (match data with
           | Err error => map_error error ""
           | Ok value =>
               json_response 200
                 (jobj [("venue", JString "okx"); ("type", JString (demo_type request));
                        ("adjustments", JArray (map (fun a =>
                           jobj [("ccy", JString (adj_ccy a)); ("amt", JString (adj_amt a))])
                           (demo_adjustments request)));
                        ("data", value)])
           end, w)
      end
  end.
End Route.

Lemma parse_adjustments_valid i items adjustments :
  parse_adjustments i items = inl adjustments ->
  length adjustments = length items
  /\ Forall (fun a => adj_ccy a <> "" /\ is_decimal (adj_amt a) = true) adjustments.
Proof.
  revert i adjustments. induction items as [|item items IH]; intros i adjustments; simpl;
    [intros H; by simplify_eq|].
  destruct (parse_adjustment i item) as [a|] eqn:Ha; [|done].
  destruct (parse_adjustments (i + 1) items) as [rest|] eqn:Hrest; [|done]. intros H. simplify_eq.
  destruct (IH _ _ Hrest) as [Hlen Hall]. simpl. split; [by rewrite Hlen|]. constructor; [|done].
  unfold parse_adjustment in Ha. destruct (is_object item); [|done]. simpl in Ha.
  destruct (str_empty (unknown_fields _ _)); [|done]. simpl in Ha.
  destruct (str_empty (rest_string_field item "ccy")) eqn:Hc; [done|].
  destruct (str_empty (rest_string_field item "amt")); [done|].
  destruct (is_decimal (rest_string_field item "amt")) eqn:Hd; [|done]. simpl in Ha. simplify_eq.
  split; [by apply str_empty_false|done].
Qed.

Lemma parse_adjustments_refusal i items resp :
  parse_adjustments i items = inr resp -> res_status resp = 400.
Proof.
  revert i. induction items as [|item items IH]; intros i; simpl; [done|].
  destruct (parse_adjustment i item) as [a|r] eqn:Ha.
  - destruct (parse_adjustments (i + 1) items) eqn:Hrest; [done|]. intros H. simplify_eq.
    by eapply IH.
  - intros H. simplify_eq. unfold parse_adjustment in Ha. repeat case_match; by simplify_eq.
Qed.

(** What the venue is sent: a body that passed every test, on a demo account,
    once. *)
Definition counting_client {W : Type} (m : OkxMarketClient W)
    : OkxMarketClient (W * list OkxDemoBalanceRequest) := {|
  cl_pending '(w, l) := let '(r, w) := cl_pending w in (r, (w, l));
  cl_ticker s '(w, l) := let '(r, w) := cl_ticker s w in (r, (w, l));
  cl_demo rq '(w, l) := let '(r, w) := cl_demo rq w in (r, (w, l ++ [rq])) |}.

(** A balance adjustment is sent at most once, validated, and on demo accounts only. *)
Theorem demo_adjustment_sent_once {W} (m : OkxMarketClient W) parse config body w :
  let '(resp, (_, l)) := demo_adjust_route (OkxMarketClient0:=counting_client m) parse config
                           body (w, []) in
  match l with
  | [] => res_status resp <> 200
  | [rq] => demo_trading config = true /\ In (demo_type rq) ["increase"; "reduce"]
            /\ demo_adjustments rq <> []
            /\ Forall (fun a => adj_ccy a <> "" /\ is_decimal (adj_amt a) = true) (demo_adjustments rq)
  | _ => False
  end.
Proof.
  unfold demo_adjust_route. destruct (parse_json_body parse body) as [j|resp] eqn:Hj.
  2: { unfold parse_json_body in Hj. repeat case_match; simplify_eq; done. }
  destruct (parse_adjustment_body j) as [rq|resp] eqn:Hrq.
  2: { unfold parse_adjustment_body in Hrq. repeat case_match; simplify_eq; try done.
       erewrite parse_adjustments_refusal by done. done. }
  unfold okx_connector_adjust_demo_balance. destruct (demo_trading config); simpl; [|done].
  destruct (cl_demo rq w) as [data w1]. simpl.
  unfold parse_adjustment_body in Hrq. cbv zeta in Hrq.
  destruct (str_empty (unknown_fields _ _)); cbn [negb] in Hrq; [|done].
  destruct ((rest_string_field j "type" <>s "increase") && _) eqn:Ht; [done|].
  destruct (jfind j "adjustments") as [[]|]; try done. destruct items as [|item items]; [done|].
  destruct (parse_adjustments 0 (item :: items)) as [adjustments|] eqn:Ha; [|done]. simplify_eq.
  apply parse_adjustments_valid in Ha as [Hlen Hall]. simpl. split_and!; [done| |by destruct adjustments|done].
  apply andb_false_iff in Ht as [Ht|Ht]; apply negb_false_iff, streqb_true in Ht; rewrite Ht; auto.
Qed.
