(* ===== verification/AuditTimer.v ===== *)
(** * The audit scheduler: src/apps/gateway_main.cpp

    The thread that repeats the consistency audit: it looks at its stop token
    and at the clock, sleeps 200 ms while the next pass is not due, and plans
    the next pass one interval after the end of the last one.  What the clock
    shows is an input. *)

From S2P Require Import Prelude Config.

Definition kPollMs : Z := 200.

(** One turn of the loop: whether a stop was requested, the time it reads, and
    the time after a pass, when it makes one. *)
Record TimerTurn := mkTurn { tn_stop : bool; tn_now : Z; tn_finished : Z }.

(** The passes of the loop, each from its start to its end. *)
Fixpoint audit_loop (interval next_run : Z) (turns : list TimerTurn) : list (Z * Z) :=
  match turns with
  | [] => []
  | t :: turns =>
      if tn_stop t then []
      else if tn_now t <? next_run then audit_loop interval next_run turns
      else (tn_now t, tn_finished t) :: audit_loop interval (tn_finished t + interval) turns
  end.

(** The scheduler exists when the interval is positive; [started]: the time at
    which its thread begins. *)
Definition audit_scheduler (c : GatewayConfig) (started : Z) (turns : list TimerTurn) : list (Z * Z) :=
  if 0 <? audit_interval_ms c
  then audit_loop (audit_interval_ms c) (started + audit_interval_ms c) turns else [].

(** The clock of a thread that is never delayed by more than [late]: [since]
    is the time of the last turn's end. *)
Fixpoint timed (interval late next_run since : Z) (turns : list TimerTurn) : Prop :=
  match turns with
  | [] => True
  | t :: turns =>
      since <= tn_now t <= since + late
      /\ if tn_now t <? next_run then timed interval late next_run (tn_now t + kPollMs) turns
         else tn_now t <= tn_finished t
              /\ timed interval late (tn_finished t + interval) (tn_finished t) turns
  end.

(** Each pass begins within [lo, hi] after the end of the one before. *)
Fixpoint paced (lo hi since : Z) (passes : list (Z * Z)) : Prop :=
  match passes with
  | [] => True
  | (from, til) :: passes => since + lo <= from <= since + hi /\ paced lo hi til passes
  end.

Section Timer.
Context (interval late : Z).
Hypothesis Hinterval : 0 <= interval.

(** [ended]: the end of the last pass. *)
Lemma audit_loop_paced turns ended since :
  ended <= since -> since <= ended + interval + kPollMs ->
  timed interval late (ended + interval) since turns ->
  paced interval (interval + kPollMs + late) ended (audit_loop interval (ended + interval) turns).
Proof.
  unfold kPollMs. revert ended since.
  induction turns as [|t turns IH]; intros ended since H1 H2 Ht; cbn [audit_loop timed] in *; [done|].
  destruct Ht as [Hnow Ht]. destruct (tn_stop t); [done|].
  destruct (Z.ltb_spec (tn_now t) (ended + interval)).
  - apply (IH ended (tn_now t + kPollMs)); [unfold kPollMs; lia..|done].
  - destruct Ht as [Hfin Ht]. split; [lia|].
    apply (IH (tn_finished t) (tn_finished t)); [lia..|done].
Qed.

(** A stop ends the loop at the turn that sees it. *)
Lemma audit_loop_stopped next_run before t after :
  tn_stop t = true -> audit_loop interval next_run (before ++ t :: after) = audit_loop interval next_run before.
Proof.
  intros Ht. revert next_run. induction before as [|b before IH]; intros next_run; simpl; [by rewrite Ht|].
  destruct (tn_stop b); [done|]. destruct (tn_now b <? next_run); [apply IH|]. by rewrite IH.
Qed.
End Timer.

(** C38: The audit passes are paced: with a thread that is never delayed by more than a bound,
    each pass starts at least one interval and at most one interval, one poll of 200 ms and that
    bound after the end of the one before (or after the start of the thread), and none starts
    once a stop request is seen. *)
Theorem audit_passes_are_paced c started late before t after :
  timed (audit_interval_ms c) late (started + audit_interval_ms c) started before ->
  tn_stop t = true ->
  paced (audit_interval_ms c) (audit_interval_ms c + kPollMs + late) started
    (audit_scheduler c started (before ++ t :: after))
  /\ audit_scheduler c started (before ++ t :: after) = audit_scheduler c started before.
Proof.
  intros Ht Hstop. unfold audit_scheduler.
  destruct (Z.ltb_spec 0 (audit_interval_ms c)); [|done].
  rewrite audit_loop_stopped by done. split; [|done].
  apply (audit_loop_paced (audit_interval_ms c) late ltac:(lia) before started started);
    [lia|unfold kPollMs; lia|done].
Qed.

(** An interval of 500 ms: two polls, a pass of 30 ms, three polls, a pass. *)
Definition demo_timer_config : GatewayConfig :=
  mkGatewayConfig 8080 None None (Risk.mkRiskConfig None ∅) "okx" 500 (Json.JObject []) (Json.JObject []).
Definition demo_turns : list TimerTurn :=
  [mkTurn false 0 0; mkTurn false 200 0; mkTurn false 401 0; mkTurn false 601 631; mkTurn false 632 0;
   mkTurn false 832 0; mkTurn false 1032 0; mkTurn false 1232 1240].

Example demo_passes : audit_scheduler demo_timer_config 0 demo_turns = [(601, 631); (1232, 1240)].
Proof. reflexivity. Qed.

Lemma audit_passes_are_paced_witness :
  paced 500 (500 + kPollMs + 1) 0 (audit_scheduler demo_timer_config 0 (demo_turns ++ [mkTurn true 1241 0]))
  /\ audit_scheduler demo_timer_config 0 (demo_turns ++ [mkTurn true 1241 0])
     = audit_scheduler demo_timer_config 0 demo_turns.
Proof.
  apply (audit_passes_are_paced demo_timer_config 0 1 demo_turns (mkTurn true 1241 0) []); [|done].
  cbn. unfold kPollMs. repeat split; lia.
Defined.
