(* ===== verification/Gateway.v ===== *)
(** * The gateway process: src/apps/gateway_main.cpp and src/rest/consistency_routes

    The composition root: which venues a configuration enables, the default
    venue, recovery from the log before serving, the startup reconciliation,
    the audit pass and the document GET /consistency serves.  The connectors'
    constructors, the clock's text and the venues are the environment's; what
    main prints is kept as the list of its output lines. *)

From S2P Require Import Prelude Types Json Risk Config EventLog Latency OmsTypes Oms OmsReconcile OmsReplay OmsAudit.
From S2P Require Import OkxWire OkxClient BinanceConfig RestSupport.

(** ** The consistency cache *)

Record ConsistencyCache := mkCache { cache_last : json }.

Definition empty_cache : ConsistencyCache := mkCache (jobj [("status", JString "not_run_yet")]).
Definition cache_store (a_snapshot : json) (_ : ConsistencyCache) : ConsistencyCache :=
  mkCache a_snapshot.
Definition cache_get (c : ConsistencyCache) : json := cache_last c.

Definition consistency_route (a_cache : ConsistencyCache) : Response :=
  json_response 200 (cache_get a_cache).

(** ** Lines and documents *)

Definition reconcile_summary_line (ts : string) (a_report : ReconcileReport) : json :=
  jobj [("ts", JString ts); ("event", JString "reconcile");
        ("adopted", JInt (rr_adopted a_report)); ("updated", JInt (rr_updated a_report));
        ("terminalResolved", JInt (rr_terminal_resolved a_report));
        ("absentRejected", JInt (rr_absent_rejected a_report));
        ("unresolved", JInt (rr_unresolved a_report));
        ("pendingListingFailed", JBool (rr_pending_listing_failed a_report))].

Definition alert_fields (a_alert : ConsistencyAlert) : list (string * json) :=
  [("clientOrderId", JString (al_client_order_id a_alert));
   ("check", JString (al_check a_alert)); ("detail", JString (al_detail a_alert))].

Definition consistency_alert_line (ts : string) (a_alert : ConsistencyAlert) : json :=
  jobj ([("ts", JString ts); ("event", JString "consistency_alert")] ++ alert_fields a_alert).

Definition consistency_snapshot (ts : string) (a_report : AuditReport) (a_total_alerts : Z) : json :=
  jobj [("ts", JString ts); ("status", JString "ok");
        ("ordersChecked", JUint (au_orders_checked a_report));
        ("venueLookups", JUint (au_venue_lookups a_report));
        ("lookupFailures", JUint (au_lookup_failures a_report));
        ("alerts", JArray (map (fun a => jobj (alert_fields a)) (au_alerts a_report)));
        ("totalAlerts", JUint a_total_alerts)].

Definition alert_count (r : AuditReport) : Z := Z.of_nat (length (au_alerts r)).

Definition audit_line (ts : string) (r : AuditReport) : json :=
  jobj [("ts", JString ts); ("event", JString "audit");
        ("ordersChecked", JUint (au_orders_checked r)); ("venueLookups", JUint (au_venue_lookups r));
        ("lookupFailures", JUint (au_lookup_failures r)); ("alerts", JUint (alert_count r))].

Definition execution_report_line (ts : string) (r : ExecutionReport) : json :=
  jobj [("ts", JString ts); ("event", JString "execution_report");
        ("clientOrderId", JString (er_client_order_id r));
        ("exchangeOrderId", JString (er_exchange_order_id r));
        ("state", JString (to_string (er_state r)));
        ("filledQuantity", JString (er_filled_quantity r));
        ("averageFillPrice", JString (er_average_fill_price r))].

Definition feed_disconnected_line (ts : string) : json :=
  jobj [("ts", JString ts); ("event", JString "feed_disconnected")].

(** ** Venues *)

Definition venue_config_error (venue : string) (e : Error) : string :=
  "invalid " +:+ venue +:+ " config: [" +:+ code e +:+ "] " +:+ message e.

Definition okx_enabled (c : GatewayConfig) : bool :=
  jcontains (Config.okx c) "apiKey" || jempty (Config.okx c).
Definition binance_enabled (c : GatewayConfig) : bool := jcontains (Config.binance c) "apiKey".

(** The parsed section of a venue, when it is enabled. *)
Definition venue_config {C : Type} (venue : string) (enabled : bool) (parsed : Result C)
    : string + option C :=
  if negb enabled then inr None
  else match parsed with Ok c => inr (Some c) | Err e => inl (venue_config_error venue e) end.

Definition no_venue_error : string :=
  "error: no venue is configured (need an okx or binance section)".

Section Main.
Context {W : Type} (make_okx : OkxConfig -> ExchangeConnector W)
  (make_binance : BinanceConfig -> ExchangeConnector W).

(** The [std::map] of connectors, by key; [inl]: the message main exits with. *)
Definition configured_venues (c : GatewayConfig) : string + list (string * ExchangeConnector W) :=
  match venue_config "okx" (okx_enabled c) (okx_config_from_json (Config.okx c)) with
  | inl text => inl text
  | inr okx =>
      match venue_config "binance" (binance_enabled c)
              (binance_config_from_json (Config.binance c)) with
      | inl text => inl text
      | inr binance =>
          match option_list ((fun b => ("binance", make_binance b)) <$> binance)
                ++ option_list ((fun o => ("okx", make_okx o)) <$> okx) with
          | [] => inl no_venue_error
          | venues => inr venues
          end
      end
  end.

(** The configured default, or the first configured venue with a warning. *)
Definition default_venue_of (c : GatewayConfig) (venues : list (string * ExchangeConnector W))
    : string * list string :=
  let wanted := cfg_default_venue c in
  match list_find (fun v => v.1 = wanted) venues, venues with
  | Some _, _ | None, [] => (wanted, [])
  | None, (first, _) :: _ =>
      (first, ["warning: defaultVenue " +:+ dquote +:+ wanted +:+ dquote
               +:+ " is not configured; using " +:+ dquote +:+ first +:+ dquote])
  end.

Definition persistence_warning (c : GatewayConfig) : list string :=
  if is_none (persistence_log c)
  then ["warning: persistence is disabled (no persistence.logPath in config); "
        +:+ "recovery relies on venue reconciliation"] else [].

Definition risk_warning (c : GatewayConfig) : list string :=
  if is_none (limits_for (cfg_risk c) "BTC-USDT") && is_none (defaults (cfg_risk c))
     && bool_decide (instruments (cfg_risk c) = ∅)
  then ["warning: no risk limits configured; pre-trade checks are disabled"] else [].

(** ** Serving *)

Inductive Output := Text (s : string) | Line (j : json).

(** What the process holds while it serves. *)
Record Process := mkProcess {
  pr_cfg : OmsConfig W;
  pr_oms : Oms;
  pr_cache : ConsistencyCache;
  pr_total_alerts : Z;
  pr_out : list Output }.

Context (utc_now_iso_ms : W -> string * W).

Definition print_line (line : string -> json) (p : Process) (w : W) : Process * W :=
  let '(ts, w) := utc_now_iso_ms w in
  (mkProcess (pr_cfg p) (pr_oms p) (pr_cache p) (pr_total_alerts p)
     (pr_out p ++ [Line (line ts)]), w).

Fixpoint print_lines (lines : list (string -> json)) (p : Process) (w : W) : Process * W :=
  match lines with
  | [] => (p, w)
  | line :: rest => let '(p, w) := print_line line p w in print_lines rest p w
  end.

Definition with_oms (st : Oms) (p : Process) : Process :=
  mkProcess (pr_cfg p) st (pr_cache p) (pr_total_alerts p) (pr_out p).

(** [oms.reconcile()] and its summary line: at startup, and when a feed
    connects. *)
Definition reconcile_and_print (p : Process) (w : W) : Process * W :=
  let '(report, st, w) := reconcile (pr_cfg p) (pr_oms p) w in
  print_line (fun ts => reconcile_summary_line ts report) (with_oms st p) w.

(** The two handlers main installs on every connector. *)
Definition on_report (r : ExecutionReport) (p : Process) (w : W) : Process * W :=
  print_line (fun ts => execution_report_line ts r)
    (with_oms (on_execution_report r (pr_oms p)) p) w.

Definition on_connectivity (a_connected : bool) (p : Process) (w : W) : Process * W :=
  if a_connected then reconcile_and_print p w else print_line feed_disconnected_line p w.

(** [run_audit]. *)
Definition run_audit (p : Process) (w : W) : Process * W :=
  let '(report, st, w) := audit (pr_cfg p) (pr_oms p) w in
  let total := (pr_total_alerts p + alert_count report) mod 2 ^ 64 in
  let p := mkProcess (pr_cfg p) st (pr_cache p) total (pr_out p) in
  let '(p, w) := print_lines (map (fun a ts => consistency_alert_line ts a) (au_alerts report)) p w in
  let '(p, w) := print_line (fun ts => audit_line ts report) p w in
  let '(ts, w) := utc_now_iso_ms w in
  (mkProcess (pr_cfg p) (pr_oms p)
     (cache_store (consistency_snapshot ts report total) (pr_cache p)) total (pr_out p), w).

(** ** Startup *)

(** What main finds on the disk: the bytes of the order log, whether the log
    opens for appending, its coming write failures, and the latency log. *)
Record Disk := mkDisk {
  dk_log : LogFile;
  dk_resize_error : option string;
  dk_opens : bool;
  dk_faults : list bool;
  dk_latency : LatencyLog }.

Inductive MainEnd := Exits (status : Z) (stderr : list string) | Serves (p : Process) (stderr : list string).

(** The members before the replay.  The entries of the log are the events that
    its file holds. *)
Definition initial_oms (parse : string -> option json) (c : GatewayConfig) (d : Disk) : Oms :=
  mkOms ∅ ∅ [] (mkOmsStats 0 0 0 0 0 0)
    ((fun p => mkEventLog p (dk_opens d) (replay parse p (dk_log d) (dk_resize_error d)).1.1
                 (dk_faults d)) <$> persistence_log c)
    ((fun _ => dk_latency d) <$> latency_log c).

Definition replay_error (c : GatewayConfig) (e : Error) : string :=
  "cannot replay order log " +:+ default "" (persistence_log c) +:+ ": [" +:+ code e +:+ "] "
  +:+ message e.

Definition torn_tail_warning : string :=
  "warning: order log had a torn tail; it was truncated to the last complete event".

Definition listening_text (c : GatewayConfig) (cfg : OmsConfig W) : string :=
  "rest_exchange_gateway listening on port " +:+ std_to_string (rest_port c) +:+ " (venues: "
  +:+ comma_join (map fst (connectors cfg)) +:+ "; default: " +:+ default_venue cfg +:+ ")".

(** The first reconciliation and audit, before requests are served. *)
Definition go_live (c : GatewayConfig) (p : Process) (w : W) : Process * W :=
  let '(p, w) := reconcile_and_print p w in
  let '(p, w) := if 0 <? audit_interval_ms c then run_audit p w else (p, w) in
  (mkProcess (pr_cfg p) (pr_oms p) (pr_cache p) (pr_total_alerts p)
     (pr_out p ++ [Text (listening_text c (pr_cfg p))]), w).

(** From a loaded configuration to the point where requests are served. *)
Definition start_gateway (parse : string -> option json) (c : GatewayConfig) (d : Disk) (w : W)
    : MainEnd * LogFile * W :=
  match configured_venues c with
  | inl text => (Exits 1 [text], dk_log d, w)
  | inr venues =>
      let '(venue, venue_warning) := default_venue_of c venues in
      let warnings := venue_warning ++ persistence_warning c ++ risk_warning c in
      let cfg := mkOmsConfig venues venue (cfg_risk c) in
      let '(replayed, file, st) := load_from_log parse cfg (dk_log d) (dk_resize_error d)
                                     (initial_oms parse c d) in
      match replayed with
      | Err e => (Exits 1 (warnings ++ [replay_error c e]), file, w)
      | Ok recovered =>
          let warnings := warnings ++ (if tail_truncated recovered then [torn_tail_warning] else []) in
          let text := "recovered " +:+ std_to_string (events recovered)
                      +:+ " events from the order log" in
          let p := mkProcess cfg st empty_cache 0 [Text text] in
          let '(p, w) := go_live c p w in
          (Serves p warnings, file, w)
      end
  end.

Definition main (parse : string -> option json) (config_path : string) (file : option (option json))
    (d : Disk) (w : W) : MainEnd * LogFile * W :=
  match load_config config_path file with
  | Err e => (Exits 1 ["failed to load config " +:+ config_path +:+ ": [" +:+ code e +:+ "] "
                       +:+ message e], dk_log d, w)
  | Ok c => start_gateway parse c d w
  end.
End Main.
