(* ===== verification/GatewaySystem.v ===== *)
(** * The serving gateway: what happens between startup and shutdown

    The routes main registers (rest/order_routes, risk_routes,
    consistency_routes, okx_demo_routes), the handlers of the feeds and the
    audit pass act on one [Process].  [serve] executes a sequence of such
    events; the theorems tie startup and serving to the log on the disk and
    to the interleavings of OmsSystem. *)

From S2P Require Import Prelude Types OrderState Decimal Json Risk Config EventLog Latency OmsTypes Oms OmsReconcile OmsReplay OmsAudit.
From S2P Require Import OmsFacts OmsSections OmsSystem OmsDurable OmsThread OkxWire OkxClient BinanceConfig RestSupport RestOrders RestVenue Gateway.

(** ** Requests and events *)

(** The registered routes, with the parts of the request they read. *)
Inductive Request :=
  | PostOrders (body : string)
  | GetOrders
  | GetOrder (id : string)
  | DeleteOrder (id : string)
  | PutOrder (id body : string)
  | GetHealth
  | GetPrice (symbol : string) (venue : option string)
  | GetRisk
  | GetConsistency
  | PostDemoAdjust (body : string).

Inductive Event {W : Type} :=
  | Asked (r : Request)
  | Reported (r : ExecutionReport)
  | Connected (up : bool)
  | AuditDue
  | WorldMoves (w : W).
Arguments Event W : clear implicits.

Section Serving.
Context {W : Type} (parse : string -> option json) (utc_now_iso_ms : W -> string * W).
(** The demo route is registered only when OKX is configured. *)
Context (demo_adjust : option (string -> W -> Response * W)).

(** [None]: no such route, the HTTP library answers. *)
Definition answer_request (r : Request) (p : Process) (w : W) : option Response * Process * W :=
  let cfg := pr_cfg p in
  let st := pr_oms p in
  match r with
  | PostOrders body =>
      let '(resp, st, w) := post_orders_route parse cfg body st w in (Some resp, with_oms st p, w)
  | GetOrders => (Some (get_orders_route st), p, w)
  | GetOrder id => (Some (get_order_route id st), p, w)
  | DeleteOrder id =>
      let '(resp, st, w) := delete_order_route cfg id st w in (Some resp, with_oms st p, w)
  | PutOrder id body =>
      let '(resp, st, w) := put_order_route parse cfg id body st w in (Some resp, with_oms st p, w)
  | GetHealth => (Some (health_route st), p, w)
  | GetPrice symbol venue =>
      let '(resp, w) := price_route cfg symbol venue w in (Some resp, p, w)
  | GetRisk => (Some (risk_route cfg), p, w)
  | GetConsistency => (Some (consistency_route (pr_cache p)), p, w)
  | PostDemoAdjust body =>
      match demo_adjust with
      | None => (None, p, w)
      | Some route => let '(resp, w) := route body w in (Some resp, p, w)
      end
  end.

Definition handle (e : Event W) (p : Process) (w : W) : Process * W :=
  match e with
  | Asked r => let '(_, p, w) := answer_request r p w in (p, w)
  | Reported r => on_report utc_now_iso_ms r p w
  | Connected up => on_connectivity utc_now_iso_ms up p w
  | AuditDue => run_audit utc_now_iso_ms p w
  | WorldMoves w => (p, w)
  end.

Fixpoint serve (es : list (Event W)) (p : Process) (w : W) : Process * W :=
  match es with
  | [] => (p, w)
  | e :: es => let '(p, w) := handle e p w in serve es p w
  end.

(** The reports of the audit passes among the events. *)
Fixpoint audits (es : list (Event W)) (p : Process) (w : W) : list AuditReport :=
  match es with
  | [] => []
  | e :: es =>
      let '(p', w') := handle e p w in
      match e with
      | AuditDue => (audit (pr_cfg p) (pr_oms p) w).1.1 :: audits es p' w'
      | _ => audits es p' w'
      end
  end.

Implicit Types p : (Process (W:=W)).
Implicit Types w : W.

(** ** One event *)

(** Everything but the output lines. *)
Definition same_but_output (p p' : Process (W:=W)) : Prop :=
  pr_cfg p' = pr_cfg p /\ pr_oms p' = pr_oms p /\ pr_cache p' = pr_cache p
  /\ pr_total_alerts p' = pr_total_alerts p.

Lemma print_line_rest line p w : same_but_output p (print_line utc_now_iso_ms line p w).1.
Proof. unfold print_line. by destruct (utc_now_iso_ms w). Qed.

Lemma print_lines_rest lines p w : same_but_output p (print_lines utc_now_iso_ms lines p w).1.
Proof.
  revert p w. induction lines as [|line lines IH]; intros p w; simpl; [done|].
  pose proof (print_line_rest line p w) as H. destruct (print_line utc_now_iso_ms line p w) as [p1 w1].
  specialize (IH p1 w1). unfold same_but_output in *. simpl in H. intuition congruence.
Qed.

Lemma reconcile_and_print_rest p w :
  let p' := (reconcile_and_print utc_now_iso_ms p w).1 in
  pr_cfg p' = pr_cfg p /\ pr_oms p' = (reconcile (pr_cfg p) (pr_oms p) w).1.2
  /\ pr_cache p' = pr_cache p /\ pr_total_alerts p' = pr_total_alerts p.
Proof.
  unfold reconcile_and_print. destruct (reconcile (pr_cfg p) (pr_oms p) w) as [[report st] w1].
  apply (print_line_rest _ (with_oms st p) w1).
Qed.

Lemma run_audit_rest p w :
  let report := (audit (pr_cfg p) (pr_oms p) w).1.1 in
  let total := (pr_total_alerts p + alert_count report) mod 2 ^ 64 in
  let p' := (run_audit utc_now_iso_ms p w).1 in
  pr_cfg p' = pr_cfg p /\ pr_oms p' = (audit (pr_cfg p) (pr_oms p) w).1.2
  /\ pr_total_alerts p' = total
  /\ exists ts, pr_cache p' = mkCache (consistency_snapshot ts report total).
Proof.
  unfold run_audit. destruct (audit (pr_cfg p) (pr_oms p) w) as [[report st] w1]. simpl.
  set (total := (_ + _) mod _). set (p0 := mkProcess _ _ _ _ _).
  pose proof (print_lines_rest (map (fun a ts => consistency_alert_line ts a) (au_alerts report)) p0 w1) as H1.
  destruct (print_lines _ _ p0 w1) as [p1 w2].
  pose proof (print_line_rest (fun ts => audit_line ts report) p1 w2) as H2.
  destruct (print_line _ _ p1 w2) as [p2 w3]. destruct (utc_now_iso_ms w3) as [ts w4]. simpl in *.
  destruct H1 as (?&?&?&?), H2 as (?&?&?&?). subst p0. simpl in *.
  split_and!; [congruence..|]. by exists ts.
Qed.

(** The configuration never changes, and the order manager runs sections. *)
Definition serves_as (p p' : Process (W:=W)) : Prop :=
  pr_cfg p' = pr_cfg p
  /\ exists t, run (pr_cfg p) (mkSys (pr_oms p) []) t (mkSys (pr_oms p') []).

#[global] Instance serves_as_preorder : PreOrder serves_as.
Proof.
  split.
  - intros p. split; [done|]. exists []. constructor.
  - intros p1 p2 p3 [Hc1 [t1 H1]] [Hc2 [t2 H2]]. rewrite Hc1 in *.
    split; [done|]. exists (t1 ++ t2). by eapply run_trans.
Qed.

Lemma serves_as_run p p' t :
  pr_cfg p' = pr_cfg p -> run (pr_cfg p) (mkSys (pr_oms p) []) t (mkSys (pr_oms p') []) ->
  serves_as p p'.
Proof. intros. split; [done|]. by exists t. Qed.

Lemma post_orders_serves body p w :
  exists t, run (pr_cfg p) (mkSys (pr_oms p) []) t
    (mkSys (post_orders_route parse (pr_cfg p) body (pr_oms p) w).1.2 []).
Proof.
  unfold post_orders_route. destruct (latency_now (latency (pr_oms p))) as [hit l].
  pose proof (run_stamp (pr_cfg p) (pr_oms p) l []) as H0.
  destruct (parse_json_body parse body) as [b|]; [|by exists []].
  destruct (place_command _ b) as [[request venue]|]; [|by exists []].
  destruct (place _ request venue hit _ w) as [[out st] w1] eqn:E.
  destruct (place_run _ _ _ _ _ _ _ _ _ [] E) as (t & H & _).
  exists t. eapply run_0app; [exact H0|by destruct out as [[?|?]|]].
Qed.

Lemma put_order_serves id body p w :
  exists t, run (pr_cfg p) (mkSys (pr_oms p) []) t
    (mkSys (put_order_route parse (pr_cfg p) id body (pr_oms p) w).1.2 []).
Proof.
  unfold put_order_route.
  destruct (parse_json_body parse body) as [b|]; [|exists []; constructor].
  destruct (amend_command id b) as [cmd|]; [|exists []; constructor].
  destruct (amend _ cmd _ w) as [[out st] w1] eqn:E.
  destruct (amend_run _ _ _ _ _ _ _ [] E) as (t & H & _). exists t. by destruct out as [[?|?]|].
Qed.

Lemma delete_order_serves id p w :
  exists t, run (pr_cfg p) (mkSys (pr_oms p) []) t
    (mkSys (delete_order_route (pr_cfg p) id (pr_oms p) w).1.2 []).
Proof.
  unfold delete_order_route. destruct (cancel _ id _ w) as [[out st] w1] eqn:E.
  destruct (cancel_run _ _ _ _ _ _ _ [] E) as (t & H & _). exists t. by destruct out.
Qed.

Lemma answer_serves r p w : serves_as p (answer_request r p w).1.2.
Proof.
  destruct r; simpl; try done.
  - destruct (post_orders_serves body p w) as [t H].
    destruct (post_orders_route _ _ _ _ _) as [[? st] ?]. by eapply serves_as_run.
  - destruct (delete_order_serves id p w) as [t H].
    destruct (delete_order_route _ _ _ _) as [[? st] ?]. by eapply serves_as_run.
  - destruct (put_order_serves id body p w) as [t H].
    destruct (put_order_route _ _ _ _ _ _) as [[? st] ?]. by eapply serves_as_run.
  - by destruct (price_route _ _ _ _).
  - destruct demo_adjust as [route|]; [|done]. by destruct (route body w).
Qed.

Lemma reconcile_serves p w : serves_as p (reconcile_and_print utc_now_iso_ms p w).1.
Proof.
  destruct (reconcile_and_print_rest p w) as (Hc & Ho & _).
  destruct (reconcile_run (pr_cfg p) (pr_oms p) w []) as (t & H & _).
  rewrite <- Ho in H. by eapply serves_as_run.
Qed.

Lemma same_output_serves p p' : same_but_output p p' -> serves_as p p'.
Proof.
  intros (Hc & Ho & _). apply (serves_as_run _ _ []); [done|]. rewrite Ho. constructor.
Qed.

Lemma audit_serves p w : serves_as p (run_audit utc_now_iso_ms p w).1.
Proof.
  destruct (run_audit_rest p w) as (Hc & Ho & _). apply (serves_as_run _ _ []); [done|].
  rewrite Ho. apply audit_run.
Qed.

Lemma handle_serves e p w : serves_as p (handle e p w).1.
Proof.
  destruct e as [r|r|up| |w1]; simpl; [..|done].
  - pose proof (answer_serves r p w) as H. by destruct (answer_request r p w) as [[? ?] ?].
  - unfold on_report.
    destruct (print_line_rest (fun ts => execution_report_line ts r)
                (with_oms (on_execution_report r (pr_oms p)) p) w) as (Hc & Ho & _).
    apply (serves_as_run _ _ []); [done|]. rewrite Ho. apply report_run.
  - destruct up; [apply reconcile_serves|]. apply same_output_serves, print_line_rest.
  - apply audit_serves.
Qed.

Lemma serve_serves es p w : serves_as p (serve es p w).1.
Proof.
  revert p w. induction es as [|e es IH]; intros p w; simpl; [done|].
  pose proof (handle_serves e p w) as H. destruct (handle e p w) as [p1 w1].
  etrans; [exact H|apply IH].
Qed.
End Serving.

(** ** Startup *)

Definition configured_names (c : GatewayConfig) : list string :=
  (if binance_enabled c then ["binance"] else []) ++ (if okx_enabled c then ["okx"] else []).

Section Startup.
Context {W : Type} (make_okx : OkxConfig -> ExchangeConnector W)
  (make_binance : BinanceConfig -> ExchangeConnector W)
  (utc_now_iso_ms : W -> string * W) (parse : string -> option json).

Lemma configured_venues_names c venues :
  configured_venues make_okx make_binance c = inr venues ->
  map fst venues = configured_names c /\ venues <> [].
Proof.
  unfold configured_venues, configured_names, venue_config.
  destruct (okx_enabled c), (binance_enabled c); simpl;
    try destruct (okx_config_from_json _); try destruct (binance_config_from_json _); simpl;
    intros H; by simplify_eq.
Qed.

Lemma find_connector_elem (venues : list (string * ExchangeConnector W)) v :
  v ∈ map fst venues -> is_Some (find_connector venues v).
Proof.
  induction venues as [|[v0 conn] rest IH]; simpl; [by inversion 1|].
  intros [->|H]%elem_of_cons; [by rewrite streqb_refl; eexists|].
  destruct (v ==s v0); [by eexists|by apply IH].
Qed.

Lemma default_venue_spec c (venues : list (string * ExchangeConnector W)) :
  venues <> [] ->
  let v := (default_venue_of c venues).1 in
  v ∈ map fst venues /\ (cfg_default_venue c ∈ map fst venues -> v = cfg_default_venue c).
Proof.
  intros Hne. unfold default_venue_of.
  destruct (list_find _ venues) as [[i v]|] eqn:Hf; simpl.
  - apply list_find_Some in Hf as (Hi & Hv & _). split; [|done].
    rewrite <- Hv. apply list_elem_of_fmap_2, list_elem_of_lookup. by exists i.
  - apply list_find_None in Hf. rewrite Forall_forall in Hf.
    destruct venues as [|[first conn] rest]; [done|]. simpl. split; [by left|].
    intros Hin. change (first :: map fst rest) with (map fst ((first, conn) :: rest)) in Hin.
    apply list_elem_of_fmap in Hin as (v & Hv & Hin). destruct (Hf v Hin). done.
Qed.

(** The registry that the log on the disk gives. *)
Definition recovered_oms (cfg : OmsConfig W) (c : GatewayConfig) (d : Disk) : Oms :=
  (load_from_log parse cfg (dk_log d) (dk_resize_error d) (initial_oms parse c d)).2.

Lemma go_live_serves c p w : serves_as p (go_live utc_now_iso_ms c p w).1.
Proof.
  unfold go_live. pose proof (reconcile_serves utc_now_iso_ms p w) as H1.
  destruct (reconcile_and_print _ p w) as [p1 w1]. simpl in H1. rewrite H1.
  destruct (0 <? audit_interval_ms c); [|by apply same_output_serves].
  pose proof (audit_serves utc_now_iso_ms p1 w1) as H2.
  destruct (run_audit _ p1 w1) as [p2 w2]. simpl in H2. rewrite H2. by apply same_output_serves.
Qed.

Lemma start_gateway_inv c d w p err file w' :
  start_gateway make_okx make_binance utc_now_iso_ms parse c d w = (Serves p err, file, w') ->
  exists venues p0, configured_venues make_okx make_binance c = inr venues
    /\ pr_cfg p = mkOmsConfig venues (default_venue_of c venues).1 (cfg_risk c)
    /\ pr_cfg p0 = pr_cfg p /\ pr_oms p0 = recovered_oms (pr_cfg p) c d /\ serves_as p0 p.
Proof.
  unfold start_gateway, recovered_oms. destruct (configured_venues _ _ c) as [text|venues]; [done|].
  destruct (default_venue_of c venues) as [venue warning] eqn:Hv.
  set (cfg := mkOmsConfig _ _ _).
  destruct (load_from_log _ cfg _ _ _) as [[[stats|e] file0] st] eqn:E; [|done].
  set (p0 := mkProcess cfg st empty_cache 0 _). pose proof (go_live_serves c p0 w) as H1.
  destruct (go_live _ c p0 w) as [p1 w1]. simpl in H1. intros H. simplify_eq.
  exists venues, p0. pose proof H1 as [Hc _]. simpl in Hc. rewrite Hv, Hc. simpl. by rewrite E.
Qed.
End Startup.

(** ** The recovered registry *)

Lemma apply_log_event_keyed dv e m : registry_keyed m -> registry_keyed (apply_log_event dv e m).
Proof.
  intros Hk. assert (Hput : forall id r, or_client_order_id r = id -> registry_keyed (<[id := r]> m)).
  { intros id r Hr i q. destruct (decide (i = id)) as [->|Hne];
      [rewrite lookup_insert_eq; congruence|rewrite lookup_insert_ne by done; apply Hk]. }
  unfold apply_log_event. destruct (event_string e "type") as [type|]; [|done].
  destruct (event_string e "clientOrderId") as [id|]; [|done].
  repeat case_match; try done; apply Hput; try done.
  - unfold replay_amended. repeat case_match; simpl;
      rewrite ?(proj1 (note_exchange_id_rest _ _)); simpl; by apply Hk.
  - unfold replay_state. destruct (parse_order_state _); [|by apply Hk].
    match goal with |- context [apply_observation ?r ?s ?f ?a ?p ?q ?l] =>
      pose proof (apply_observation_spec r s f a p q l) as Ho;
      destruct (apply_observation r s f a p q l) as [? r1] end.
    destruct Ho as (E & _). cbn -[note_exchange_id]. rewrite <- (Hk id o) by done.
    rewrite <- (ev_id _ _ E). case_match; [apply note_exchange_id_rest|done].
Qed.

Lemma registry_of_keyed dv es m : registry_keyed m -> registry_keyed (registry_of dv es m).
Proof.
  unfold registry_of. revert m. induction es as [|e es IH]; intros m Hk; simpl; [done|].
  apply IH. by apply apply_log_event_keyed.
Qed.

Lemma inv_quiet {W : Type} (cfg : OmsConfig W) st t st' :
  registry_keyed (orders st) -> raced_reports st = ∅ ->
  run cfg (mkSys st []) t (mkSys st' []) -> raced_reports st' = ∅.
Proof.
  intros Hk Hra Hrun. pose proof (run_inv cfg _ _ _ (inv_init st Hk Hra) Hrun) as HI.
  apply map_empty. intros id. apply eq_None_not_Some. intros Hs.
  apply (inv_raced _ HI) in Hs. inversion Hs.
Qed.

Section Lifetime.
Context {W : Type} (make_okx : OkxConfig -> ExchangeConnector W)
  (make_binance : BinanceConfig -> ExchangeConnector W)
  (utc_now_iso_ms : W -> string * W) (parse : string -> option json)
  (demo_adjust : option (string -> W -> Response * W)).

Lemma recovered_start (cfg : OmsConfig W) c d :
  let st := recovered_oms parse cfg c d in
  registry_keyed (orders st) /\ raced_reports st = ∅.
Proof.
  unfold recovered_oms, load_from_log. destruct (log (initial_oms parse c d)) as [l|]; [|done].
  destruct (replay _ _ _ _) as [[seen file] out]. simpl. split; [|done].
  by apply registry_of_keyed.
Qed.

(** C11: The life of the process refines the interleaving system: from a start that replayed the
    log on, any sequence of REST requests, feed reports, reconnects and audit passes takes the
    order manager along a run that begins in the replayed registry; so every logged order is
    still recorded and has only moved forward, the ids whose place was sent are distinct and
    were not in the log, and no buffer of raced reports is left behind between events. *)
Theorem gateway_life_is_a_run c d w p err file w1 es :
  start_gateway make_okx make_binance utc_now_iso_ms parse c d w = (Serves p err, file, w1) ->
  let logged := recovered_oms parse (pr_cfg p) c d in
  let st := pr_oms (serve parse utc_now_iso_ms demo_adjust es p w1).1 in
  exists t, run (pr_cfg p) (mkSys logged []) t (mkSys st [])
    /\ raced_reports st = ∅
    /\ (forall id r, orders logged !! id = Some r ->
          exists r', orders st !! id = Some r' /\ evolves r r')
    /\ NoDup (placed t)
    /\ (forall id, id ∈ placed t -> orders logged !! id = None /\ is_Some (orders st !! id)).
Proof.
  intros Hstart logged st. destruct (start_gateway_inv _ _ _ _ _ _ _ _ _ _ _ Hstart)
    as (venues & p0 & _ & _ & Hc0 & Ho0 & Hlive).
  destruct (transitivity Hlive (serve_serves parse utc_now_iso_ms demo_adjust es p w1))
    as [_ [t Hrun]].
  rewrite Hc0, Ho0 in Hrun. fold logged st in Hrun.
  destruct (recovered_start (pr_cfg p) c d) as [Hk Hra]. fold logged in Hk, Hra.
  destruct (run_placed _ _ _ _ (inv_init _ Hk Hra) Hrun) as [Hnd Hp].
  exists t. split_and!; [done|by eapply inv_quiet| |done|done].
  intros id r Hr. apply (run_forward _ _ _ _ Hrun). exact Hr.
Qed.

(** Startup serves a usable venue table or exits with status 1 and a message: when the gateway
    serves, its venues are exactly the enabled sections in the order of the connector map, the
    default venue has a connector and is the configured one where that is enabled, every other
    venue name has none, and the risk limits are the configured ones. *)
Theorem startup_has_a_default_venue c d w :
  match (start_gateway make_okx make_binance utc_now_iso_ms parse c d w).1.1 with
  | Exits status err => status = 1 /\ err <> []
  | Serves p err =>
      venues (pr_cfg p) = configured_names c
      /\ is_Some (connector_for (pr_cfg p) (default_venue (pr_cfg p)))
      /\ (cfg_default_venue c ∈ configured_names c ->
            default_venue (pr_cfg p) = cfg_default_venue c)
      /\ (forall v, v ∉ configured_names c -> connector_for (pr_cfg p) v = None)
      /\ risk (pr_cfg p) = cfg_risk c
  end.
Proof.
  destruct (start_gateway _ _ _ _ c d w) as [[[status err|p err] file] w1] eqn:E; simpl.
  - unfold start_gateway in E. destruct (configured_venues _ _ c); [by simplify_eq|].
    destruct (default_venue_of c _). destruct (load_from_log _ _ _ _ _) as [[[?|?] ?] ?];
      [by destruct (go_live _ _ _ _)|]. simplify_eq. split; [done|].
    by intros [_ ?]%app_eq_nil.
  - destruct (start_gateway_inv _ _ _ _ _ _ _ _ _ _ _ E) as (vs & p0 & Hv & -> & _).
    destruct (configured_venues_names _ _ _ _ Hv) as [Hn Hne].
    destruct (default_venue_spec c vs Hne) as [Hin Hdef]. unfold venues. simpl.
    rewrite <- Hn. split_and!; [done|by apply find_connector_elem|done| |done].
    intros v Hv'. unfold connector_for. simpl. clear -Hv'.
    induction vs as [|[v0 conn] rest IH]; simpl in *; [done|].
    apply not_elem_of_cons in Hv' as [Hne Hv']. destruct (streqb_spec v v0); [done|by apply IH].
Qed.
End Lifetime.

(** ** A restart of the process *)

(** The log of a process that can write: configured, open, no failing write. *)
Definition durable_disk (c : GatewayConfig) (d : Disk) : Prop :=
  is_Some (persistence_log c) /\ dk_opens d = true /\ dk_faults d = [].

(** What a crash leaves: the lines of the accepted events, and perhaps a part
    of the line that was being written. *)
Definition left_by_crash (dump : json -> string) (st : Oms) (d : Disk) : Prop :=
  exists torn, dk_log d = Contents (file_of dump (entries_of st) +:+ torn)
    /\ no_newline torn = true /\ dk_resize_error d = None.

Section Restart.
Context {W : Type} (make_okx : OkxConfig -> ExchangeConnector W)
  (make_binance : BinanceConfig -> ExchangeConnector W)
  (utc_now_iso_ms : W -> string * W) (parse : string -> option json) (dump : json -> string)
  (demo_adjust : option (string -> W -> Response * W)).

Notation start := (start_gateway make_okx make_binance utc_now_iso_ms parse).

(** At startup the log accounts for the registry. *)
Lemma recovered_persisted (cfg : OmsConfig W) c d :
  durable_disk c d -> persisted (default_venue cfg) (recovered_oms parse cfg c d).
Proof.
  intros ([path Hp] & Ho & Hf). unfold recovered_oms, load_from_log, initial_oms. rewrite Hp. simpl.
  destruct (replay parse path (dk_log d) (dk_resize_error d)) as [[seen file] out] eqn:E.
  simpl. split.
  - rewrite Ho, Hf. by eexists.
  - intros id. unfold replayed, entries_of. simpl. destruct (_ !! id); [apply durable_refl|done].
Qed.

(** A file that a crash left replays, and the process serves. *)
Lemma restart_serves c d st venues w :
  configured_venues make_okx make_binance c = inr venues -> is_Some (persistence_log c) ->
  Forall (printable dump parse) (entries_of st) -> left_by_crash dump st d ->
  exists p err file w', start c d w = (Serves p err, file, w')
    /\ orders (recovered_oms parse (pr_cfg p) c d)
       = registry_of (default_venue (pr_cfg p)) (entries_of st) ∅
    /\ default_venue (pr_cfg p) = (default_venue_of c venues).1.
Proof.
  intros Hv [path Hp] Hprint (torn & Hlog & Htorn & Hres).
  assert (Hload : forall cfg : OmsConfig W,
    load_from_log parse cfg (dk_log d) (dk_resize_error d) (initial_oms parse c d)
    = (Ok (mkReplayStats (Z.of_nat (length (entries_of st))) (negb (str_empty torn))),
       Contents (file_of dump (entries_of st)),
       with_orders (registry_of (default_venue cfg) (entries_of st) ∅) (initial_oms parse c d))).
  { intros cfg. unfold load_from_log, initial_oms. rewrite Hp. simpl. rewrite Hlog, Hres.
    by rewrite (replay_torn dump parse) by done. }
  destruct (start c d w) as [[[status err|p err] file] w'] eqn:E.
  - unfold start_gateway in E. rewrite Hv in E. destruct (default_venue_of c venues).
    rewrite Hload in E. by destruct (go_live _ _ _ _).
  - exists p, err, file, w'. split; [done|].
    destruct (start_gateway_inv _ _ _ _ _ _ _ _ _ _ _ E) as (vs & p0 & Hv' & Hcfg & _).
    rewrite Hv in Hv'. injection Hv' as <-.
    split; [|by rewrite Hcfg]. unfold recovered_oms. by rewrite Hload.
Qed.

(** C3: A crashed gateway comes back with every order: when the process of a gateway whose log
    can be written has served any events and dies, leaving the lines of the events it accepted
    and perhaps a torn line, the next start serves, and the registry it replays agrees with the
    one that was lost on every order (id, symbol, venue, state, fills, rejection, adoption); the
    orders then only move forward. *)
Theorem restart_recovers_every_order c d w p err file w1 es d2 w2 :
  start c d w = (Serves p err, file, w1) -> durable_disk c d ->
  let st := pr_oms (serve parse utc_now_iso_ms demo_adjust es p w1).1 in
  Forall (printable dump parse) (entries_of st) -> left_by_crash dump st d2 ->
  exists p2 err2 file2 w3, start c d2 w2 = (Serves p2 err2, file2, w3)
    /\ durable_registry (orders (recovered_oms parse (pr_cfg p2) c d2)) (orders st)
    /\ forall id r, orders (recovered_oms parse (pr_cfg p2) c d2) !! id = Some r ->
         exists r', orders (pr_oms p2) !! id = Some r' /\ evolves r r'.
Proof.
  intros Hstart Hdisk st Hprint Hcrash.
  destruct (start_gateway_inv _ _ _ _ _ _ _ _ _ _ _ Hstart)
    as (venues & p0 & Hv & Hcfg & Hc0 & Ho0 & Hlive).
  destruct (transitivity Hlive (serve_serves parse utc_now_iso_ms demo_adjust es p w1))
    as [_ [t Hrun]]. rewrite Hc0, Ho0 in Hrun.
  destruct (recovered_start parse (pr_cfg p) c d) as [Hk Hra].
  pose proof (run_persisted _ _ _ _ _ (inv_init _ Hk Hra) (recovered_persisted (pr_cfg p) c d Hdisk) Hrun)
    as [_ Hdur]. fold st in Hdur.
  destruct (restart_serves c d2 st venues w2 Hv (proj1 Hdisk) Hprint Hcrash)
    as (p2 & err2 & file2 & w3 & Hstart2 & Hrec & Hdv).
  exists p2, err2, file2, w3. split; [done|]. split.
  - rewrite Hrec, Hdv. unfold replayed in Hdur. simpl in Hdur. by rewrite Hcfg in Hdur.
  - destruct (start_gateway_inv _ _ _ _ _ _ _ _ _ _ _ Hstart2)
      as (_ & p20 & _ & _ & Hc20 & Ho20 & _ & t2 & Hrun2). rewrite Hc20, Ho20 in Hrun2.
    apply (run_forward _ _ _ _ Hrun2).
Qed.
End Restart.

(** ** GET /consistency *)

Definition total_alerts (rs : list AuditReport) : Z :=
  fold_right Z.add 0 (map alert_count rs).

Section Consistency.
Context {W : Type} (parse : string -> option json) (utc_now_iso_ms : W -> string * W)
  (demo_adjust : option (string -> W -> Response * W)).

Lemma handle_keeps_cache (e : Event W) (p : Process) w :
  e <> AuditDue ->
  pr_cache (handle parse utc_now_iso_ms demo_adjust e p w).1 = pr_cache p
  /\ pr_total_alerts (handle parse utc_now_iso_ms demo_adjust e p w).1 = pr_total_alerts p.
Proof.
  intros Hne. destruct e as [r|r|up| |w1]; simpl; [..|done|done].
  - destruct r; simpl; try done; repeat case_match; simplify_eq; done.
  - unfold on_report. match goal with |- context [print_line _ ?line ?q w] =>
      destruct (print_line_rest utc_now_iso_ms line q w) as (_ & _ & ? & ?) end. done.
  - destruct up; [apply reconcile_and_print_rest|]. simpl.
    destruct (print_line_rest utc_now_iso_ms feed_disconnected_line p w) as (_ & _ & ? & ?). done.
Qed.

(** GET /consistency serves the last audit pass: after any sequence of events it answers 200
    with the snapshot of the last pass, whose totalAlerts is the number of alerts of all passes
    modulo 2^64, and without a pass in between it answers what it answered before. *)
Theorem consistency_serves_last_audit (es : list (Event W)) p w :
  0 <= pr_total_alerts p < 2 ^ 64 ->
  let p' := (serve parse utc_now_iso_ms demo_adjust es p w).1 in
  let rs := audits parse utc_now_iso_ms demo_adjust es p w in
  pr_total_alerts p' = (pr_total_alerts p + total_alerts rs) mod 2 ^ 64
  /\ match list.last rs with
     | None => consistency_route (pr_cache p') = consistency_route (pr_cache p)
     | Some report =>
         exists ts, consistency_route (pr_cache p')
                    = json_response 200 (consistency_snapshot ts report (pr_total_alerts p'))
     end.
Proof.
  revert p w. induction es as [|e es IH]; intros p w Hp; cbn [serve audits].
  { split; [|done]. unfold total_alerts. simpl. rewrite Z.add_0_r. by rewrite Z.mod_small. }
  assert (Hother : e <> AuditDue ->
    let '(p1, w1) := handle parse utc_now_iso_ms demo_adjust e p w in
    pr_total_alerts p1 = pr_total_alerts p /\ pr_cache p1 = pr_cache p).
  { intros Hne. pose proof (handle_keeps_cache e p w Hne) as [H1 H2].
    by destruct (handle _ _ _ e p w). }
  assert (Hdue : e = AuditDue \/ e <> AuditDue) by (destruct e; auto).
  destruct Hdue as [->|Hne].
  - pose proof (run_audit_rest utc_now_iso_ms p w) as (_ & _ & Ht & ts & Hc). cbn [handle].
    destruct (run_audit utc_now_iso_ms p w) as [p1 w1]. simpl in Ht, Hc.
    destruct (IH p1 w1) as [IH1 IH2]; [rewrite Ht; by apply Z.mod_pos_bound|].
    set (rs := audits _ _ _ es p1 w1) in *. set (p2 := (serve _ _ _ es p1 w1).1) in *.
    split.
    + rewrite IH1, Ht. unfold total_alerts. simpl. rewrite Zplus_mod_idemp_l. f_equal. lia.
    + rewrite last_cons. destruct (list.last rs) as [r|] eqn:Hl; [done|].
      exists ts. apply last_None in Hl. rewrite Hl in IH1. unfold total_alerts in IH1. simpl in IH1.
      rewrite Z.add_0_r, Z.mod_small in IH1 by (rewrite Ht; by apply Z.mod_pos_bound).
      rewrite IH2, IH1, Ht. unfold consistency_route. by rewrite Hc.
  - specialize (Hother Hne). destruct (handle _ _ _ e p w) as [p1 w1]. destruct Hother as [Ht Hc].
    destruct (IH p1 w1) as [IH1 IH2]; [by rewrite Ht|]. rewrite Ht, Hc in *.
    destruct e; done.
Qed.
End Consistency.

(** ** A concrete start *)

Definition demo_okx_section : json :=
  jobj [("apiKey", JString "k"); ("secretKey", JString "s"); ("passphrase", JString "p")].
Definition demo_config : GatewayConfig :=
  mkGatewayConfig 8080 (Some "orders.jsonl") None (mkRiskConfig None ∅) "okx" 30000
    demo_okx_section (JObject []).

(** A log of one line, the text [e] for the submission of order c0. *)
Definition demo_event : json := place_submitted_event (candidate_of (mkOrderRequest "c0" "BTC-USDT" Buy Limit "50000" "0.5" "") "okx").
Definition demo_parse (line : string) : option json :=
  if line ==s "e" then Some demo_event else None.
Definition demo_disk : Disk :=
  mkDisk (Contents ("e" +:+ String newline EmptyString)) None true [] (mkLatencyLog Z.of_nat 0 []).

Definition demo_clock (w : unit) : string * unit := ("2026-01-01T00:00:00.000Z", w).
Definition demo_make {C : Type} (_ : C) : ExchangeConnector unit := demo_connector.

Definition demo_start : MainEnd (W:=unit) * LogFile * unit :=
  start_gateway demo_make demo_make demo_clock demo_parse demo_config demo_disk tt.
Definition demo_process : Process :=
  match demo_start.1.1 with
  | Serves p _ => p
  | Exits _ _ => mkProcess demo_cfg demo_oms empty_cache 0 []
  end.
Definition demo_warnings : list string :=
  match demo_start.1.1 with Serves _ err => err | Exits _ err => err end.

Lemma demo_started :
  start_gateway demo_make demo_make demo_clock demo_parse demo_config demo_disk tt
  = (Serves demo_process demo_warnings, dk_log demo_disk, tt).
Proof. vm_compute. reflexivity. Defined.

(** A cancel of the logged order, a report, a reconnect and an audit pass. *)
Definition demo_events : list (Event unit) :=
  [Asked (DeleteOrder "c0"); Reported demo_report; Connected true; AuditDue; Asked GetConsistency].

Definition demo_served : Process := (serve demo_parse demo_clock None demo_events demo_process tt).1.

Lemma gateway_life_is_a_run_witness :
  exists t, run (pr_cfg demo_process)
              (mkSys (recovered_oms demo_parse (pr_cfg demo_process) demo_config demo_disk) [])
              t (mkSys (pr_oms demo_served) [])
    /\ raced_reports (pr_oms demo_served) = ∅
    /\ (exists r', orders (pr_oms demo_served) !! "c0" = Some r' /\ or_state r' = Rejected)
    /\ NoDup (placed t).
Proof.
  destruct (gateway_life_is_a_run demo_make demo_make demo_clock demo_parse None demo_config
              demo_disk tt demo_process demo_warnings _ tt demo_events demo_started)
    as (t & Hrun & Hra & _ & Hnd & _).
  exists t. split; [exact Hrun|]. split; [exact Hra|]. split; [|exact Hnd].
  eexists. split; [vm_compute; reflexivity|reflexivity].
Defined.

Lemma startup_has_a_default_venue_witness :
  venues (pr_cfg demo_process) = ["okx"]
  /\ is_Some (connector_for (pr_cfg demo_process) "okx")
  /\ connector_for (pr_cfg demo_process) "binance" = None.
Proof.
  pose proof (startup_has_a_default_venue demo_make demo_make demo_clock demo_parse demo_config
                demo_disk tt) as H.
  rewrite demo_started in H. destruct H as (Hn & Hc & Hd & Hno & _).
  split; [exact Hn|]. rewrite Hd in Hc by (vm_compute; left).
  split; [exact Hc|]. apply Hno. vm_compute. intros H. inversion H as [|? ? ? H']. inversion H'.
Defined.

Lemma demo_audits :
  list.last (audits demo_parse demo_clock None demo_events demo_process tt)
  = Some (mkAuditReport [] 1 0 0).
Proof. vm_compute. reflexivity. Defined.

Lemma demo_total : pr_total_alerts demo_served = 0.
Proof. vm_compute. reflexivity. Defined.

Lemma consistency_serves_last_audit_witness :
  exists ts, consistency_route (pr_cache demo_served)
    = json_response 200 (consistency_snapshot ts (mkAuditReport [] 1 0 0) 0).
Proof.
  assert (Hp : 0 <= pr_total_alerts demo_process < 2 ^ 64) by (vm_compute; split; congruence).
  destruct (consistency_serves_last_audit demo_parse demo_clock None demo_events demo_process tt Hp)
    as [_ Hc].
  rewrite demo_audits in Hc. destruct Hc as [ts Hc]. exists ts.
  fold demo_served in Hc. rewrite demo_total in Hc. exact Hc.
Defined.

(** ** Which configurations start *)

(** A configuration with only a binance section does not start: the empty okx
    section counts as enabled and is refused for its missing fields. *)
Example binance_only_exits :
  (start_gateway demo_make demo_make demo_clock demo_parse
     (mkGatewayConfig 8080 (Some "orders.jsonl") None (mkRiskConfig None ∅) "binance" 30000
        (JObject []) (jobj [("apiKey", JString "k"); ("secretKey", JString "s")]))
     demo_disk tt).1.1
  = Exits 1 ["invalid okx config: [protocol] okx config missing or non-string field(s): "
             +:+ "apiKey, secretKey, passphrase"].
Proof. vm_compute. reflexivity. Qed.

(** A venue that answers no lookup: the logged order stays as it is. *)
Definition deaf_connector : ExchangeConnector unit := {|
  place_order _ w := (Err (mkError "transport" ""), w);
  cancel_order _ w := (Err (mkError "transport" ""), w);
  amend_order _ w := (Err (mkError "transport" ""), w);
  get_order _ w := (Err (mkError "transport" ""), w);
  get_open_orders w := (Err (mkError "transport" ""), w);
  get_price _ w := (Err (mkError "transport" ""), w) |}.
Definition deaf_make {C : Type} (_ : C) : ExchangeConnector unit := deaf_connector.

Definition demo_dump (_ : json) : string := "e".
Definition deaf_start (d : Disk) : MainEnd (W:=unit) * LogFile * unit :=
  start_gateway deaf_make deaf_make demo_clock demo_parse demo_config d tt.
Definition deaf_process (d : Disk) : Process :=
  match (deaf_start d).1.1 with Serves p _ => p | Exits _ _ => demo_process end.

Definition deaf_warnings (d : Disk) : list string :=
  match (deaf_start d).1.1 with Serves _ err => err | Exits _ err => err end.

(** The process died while it wrote the next line. *)
Definition demo_torn_disk : Disk :=
  mkDisk (Contents (file_of demo_dump [demo_event] +:+ "{torn")) None true [] (mkLatencyLog Z.of_nat 0 []).

Lemma restart_recovers_every_order_witness :
  exists p2 err2 file2 w3, deaf_start demo_torn_disk = (Serves p2 err2, file2, w3)
    /\ durable_registry (orders (recovered_oms demo_parse (pr_cfg p2) demo_config demo_torn_disk))
         (orders (pr_oms (serve demo_parse demo_clock None [Asked (DeleteOrder "c0"); AuditDue]
                            (deaf_process demo_disk) tt).1)).
Proof.
  destruct (restart_recovers_every_order deaf_make deaf_make demo_clock demo_parse demo_dump None
    demo_config demo_disk tt (deaf_process demo_disk) (deaf_warnings demo_disk)
    (dk_log demo_disk) tt
    [Asked (DeleteOrder "c0"); AuditDue] demo_torn_disk tt)
    as (p2 & err2 & file2 & w3 & Hs & Hd & _).
  - vm_compute. reflexivity.
  - split; [by eexists|split; reflexivity].
  - assert (entries_of (pr_oms (serve demo_parse demo_clock None [Asked (DeleteOrder "c0"); AuditDue]
              (deaf_process demo_disk) tt).1) = [demo_event]) as -> by (vm_compute; reflexivity).
    by repeat constructor.
  - exists "{torn". split; [vm_compute; reflexivity|split; reflexivity].
  - exists p2, err2, file2, w3. split; [exact Hs|exact Hd].
Defined.
