(* ===== verification/GatewayFeeds.v ===== *)
(** * The feed and the registry: src/apps/gateway_main.cpp

    main installs two handlers on every connector; through them what a venue's
    feed says reaches the order management system.  Here a connector's life
    (FeedLifecycle) drives the process (Gateway). *)

From S2P Require Import Prelude Types Json EventLog OmsTypes Oms OmsReconcile OmsFacts OkxClient OkxFeed FeedLifecycle FeedHandlers Gateway.
From S2P Require Import GatewaySystem.

Section Feeds.
Context {W : Type} (utc_now_iso_ms : W -> string * W).

(** The handlers of main; the connectivity handler is [install_connectivity]'s. *)
Definition main_handlers : Handlers (Process (W:=W) * W) :=
  set_connectivity_handler (Some (fun up s => on_connectivity utc_now_iso_ms up s.1 s.2))
    (set_execution_report_handler (Some (fun r s => on_report utc_now_iso_ms r s.1 s.2)) no_handlers).

(** What the feed says to a process that is otherwise idle. *)
Definition driven (ns : list Notice) (s : Process (W:=W) * W) : Process * W := notify_all main_handlers ns s.

(** The events of GatewaySystem that the notices are. *)
Definition event_of (n : Notice) : Event W :=
  match n with Connectivity up => Connected up | Reporting r => Reported r end.

Lemma driven_serves parse demo ns p w :
  driven ns (p, w) = serve parse utc_now_iso_ms demo (map event_of ns) p w.
Proof.
  revert p w. induction ns as [|n ns IH]; intros p w; [done|]. cbn [map serve].
  destruct n as [up|r]; cbn [event_of handle]; unfold driven, notify_all; simpl.
  - destruct (on_connectivity utc_now_iso_ms up p w) as [p1 w1]. apply IH.
  - destruct (on_report utc_now_iso_ms r p w) as [p1 w1]. apply IH.
Qed.

(** The feed's own actions, through the closures the connector installs. *)
Lemma feed_actions_drive actions s :
  foldl (okx_act (okx_wiring main_handlers)) s actions = driven (concat (map (okx_notices true) actions)) s.
Proof. apply foldl_notices, okx_act_notices. Qed.

Lemma driven_app ns1 ns2 s : driven (ns1 ++ ns2) s = driven ns2 (driven ns1 s).
Proof. apply notify_all_app. Qed.

(** What reports do to the registry, in turn. *)
Definition with_reports (rs : list ExecutionReport) (st : Oms) : Oms :=
  foldl (fun st r => on_execution_report r st) st rs.

Lemma on_report_oms r p w :
  pr_oms (on_report utc_now_iso_ms r p w).1 = on_execution_report r (pr_oms p).
Proof.
  destruct (print_line_rest utc_now_iso_ms (fun ts => execution_report_line ts r)
              (with_oms (on_execution_report r (pr_oms p)) p) w) as (_ & Ho & _). exact Ho.
Qed.

Lemma driven_reports rs s : pr_oms (driven (map Reporting rs) s).1 = with_reports rs (pr_oms s.1).
Proof.
  revert s. induction rs as [|r rs IH]; intros [p w]; [done|].
  unfold driven, notify_all in *. cbn [map foldl]. rewrite IH. unfold with_reports. cbn [foldl]. f_equal.
  apply (on_report_oms r p w).
Qed.

Lemma driven_connected s :
  pr_oms (driven [Connectivity true] s).1 = (reconcile (pr_cfg s.1) (pr_oms s.1) s.2).1.2.
Proof.
  destruct s as [p w]. by destruct (reconcile_and_print_rest utc_now_iso_ms p w) as (_ & Ho & _).
Qed.

(** C27: A report from OKX meets a reconciled registry: over any sequence of starts and stops of
    the connector, driving an otherwise idle process through the handlers main installs, every
    report is preceded, since the last disconnection, by a connection and reports only, so that
    the registry after it is the one the reconciliation of that connection left, with these
    reports and this one applied in order. *)
Theorem reports_meet_a_reconciled_registry parse dump hmac config calls before r after s :
  Forall (fun call => match call with
                      | CallStart life => okx_life parse dump hmac config life
                      | CallStop => True
                      end) calls ->
  okx_connector_life config true calls None = before ++ Reporting r :: after ->
  exists earlier rs,
    before = earlier ++ Connectivity true :: map Reporting rs
    /\ let '(p, w) := driven earlier s in
       pr_oms (driven (before ++ [Reporting r]) s).1
       = with_reports (rs ++ [r]) (reconcile (pr_cfg p) (pr_oms p) w).1.2.
Proof.
  intros Hcalls Hlife.
  pose proof (okx_connector_order parse dump hmac config calls None Hcalls ltac:(done)) as Ho.
  rewrite Hlife in Ho. destruct (follow_report false before r after) as [(earlier & rs & ->)|[[=] _]]; [by eexists|].
  exists earlier, rs. split; [done|].
  replace ((earlier ++ Connectivity true :: map Reporting rs) ++ [Reporting r])
    with (earlier ++ [Connectivity true] ++ map Reporting (rs ++ [r]))
    by (rewrite map_app; by rewrite <- !app_assoc).
  rewrite !driven_app, driven_reports, driven_connected. by destruct (driven earlier s).
Qed.
End Feeds.

Definition demo_calls : list (LifeCall (list OkxFeed.FeedAction)) := [CallStart demo_okx_life; CallStop].

Lemma demo_calls_live :
  Forall (fun call => match call with
                      | CallStart life => okx_life OkxFeed.demo_parse (fun _ => "") (fun _ _ => "") demo_ws_config life
                      | CallStop => True
                      end) demo_calls.
Proof.
  constructor; [|by repeat constructor]. exists [OkxFeed.demo_session], None. vm_compute. reflexivity.
Qed.

Lemma demo_life_notices :
  okx_connector_life demo_ws_config true demo_calls None
  = [Connectivity true] ++ Reporting OkxFeed.demo_report
    :: [Connectivity false; Connectivity false; Connectivity false].
Proof. vm_compute. reflexivity. Qed.

Lemma reports_meet_a_reconciled_registry_witness :
  exists earlier rs,
    [Connectivity true] = earlier ++ Connectivity true :: map Reporting rs
    /\ let '(p, w) := driven demo_clock earlier (demo_process, tt) in
       pr_oms (driven demo_clock ([Connectivity true] ++ [Reporting OkxFeed.demo_report]) (demo_process, tt)).1
       = with_reports (rs ++ [OkxFeed.demo_report]) (reconcile (pr_cfg p) (pr_oms p) w).1.2.
Proof.
  exact (reports_meet_a_reconciled_registry demo_clock OkxFeed.demo_parse (fun _ => "") (fun _ _ => "")
           demo_ws_config demo_calls [Connectivity true] OkxFeed.demo_report
           [Connectivity false; Connectivity false; Connectivity false] (demo_process, tt)
           demo_calls_live demo_life_notices).
Defined.
