(* ===== verification/GatewayThreads.v ===== *)
(** * The serving gateway, with its threads

    [GatewaySystem] serves one event after the other.  The process really runs
    a thread per REST request, one per venue feed and the main thread's audit
    loop, all on one order manager: here a started process runs any history of
    [OmsThreads], dies at any moment, and is started again on the file it left. *)

From S2P Require Import Prelude Types OrderState Decimal Json Risk Config EventLog Latency OmsTypes Oms OmsReconcile OmsReplay OmsAudit.
From S2P Require Import OmsFacts OmsSections OmsSystem OmsDurable OmsThread OmsProgram OmsThreads.
From S2P Require Import OkxWire OkxClient BinanceConfig RestSupport RestOrders RestVenue Gateway GatewaySystem.

Section Lives.
Context {W : Type} (make_okx : OkxConfig -> ExchangeConnector W)
  (make_binance : BinanceConfig -> ExchangeConnector W)
  (utc_now_iso_ms : W -> string * W) (parse : string -> option json) (dump : json -> string).

Notation start := (start_gateway make_okx make_binance utc_now_iso_ms parse).
Notation dv_of p := (default_venue (pr_cfg p)).

Implicit Types p : (Process (W:=W)).

(** The threads of a started process begin with a registry the log accounts for. *)
Lemma started_fresh c d w p err file w1 :
  start c d w = (Serves p err, file, w1) -> durable_disk c d -> fresh (dv_of p) (pr_oms p).
Proof.
  intros Hstart Hdisk.
  destruct (start_gateway_inv _ _ _ _ _ _ _ _ _ _ _ Hstart)
    as (venues & p0 & _ & _ & Hc0 & Ho0 & _ & t & Hrun). rewrite Hc0, Ho0 in Hrun.
  destruct (recovered_start parse (pr_cfg p) c d) as [Hk Hra].
  pose proof (inv_init _ Hk Hra) as HI.
  pose proof (run_inv _ _ _ _ HI Hrun) as HI'.
  destruct (run_persisted _ _ _ _ _ HI (recovered_persisted parse (pr_cfg p) c d Hdisk) Hrun) as [Hup Hd].
  constructor; [done|done|apply HI'|by eapply inv_quiet].
Qed.

(** What the next start of a process that died replays. *)
Lemma restarted_registry c d w p err file w1 (P : Pool W) calls d2 w2 :
  start c d w = (Serves p err, file, w1) -> durable_disk c d ->
  history (dv_of p) (pr_cfg p) (mkPool [] (pr_oms p) w1) calls P ->
  Forall (printable dump parse) (entries_of (pl_oms P)) -> left_by_crash dump (pl_oms P) d2 ->
  exists p2 err2 file2 w3, start c d2 w2 = (Serves p2 err2, file2, w3)
    /\ dv_of p2 = dv_of p
    /\ orders (recovered_oms parse (pr_cfg p2) c d2) = orders (restart (dv_of p) (pl_oms P)).
Proof.
  intros Hstart Hdisk Hh Hprint Hcrash.
  destruct (start_gateway_inv _ _ _ _ _ _ _ _ _ _ _ Hstart) as (venues & p0 & Hv & Hcfg & _).
  destruct (restart_serves make_okx make_binance utc_now_iso_ms parse dump c d2 (pl_oms P) venues w2
              Hv (proj1 Hdisk) Hprint Hcrash) as (p2 & err2 & file2 & w3 & Hs2 & Hrec & Hdv).
  exists p2, err2, file2, w3. split; [done|]. split; [by rewrite Hdv, Hcfg|].
  rewrite Hrec, Hdv, Hcfg. done.
Qed.

(** C2: Two lives of the gateway place no order twice, as long as every write to the log
    succeeds in both: a started process runs any history of REST, feed and audit threads (each a
    program of the order manager) and dies at any moment, calls in flight included; on the file
    it leaves the next start serves, replays exactly the registry that the log stands for, which
    agrees with the lost one on every order, and the places that both lives really send to
    venues are for distinct clientOrderIds that the first life did not find in its log. *)
Theorem two_lives_send_each_place_once c d w p err file w1 (P : Pool W) calls d2 w2 :
  start c d w = (Serves p err, file, w1) -> durable_disk c d ->
  history (dv_of p) (pr_cfg p) (mkPool [] (pr_oms p) w1) calls P ->
  Forall (printable dump parse) (entries_of (pl_oms P)) -> left_by_crash dump (pl_oms P) d2 ->
  durable_disk c d2 ->
  exists p2 err2 file2 w3, start c d2 w2 = (Serves p2 err2, file2, w3)
    /\ orders (recovered_oms parse (pr_cfg p2) c d2) = orders (restart (dv_of p) (pl_oms P))
    /\ durable_registry (orders (recovered_oms parse (pr_cfg p2) c d2)) (orders (pl_oms P))
    /\ forall calls2 (P2 : Pool W),
         history (dv_of p2) (pr_cfg p2) (mkPool [] (pr_oms p2) w3) calls2 P2 ->
         NoDup (places_sent calls ++ places_sent calls2)
         /\ forall id, id ∈ places_sent calls ++ places_sent calls2 ->
              orders (pr_oms p) !! id = None /\ is_Some (orders (pl_oms P2) !! id).
Proof.
  intros Hstart Hdisk Hh Hprint Hcrash Hdisk2.
  destruct (restarted_registry _ _ _ _ _ _ _ _ _ _ w2 Hstart Hdisk Hh Hprint Hcrash)
    as (p2 & err2 & file2 & w3 & Hs2 & Hdv & Hrec).
  pose proof (started_fresh _ _ _ _ _ _ _ Hstart Hdisk) as Hf.
  pose proof (started_fresh _ _ _ _ _ _ _ Hs2 Hdisk2) as Hf2.
  destruct (fresh_simulated _ _ _ _ _ _ Hf Hh) as (t & s' & Hl & Hsim & _ & [_ Hd]).
  rewrite (sm_oms _ _ _ _ _ Hsim) in Hd.
  exists p2, err2, file2, w3. split_and!; [done|done|by rewrite Hrec|].
  intros calls2 P2 Hh2.
  destruct (history_places _ _ _ _ _ _ Hf Hh) as (Hnd & Hkeep & Hp).
  destruct (history_places _ _ _ _ _ _ Hf2 Hh2) as (Hnd2 & Hkeep2 & Hp2).
  assert (Hknown : forall id, is_Some (orders (pl_oms P) !! id) -> is_Some (orders (pr_oms p2) !! id)).
  { intros id Hs. apply (durable_known _ _ _ Hd) in Hs as [r Hr].
    change (orders (restart (dv_of p) (pl_oms P)) !! id = Some r) in Hr. rewrite <- Hrec in Hr.
    destruct (start_gateway_inv _ _ _ _ _ _ _ _ _ _ _ Hs2)
      as (_ & p20 & _ & _ & Hc20 & Ho20 & _ & t2 & Hrun2). rewrite Hc20, Ho20 in Hrun2.
    destruct (run_forward _ _ _ _ Hrun2) as [Hev _ _]. destruct (Hev _ _ Hr) as (r' & Hr' & _).
    simpl in Hr'. by eexists. }
  split.
  - apply NoDup_app. split_and!; [done| |done]. intros id Hin Hin2.
    destruct (Hp id Hin) as [_ Hs]. destruct (Hp2 id Hin2) as [Hn _].
    apply Hknown in Hs as [r Hr]. congruence.
  - intros id [Hin|Hin]%elem_of_app.
    + destruct (Hp id Hin) as [Hn Hs]. auto.
    + destruct (Hp2 id Hin) as [Hn Hs]. split; [|done].
      destruct (orders (pr_oms p) !! id) as [r|] eqn:Hr; [|done].
      destruct (Hknown id) as [r' Hr']; [apply Hkeep; by eexists|]. congruence.
Qed.
End Lives.

(** ** A concrete pair of lives

    The first process recovers order c0, sends order c1 and dies before the
    venue answers, in the middle of another line; the second one is asked for
    c1 again. *)

Definition lives_event : json := place_submitted_event (candidate_of demo_request "okx").
Definition lives_dump (e : json) : string :=
  match event_string e "clientOrderId" with
  | Some id => if id ==s "c0" then "e" else "f"
  | None => ""
  end.
Definition lives_parse (line : string) : option json :=
  if line ==s "e" then Some demo_event else if line ==s "f" then Some lives_event else None.

Definition lives_start (d : Disk) : MainEnd (W:=unit) * LogFile * unit :=
  start_gateway deaf_make deaf_make demo_clock lives_parse demo_config d tt.
Definition lives_process (d : Disk) : Process :=
  match (lives_start d).1.1 with Serves p _ => p | Exits _ _ => demo_process end.
Definition lives_warnings (d : Disk) : list string :=
  match (lives_start d).1.1 with Serves _ err => err | Exits _ err => err end.

Definition lives_threads (d : Disk) (turns : list nat) : list VenueCall * Pool unit :=
  let p := lives_process d in
  play turns (mkPool [program (pr_cfg p) (OpPlace demo_request "okx" 0)] (pr_oms p) tt).

Lemma lives_history d turns :
  history (default_venue (pr_cfg (lives_process d))) (pr_cfg (lives_process d))
    (mkPool [] (pr_oms (lives_process d)) tt) ([] ++ (lives_threads d turns).1) (lives_threads d turns).2.
Proof. apply play_history. apply (hs_start _ _ _ [] []). constructor. Defined.

Definition lives_crashed : Pool unit := (lives_threads demo_disk [0; 0; 0; 0]%nat).2.
Definition lives_disk : Disk :=
  mkDisk (Contents (file_of lives_dump [demo_event; lives_event] +:+ "{torn")) None true []
    (mkLatencyLog Z.of_nat 0 []).

Lemma lives_entries : entries_of (pl_oms lives_crashed) = [demo_event; lives_event].
Proof. vm_compute. reflexivity. Defined.

Lemma lives_calls : (lives_threads demo_disk [0; 0; 0; 0]%nat).1 = [AskPlace "okx" demo_request].
Proof. vm_compute. reflexivity. Defined.

Lemma two_lives_send_each_place_once_witness :
  exists p2 err2 file2 w3, lives_start lives_disk = (Serves p2 err2, file2, w3)
    /\ durable_registry (orders (recovered_oms lives_parse (pr_cfg p2) demo_config lives_disk))
         (orders (pl_oms lives_crashed))
    /\ forall calls2 P2,
         history (default_venue (pr_cfg p2)) (pr_cfg p2) (mkPool [] (pr_oms p2) w3) calls2 P2 ->
         NoDup ("c1" :: places_sent calls2).
Proof.
  destruct (two_lives_send_each_place_once deaf_make deaf_make demo_clock lives_parse lives_dump
    demo_config demo_disk tt (lives_process demo_disk) (lives_warnings demo_disk) (dk_log demo_disk) tt
    lives_crashed ([] ++ (lives_threads demo_disk [0; 0; 0; 0]%nat).1) lives_disk tt) as (p2 & err2 & file2 & w3 & Hs & _ & Hd & H).
  - vm_compute. reflexivity.
  - split; [by eexists|split; reflexivity].
  - exact (lives_history demo_disk [0; 0; 0; 0]%nat).
  - rewrite lives_entries. by repeat constructor.
  - exists "{torn". rewrite lives_entries. split; [vm_compute; reflexivity|split; reflexivity].
  - split; [by eexists|split; reflexivity].
  - exists p2, err2, file2, w3. split; [exact Hs|]. split; [exact Hd|].
    intros calls2 P2 Hh. destruct (H calls2 P2 Hh) as [Hnd _]. rewrite lives_calls in Hnd. exact Hnd.
Defined.
