(* ===== verification/ExactlyOnce.v ===== *)
(** * An order reaches its venue at most once

    The account of [VenueAccount] under the threads of [OmsThreads]: whatever
    threads start, run, wait and end, in whatever order, with crashes and
    restarts in between, no client order id is accepted twice by a venue, and
    whatever a venue has accepted is in the registry.

    A run of the resilient calls against the venue is one step here, as in
    [OmsThreads]; requests for other orders do not touch the account of this
    one.  A call that a crash cut off may still be accepted at any later time,
    once ([lands]). *)

From S2P Require Import Prelude Types OrderState Decimal Json Risk Latency EventLog OmsTypes Oms OmsReconcile OmsReplay OmsAudit.
From S2P Require Import OmsFacts OmsSections OmsSystem OmsDurable OmsThread OmsProgram OmsThreads.
From S2P Require Import Retry Resolve VenueAccount.

Section Threads.
Context {W : Type} (accepted : string -> W -> nat) (dv : string) (cfg : OmsConfig W).
Context (Hvenues : forall venue conn, (venue, conn) ∈ connectors cfg -> PlacesOnce accepted conn).

(** ** Threads that wait for what they have sent *)

Definition answers_soundly {B : Type} (call : VenueCall) (answer : W -> B * W) : Prop :=
  match place_call call with
  | Some own => forall w, keeps_others accepted own w (answer w).2
      /\ (accepted own w = 0%nat -> (accepted own (answer w).2 <= 1)%nat)
  | None => quiet accepted answer
  end.

(** [asked]: the place that has left and is not answered. *)
Fixpoint orderly {A} (p : Prog W A) (asked : option string) : Prop :=
  match p with
  | Ret _ => asked = None
  | Locked section k => asked = None /\ forall st, orderly (k (section st).1) None
  | Send call rest => asked = None /\ orderly rest (place_call call)
  | Await call answer k =>
      asked = place_call call /\ answers_soundly call answer /\ forall b, orderly (k b) None
  end.

Definition awaited {A} (p : Prog W A) : option string :=
  match p with Await call _ _ => place_call call | _ => None end.

Lemma orderly_awaited {A} (p : Prog W A) asked : orderly p asked -> asked = awaited p.
Proof. destruct p; simpl; naive_solver. Qed.

Lemma orderly_bind {A C} (p : Prog W A) (f : A -> Prog W C) asked :
  orderly p asked -> (forall a, orderly (f a) None) -> orderly (p ≫= f) asked.
Proof.
  intros Hp Hf. revert asked Hp. unfold mbind, prog_mbind.
  induction p as [a|B section k IH|call rest IH|B call answer k IH]; intros asked; simpl.
  - intros ->. apply Hf.
  - intros [-> H]. split; [done|]. intros st. by apply IH.
  - intros [-> H]. split; [done|]. by apply IH.
  - intros (-> & Ha & H). split_and!; [done..|]. intros b. by apply IH.
Qed.

Lemma orderly_locked {A B} (section : Oms -> B * Oms) (k : B -> Prog W A) :
  (forall st, orderly (k (section st).1) None) -> orderly (locked section ≫= k) None.
Proof. intros H. by split. Qed.

Lemma orderly_ask {A B} call (answer : W -> B * W) (k : B -> Prog W A) :
  answers_soundly call answer -> (forall b, orderly (k b) None) -> orderly (ask call answer ≫= k) None.
Proof. intros Ha Hk. by split_and!. Qed.

(** *** The programs *)

Lemma routed_places_once venue conn :
  connector_for cfg venue = Some conn -> PlacesOnce accepted conn.
Proof.
  unfold connector_for. revert Hvenues. induction (connectors cfg) as [|[key c] rest IH]; intros Hv; simpl; [done|].
  destruct (venue ==s key); [intros [= <-]; apply (Hv key); by left|].
  apply IH. intros v c' Hin. apply (Hv v). by right.
Qed.

Lemma recorded_places_once r conn :
  connector_for_record cfg r = Some conn -> PlacesOnce accepted conn.
Proof. unfold connector_for_record. case_match; apply routed_places_once. Qed.

Lemma orderly_place request venue hit : orderly (place_prog cfg request venue hit) None.
Proof.
  apply orderly_locked. intros st0. apply orderly_locked. intros st.
  pose proof (place_begin_spec cfg request venue st) as Hb.
  destruct (place_begin cfg request venue st) as [s st1]. simpl.
  destruct s as [out|conn|]; [done| |done].
  assert (Hc : PlacesOnce accepted conn) by (inversion Hb; subst; by eapply routed_places_once).
  apply orderly_locked. intros _. apply orderly_ask.
  - intros w. pose proof (po_place accepted request w) as H.
    destruct (place_order request w) as [r w']. destruct H as [Ho H]. naive_solver.
  - intros placement. by apply orderly_locked.
Qed.

Lemma orderly_cancel id : orderly (cancel_prog cfg id) None.
Proof.
  apply orderly_locked. intros st. simpl. pose proof (cancel_begin_spec cfg id st) as Hs.
  destruct (cancel_begin cfg id st) as [out|conn wire]; [done|].
  destruct Hs as (r & _ & _ & Hc & _). apply recorded_places_once in Hc.
  apply orderly_ask; [apply qr_cancel; apply _|]. intros placement. by split.
Qed.

Lemma orderly_amend command : orderly (amend_prog cfg command) None.
Proof.
  apply orderly_locked. intros st. pose proof (amend_begin_spec cfg command st) as Hs.
  destruct (amend_begin cfg command st) as [s st1]. simpl.
  destruct s as [out|conn wire|]; [done| |done].
  destruct Hs as (_ & _ & r & _ & _ & _ & Hc & _). apply recorded_places_once in Hc.
  apply orderly_ask; [apply qr_amend; apply _|]. intros placement. by apply orderly_locked.
Qed.

Lemma orderly_listings cs report :
  (forall venue conn, (venue, conn) ∈ cs -> PlacesOnce accepted conn) ->
  orderly (listings_prog cs report) None.
Proof.
  revert report. induction cs as [|[venue conn] rest IH]; intros report Hcs; [done|].
  assert (Hc : PlacesOnce accepted conn) by (apply (Hcs venue); by left).
  assert (Hrest : forall v c, (v, c) ∈ rest -> PlacesOnce accepted c)
    by (intros v c Hin; apply (Hcs v); by right).
  apply orderly_ask; [apply qr_open; apply _|]. intros [snapshots|e]; [|by apply IH].
  apply orderly_locked. intros st. by apply IH.
Qed.

Lemma orderly_lookups open report : orderly (lookups_prog cfg open report) None.
Proof.
  revert report. induction open as [|item rest IH]; intros report; [done|]. cbn [lookups_prog].
  destruct (connector_for cfg (wi_venue item)) as [conn|] eqn:E; [|apply IH].
  apply routed_places_once in E. apply orderly_ask; [apply qr_get; apply _|].
  intros answer. apply orderly_locked. intros st. apply IH.
Qed.

Lemma orderly_audit_lookups open report : orderly (audit_lookups_prog cfg open report) None.
Proof.
  revert report. induction open as [|item rest IH]; intros report; [done|]. cbn [audit_lookups_prog].
  destruct (connector_for cfg (wi_venue item)) as [conn|] eqn:E; [|apply IH].
  apply routed_places_once in E. apply orderly_ask; [apply qr_get; apply _|].
  intros answer. apply orderly_locked. intros st. apply IH.
Qed.

Lemma orderly_price symbol venue : orderly (price_prog cfg symbol venue) None.
Proof.
  unfold price_prog. destruct (connector_for cfg _) as [conn|] eqn:E; [|done].
  apply routed_places_once in E. by apply orderly_ask; [apply qr_price; apply _|].
Qed.

Lemma orderly_program op : orderly (program cfg op) None.
Proof.
  destruct op; apply orderly_bind; try done.
  - apply orderly_place.
  - apply orderly_cancel.
  - apply orderly_amend.
  - apply orderly_bind; [by apply orderly_listings|]. intros report.
    apply orderly_locked. intros st. apply orderly_lookups.
  - apply orderly_locked. intros st. apply orderly_audit_lookups.
  - apply orderly_price.
Qed.
(** ** Histories in which only the gateway places orders *)

Definition awaiting (ths : list (Prog W Answer)) : list string := omap awaited ths.

(** A place that a crash cut off may still be accepted, once. *)
Definition lands (cut_off : list string) (w w' : W) : Prop := forall id,
  accepted id w' = accepted id w
  \/ (id ∈ cut_off /\ accepted id w = 0%nat /\ accepted id w' = 1%nat).

(** [venue_history P calls cut_off P']: a [history] with the places that
    crashes cut off. *)
Inductive venue_history : Pool W -> list VenueCall -> list string -> Pool W -> Prop :=
  | vh_nil P : venue_history P [] [] P
  | vh_work P c1 cut P2 c2 P3 :
      venue_history P c1 cut P2 -> works P2 c2 P3 -> venue_history P (c1 ++ c2) cut P3
  | vh_start P c cut ths st w op :
      venue_history P c cut (mkPool ths st w) ->
      venue_history P c cut (mkPool (ths ++ [program cfg op]) st w)
  | vh_world P c cut ths st w w' :
      venue_history P c cut (mkPool ths st w) -> lands cut w w' ->
      venue_history P c cut (mkPool ths st w')
  | vh_crash P c cut ths st w w' :
      venue_history P c cut (mkPool ths st w) -> lands cut w w' ->
      venue_history P c (cut ++ awaiting ths) (mkPool [] (restart dv st) w').

Lemma venue_history_history P c cut P' : venue_history P c cut P' -> history dv cfg P c P'.
Proof.
  induction 1; [constructor|by eapply hs_work|by apply hs_start|by eapply hs_world|by eapply hs_crash].
Qed.

(** ** The account along a history *)

(** What the venues have accepted was there at the start ([w0]), or it is a
    place that has left ([sent]) and was answered or cut off; those that are
    still waited for ([waiting]) have left as well. *)
Definition traced (w0 : W) (sent cut waiting : list string) (w : W) : Prop :=
  exists answered, answered ++ cut ++ waiting ⊆+ sent
    /\ forall id, accepted id w <> 0%nat -> accepted id w0 <> 0%nat \/ id ∈ answered ++ cut.

Section Traced.
Context (w0 : W).

Lemma traced_perm sent cut waiting waiting' w :
  waiting ≡ₚ waiting' -> traced w0 sent cut waiting w -> traced w0 sent cut waiting' w.
Proof. intros Hp (answered & Hs & Ha). exists answered. by rewrite <- Hp. Qed.

Lemma traced_send sent cut waiting new w :
  traced w0 sent cut waiting w -> traced w0 (sent ++ new) cut (new ++ waiting) w.
Proof.
  intros (answered & Hs & Ha). exists answered. split; [|done].
  rewrite (Permutation_app_comm sent), (Permutation_app_swap_app cut), (Permutation_app_swap_app answered).
  by apply submseteq_skips_l.
Qed.

Lemma traced_answer sent cut waiting new w w' :
  (forall id, id ∉ new -> accepted id w' = accepted id w) ->
  traced w0 sent cut (new ++ waiting) w -> traced w0 sent cut waiting w'.
Proof.
  intros Hk (answered & Hs & Ha). exists (new ++ answered). split.
  - rewrite (Permutation_app_swap_app cut), (Permutation_app_swap_app answered) in Hs.
    by rewrite <- app_assoc.
  - intros id Hne. destruct (decide (id ∈ new)) as [Hin|Hin]; [right; set_solver|].
    rewrite (Hk id Hin) in Hne. destruct (Ha id Hne); [by left|right; set_solver].
Qed.

Lemma traced_crash sent cut waiting w :
  traced w0 sent cut waiting w -> traced w0 sent (cut ++ waiting) [] w.
Proof.
  intros (answered & Hs & Ha). exists answered. rewrite app_nil_r. split; [done|].
  intros id Hne. destruct (Ha id Hne); [by left|right; set_solver].
Qed.

Lemma traced_lands sent cut waiting w w' :
  lands cut w w' -> traced w0 sent cut waiting w -> traced w0 sent cut waiting w'.
Proof.
  intros Hl (answered & Hs & Ha). exists answered. split; [done|].
  intros id Hne. destruct (Hl id) as [He|(Hin & _)]; [rewrite He in Hne; by apply Ha|right; set_solver].
Qed.
End Traced.

(** A place on its way has not been accepted: its id was asked for once, and
    was not known at the start. *)
Lemma waiting_not_accepted w0 sent cut waiting w id :
  traced w0 sent cut waiting w -> NoDup sent -> (forall id, id ∈ sent -> accepted id w0 = 0%nat) ->
  id ∈ waiting -> accepted id w = 0%nat.
Proof.
  intros (answered & Hs & Ha) Hnd H0 Hin.
  destruct (decide (accepted id w = 0%nat)) as [|Hne]; [done|]. exfalso.
  assert (Hsent : id ∈ sent) by (eapply elem_of_submseteq; [|exact Hs]; set_solver).
  destruct (Ha id Hne) as [Hk|Hk]; [by apply Hk, H0|].
  rewrite app_assoc in Hs. apply submseteq_Permutation in Hs as [k Hp]. rewrite Hp in Hnd.
  apply NoDup_app in Hnd as [Hnd _]. apply NoDup_app in Hnd as (_ & Hd & _).
  exact (Hd id Hk Hin).
Qed.

Record account_ok (w0 : W) (sent cut : list string) (P : Pool W) : Prop := {
  ac_orderly : Forall (fun p => orderly p (awaited p)) (pl_threads P);
  ac_once id : (accepted id (pl_world P) <= 1)%nat;
  ac_traced : traced w0 sent cut (awaiting (pl_threads P)) (pl_world P) }.

Lemma awaiting_middle pre p post :
  awaiting (pre ++ p :: post) ≡ₚ option_list (awaited p) ++ awaiting (pre ++ post).
Proof.
  unfold awaiting. rewrite !omap_app. simpl. destruct (awaited p) as [id|]; simpl; [|done].
  by rewrite <- Permutation_middle.
Qed.

Lemma Forall_middle {X} (Q : X -> Prop) pre x post :
  Forall Q (pre ++ x :: post) <-> Q x /\ Forall Q (pre ++ post).
Proof. rewrite !Forall_app, Forall_cons. tauto. Qed.

Lemma account_work w0 sent cut P calls P' :
  account_ok w0 sent cut P -> works P calls P' ->
  NoDup (sent ++ places_sent calls) ->
  (forall id, id ∈ sent ++ places_sent calls -> accepted id w0 = 0%nat) ->
  account_ok w0 (sent ++ places_sent calls) cut P'.
Proof.
  intros [Ho H1 Ht] Hw Hnd H0.
  destruct Hw as [pre p post st w calls p' st' w' Hadv|pre a post st w]; simpl in *;
    apply Forall_middle in Ho as [Hp Ho];
    apply (traced_perm _ _ _ _ _ _ (awaiting_middle _ _ _)) in Ht.
  2: { rewrite app_nil_r. by split. }
  destruct p as [a|B section k|call rest|B call answer k]; simpl in Hadv, Hp, Ht; [done|..].
  - destruct Hp as [_ Hp]. specialize (Hp st). destruct (section st) as [b st1]. simplify_eq/=.
    pose proof (orderly_awaited _ _ Hp) as He. rewrite app_nil_r.
    split; simpl; [apply Forall_middle; by rewrite <- He|done|].
    eapply traced_perm; [symmetry; apply awaiting_middle|]. by rewrite <- He.
  - destruct Hp as [_ Hp]. simplify_eq/=. pose proof (orderly_awaited _ _ Hp) as He.
    split; simpl; [apply Forall_middle; by rewrite <- He|done|].
    eapply traced_perm; [symmetry; apply awaiting_middle|]. rewrite <- He.
    by apply (traced_send _ _ _ _ (option_list (place_call call))).
  - destruct Hp as (_ & Hans & Hp). destruct (answer w) as [b w1] eqn:Ew. simplify_eq/=.
    specialize (Hp b). pose proof (orderly_awaited _ _ Hp) as He. rewrite app_nil_r in *.
    assert (Hkeep : (forall id, id ∉ option_list (place_call call) -> accepted id w' = accepted id w)
                    /\ forall id, (accepted id w' <= 1)%nat).
    { unfold answers_soundly in Hans. destruct (place_call call) as [own|]; simpl in *.
      - specialize (Hans w). rewrite Ew in Hans. destruct Hans as [Hk Hle]. simpl in *. split.
        + intros id Hid. apply Hk. set_solver.
        + intros id. destruct (decide (id = own)) as [->|Hne]; [|by rewrite Hk].
          apply Hle, (waiting_not_accepted _ _ _ _ _ _ Ht Hnd H0). by left.
      - specialize (Hans w). rewrite Ew in Hans. simpl in Hans.
        split; intros id; by rewrite (Hans id). }
    destruct Hkeep as [Hk Hle].
    split; simpl; [apply Forall_middle; by rewrite <- He|done|].
    eapply traced_perm; [symmetry; apply awaiting_middle|]. rewrite <- He. by eapply traced_answer.
Qed.

(** Where it all starts: no id was accepted twice, and the registry knows those
    that were accepted. *)
Definition accounted (st : Oms) (w : W) : Prop := forall id,
  (accepted id w <= 1)%nat /\ (accepted id w <> 0%nat -> is_Some (orders st !! id)).

Lemma account_history st w0 calls cut P :
  fresh dv st -> accounted st w0 -> venue_history (mkPool [] st w0) calls cut P ->
  account_ok w0 (places_sent calls) cut P.
Proof.
  intros Hf Hacc Hh. remember (mkPool [] st w0) as P0 eqn:EP.
  induction Hh as [P|P c1 cut P2 c2 P3 Hh IH Hw|P c cut ths st1 w op Hh IH|P c cut ths st1 w w' Hh IH Hl
    |P c cut ths st1 w w' Hh IH Hl]; subst.
  - split; simpl; [done|intros id; by apply Hacc|]. exists []. split; [done|]. intros id. by left.
  - specialize (IH eq_refl). apply venue_history_history in Hh.
    pose proof (hs_work _ _ _ _ _ _ _ Hh Hw) as Hh3.
    destruct (history_places _ _ _ _ _ _ Hf Hh3) as (Hnd & _ & Hp).
    unfold places_sent in *. rewrite omap_app in *.
    eapply account_work; [done|done|done|]. intros id Hin. apply Hp in Hin as [Hn _].
    destruct (decide (accepted id w0 = 0%nat)) as [|Hne]; [done|].
    destruct (Hacc id) as [_ Hs]. destruct (Hs Hne). congruence.
  - destruct (IH eq_refl) as [Ho H1 Ht]. simpl in *.
    pose proof (orderly_program op) as Hop. pose proof (orderly_awaited _ _ Hop) as He.
    split; simpl; [|done|].
    + apply Forall_app. split; [done|]. apply Forall_singleton. by rewrite <- He.
    + unfold awaiting. rewrite omap_app. simpl. rewrite <- He, app_nil_r. done.
  - destruct (IH eq_refl) as [Ho H1 Ht]. simpl in *. split; simpl; [done| |by eapply traced_lands].
    intros id. specialize (H1 id). destruct (Hl id) as [->|(_ & _ & ->)]; lia.
  - destruct (IH eq_refl) as [Ho H1 Ht]. simpl in *. split; simpl; [done| |].
    + intros id. specialize (H1 id). destruct (Hl id) as [->|(_ & _ & ->)]; lia.
    + apply traced_crash. by eapply traced_lands.
Qed.

(** The promise for a configured order manager. *)
Lemma accepted_at_most_once st w0 calls cut P id :
  fresh dv st -> accounted st w0 -> venue_history (mkPool [] st w0) calls cut P ->
  (accepted id (pl_world P) <= 1)%nat
  /\ (accepted id (pl_world P) <> 0%nat ->
      is_Some (orders (pl_oms P) !! id) /\ (accepted id w0 <> 0%nat \/ id ∈ places_sent calls)).
Proof.
  intros Hf Hacc Hh. destruct (account_history _ _ _ _ _ Hf Hacc Hh) as [_ H1 (answered & Hs & Ha)].
  split; [done|]. intros Hne.
  destruct (history_places _ _ _ _ _ _ Hf (venue_history_history _ _ _ _ Hh)) as (_ & Hkeep & Hp).
  assert (Hin : accepted id w0 <> 0%nat \/ id ∈ places_sent calls).
  { destruct (Ha id Hne) as [Hk|Hk]; [by left|right]. eapply elem_of_submseteq; [|exact Hs]. set_solver. }
  split; [|done]. destruct Hin as [Hk|Hk]; [by apply Hkeep, Hacc|by apply Hp].
Qed.
Lemma play_venue_history P0 c cut P turns :
  venue_history P0 c cut P -> venue_history P0 (c ++ (play turns P).1) cut (play turns P).2.
Proof.
  revert c P. induction turns as [|i rest IH]; intros c P Hh; cbn [play]; [by rewrite app_nil_r|].
  assert (H1 : venue_history P0 (c ++ (turn i P).1) cut (turn i P).2).
  { destruct (turn_works i P) as [->|Hw]; [by rewrite app_nil_r|by eapply vh_work]. }
  destruct (turn i P) as [calls P1]. cbn [fst snd] in H1.
  specialize (IH _ _ H1). destruct (play rest P1) as [more P2]. cbn [fst snd] in *.
  by rewrite app_assoc.
Qed.
End Threads.
