(* ===== verification/GatewayOnce.v ===== *)
(** * A gateway, its venues, and orders that arrive at most once

    [ExactlyOnce] speaks of any connectors that keep the promise [PlacesOnce];
    here the connectors are those that main builds from its configuration, the
    process is started on the file of an earlier life, and the account is that
    of the two venues.

    The assumptions ([VenuesKeepAccounts]) are those the resilient calls are
    written for: one request is accepted at most once, lookups answer for what
    was accepted so far, and waiting accepts nothing.  The last one is the
    limit of resolve-then-retry: a place that arrives after the lookup which
    denied it, while it is sent again, is left to the venue's own check for
    duplicates.  A request that a crash cuts off may arrive at any time. *)

From S2P Require Import Prelude Types OrderState Decimal Json Risk Config EventLog Latency OmsTypes Oms OmsReconcile OmsReplay OmsAudit.
From S2P Require Import OmsFacts OmsSections OmsSystem OmsDurable OmsThread OmsProgram OmsThreads.
From S2P Require Import Retry Resolve VenueAccount ExactlyOnce.
From S2P Require Import OkxWire OkxClient OkxResilient OkxConnector OkxAccount.
From S2P Require Import BinanceWire BinanceConfig BinanceResilient BinanceConnector BinanceAccount.
From S2P Require Import RestSupport RestOrders RestVenue Gateway GatewaySystem GatewayThreads.

(** ** The requests of a start place nothing *)

Section Start.
Context {W : Type} (accepted : string -> W -> nat) (cfg : OmsConfig W).
Context (Hvenues : forall venue conn, (venue, conn) ∈ connectors cfg -> PlacesOnce accepted conn).

Lemma reconcile_listings_quiet cs s w :
  (forall venue conn, (venue, conn) ∈ cs -> PlacesOnce accepted conn) ->
  keeps accepted w (reconcile_listings cs s w).2.
Proof.
  revert s w. induction cs as [|[venue conn] rest IH]; intros s w Hcs; [done|].
  assert (Hc : PlacesOnce accepted conn) by (apply (Hcs venue); by left).
  assert (Hrest : forall v c, (v, c) ∈ rest -> PlacesOnce accepted c)
    by (intros v c Hin; apply (Hcs v); by right).
  cbn [reconcile_listings]. pose proof (qr_open accepted w) as Hq.
  destruct (get_open_orders w) as [[snapshots|e] w1]; (etrans; [exact Hq|]); destruct s; by apply IH.
Qed.

Lemma reconcile_orders_quiet open s w : keeps accepted w (reconcile_orders cfg open s w).2.
Proof.
  revert s w. induction open as [|item rest IH]; intros [report st] w; [done|]. cbn [reconcile_orders].
  destruct (connector_for cfg (wi_venue item)) as [conn|] eqn:E; [|apply IH].
  apply (routed_places_once accepted cfg Hvenues) in E. pose proof (qr_get accepted (wi_query item) w) as Hq.
  destruct (get_order (wi_query item) w) as [a w1]. etrans; [exact Hq|apply IH].
Qed.

Lemma reconcile_quiet st w : keeps accepted w (reconcile cfg st w).2.
Proof.
  unfold reconcile. pose proof (reconcile_listings_quiet (connectors cfg) (empty_report, st) w Hvenues) as H.
  destruct (reconcile_listings _ _ _) as [[report st1] w1]. etrans; [exact H|apply reconcile_orders_quiet].
Qed.

Lemma audit_orders_quiet open st report w : keeps accepted w (audit_orders cfg open st report w).2.
Proof.
  revert report w. induction open as [|item rest IH]; intros report w; [done|]. cbn [audit_orders].
  destruct (connector_for cfg (wi_venue item)) as [conn|] eqn:E; [|apply IH].
  apply (routed_places_once accepted cfg Hvenues) in E. pose proof (qr_get accepted (wi_query item) w) as Hq.
  destruct (get_order (wi_query item) w) as [a w1]. etrans; [exact Hq|apply IH].
Qed.

Context (utc_now_iso_ms : W -> string * W) (Hclock : quiet accepted utc_now_iso_ms).

Lemma print_line_quiet line p : quiet accepted (print_line utc_now_iso_ms line p).
Proof. intros w. unfold print_line. pose proof (Hclock w) as H. by destruct (utc_now_iso_ms w). Qed.

Lemma print_lines_quiet lines p : quiet accepted (print_lines utc_now_iso_ms lines p).
Proof.
  revert p. induction lines as [|line rest IH]; intros p w; [done|]. cbn [print_lines].
  pose proof (print_line_quiet line p w) as H. destruct (print_line _ _ _ _) as [p1 w1].
  etrans; [exact H|apply IH].
Qed.

Lemma run_audit_quiet p : pr_cfg p = cfg -> quiet accepted (run_audit utc_now_iso_ms p).
Proof.
  intros Hp w. unfold run_audit, audit. rewrite Hp.
  destruct (audit_begin cfg (pr_oms p)) as [[report open] st].
  pose proof (audit_orders_quiet open st report w) as H0.
  destruct (audit_orders _ _ _ _ _) as [report1 w1].
  match goal with |- context [print_lines ?n ?l ?q ?v] =>
    pose proof (print_lines_quiet l q v) as H1; destruct (print_lines n l q v) as [p2 w2] end.
  match goal with |- context [print_line ?n ?l ?q ?v] =>
    pose proof (print_line_quiet l q v) as H2; destruct (print_line n l q v) as [p3 w3] end.
  pose proof (Hclock w3) as H3. destruct (utc_now_iso_ms w3) as [ts w4].
  by rewrite H0, H1, H2.
Qed.

Lemma reconcile_and_print_quiet p :
  pr_cfg p = cfg -> quiet accepted (reconcile_and_print utc_now_iso_ms p).
Proof.
  intros Hp w. unfold reconcile_and_print. rewrite Hp.
  pose proof (reconcile_quiet (pr_oms p) w) as H. destruct (reconcile _ _ _) as [[report st] w1].
  etrans; [exact H|apply print_line_quiet].
Qed.

Lemma go_live_quiet c p : pr_cfg p = cfg -> quiet accepted (go_live utc_now_iso_ms c p).
Proof.
  intros Hp w. unfold go_live.
  pose proof (reconcile_and_print_quiet p Hp w) as H.
  destruct (reconcile_and_print_rest utc_now_iso_ms p w) as (Hc & _).
  destruct (reconcile_and_print _ p w) as [p1 w1]. cbn [fst snd] in *.
  destruct (0 <? audit_interval_ms c); [|done].
  assert (Hp1 : pr_cfg p1 = cfg) by congruence.
  pose proof (run_audit_quiet p1 Hp1 w1) as Ha. destruct (run_audit _ p1 w1) as [p2 w2].
  etrans; [exact H|exact Ha].
Qed.
End Start.

(** ** The venues of a configuration *)

Section Venues.
Context {W : Type} (okx_accepted binance_accepted : string -> W -> nat).
Local Notation World := (W * SymbolTranslator)%type.
Local Notation lifted accepted := (first_account (X:=SymbolTranslator) accepted).

(** The orders that either venue has accepted under a client order id. *)
Definition accepted_anywhere (id : string) (w : World) : nat :=
  okx_accepted id w.1 + binance_accepted id w.1.
Local Notation account := accepted_anywhere.

(** The two clients, with what their venues promise of the accounts. *)
Context (okx_client : OkxConfig -> OkxTradeClient World) (okx_market : OkxConfig -> OkxMarketClient World)
  (okx_clock : RetryClock World).
Context (binance_trade : BinanceConfig -> BinanceTradeApi W)
  (binance_market : BinanceConfig -> BinanceMarketApi W) (binance_clock : RetryClock W).

Record VenuesKeepAccounts : Prop := {
  vk_okx config : OkxAccount (lifted okx_accepted) (okx_client config) (okx_market config);
  vk_okx_elsewhere config : OkxQuiet (lifted binance_accepted) (okx_client config) (okx_market config);
  vk_okx_place config request : quiet (lifted binance_accepted) (cl_place (OkxTradeClient:=okx_client config) request);
  vk_okx_clock : QuietClock (lifted okx_accepted) okx_clock /\ QuietClock (lifted binance_accepted) okx_clock;
  vk_binance config : BinanceAccount binance_accepted (binance_trade config) (binance_market config);
  vk_binance_elsewhere config : BinanceQuiet okx_accepted (binance_trade config) (binance_market config);
  vk_binance_place config request : quiet okx_accepted (ap_place (BinanceTradeApi:=binance_trade config) request);
  vk_binance_clock : QuietClock binance_accepted binance_clock /\ QuietClock okx_accepted binance_clock }.
Context (Hvenues : VenuesKeepAccounts).

Local Notation make_okx := (fun config =>
  okx_exchange_connector (okx_client config) (okx_market config) config okx_clock).
Local Notation make_binance := (fun config =>
  binance_exchange_connector (binance_trade config) (binance_market config) config binance_clock).

Lemma okx_venue_once config :
  1 <= max_attempts (OkxClient.retry config) -> PlacesOnce account (make_okx config).
Proof.
  destruct Hvenues as [Ho Hoe Hop [Hc1 Hc2] _ _ _ _]. intros Hattempts.
  apply (places_once_total (lifted okx_accepted) (lifted binance_accepted)); [done|..].
  - by apply okx_places_once.
  - by apply okx_places_elsewhere.
Qed.

Lemma binance_venue_once config :
  1 <= max_attempts (bn_retry config) -> PlacesOnce account (make_binance config).
Proof.
  destruct Hvenues as [_ _ _ _ Hb Hbe Hbp [Hc1 Hc2]]. intros Hattempts.
  apply (places_once_total (lifted binance_accepted) (lifted okx_accepted)); [intros id w; apply Nat.add_comm|..].
  - by apply binance_places_once.
  - by apply binance_places_elsewhere.
Qed.

Lemma configured_places_once c venues :
  configured_venues make_okx make_binance c = inr venues ->
  forall venue conn, (venue, conn) ∈ venues -> PlacesOnce account conn.
Proof.
  unfold configured_venues, venue_config. intros Hv.
  pose proof (accepted_attempts (Config.okx c)) as Ho.
  pose proof (binance_config_attempts (Config.binance c)) as Hb.
  destruct (okx_enabled c), (binance_enabled c); simpl in Hv;
    try destruct (okx_config_from_json _); try destruct (binance_config_from_json _); simplify_eq/=;
    intros venue conn Hin; rewrite ?elem_of_cons, ?elem_of_nil in Hin;
    naive_solver eauto using okx_venue_once, binance_venue_once.
Qed.

Context (utc_now_iso_ms : World -> string * World) (Hnow : quiet account utc_now_iso_ms)
  (parse : string -> option json).

(** A start recovers, looks up and audits; it places nothing. *)
Lemma start_keeps c d w p err file w1 :
  start_gateway make_okx make_binance utc_now_iso_ms parse c d w = (Serves p err, file, w1) ->
  keeps account w w1.
Proof.
  unfold start_gateway. destruct (configured_venues _ _ c) as [text|venues] eqn:Hv; [done|].
  destruct (default_venue_of c venues) as [venue warning].
  set (cfg := mkOmsConfig _ _ _).
  destruct (load_from_log _ cfg _ _ _) as [[[stats|e] file0] st]; [|done].
  set (q := mkProcess _ _ _ _ _).
  pose proof (go_live_quiet account cfg (configured_places_once _ _ Hv) _ Hnow c q eq_refl w) as H.
  destruct (go_live _ c q w) as [p1 w2]. intros. by simplify_eq.
Qed.

Lemma start_accounted c d w p err file w1 :
  start_gateway make_okx make_binance utc_now_iso_ms parse c d w = (Serves p err, file, w1) ->
  accounted account (recovered_oms parse (pr_cfg p) c d) w -> accounted account (pr_oms p) w1.
Proof.
  intros Hstart Hacc.
  destruct (start_gateway_inv _ _ _ _ _ _ _ _ _ _ _ Hstart)
    as (venues & p0 & Hv & Hcfg & Hc0 & Ho0 & _ & t & Hrun). rewrite Hc0, Ho0 in Hrun.
  intros id. rewrite (start_keeps _ _ _ _ _ _ _ Hstart id). destruct (Hacc id) as [Hle Hs]. split; [done|]. intros Hne.
  destruct (Hs Hne) as [r Hr]. destruct (run_forward _ _ _ _ Hrun) as [Hev _ _].
  destruct (Hev _ _ Hr) as (r' & Hr' & _). by eexists.
Qed.

(** C1: No order reaches a venue twice: a gateway is started on the log of an earlier life, to
    which every write succeeds, with the OKX and Binance connectors main builds from its
    configuration, and runs any history of threads with crashes, restarts and requests cut off
    by them that still arrive later. If the clients send one request per call and an answered
    lookup tells truly whether the venue has accepted an order of the id so far, and a request
    lost while the process lives does not arrive after the lookup that denied it, then no
    clientOrderId is accepted more than once over both venues, whatever requests and answers are
    lost, and every order a venue has accepted is in the registry and either was at the venue
    before the start or was really asked for. *)
Theorem no_order_reaches_a_venue_twice c d w p err file w1 calls cut_off (P : Pool World) id :
  start_gateway make_okx make_binance utc_now_iso_ms parse c d w = (Serves p err, file, w1) ->
  durable_disk c d -> accounted account (recovered_oms parse (pr_cfg p) c d) w ->
  venue_history account (default_venue (pr_cfg p)) (pr_cfg p) (mkPool [] (pr_oms p) w1) calls cut_off P ->
  (account id (pl_world P) <= 1)%nat
  /\ (account id (pl_world P) <> 0%nat ->
      is_Some (orders (pl_oms P) !! id) /\ (account id w <> 0%nat \/ id ∈ places_sent calls)).
Proof.
  intros Hstart Hdisk Hacc Hh.
  destruct (start_gateway_inv _ _ _ _ _ _ _ _ _ _ _ Hstart) as (venues & p0 & Hv & Hcfg & _).
  pose proof (start_accounted _ _ _ _ _ _ _ Hstart Hacc) as Hacc1.
  pose proof (started_fresh _ _ _ _ _ _ _ _ _ _ _ Hstart Hdisk) as Hf.
  assert (Hc : forall venue conn, (venue, conn) ∈ connectors (pr_cfg p) -> PlacesOnce account conn)
    by (rewrite Hcfg; by eapply configured_places_once).
  destruct (accepted_at_most_once account _ _ Hc _ _ _ _ _ id Hf Hacc1 Hh) as [Hle H].
  split; [done|]. intros Hne. destruct (H Hne) as [Hs Hin]. split; [done|].
  by rewrite <- (start_keeps _ _ _ _ _ _ _ Hstart id).
Qed.
End Venues.

(** ** A concrete venue

    OKX loses the first place, accepts the second one without an answer, and
    would acknowledge any further one; it knows the orders it has accepted.
    Binance refuses everything. *)

Definition LossyVenue : Type := Z * list string.
Definition lossy_accepted (id : string) (w : LossyVenue) : nat := count_occ String.string_dec w.2 id.
Definition none_accepted (_ : string) (_ : LossyVenue) : nat := 0.
Local Notation LossyWorld := (LossyVenue * SymbolTranslator)%type.

Definition lost_error : Error := mkError "transport" "lost".

#[local] Instance lossy_okx : OkxTradeClient LossyWorld := {|
  cl_place request '((n, ids), t) :=
    let id := xp_cl_ord_id request in
    if n =? 0 then (Err lost_error, ((n + 1, ids), t))
    else if n =? 1 then (Err lost_error, ((n + 1, id :: ids), t))
    else (Ok (mkOkxOrderAck "77" id "0" ""), ((n + 1, id :: ids), t));
  cl_cancel _ w := (Err lost_error, w);
  cl_amend _ w := (Err lost_error, w);
  cl_get query w :=
    (Ok (if decide (count_occ String.string_dec w.1.2 (xq_cl_ord_id query) = 0%nat)
         then None else Some empty_info), w) |}.

#[local] Instance lossy_okx_market : OkxMarketClient LossyWorld := {|
  cl_pending w := (Ok [], w);
  cl_ticker _ w := (Ok "50000", w);
  cl_demo _ w := (Err lost_error, w) |}.

#[local] Instance refusing_binance : BinanceTradeApi LossyVenue :=
  let refuse {A B} (_ : A) (w : LossyVenue) : Result B * LossyVenue := (Err (mkError "venue:-1003" ""), w) in
  {| ap_place := refuse; ap_cancel := refuse; ap_cancel_replace := refuse; ap_get_order := refuse |}.
#[local] Instance refusing_binance_market : BinanceMarketApi LossyVenue := {|
  ap_open_orders w := (Ok [], w); ap_price _ w := (Err lost_error, w) |}.

Definition stopped_clock {W : Type} : RetryClock W :=
  mkRetryClock (fun w => (0, w)) (fun _ w => w) (fun w => (f64_zero, w)).

Lemma stopped_clock_quiet {W : Type} (accepted : string -> W -> nat) : QuietClock accepted stopped_clock.
Proof. by split. Defined.

Lemma lossy_venues_keep_accounts :
  VenuesKeepAccounts lossy_accepted none_accepted (fun _ => lossy_okx) (fun _ => lossy_okx_market)
    stopped_clock (fun _ => refusing_binance) (fun _ => refusing_binance_market) stopped_clock.
Proof.
  split; intros; try (split; apply stopped_clock_quiet); try by (split; [by split|..]); try by split.
  - split; [by split| | |].
    + intros request [[n ids] t]. set (own := xp_cl_ord_id request).
      assert (Hcons : keeps_others (first_account lossy_accepted) own (n, ids, t) (n + 1, own :: ids, t)
                /\ first_account lossy_accepted own (n + 1, own :: ids, t)
                   = S (first_account lossy_accepted own (n, ids, t))).
      { split; [intros id Hid; apply count_occ_cons_neq; congruence|by apply count_occ_cons_eq]. }
      simpl. fold own. destruct (n =? 0); [split_and!; [done|by left|done]|].
      destruct (n =? 1); (split_and!; [apply Hcons|right; apply Hcons|]); [done|intros; apply Hcons].
    + intros query [[n ids] t]. simpl. by case_decide.
    + intros query [[n ids] t] info. simpl. by case_decide.
  - split; [by split| |done|done]. intros rq w. simpl. split_and!; [done|by left|done].
Defined.

Definition lossy_start : MainEnd (W:=LossyWorld) * LogFile * LossyWorld :=
  start_gateway (fun config => okx_exchange_connector lossy_okx lossy_okx_market config stopped_clock)
    (fun config => binance_exchange_connector refusing_binance refusing_binance_market config stopped_clock)
    (fun w => ("2026-01-01T00:00:00.000Z", w)) demo_parse demo_config demo_disk ((0, []), no_symbols).
Definition lossy_process : Process :=
  match lossy_start.1.1 with
  | Serves p _ => p
  | Exits _ _ => mkProcess (mkOmsConfig [] "" (mkRiskConfig None ∅)) demo_oms empty_cache 0 []
  end.
Definition lossy_warnings : list string :=
  match lossy_start.1.1 with Serves _ err => err | Exits _ err => err end.

(** One client places c1, and asks again. *)
Definition lossy_program : Prog LossyWorld Answer :=
  program (pr_cfg lossy_process) (OpPlace demo_request "okx" 0).
Definition lossy_pool : Pool LossyWorld :=
  mkPool [lossy_program; lossy_program] (pr_oms lossy_process) lossy_start.2.
Definition lossy_played : list VenueCall * Pool LossyWorld := play (repeat 0%nat 10) lossy_pool.

Lemma lossy_history :
  venue_history (accepted_anywhere lossy_accepted none_accepted) (default_venue (pr_cfg lossy_process))
    (pr_cfg lossy_process) (mkPool [] (pr_oms lossy_process) lossy_start.2)
    ([] ++ lossy_played.1) [] lossy_played.2.
Proof.
  apply (play_venue_history _ _ _ _ [] [] lossy_pool).
  apply (vh_start _ _ _ _ [] [] [lossy_program] _ _ (OpPlace demo_request "okx" 0)).
  apply (vh_start _ _ _ _ [] [] [] _ _ (OpPlace demo_request "okx" 0)). constructor.
Defined.

(** Two requests reached the wire, one order the venue, and the client was
    told so. *)
Example lossy_outcome :
  lossy_played.1 = [AskPlace "okx" demo_request]
  /\ (pl_world lossy_played.2).1 = (2, ["c1"])
  /\ (or_state <$> orders (pl_oms lossy_played.2) !! "c1") = Some Live.
Proof. vm_compute. split_and!; reflexivity. Qed.

Lemma no_order_reaches_a_venue_twice_witness :
  (accepted_anywhere lossy_accepted none_accepted "c1" (pl_world lossy_played.2) <= 1)%nat
  /\ is_Some (orders (pl_oms lossy_played.2) !! "c1").
Proof.
  destruct (no_order_reaches_a_venue_twice lossy_accepted none_accepted (fun _ => lossy_okx)
    (fun _ => lossy_okx_market) stopped_clock (fun _ => refusing_binance)
    (fun _ => refusing_binance_market) stopped_clock lossy_venues_keep_accounts
    (fun w => ("2026-01-01T00:00:00.000Z", w)) (fun w id => eq_refl) demo_parse demo_config demo_disk
    ((0, []), no_symbols) lossy_process lossy_warnings (dk_log demo_disk) lossy_start.2
    ([] ++ lossy_played.1) [] lossy_played.2 "c1") as [Hle H].
  - vm_compute. reflexivity.
  - split; [by eexists|split; reflexivity].
  - intros id. split; [exact (Nat.le_succ_diag_r 0)|intros Hne; by destruct (Hne eq_refl)].
  - exact lossy_history.
  - split; [exact Hle|]. apply H. vm_compute. discriminate.
Defined.
