(* ===== verification/GatewayShutdown.v ===== *)
(** * The end of the process: src/apps/gateway_main.cpp

    What happens once [app.run()] has returned: main stops the venues one after
    the other, then leaves its scope, which destroys its objects in the reverse
    order of their declaration: the audit scheduler first (its thread is asked
    to stop and joined), then the order management system, then the
    connectors.  The threads of both venues and of the audit go on meanwhile,
    and call into the order management system. *)

From S2P Require Import Prelude Config FeedShutdown OkxFeedSystem BinanceFeedSystem.

(** [called]: main is inside the venue's [stop]. *)
Inductive Phase :=
  | PhServe | PhOkx (called : bool) | PhBinance (called : bool) | PhAudit | PhAuditJoin | PhDestroyed.

Inductive Audit := AuNone | AuRuns | AuExited.

(** [None]: the venue was not started. *)
Record MainSys := mkMain {
  ms_phase : Phase;
  ms_okx : option FeedSys;
  ms_binance : option SessionSys;
  ms_audit : Audit;
  ms_audit_stop : bool }.

Definition at_phase (ph : Phase) (s : MainSys) : MainSys :=
  mkMain ph (ms_okx s) (ms_binance s) (ms_audit s) (ms_audit_stop s).
Definition with_okx (f : FeedSys) (s : MainSys) : MainSys :=
  mkMain (ms_phase s) (Some f) (ms_binance s) (ms_audit s) (ms_audit_stop s).
Definition with_binance (b : SessionSys) (s : MainSys) : MainSys :=
  mkMain (ms_phase s) (ms_okx s) (Some b) (ms_audit s) (ms_audit_stop s).
Definition with_audit (a : Audit) (stop : bool) (s : MainSys) : MainSys :=
  mkMain (ms_phase s) (ms_okx s) (ms_binance s) a stop.

(** The venues are started before requests are served, the audit when its
    interval is positive. *)
Definition serving (c : GatewayConfig) (okx binance : bool) : MainSys :=
  mkMain PhServe
    (if okx then Some (feed_start true initial_feed) else None)
    (if binance then Some (session_start initial_session) else None)
    (if 0 <? audit_interval_ms c then AuRuns else AuNone) false.

(** ** Main *)

(** What main does inside the [stop] of a feed; [None]: it waits. *)
Definition okx_stop_turn (f : FeedSys) : option FeedSys :=
  match fs_control f with
  | OkxFeedSystem.CtClose => Some (feed_close f)
  | OkxFeedSystem.CtJoin => match fs_supervisor f with OkxFeedSystem.SvExited => Some (feed_joined f) | _ => None end
  | OkxFeedSystem.CtIdle => None
  end.

Definition binance_stop_turn (b : SessionSys) : option SessionSys :=
  match ss_control b with
  | BinanceFeedSystem.CtClose => Some (session_close b)
  | BinanceFeedSystem.CtJoin =>
      match ss_supervisor b with BinanceFeedSystem.SvExited => Some (session_joined b) | _ => None end
  | CtNotify => match ss_notifier b with NtExited => Some (session_stopped b) | _ => None end
  | BinanceFeedSystem.CtIdle => None
  end.

Definition main_turn (s : MainSys) : option MainSys :=
  match ms_phase s with
  | PhServe => Some (at_phase (PhOkx false) s)
  | PhOkx false =>
      Some (match ms_okx s with
            | None => at_phase (PhBinance false) s
            | Some f => at_phase (PhOkx true) (with_okx (feed_stop f) s)
            end)
  | PhOkx true =>
      match ms_okx s with
      | None => None
      | Some f =>
          match fs_control f with
          | OkxFeedSystem.CtIdle => Some (at_phase (PhBinance false) s)
          | _ => (fun f => with_okx f s) <$> okx_stop_turn f
          end
      end
  | PhBinance false =>
      Some (match ms_binance s with
            | None => at_phase PhAudit s
            | Some b => at_phase (PhBinance true) (with_binance (session_stop b) s)
            end)
  | PhBinance true =>
      match ms_binance s with
      | None => None
      | Some b =>
          match ss_control b with
          | BinanceFeedSystem.CtIdle => Some (at_phase PhAudit s)
          | _ => (fun b => with_binance b s) <$> binance_stop_turn b
          end
      end
  | PhAudit =>
      Some (match ms_audit s with
            | AuNone => at_phase PhDestroyed s
            | a => at_phase PhAuditJoin (with_audit a true s)
            end)
  | PhAuditJoin =>
      match ms_audit s with
      | AuExited => Some (at_phase PhDestroyed (with_audit AuNone true s))
      | _ => None
      end
  | PhDestroyed => None
  end.

(** A turn of the audit thread's loop. *)
Definition audit_turn (s : MainSys) : option MainSys :=
  match ms_audit s with
  | AuRuns => Some (if ms_audit_stop s then with_audit AuExited true s else s)
  | _ => None
  end.

Inductive Thread :=
  | TMain | TOkx (a : OkxFeedSystem.Actor) | TBinance (a : BinanceFeedSystem.Actor) | TAudit.

Inductive main_step : Thread -> MainSys -> MainSys -> Prop :=
  | mn_main s s' : main_turn s = Some s' -> main_step TMain s s'
  | mn_okx a f f' s : ms_okx s = Some f -> OkxFeedSystem.not_control a -> feed_step true a f f' ->
      main_step (TOkx a) s (with_okx f' s)
  | mn_binance a b b' s : ms_binance s = Some b -> BinanceFeedSystem.not_control a -> session_step a b b' ->
      main_step (TBinance a) s (with_binance b' s)
  | mn_audit s s' : audit_turn s = Some s' -> main_step TAudit s s'.

Notation main_run := (runs main_step).

(** ** What every reachable state satisfies *)

Definition okx_ok (ph : Phase) (f : FeedSys) : Prop :=
  FeedInv f /\
  match ph with
  | PhServe | PhOkx false => fs_control f = OkxFeedSystem.CtIdle
  | PhOkx true => fs_control f = OkxFeedSystem.CtIdle -> fs_supervisor f = OkxFeedSystem.SvNone
  | _ => fs_control f = OkxFeedSystem.CtIdle /\ fs_supervisor f = OkxFeedSystem.SvNone
  end.

Definition binance_ok (ph : Phase) (b : SessionSys) : Prop :=
  SessionInv b /\
  match ph with
  | PhServe | PhOkx _ | PhBinance false => ss_control b = BinanceFeedSystem.CtIdle
  | PhBinance true => ss_control b = BinanceFeedSystem.CtIdle -> ss_running b = false
  | _ => ss_control b = BinanceFeedSystem.CtIdle /\ ss_running b = false
  end.

Definition audit_ok (ph : Phase) (a : Audit) (stop : bool) : Prop :=
  match ph with
  | PhDestroyed => a = AuNone
  | PhAuditJoin => stop = true /\ a <> AuNone
  | _ => stop = false /\ a <> AuExited
  end.

Definition MainInv (s : MainSys) : Prop :=
  match ms_okx s with Some f => okx_ok (ms_phase s) f | None => ms_phase s <> PhOkx true end
  /\ match ms_binance s with Some b => binance_ok (ms_phase s) b | None => ms_phase s <> PhBinance true end
  /\ audit_ok (ms_phase s) (ms_audit s) (ms_audit_stop s).

Lemma serving_ok c okx binance : MainInv (serving c okx binance).
Proof.
  unfold serving, MainInv. cbn. split; [|split].
  - destruct okx; [|done]. split; [|done]. apply (feed_step_ok true OkxFeedSystem.ByControl initial_feed);
      [apply initial_feed_ok|by apply fd_start].
  - destruct binance; [|done]. split; [|done].
    apply (session_step_ok BinanceFeedSystem.ByControl initial_session); [apply initial_session_ok|by apply sn_start].
  - split; [done|]. by destruct (0 <? audit_interval_ms c).
Qed.

(** A thread of a feed keeps what main knows of it. *)
Lemma okx_thread_ok ph a f f' :
  okx_ok ph f -> OkxFeedSystem.not_control a -> feed_step true a f f' -> okx_ok ph f'.
Proof.
  intros [HI Hph] Ha H. split; [by eapply feed_step_ok|].
  pose proof (OkxFeedSystem.other_keeps_control _ _ _ _ Ha H) as Hc. rewrite Hc.
  assert (fs_supervisor f = OkxFeedSystem.SvNone -> fs_supervisor f' = OkxFeedSystem.SvNone) as Hn.
  { intros Hn. destruct HI as [Hs _]. unfold session_ok in Hs. rewrite Hn in Hs. cbn in Hs.
    destruct H as [| | | |ok s s' H|e s s' H|turn sent s s' H]; [done..| | |].
    - unfold supervisor_own in H. by rewrite Hn in H.
    - unfold supervisor_wakes in H. by rewrite Hn in H.
    - unfold pinger_wakes in H. destruct Hs as (_ & _ & Hp). by rewrite Hp in H. }
  destruct ph as [|[]|[]| | |]; naive_solver.
Qed.

Lemma binance_thread_ok ph a b b' :
  binance_ok ph b -> BinanceFeedSystem.not_control a -> session_step a b b' -> binance_ok ph b'.
Proof.
  intros [HI Hph] Ha H. split; [by eapply session_step_ok|].
  destruct (session_other_keeps _ _ _ Ha H) as [-> ->]. done.
Qed.

(** Main's own turns inside the two [stop]s. *)
Lemma okx_stop_begins f : okx_ok (PhOkx false) f -> okx_ok (PhOkx true) (feed_stop f).
Proof.
  intros [HI Hc]. split.
  - apply (feed_step_ok true OkxFeedSystem.ByControl f); [done|by apply fd_stop].
  - unfold feed_stop. by destruct (fs_supervisor f) eqn:Hs.
Qed.

Lemma okx_stop_turn_ok f f' : okx_ok (PhOkx true) f -> okx_stop_turn f = Some f' -> okx_ok (PhOkx true) f'.
Proof.
  intros [HI _]. unfold okx_stop_turn. destruct (fs_control f) eqn:Hc; [done| |].
  - intros [= <-]. split; [|done].
    apply (feed_step_ok true OkxFeedSystem.ByControl f); [done|by apply fd_close].
  - destruct (fs_supervisor f) eqn:Hx; try done. intros [= <-]. split; [|done].
    apply (feed_step_ok true OkxFeedSystem.ByControl f); [done|by apply fd_join].
Qed.

Lemma binance_stop_begins b : binance_ok (PhBinance false) b -> binance_ok (PhBinance true) (session_stop b).
Proof.
  intros [HI Hc]. split.
  - apply (session_step_ok BinanceFeedSystem.ByControl b); [done|by apply sn_stop].
  - unfold session_stop. by destruct (ss_supervisor b) eqn:Hs.
Qed.

Lemma binance_stop_turn_ok b b' :
  binance_ok (PhBinance true) b -> binance_stop_turn b = Some b' -> binance_ok (PhBinance true) b'.
Proof.
  intros [HI _]. unfold binance_stop_turn. destruct (ss_control b) eqn:Hc; [done| | |].
  - intros [= <-]. split; [|done].
    apply (session_step_ok BinanceFeedSystem.ByControl b); [done|by apply sn_close].
  - destruct (ss_supervisor b) eqn:Hx; try done. intros [= <-]. split; [|done].
    apply (session_step_ok BinanceFeedSystem.ByControl b); [done|by apply sn_join].
  - destruct (ss_notifier b) eqn:Hx; try done. intros [= <-]. split; [|done].
    apply (session_step_ok BinanceFeedSystem.ByControl b); [done|by apply sn_done].
Qed.

Lemma main_turn_ok s s' : MainInv s -> main_turn s = Some s' -> MainInv s'.
Proof.
  destruct s as [ph okx binance au stop]. unfold MainInv, main_turn. cbn. intros (Ho & Hb & Ha) H.
  destruct ph as [|[]|[]| | |]; cbn in *.
  - simplify_eq. cbn. split; [by destruct okx|split; [by destruct binance|done]].
  - destruct okx as [f|]; [|done]. destruct (fs_control f) eqn:Hc.
    { simplify_eq. cbn. destruct Ho as [HI Ho]. split; [split; auto|split; [by destruct binance|done]]. }
    all: apply fmap_Some in H as (f' & Hf & ->); cbn; split; [by eapply okx_stop_turn_ok|done].
  - destruct okx as [f|]; simplify_eq; cbn; [|split; [done|split; [by destruct binance|done]]].
    split; [by apply okx_stop_begins|split; [by destruct binance|done]].
  - destruct binance as [b|]; [|done]. destruct (ss_control b) eqn:Hc.
    { simplify_eq. cbn. destruct Hb as [HI Hb]. split; [by destruct okx|split; [split; auto|done]]. }
    all: apply fmap_Some in H as (b' & Hf & ->); cbn;
      split; [by destruct okx|split; [by eapply binance_stop_turn_ok|done]].
  - destruct binance as [b|]; simplify_eq; cbn; (split; [by destruct okx|split; [|done]]); [|done].
    by apply binance_stop_begins.
  - destruct au; simplify_eq; cbn; (split; [by destruct okx|split; [by destruct binance|]]); naive_solver.
  - destruct au; simplify_eq; cbn. split; [by destruct okx|split; [by destruct binance|done]].
  - done.
Qed.

Lemma main_step_ok t s s' : MainInv s -> main_step t s s' -> MainInv s'.
Proof.
  intros HI H. destruct H as [s s' H|a f f' s Hf Ha H|a b b' s Hb Ha H|s s' H]; [by eapply main_turn_ok|..].
  - destruct HI as (Ho & HI). rewrite Hf in Ho. split; [|done]. by eapply okx_thread_ok.
  - destruct HI as (Ho & HI & Hau). rewrite Hb in HI. split; [done|split; [|done]]. by eapply binance_thread_ok.
  - destruct s as [ph okx binance au stop]. unfold MainInv, audit_turn in *. cbn in *.
    destruct HI as (Ho & Hb & Ha). destruct au; try done. destruct stop; simplify_eq; cbn.
    + split; [done|split; [done|]]. destruct ph; naive_solver.
    + done.
Qed.

Lemma main_run_ok c okx binance l s : main_run (serving c okx binance) l s -> MainInv s.
Proof.
  apply (runs_inv main_step MainInv); [|apply serving_ok]. intros t s1 s2. apply main_step_ok.
Qed.

(** ** What has ended, has ended *)

Lemma okx_ended f :
  okx_ok PhDestroyed f ->
  fs_running f = false /\ fs_supervisor f = OkxFeedSystem.SvNone /\ fs_pinger f = PgNone
  /\ fs_socket f = None.
Proof.
  intros [[Hs Hc] [Hi Hn]]. unfold OkxFeedSystem.control_ok in Hc. rewrite Hi in Hc.
  unfold session_ok in Hs. rewrite Hn in Hs. cbn in Hs. destruct Hc as [[Hr _] _]. naive_solver.
Qed.

Lemma binance_ended b :
  binance_ok PhDestroyed b ->
  ss_running b = false /\ ss_supervisor b = BinanceFeedSystem.SvNone /\ ss_notifier b = NtNone
  /\ ss_client b = None /\ ss_queue b = 0%nat.
Proof.
  intros [[Hk Hc] [Hi Hr]]. unfold BinanceFeedSystem.control_ok in Hc. rewrite Hi, Hr in Hc.
  destruct Hc as (Hn & Hnt & Hq). unfold client_ok in Hk. by rewrite Hn in Hk.
Qed.

Lemma okx_still a f f' :
  okx_ok PhDestroyed f -> OkxFeedSystem.not_control a -> ~ feed_step true a f f'.
Proof.
  intros (_ & Hn & Hp & _)%okx_ended Ha H.
  destruct H as [| | | |ok s s' H|e s s' H|turn sent s s' H]; try by apply Ha.
  - unfold supervisor_own in H. by rewrite Hn in H.
  - unfold supervisor_wakes in H. by rewrite Hn in H.
  - unfold pinger_wakes in H. by rewrite Hp in H.
Qed.

Lemma binance_still a b b' :
  binance_ok PhDestroyed b -> BinanceFeedSystem.not_control a -> ~ session_step a b b'.
Proof.
  intros (_ & Hn & Hnt & _)%binance_ended Ha H.
  destruct H as [| | | | |ok s s' H|e n s s' H|s s' H]; try by apply Ha.
  - unfold session_own in H. by rewrite Hn in H.
  - unfold session_wakes in H. by rewrite Hn in H.
  - unfold notifier_turn in H. by rewrite Hnt in H.
Qed.

Lemma destroyed_still s t s' : MainInv s -> ms_phase s = PhDestroyed -> ~ main_step t s s'.
Proof.
  intros (Ho & Hb & Ha) Hph H. rewrite Hph in Ho, Hb, Ha.
  destruct H as [s s' H|a f f' s Hf Hc H|a b b' s Hf Hc H|s s' H].
  - unfold main_turn in H. by rewrite Hph in H.
  - rewrite Hf in Ho. by eapply okx_still.
  - rewrite Hf in Hb. by eapply binance_still.
  - unfold audit_turn in H. by rewrite Ha in H.
Qed.

(** ** Every phase ends *)

(** A run that leads to a state with [P]. *)
Definition leads (s : MainSys) (P : MainSys -> Prop) : Prop := exists l s2, main_run s l s2 /\ P s2.

Lemma leads_here s (P : MainSys -> Prop) : P s -> leads s P.
Proof. intros H. exists [], s. split; [constructor|done]. Qed.

Lemma leads_main s s2 P : main_turn s = Some s2 -> leads s2 P -> leads s P.
Proof.
  intros H (l & s3 & Hr & Hp). exists (TMain :: l), s3. split; [|done]. eapply runs_cons; [by apply mn_main|done].
Qed.

Lemma leads_run s l s2 P : main_run s l s2 -> leads s2 P -> leads s P.
Proof. intros H (l2 & s3 & Hr & Hp). exists (l ++ l2), s3. split; [by eapply runs_app|done]. Qed.

Lemma okx_lifts s f l f' :
  runs (feed_step true) f l f' -> Forall OkxFeedSystem.not_control l -> ms_okx s = Some f ->
  main_run s (map TOkx l) (with_okx f' s).
Proof.
  intros Hr Hl Hs. induction Hr as [f|f1 l f2 a f3 Hr IH Ha].
  - replace (with_okx f s) with s by (destruct s; cbn in *; by subst). constructor.
  - apply Forall_app in Hl as [Hl Hn]. apply Forall_cons in Hn as [Hn _]. rewrite map_app.
    eapply runs_step; [by apply IH|].
    change (with_okx f3 s) with (with_okx f3 (with_okx f2 s)). by apply (mn_okx _ f2).
Qed.

Lemma binance_lifts s b l b' :
  runs session_step b l b' -> Forall BinanceFeedSystem.not_control l -> ms_binance s = Some b ->
  main_run s (map TBinance l) (with_binance b' s).
Proof.
  intros Hr Hl Hs. induction Hr as [b|b1 l b2 a b3 Hr IH Ha].
  - replace (with_binance b s) with s by (destruct s; cbn in *; by subst). constructor.
  - apply Forall_app in Hl as [Hl Hn]. apply Forall_cons in Hn as [Hn _]. rewrite map_app.
    eapply runs_step; [by apply IH|].
    change (with_binance b3 s) with (with_binance b3 (with_binance b2 s)). by apply (mn_binance _ b2).
Qed.

(** Main's turn inside a [stop], with the feed's control known. *)
Lemma okx_turn s f f' :
  ms_phase s = PhOkx true -> ms_okx s = Some f -> okx_stop_turn f = Some f' ->
  main_turn s = Some (with_okx f' s).
Proof.
  intros Hph Hf H. unfold main_turn. rewrite Hph, Hf, H. unfold okx_stop_turn in H.
  by destruct (fs_control f).
Qed.

Lemma okx_returned s f :
  ms_phase s = PhOkx true -> ms_okx s = Some f -> fs_control f = OkxFeedSystem.CtIdle ->
  leads s (fun s2 => ms_phase s2 = PhBinance false).
Proof.
  intros Hph Hf Hc. eapply leads_main; [unfold main_turn; by rewrite Hph, Hf, Hc|]. by apply leads_here.
Qed.

Lemma okx_joins s f :
  ms_phase s = PhOkx true -> ms_okx s = Some f -> FeedInv f -> fs_control f = OkxFeedSystem.CtJoin ->
  leads s (fun s2 => ms_phase s2 = PhBinance false).
Proof.
  intros Hph Hf HI Hc.
  destruct (drain_ends (feed_step true) f (conj HI Hc : OkxFeedSystem.stopping f))
    as (l & f2 & Hr & Hl & [_ Hc2] & Hx).
  eapply leads_run; [by eapply okx_lifts|].
  eapply leads_main.
  { apply (okx_turn _ f2 (feed_joined f2)); [done|done|].
    unfold okx_stop_turn. rewrite Hc2. unfold OkxFeedSystem.exited in Hx. by rewrite Hx. }
  by apply (okx_returned _ (feed_joined f2)).
Qed.

Lemma okx_stop_ends s :
  MainInv s -> ms_phase s = PhOkx true -> leads s (fun s2 => ms_phase s2 = PhBinance false).
Proof.
  intros (Ho & _) Hph. rewrite Hph in Ho. destruct (ms_okx s) as [f|] eqn:Hf; [|done].
  destruct (fs_control f) eqn:Hc.
  - by apply (okx_returned s f).
  - assert (okx_stop_turn f = Some (feed_close f)) as Ht by (unfold okx_stop_turn; by rewrite Hc).
    eapply leads_main; [by apply (okx_turn s f (feed_close f))|].
    by apply (okx_joins _ (feed_close f)); [| |apply (okx_stop_turn_ok f)|].
  - destruct Ho as [HI _]. by apply (okx_joins s f).
Qed.

Lemma binance_turn s b b' :
  ms_phase s = PhBinance true -> ms_binance s = Some b -> binance_stop_turn b = Some b' ->
  main_turn s = Some (with_binance b' s).
Proof.
  intros Hph Hf H. unfold main_turn. rewrite Hph, Hf, H. unfold binance_stop_turn in H.
  by destruct (ss_control b).
Qed.

Lemma binance_returned s b :
  ms_phase s = PhBinance true -> ms_binance s = Some b -> ss_control b = BinanceFeedSystem.CtIdle ->
  leads s (fun s2 => ms_phase s2 = PhAudit).
Proof.
  intros Hph Hf Hc. eapply leads_main; [unfold main_turn; by rewrite Hph, Hf, Hc|]. by apply leads_here.
Qed.

Lemma binance_notified s b :
  ms_phase s = PhBinance true -> ms_binance s = Some b -> SessionInv b -> ss_control b = CtNotify ->
  leads s (fun s2 => ms_phase s2 = PhAudit).
Proof.
  intros Hph Hf HI Hc.
  destruct (drain_ends session_step b (conj HI Hc : draining b)) as (l & b2 & Hr & Hl & [_ Hc2] & Hx).
  eapply leads_run; [by eapply binance_lifts|].
  eapply leads_main.
  { apply (binance_turn _ b2 (session_stopped b2)); [done|done|].
    unfold binance_stop_turn. rewrite Hc2. unfold drained in Hx. by rewrite Hx. }
  by apply (binance_returned _ (session_stopped b2)).
Qed.

Lemma binance_joins s b :
  ms_phase s = PhBinance true -> ms_binance s = Some b -> SessionInv b ->
  ss_control b = BinanceFeedSystem.CtJoin -> leads s (fun s2 => ms_phase s2 = PhAudit).
Proof.
  intros Hph Hf HI Hc.
  destruct (drain_ends session_step b (conj HI Hc : BinanceFeedSystem.stopping b))
    as (l & b2 & Hr & Hl & [HI2 Hc2] & Hx).
  assert (binance_stop_turn b2 = Some (session_joined b2)) as Ht.
  { unfold binance_stop_turn. rewrite Hc2. unfold BinanceFeedSystem.exited in Hx. by rewrite Hx. }
  eapply leads_run; [by eapply binance_lifts|].
  eapply leads_main; [by apply (binance_turn _ b2 (session_joined b2))|].
  apply (binance_notified _ (session_joined b2)); [done|done| |done].
  eapply (session_step_ok BinanceFeedSystem.ByControl b2); [done|by apply sn_join].
Qed.

Lemma binance_stop_ends s :
  MainInv s -> ms_phase s = PhBinance true -> leads s (fun s2 => ms_phase s2 = PhAudit).
Proof.
  intros (_ & Hb & _) Hph. rewrite Hph in Hb. destruct (ms_binance s) as [b|] eqn:Hf; [|done].
  destruct (ss_control b) eqn:Hc.
  - by apply (binance_returned s b).
  - assert (binance_stop_turn b = Some (session_close b)) as Ht by (unfold binance_stop_turn; by rewrite Hc).
    eapply leads_main; [by apply (binance_turn s b (session_close b))|].
    by apply (binance_joins _ (session_close b)); [| |apply (binance_stop_turn_ok b)|].
  - destruct Hb as [HI _]. by apply (binance_joins s b).
  - destruct Hb as [HI _]. by apply (binance_notified s b).
Qed.

Lemma audit_stop_ends s :
  MainInv s -> ms_phase s = PhAuditJoin -> leads s (fun s2 => ms_phase s2 = PhDestroyed).
Proof.
  intros (_ & _ & Ha) Hph. rewrite Hph in Ha. destruct Ha as [Hstop Hn].
  assert (forall s1, ms_phase s1 = PhAuditJoin -> ms_audit s1 = AuExited ->
            leads s1 (fun s2 => ms_phase s2 = PhDestroyed)) as Hjoin.
  { intros s1 H1 H2. eapply leads_main; [unfold main_turn; by rewrite H1, H2|]. by apply leads_here. }
  destruct (ms_audit s) eqn:Ha; [done| |by apply Hjoin].
  apply (leads_run s [TAudit] (with_audit AuExited true s)); [|by apply Hjoin].
  apply (runs_cons main_step TAudit s (with_audit AuExited true s) []); [|constructor].
  apply mn_audit. unfold audit_turn. by rewrite Ha, Hstop.
Qed.

Definition phase_left (ph : Phase) : nat :=
  match ph with
  | PhServe => 7 | PhOkx false => 6 | PhOkx true => 5 | PhBinance false => 4 | PhBinance true => 3
  | PhAudit => 2 | PhAuditJoin => 1 | PhDestroyed => 0
  end%nat.

Lemma phase_ends s :
  MainInv s -> ms_phase s <> PhDestroyed ->
  leads s (fun s2 => (phase_left (ms_phase s2) < phase_left (ms_phase s))%nat).
Proof.
  assert (forall ph, leads s (fun s2 => ms_phase s2 = ph) -> (phase_left ph < phase_left (ms_phase s))%nat ->
            leads s (fun s2 => (phase_left (ms_phase s2) < phase_left (ms_phase s))%nat)) as Hto.
  { intros ph (l & s2 & Hr & <-) Hlt. by exists l, s2. }
  assert (forall s2, main_turn s = Some s2 -> (phase_left (ms_phase s2) < phase_left (ms_phase s))%nat ->
            leads s (fun s2 => (phase_left (ms_phase s2) < phase_left (ms_phase s))%nat)) as Hone.
  { intros s2 Ht Hlt. eapply leads_main; [done|]. by apply leads_here. }
  intros HI Hn. destruct (ms_phase s) as [|[]|[]| | |] eqn:Hph.
  - eapply Hone; [unfold main_turn; by rewrite Hph|]. cbn. lia.
  - apply (Hto (PhBinance false)); [by apply okx_stop_ends|cbn; lia].
  - eapply Hone; [unfold main_turn; by rewrite Hph|]. destruct (ms_okx s); cbn; lia.
  - apply (Hto PhAudit); [by apply binance_stop_ends|cbn; lia].
  - eapply Hone; [unfold main_turn; by rewrite Hph|]. destruct (ms_binance s); cbn; lia.
  - eapply Hone; [unfold main_turn; by rewrite Hph|]. destruct (ms_audit s); cbn; lia.
  - apply (Hto PhDestroyed); [by apply audit_stop_ends|cbn; lia].
  - done.
Qed.

Lemma shutdown_ends s : MainInv s -> leads s (fun s2 => ms_phase s2 = PhDestroyed).
Proof.
  remember (phase_left (ms_phase s)) as n eqn:En. revert s En.
  induction (lt_wf n) as [n _ IH]. intros s -> HI.
  assert (Hcase : ms_phase s = PhDestroyed \/ ms_phase s <> PhDestroyed)
    by (destruct (ms_phase s); first [by left|by right]).
  destruct Hcase as [Hd|Hd]; [by apply leads_here|].
  destruct (phase_ends s HI Hd) as (l & s2 & Hr & Hlt).
  eapply leads_run; [done|]. apply (IH _ Hlt s2 eq_refl).
  apply (runs_inv main_step MainInv main_step_ok s l s2 HI Hr).
Qed.

(** C23: The process ends in order: whatever the threads of both venues and of the audit do
    meanwhile, once main has destroyed the order management system no feed runs, no supervisor,
    pinger, notifier or audit thread is left, no event is undelivered and no thread can move;
    and from every reachable state main can get there. *)
Theorem nothing_runs_when_the_oms_is_destroyed c okx binance l s :
  main_run (serving c okx binance) l s ->
  (ms_phase s = PhDestroyed ->
     (forall f, ms_okx s = Some f -> fs_running f = false /\ fs_supervisor f = OkxFeedSystem.SvNone
                                     /\ fs_pinger f = PgNone /\ fs_socket f = None)
     /\ (forall b, ms_binance s = Some b -> ss_running b = false /\ ss_supervisor b = BinanceFeedSystem.SvNone
                                     /\ ss_notifier b = NtNone /\ ss_client b = None /\ ss_queue b = 0%nat)
     /\ ms_audit s = AuNone
     /\ forall t s', ~ main_step t s s')
  /\ exists l2 s2, main_run s l2 s2 /\ ms_phase s2 = PhDestroyed.
Proof.
  intros H%main_run_ok. split; [|apply (shutdown_ends s H)]. intros Hph.
  assert (HI := H). destruct H as (Ho & Hb & Ha). rewrite Hph in Ho, Hb, Ha. split_and!.
  - intros f Hf. rewrite Hf in Ho. by apply okx_ended.
  - intros b Hf. rewrite Hf in Hb. by apply binance_ended.
  - done.
  - intros t s'. by apply destroyed_still.
Qed.

(** ** A shutdown that evaluates *)

Inductive Play := PMain | POkx (ok : bool) | PBinance (ok : bool) | PNotify | PAudit.

Definition player (m : Play) : Thread :=
  match m with
  | PMain => TMain
  | POkx _ => TOkx OkxFeedSystem.BySupervisor
  | PBinance _ => TBinance BinanceFeedSystem.BySupervisor
  | PNotify => TBinance ByNotifier
  | PAudit => TAudit
  end.

Definition play (m : Play) (s : MainSys) : option MainSys :=
  match m with
  | PMain => main_turn s
  | POkx ok => ms_okx s ≫= fun f => (fun f => with_okx f s) <$> supervisor_own ok f
  | PBinance ok => ms_binance s ≫= fun b => (fun b => with_binance b s) <$> session_own ok b
  | PNotify => ms_binance s ≫= fun b => (fun b => with_binance b s) <$> notifier_turn b
  | PAudit => audit_turn s
  end.

Lemma play_step m s s' : play m s = Some s' -> main_step (player m) s s'.
Proof.
  destruct m; cbn; intros H; [by apply mn_main|..|by apply mn_audit];
    apply bind_Some in H as (x & Hx & H); apply fmap_Some in H as (y & Hy & ->).
  - apply (mn_okx _ x); [done|done|by eapply fd_own].
  - apply (mn_binance _ x); [done|done|by eapply sn_own].
  - apply (mn_binance _ x); [done|done|by apply sn_notify].
Qed.

(** Both venues and the audit serve; main returns at once. *)
Definition demo_config : GatewayConfig :=
  mkGatewayConfig 8080 None None (Risk.mkRiskConfig None ∅) "okx" 30000 (Json.JObject []) (Json.JObject []).
Definition demo_serving : MainSys := serving demo_config true true.
Definition demo_end : list Play :=
  [PMain; PMain; PMain; POkx true; POkx true; PMain; PAudit; PMain;
   PMain; PMain; PBinance true; PBinance true; PMain; PNotify; PNotify; PMain; PMain;
   PMain; PAudit; PMain].
Definition demo_destroyed : MainSys := default demo_serving (script play demo_end demo_serving).

Lemma demo_destroyed_reached : script play demo_end demo_serving = Some demo_destroyed.
Proof. vm_compute. reflexivity. Defined.
Lemma demo_destroyed_phase : ms_phase demo_destroyed = PhDestroyed.
Proof. vm_compute. reflexivity. Defined.

Lemma nothing_runs_when_the_oms_is_destroyed_witness :
  ms_audit demo_serving = AuRuns /\ is_Some (ms_okx demo_serving) /\ is_Some (ms_binance demo_serving)
  /\ ms_audit demo_destroyed = AuNone /\ forall t s, ~ main_step t demo_destroyed s.
Proof.
  split; [reflexivity|]. split; [by eexists|]. split; [by eexists|].
  destruct (nothing_runs_when_the_oms_is_destroyed demo_config true true (map player demo_end) demo_destroyed
              (script_run main_step player play play_step demo_end demo_serving demo_destroyed
                 demo_destroyed_reached)) as [H _].
  destruct (H demo_destroyed_phase) as (_ & _ & Ha & Hn). exact (conj Ha Hn).
Defined.
