(* ===== verification/ApiSchema.v ===== *)
(** * The types of the REST answers: doc/api.md

    A small language of JSON schemas with its checker, the schema of every
    answer of doc/api.md, the schemas of the two routes that the document does
    not have, and the theorem that whatever the gateway is asked and whatever
    it has been through, its answers have these types. *)

From S2P Require Import Prelude Types OrderState Json Risk Config EventLog Latency OmsTypes Oms OmsReconcile OmsReplay OmsAudit.
From S2P Require Import OkxWire OkxClient OkxResilient OkxConnector BinanceConfig RestSupport RestOrders RestVenue Gateway GatewaySystem.

(** ** Schemas *)

Inductive Schema :=
  | SAny
  | SNull
  | SBool
  | SCount
  | SString
  | SText (allowed : string -> bool)
  | SEither (a b : Schema)
  | SArray (item : Schema)
  | SMap (value : Schema)
  | SObject (required optional : list (string * Schema)).

(** Keys in strictly ascending order: no key occurs twice. *)
Fixpoint ascending (keys : list string) : bool :=
  match keys with
  | a :: ((b :: _) as rest) => String.ltb a b && ascending rest
  | _ => true
  end.

Fixpoint conforms (s : Schema) (j : json) : bool :=
  match s, j with
  | SAny, _ => true
  | SNull, JNull => true
  | SBool, JBool _ => true
  | SCount, JUint _ => true
  | SString, JString _ => true
  | SText allowed, JString t => allowed t
  | SEither a b, _ => conforms a j || conforms b j
  | SArray item, JArray items => forallb (conforms item) items
  | SMap value, JObject fields => forallb (fun kv => conforms value kv.2) fields
  | SObject required optional, JObject fields =>
      forallb (fun f => match obj_find f.1 fields with
                        | Some v => conforms f.2 v
                        | None => false
                        end) required
      && forallb (fun f => match obj_find f.1 fields with
                           | Some v => conforms f.2 v
                           | None => true
                           end) optional
      && forallb (fun kv => existsb (fun f => kv.1 ==s f.1) (required ++ optional)) fields
      && ascending (map fst fields)
  | _, _ => false
  end.

Definition one_of (texts : list string) (t : string) : bool := existsb (fun x => t ==s x) texts.
Definition SOneOf (texts : list string) : Schema := SText (one_of texts).

(** ** The documented answers *)

Definition state_texts : list string :=
  ["pending"; "live"; "partially_filled"; "filled"; "canceled"; "rejected"].

Definition documented_codes : list string :=
  ["invalid_request"; "not_found"; "order_pending"; "order_terminal"; "venue_rejected";
   "venue_unavailable"; "persistence"; "internal"].

(** The risk codes are those that begin with [risk_]. *)
Definition documented_code (c : string) : bool := one_of documented_codes c || starts_with "risk_" c.

(** The table "HTTP, Code" of the document. *)
Definition code_status (c : string) : Z :=
  if (c ==s "invalid_request") || starts_with "risk_" c then 400
  else if c ==s "not_found" then 404
  else if one_of ["order_pending"; "order_terminal"; "venue_rejected"] c then 409
  else if c ==s "venue_unavailable" then 502
  else 500.

Definition error_schema : Schema :=
  SObject [("error", SObject [("code", SText documented_code); ("reason", SString);
                              ("clientOrderId", SString)] [])] [].

Definition texts (names : list string) : list (string * Schema) := map (fun n => (n, SString)) names.

Definition record_schema : Schema :=
  SObject (texts ["clientOrderId"; "exchangeOrderId"; "symbol"; "venue"; "timeInForce"; "price";
                  "quantity"; "filledQuantity"; "averageFillPrice"]
           ++ [("side", SOneOf ["buy"; "sell"]); ("type", SOneOf ["limit"; "market"]);
               ("state", SOneOf state_texts)])
          [("rejection", SObject (texts ["code"; "reason"]) [])].

Definition place_schema (states : list string) : Schema :=
  SObject (texts ["clientOrderId"; "exchangeOrderId"; "symbol"; "venue"]
           ++ [("state", SOneOf states); ("replayed", SBool)]) [].

Definition limits_schema : Schema := SObject (texts ["maxQty"; "maxNotional"; "maxPosition"]) [].

Definition alert_schema : Schema := SObject (texts ["clientOrderId"; "check"; "detail"]) [].

Definition consistency_schema : Schema :=
  SEither
    (SObject [("status", SOneOf ["not_run_yet"])] [])
    (SObject [("ts", SString); ("status", SOneOf ["ok"]); ("ordersChecked", SCount);
              ("venueLookups", SCount); ("lookupFailures", SCount); ("alerts", SArray alert_schema);
              ("totalAlerts", SCount)] []).

(** The fields of GET /health that the document shows. *)
Definition health_fields : list (string * Schema) :=
  [("status", SOneOf ["ok"]); ("knownOrders", SCount); ("reportsApplied", SCount);
   ("reportsStale", SCount)].

(** The successes of the routes of the document: their status and the type of
    their body.  One field is served that the document lacks: reportsBuffered,
    which GET /health always carries. *)
Definition documented_schemas (r : Request) : option (list (Z * Schema)) :=
  match r with
  | PostOrders _ => Some [(201, place_schema (tail state_texts)); (202, place_schema ["pending"])]
  | GetOrders => Some [(200, SObject [("orders", SArray record_schema)] [])]
  | GetOrder _ => Some [(200, record_schema)]
  | DeleteOrder _ =>
      Some [(200, SObject (texts ["clientOrderId"; "exchangeOrderId"; "symbol"; "venue"]
                           ++ [("state", SOneOf state_texts)]) [])]
  | PutOrder _ _ =>
      Some [(200, SObject (texts ["clientOrderId"; "exchangeOrderId"; "symbol"; "price"; "quantity"]
                           ++ [("state", SOneOf state_texts)]) [])]
  | GetHealth => Some [(200, SObject (health_fields ++ [("reportsBuffered", SCount)]) [])]
  | GetPrice _ _ => Some [(200, SObject (texts ["symbol"; "venue"; "price"]) [])]
  | GetRisk =>
      Some [(200, SObject [("default", SEither SNull limits_schema); ("instruments", SMap limits_schema)] [])]
  | GetConsistency | PostDemoAdjust _ => None
  end.

(** The routes that are not in the document, with the types that the code
    gives their answers. *)
Definition undocumented_schemas (r : Request) : list (Z * Schema) :=
  match r with
  | GetConsistency => [(200, consistency_schema)]
  | PostDemoAdjust _ =>
      [(200, SObject [("venue", SOneOf ["okx"]); ("type", SOneOf ["increase"; "reduce"]);
                      ("adjustments", SArray (SObject (texts ["ccy"; "amt"]) [])); ("data", SAny)] [])]
  | _ => []
  end.

Definition success_schemas (r : Request) : list (Z * Schema) :=
  match documented_schemas r with Some schemas => schemas | None => undocumented_schemas r end.

(** The routes that never answer an error. *)
Definition infallible (r : Request) : bool :=
  match r with
  | GetOrders | GetHealth | GetRisk | GetConsistency => true
  | _ => false
  end.

(** A typed answer: a success of the route with its type, or the error
    envelope with a documented code under that code's status. *)
Definition typed (r : Request) (resp : Response) : bool :=
  existsb (fun s => (res_status resp =? s.1) && conforms s.2 (res_body resp)) (success_schemas r)
  || negb (infallible r) && conforms error_schema (res_body resp)
     && match jfind (res_body resp) "error" with
        | Some e => match jstring e "code" with
                    | Some c => res_status resp =? code_status c
                    | None => false
                    end
        | None => false
        end.

(** ** The answers of each kind *)

Lemma error_typed r status c reason id :
  infallible r = false -> documented_code c = true -> status = code_status c ->
  typed r (error_response status c reason id) = true.
Proof.
  intros Hr Hc ->. unfold typed. rewrite Hr. apply orb_true_iff. right. simpl.
  rewrite Hc. simpl. by rewrite Z.eqb_refl.
Qed.

Lemma map_error_typed r e id : infallible r = false -> typed r (map_error e id) = true.
Proof.
  intros Hr. unfold map_error. cbv zeta.
  destruct (code e ==s "invalid_request"); [by apply error_typed|].
  destruct (_ || _); [by apply error_typed|].
  destruct (code e ==s "order_terminal"); [by apply error_typed|].
  destruct (code e ==s "order_pending"); [by apply error_typed|].
  destruct (starts_with "risk_" (code e)) eqn:Hrisk.
  { apply error_typed; [done| |].
    - unfold documented_code. by rewrite Hrisk, orb_true_r.
    - unfold code_status. by rewrite Hrisk, orb_true_r. }
  destruct (code e ==s "venue_absent"); [by apply error_typed|].
  destruct (code e ==s "transport"); [by apply error_typed|].
  destruct (starts_with "venue:" (code e)); [by apply error_typed|].
  destruct (code e ==s "persistence"); by apply error_typed.
Qed.

(** What the validation of a request body answers. *)
Definition refusal (resp : Response) : Prop :=
  exists reason id, resp = error_response 400 "invalid_request" reason id.

Lemma refusal_typed r resp : infallible r = false -> refusal resp -> typed r resp = true.
Proof. intros Hr (reason & id & ->). by apply error_typed. Qed.

Ltac refusals := repeat case_match; intros; simplify_eq; try (by do 2 eexists).

Lemma parse_json_body_refuses parse body resp : parse_json_body parse body = inr resp -> refusal resp.
Proof. unfold parse_json_body. refusals. Qed.

Lemma place_venue_refuses supported body id resp : place_venue supported body id = inr resp -> refusal resp.
Proof. unfold place_venue. refusals. Qed.

Lemma place_tif_refuses body type id resp : place_time_in_force body type id = inr resp -> refusal resp.
Proof. unfold place_time_in_force. refusals. Qed.

Lemma place_amounts_refuses type price quantity id resp :
  place_amounts type price quantity id = Some resp -> refusal resp.
Proof. unfold place_amounts. refusals. Qed.

Lemma place_command_refuses supported body resp : place_command supported body = inr resp -> refusal resp.
Proof.
  unfold place_command. refusals.
  - by eapply place_amounts_refuses.
  - by eapply place_tif_refuses.
  - by eapply place_venue_refuses.
Qed.

Lemma amend_amount_refuses field value id resp : amend_amount field value id = Some resp -> refusal resp.
Proof. unfold amend_amount. refusals. Qed.

Lemma amend_command_refuses id body resp : amend_command id body = inr resp -> refusal resp.
Proof. unfold amend_command. refusals; by eapply amend_amount_refuses. Qed.

Lemma parse_adjustment_refuses i item resp : parse_adjustment i item = inr resp -> refusal resp.
Proof. unfold parse_adjustment. refusals. Qed.

Lemma parse_adjustments_refuses i items resp : parse_adjustments i items = inr resp -> refusal resp.
Proof.
  revert i. induction items as [|item items IH]; intros i; simpl; [done|].
  destruct (parse_adjustment i item) as [a|r0] eqn:Ha; [|intros; simplify_eq; by eapply parse_adjustment_refuses].
  destruct (parse_adjustments (i + 1) items) as [rest|r0] eqn:Hr; [done|]. intros. simplify_eq. by eapply IH.
Qed.

Lemma parse_adjustment_body_refuses body resp : parse_adjustment_body body = inr resp -> refusal resp.
Proof. unfold parse_adjustment_body. refusals. by eapply parse_adjustments_refuses. Qed.

(** ** The successes *)

Lemma record_conforms r : conforms record_schema (record_json r) = true.
Proof.
  unfold record_json. destruct (or_rejection r) as [e|], (or_side r), (or_type r), (or_state r); reflexivity.
Qed.

Lemma place_typed body o : typed (PostOrders body) (place_response o) = true.
Proof.
  unfold typed, place_response. apply orb_true_iff. left. by destruct (or_state (po_record o)).
Qed.

Lemma cancel_typed id r : typed (DeleteOrder id) (cancel_response r) = true.
Proof. unfold typed, cancel_response. apply orb_true_iff. left. by destruct (or_state r). Qed.

Lemma amend_typed id body r : typed (PutOrder id body) (amend_response r) = true.
Proof. unfold typed, amend_response. apply orb_true_iff. left. by destruct (or_state r). Qed.

Lemma forallb_map_true {A B} (f : A -> B) (p : B -> bool) l :
  (forall a, p (f a) = true) -> forallb p (map f l) = true.
Proof. intros H. induction l as [|a l IH]; [done|]. simpl. by rewrite H. Qed.

Lemma list_typed st : typed GetOrders (get_orders_route st) = true.
Proof.
  unfold typed, get_orders_route. apply orb_true_iff. left. simpl.
  by rewrite (forallb_map_true record_json _ _ record_conforms).
Qed.

Lemma order_typed id st : typed (GetOrder id) (get_order_route id st) = true.
Proof.
  unfold get_order_route. destruct (query id st) as [r|e]; [|by apply map_error_typed].
  unfold typed. apply orb_true_iff. left. cbn [existsb success_schemas documented_schemas undocumented_schemas res_status json_response fst snd res_body].
  by rewrite record_conforms.
Qed.

Lemma forallb_obj_set {V} (p : V -> bool) k v (l : list (string * V)) :
  p v = true -> forallb (fun kv => p kv.2) l = true -> forallb (fun kv => p kv.2) (obj_set k v l) = true.
Proof.
  intros Hv. induction l as [|[k' w] l IH]; simpl; [by rewrite Hv|].
  intros [Hw Hl]%andb_prop. destruct (k ==s k'); simpl; [by rewrite Hv|].
  destruct (String.ltb k k'); simpl; [by rewrite Hv, Hw|]. rewrite Hw. by apply IH.
Qed.

Lemma risk_typed {W} (cfg : OmsConfig W) : typed GetRisk (risk_route cfg) = true.
Proof.
  unfold typed, risk_route. apply orb_true_iff. left.
  set (blocks := foldr _ [] (map_to_list (instruments (OmsTypes.risk cfg)))).
  assert (H : forallb (fun kv => conforms limits_schema kv.2) blocks = true).
  { subst blocks. induction (map_to_list _) as [|[k l] rest IH]; [done|]. cbn [foldr].
    by apply (forallb_obj_set (conforms limits_schema)). }
  clearbody blocks. destruct (defaults (OmsTypes.risk cfg)) as [l|]; simpl in *; by rewrite H.
Qed.

Lemma health_typed st : typed GetHealth (health_route st) = true.
Proof. reflexivity. Qed.

Lemma snapshot_conforms ts report total :
  conforms consistency_schema (consistency_snapshot ts report total) = true.
Proof.
  unfold consistency_schema. cbn [conforms]. apply orb_true_iff. right.
  unfold consistency_snapshot. simpl.
  by rewrite (forallb_map_true (fun a => jobj (alert_fields a)) _ _ (fun _ => eq_refl)).
Qed.

(** ** Every answer *)

Section Answers.
Context {W : Type} (parse : string -> option json) (utc_now_iso_ms : W -> string * W).
(** The demo route of the configured OKX connector. *)
Context `{!OkxMarketClient W} (okx : option OkxConfig).

Definition demo_route : option (string -> W -> Response * W) :=
  (fun config => demo_adjust_route parse config) <$> okx.

Implicit Types p : (Process (W:=W)).

Lemma demo_typed config body w :
  typed (PostDemoAdjust body) (demo_adjust_route parse config body w).1 = true.
Proof.
  unfold demo_adjust_route. destruct (parse_json_body parse body) as [j|resp] eqn:Hj.
  2: { apply refusal_typed; [done|]. by eapply parse_json_body_refuses. }
  destruct (parse_adjustment_body j) as [rq|resp] eqn:Hrq.
  2: { apply refusal_typed; [done|]. by eapply parse_adjustment_body_refuses. }
  destruct (okx_connector_adjust_demo_balance config rq w) as [[value|e] w1]; [|by apply map_error_typed].
  assert (Ht : one_of ["increase"; "reduce"] (demo_type rq) = true).
  { unfold parse_adjustment_body in Hrq. cbv zeta in Hrq.
    destruct (str_empty _); [|done]. cbn [negb] in Hrq.
    destruct ((rest_string_field j "type" <>s "increase") && _) eqn:Hb; [done|].
    repeat case_match; simplify_eq. simpl. unfold one_of. simpl.
    by destruct (rest_string_field j "type" ==s "increase"), (rest_string_field j "type" ==s "reduce"). }
  unfold typed. apply orb_true_iff. left. unfold one_of in Ht. simpl in Ht |- *. rewrite Ht.
  by rewrite (forallb_map_true (fun a => jobj [("ccy", JString (adj_ccy a)); ("amt", JString (adj_amt a))])
                _ _ (fun _ => eq_refl)).
Qed.

Lemma post_typed (cfg : OmsConfig W) body st w :
  typed (PostOrders body) (post_orders_route parse cfg body st w).1.1 = true.
Proof.
  unfold post_orders_route. destruct (latency_now (latency st)) as [hit l].
  destruct (parse_json_body parse body) as [j|resp] eqn:Hj.
  2: { apply refusal_typed; [done|]. by eapply parse_json_body_refuses. }
  destruct (place_command (venues cfg) j) as [[rq venue]|resp] eqn:Hc.
  2: { apply refusal_typed; [done|]. by eapply place_command_refuses. }
  destruct (place cfg rq venue hit _ w) as [[[[o|e]|] st1] w1]; simpl;
    [apply place_typed|by apply map_error_typed|by apply error_typed].
Qed.

Lemma put_typed (cfg : OmsConfig W) id body st w :
  typed (PutOrder id body) (put_order_route parse cfg id body st w).1.1 = true.
Proof.
  unfold put_order_route. destruct (parse_json_body parse body) as [j|resp] eqn:Hj.
  2: { apply refusal_typed; [done|]. by eapply parse_json_body_refuses. }
  destruct (amend_command id j) as [cmd|resp] eqn:Hc.
  2: { apply refusal_typed; [done|]. by eapply amend_command_refuses. }
  destruct (amend cfg cmd st w) as [[[[r|e]|] st1] w1]; simpl;
    [apply amend_typed|by apply map_error_typed|by apply error_typed].
Qed.

Lemma delete_typed (cfg : OmsConfig W) id st w :
  typed (DeleteOrder id) (delete_order_route cfg id st w).1.1 = true.
Proof.
  unfold delete_order_route. destruct (cancel cfg id st w) as [[[r|e] st1] w1]; simpl;
    [apply cancel_typed|by apply map_error_typed].
Qed.

Lemma price_typed (cfg : OmsConfig W) symbol venue w :
  typed (GetPrice symbol venue) (price_route cfg symbol venue w).1 = true.
Proof.
  unfold price_route. destruct (oms_get_price cfg symbol _ w) as [[q|e] w1]; simpl;
    [done|by apply map_error_typed].
Qed.

(** What GET /consistency may serve. *)
Definition cache_typed p : Prop := conforms consistency_schema (cache_get (pr_cache p)) = true.

Lemma answer_typed r p (w : W) resp :
  cache_typed p -> (answer_request parse demo_route r p w).1.1 = Some resp -> typed r resp = true.
Proof.
  intros Hp. destruct r; cbn [answer_request].
  - pose proof (post_typed (pr_cfg p) body (pr_oms p) w) as H.
    destruct (post_orders_route _ _ _ _ _) as [[? ?] ?]. intros; by simplify_eq/=.
  - intros; simplify_eq/=. apply list_typed.
  - intros; simplify_eq/=. apply order_typed.
  - pose proof (delete_typed (pr_cfg p) id (pr_oms p) w) as H.
    destruct (delete_order_route _ _ _ _) as [[? ?] ?]. intros; by simplify_eq/=.
  - pose proof (put_typed (pr_cfg p) id body (pr_oms p) w) as H.
    destruct (put_order_route _ _ _ _ _ _) as [[? ?] ?]. intros; by simplify_eq/=.
  - intros; by simplify_eq/=.
  - pose proof (price_typed (pr_cfg p) symbol venue w) as H.
    destruct (price_route _ _ _ _) as [? ?]. intros; by simplify_eq/=.
  - intros; simplify_eq/=. apply risk_typed.
  - intros; simplify_eq/=. unfold typed. apply orb_true_iff. left.
    unfold consistency_route. cbn [existsb success_schemas documented_schemas undocumented_schemas res_status json_response fst snd res_body].
    rewrite Hp. done.
  - unfold demo_route. destruct okx as [config|]; simpl; [|done].
    pose proof (demo_typed config body w) as H.
    destruct (demo_adjust_route _ _ _ _) as [? ?]. intros; by simplify_eq/=.
Qed.

Lemma handle_cache_typed (e : Event W) p w :
  cache_typed p -> cache_typed (handle parse utc_now_iso_ms demo_route e p w).1.
Proof.
  intros Hp. assert (He : e = AuditDue \/ e <> AuditDue) by (destruct e; auto).
  destruct He as [->|Hne].
  - unfold cache_typed. cbn [handle]. destruct (run_audit_rest utc_now_iso_ms p w) as (_ & _ & _ & ts & ->).
    apply snapshot_conforms.
  - unfold cache_typed. by rewrite (proj1 (handle_keeps_cache parse utc_now_iso_ms demo_route e p w Hne)).
Qed.

(** The requests among the events, with their answers. *)
Fixpoint answers (es : list (Event W)) (p : Process) (w : W) : list (Request * Response) :=
  match es with
  | [] => []
  | e :: es =>
      let '(p', w') := handle parse utc_now_iso_ms demo_route e p w in
      match e with
      | Asked r =>
          match (answer_request parse demo_route r p w).1.1 with
          | Some resp => (r, resp) :: answers es p' w'
          | None => answers es p' w'
          end
      | _ => answers es p' w'
      end
  end.

Lemma answers_typed (es : list (Event W)) p w :
  cache_typed p -> Forall (fun a => typed a.1 a.2 = true) (answers es p w).
Proof.
  revert p w. induction es as [|e es IH]; intros p w Hp; cbn [answers]; [done|].
  pose proof (handle_cache_typed e p w Hp) as Hp1.
  destruct (handle _ _ _ e p w) as [p1 w1]. specialize (IH p1 w1 Hp1).
  destruct e as [r|r|up| |w2]; try done.
  destruct (answer_request _ _ r p w).1.1 as [resp|] eqn:Hr; [|done].
  constructor; [|done]. by apply (answer_typed r p w).
Qed.

Lemma go_live_cache_typed c p w : cache_typed p -> cache_typed (go_live utc_now_iso_ms c p w).1.
Proof.
  intros Hp. unfold go_live. destruct (reconcile_and_print_rest utc_now_iso_ms p w) as (_ & _ & Hc & _).
  destruct (reconcile_and_print _ p w) as [p1 w1].
  assert (H1 : cache_typed p1) by (unfold cache_typed; simpl in Hc; by rewrite Hc).
  destruct (0 <? audit_interval_ms c); [|done].
  pose proof (handle_cache_typed AuditDue p1 w1 H1) as H2. cbn [handle] in H2.
  by destruct (run_audit _ p1 w1).
Qed.

Context (make_okx : OkxConfig -> ExchangeConnector W) (make_binance : BinanceConfig -> ExchangeConnector W).

(** C16: Every REST answer has its type: from any start and after any events, what a route of
    doc/api.md answers is one of its successes with exactly the fields shown there, with their
    types and state texts, under its status (the record with a rejection where one is recorded,
    GET /health with the undocumented reportsBuffered besides), or the error envelope with a
    code of the document's table, risk_* included, under that code's status; GET /consistency
    and the demo adjustment, which the document does not have, answer with the fields the code
    gives them or that envelope; the list, health, risk and consistency routes never answer an
    error. *)
Theorem answers_have_their_types c d w p err file w1 es :
  start_gateway make_okx make_binance utc_now_iso_ms parse c d w = (Serves p err, file, w1) ->
  Forall (fun a => typed a.1 a.2 = true) (answers es p w1).
Proof.
  intros Hs. apply answers_typed. unfold start_gateway in Hs.
  destruct (configured_venues _ _ c); [done|]. destruct (default_venue_of c _).
  destruct (load_from_log _ _ _ _ _) as [[[recovered|e] file0] st]; [|done].
  match type of Hs with context [go_live ?u c ?q w] =>
    pose proof (go_live_cache_typed c q w eq_refl) as H; destruct (go_live u c q w) end.
  by simplify_eq.
Qed.
End Answers.

(** ** A concrete conversation *)

Definition typed_parse (text : string) : option json :=
  if text ==s "order" then Some (jobj [("clientOrderId", JString "a1"); ("symbol", JString "BTC-USDT");
        ("side", JString "BUY"); ("type", JString "limit"); ("price", JString "50000");
        ("quantity", JString "0.1")])
  else demo_parse text.

Definition typed_start : MainEnd (W:=unit) * LogFile * unit :=
  start_gateway demo_make demo_make demo_clock typed_parse demo_config demo_disk tt.
Definition typed_process : Process :=
  match typed_start.1.1 with Serves p _ => p | Exits _ _ => demo_process end.
Definition typed_warnings : list string :=
  match typed_start.1.1 with Serves _ err => err | Exits _ err => err end.

#[export] Instance silent_client : OkxMarketClient unit := {|
  cl_pending w := (Err (mkError "transport" ""), w);
  cl_ticker _ w := (Err (mkError "transport" ""), w);
  cl_demo _ w := (Err (mkError "transport" ""), w) |}.

Definition conversation : list Request :=
  [PostOrders "order"; PostOrders "nonsense"; GetOrder "a1"; GetOrder "zz"; DeleteOrder "a1"; GetOrders;
   GetHealth; GetConsistency; GetRisk; GetPrice "BTC-USDT" None].

(** The statuses of the conversation. *)
Example conversation_statuses :
  map (fun a => res_status a.2)
    (answers typed_parse demo_clock None (map Asked conversation) typed_process tt)
  = [201; 400; 200; 404; 200; 200; 200; 200; 200; 200].
Proof. vm_compute. reflexivity. Qed.

Lemma answers_have_their_types_witness :
  Forall (fun a => typed a.1 a.2 = true)
    (answers typed_parse demo_clock None (map Asked conversation) typed_process tt).
Proof.
  apply (answers_have_their_types typed_parse demo_clock None demo_make demo_make demo_config
           demo_disk tt typed_process typed_warnings (dk_log demo_disk) tt).
  vm_compute. reflexivity.
Defined.
